(** * File service: access control, directory tree and quota

    A shallow embedding of the storage service of the repository
    ([Dateiverwaltungsdienst/app_file/models.py] and [views.py]).

    - The relational database is a record of tables, each table a list of
      rows; a foreign key is the primary key of the row it points to.
    - A request handler is a computation over the [World]: the database, the
      clock read by [time.time()] and the outputs of the random generator
      that [save] draws primary keys from.
    - A Python exception is a value of [exn]; a handler that raises leaves
      the world as it was at the raise, except inside [atomic], which
      restores the database.
    - The recursion of [Directory.can_access] through [parent] and the loop
      of [_verify_movable] are bounded by a fuel argument; running out of
      fuel is the outcome [Timeout] (in a handler, [Diverge]), never a
      result. *)

From Stdlib Require Import ZArith List String Ascii Bool Lia.
From Stdlib Require Import Strings.Byte.
Import ListNotations.

Local Open Scope string_scope.
Local Open Scope Z_scope.

(** ** Python values and exceptions *)

(** The exceptions the views raise or let through.  [ObjectDoesNotExist] is
    Django's; [OtherException] stands for any exception that only the final
    [except Exception] clause of [AbstractView.handle] catches. *)
Inductive exn : Type :=
| ErrorBadRequest (msg : string)
| ErrorUnauthorized
| ErrorAccessDenied
| ErrorNotFound
| ErrorTransferralRejected
| ErrorDuplicateName
| ErrorCyclicDirectoryTree
| ErrorUnmovableDirectory
| ErrorDirectoryNotEmpty
| ErrorInvalidShareSubject
| ErrorInvalidContact
| ErrorQuotaExceeded
| ObjectDoesNotExist
| OtherException.

(** The result of a computation that only reads the database. *)
Inductive res (A : Type) : Type :=
| Val (a : A)
| Exc (e : exn)
| Timeout.

Arguments Val {A} a.
Arguments Exc {A} e.
Arguments Timeout {A}.

Definition res_bind {A B : Type} (r : res A) (k : A -> res B) : res B :=
  match r with
  | Val a => k a
  | Exc e => Exc e
  | Timeout => Timeout
  end.

(** [len(b)] of a byte string. *)
Definition len (b : list byte) : Z := Z.of_nat (List.length b).

(** A computation over a world [W] that may raise.  [Raise e w] keeps the
    world reached when [e] was raised; [Diverge] is a computation that ran
    out of fuel or of random draws. *)
Inductive outcome (W A : Type) : Type :=
| Return (a : A) (w : W)
| Raise (e : exn) (w : W)
| Diverge.

Arguments Return {W A} a w.
Arguments Raise {W A} e w.
Arguments Diverge {W A}.

Definition M (W A : Type) : Type := W -> outcome W A.

Definition ret {W A : Type} (a : A) : M W A := fun w => Return a w.

Definition raise {W A : Type} (e : exn) : M W A := fun w => Raise e w.

Definition bind {W A B : Type} (m : M W A) (k : A -> M W B) : M W B :=
  fun w =>
    match m w with
    | Return a w' => k a w'
    | Raise e w' => Raise e w'
    | Diverge => Diverge
    end.

Declare Scope py_scope.
Delimit Scope py_scope with py.

Notation "x <- m ;; k" := (bind m (fun x => k))
  (at level 100, m at next level, right associativity) : py_scope.
Notation "m ;;; k" := (bind m (fun _ => k))
  (at level 100, right associativity) : py_scope.

(** [if c: raise e]. *)
Definition raise_if {W : Type} (c : bool) (e : exn) : M W unit :=
  if c then raise e else ret tt.

(** Lookup in a dictionary given as an association list. *)
Fixpoint dict_get {V : Type} (key : string) (d : list (string * V)) : option V :=
  match d with
  | [] => None
  | (k, v) :: rest => if String.eqb k key then Some v else dict_get key rest
  end.

(** ** models.py *)

Module Models.

(** Row of table "StorageUser".  The many-to-many field [contacts] is the
    join table [StorageUser_contacts] of the database below. *)
Record StorageUser : Type := mkStorageUser {
  user_id : Z;
  display_name : string
}.

(** Row of table "Directory"; [dir_owner] and [dir_parent] hold the foreign
    keys [owner_id] and [parent_id] ([parent] is nullable). *)
Record Directory : Type := mkDirectory {
  dir_id : Z;
  dir_name : string;
  dir_owner : Z;
  dir_parent : option Z
}.

(** Row of table "File". *)
Record File : Type := mkFile {
  file_id : Z;
  file_name : string;
  file_owner : Z;
  file_parent_directory : Z;
  file_data : list byte
}.

(** Row of table "Share"; both targets are nullable foreign keys. *)
Record Share : Type := mkShare {
  share_id : Z;
  share_issuer : Z;
  share_subject : Z;
  share_target_file : option Z;
  share_target_directory : option Z;
  share_can_write : bool
}.

(** The database.  A row [(a, b)] of [StorageUser_contacts] says that [b] is
    in [a.contacts]: the field is declared on the model's name, not on
    ["self"], so Django keeps it directed. *)
Record DB : Type := mkDB {
  StorageUser_table : list StorageUser;
  StorageUser_contacts : list (Z * Z);
  Directory_table : list Directory;
  File_table : list File;
  Share_table : list Share
}.

(** [Model.objects.get(id=...)]: [None] is [ObjectDoesNotExist]. *)
Definition StorageUser_get (db : DB) (id : Z) : option StorageUser :=
  find (fun u => user_id u =? id) (StorageUser_table db).

Definition Directory_get (db : DB) (id : Z) : option Directory :=
  find (fun d => dir_id d =? id) (Directory_table db).

Definition File_get (db : DB) (id : Z) : option File :=
  find (fun f => file_id f =? id) (File_table db).

Definition Share_get (db : DB) (id : Z) : option Share :=
  find (fun s => share_id s =? id) (Share_table db).

(** The reverse relations of the foreign keys. *)
Definition opt_is (o : option Z) (id : Z) : bool :=
  match o with
  | Some x => x =? id
  | None => false
  end.

Definition Directory_share_set (db : DB) (self : Directory) : list Share :=
  filter (fun s => opt_is (share_target_directory s) (dir_id self)) (Share_table db).

Definition File_share_set (db : DB) (self : File) : list Share :=
  filter (fun s => opt_is (share_target_file s) (file_id self)) (Share_table db).

Definition Directory_file_set (db : DB) (self : Directory) : list File :=
  filter (fun f => file_parent_directory f =? dir_id self) (File_table db).

Definition Directory_directory_set (db : DB) (self : Directory) : list Directory :=
  filter (fun d => opt_is (dir_parent d) (dir_id self)) (Directory_table db).

(** [.filter(subject=user_id)] on a set of shares. *)
Definition filter_subject (user_id : Z) (shares : list Share) : list Share :=
  filter (fun s => share_subject s =? user_id) shares.

(** [StorageUser.can_access]. *)
Definition StorageUser_can_access (self : StorageUser) (user_id : Z) (is_write : bool) : bool :=
  negb is_write && (user_id =? Models.user_id self).

(** The loop over the matching shares that [Directory.can_access] and
    [File.can_access] have in common: [Some true] when the loop returns
    [True], [None] when it runs to its end. *)
Fixpoint share_loop (shares : list Share) (is_write : bool) : option bool :=
  match shares with
  | [] => None
  | share :: rest =>
      if share_can_write share then Some true
      else if negb is_write then Some true
      else share_loop rest is_write
  end.

(** [Directory.can_access]; [fuel] bounds the number of nested calls, the
    first included. *)
Fixpoint Directory_can_access (fuel : nat) (db : DB) (self : Directory)
    (user_id : Z) (is_write : bool) : res bool :=
  match fuel with
  | O => Timeout
  | S fuel' =>
      if dir_owner self =? user_id then Val true
      else
        match share_loop (filter_subject user_id (Directory_share_set db self)) is_write with
        | Some r => Val r
        | None =>
            match dir_parent self with
            | Some pid =>
                match Directory_get db pid with
                | Some parent => Directory_can_access fuel' db parent user_id is_write
                | None => Exc ObjectDoesNotExist
                end
            | None => Val false
            end
        end
  end.

(** [File.can_access]. *)
Definition File_can_access (fuel : nat) (db : DB) (self : File)
    (user_id : Z) (is_write : bool) : res bool :=
  if file_owner self =? user_id then Val true
  else
    match share_loop (filter_subject user_id (File_share_set db self)) is_write with
    | Some r => Val r
    | None =>
        match Directory_get db (file_parent_directory self) with
        | Some parent => Directory_can_access fuel db parent user_id is_write
        | None => Exc ObjectDoesNotExist
        end
    end.

(** [Share.can_access]. *)
Definition Share_can_access (self : Share) (user_id : Z) (is_write : bool) : bool :=
  if share_issuer self =? user_id then true
  else if negb is_write && (share_subject self =? user_id) then true
  else false.

(** The objects [_verify_can_access] is called on, and the dispatch of
    [obj.can_access]. *)
Inductive Entity : Type :=
| EUser (u : StorageUser)
| EFile (f : File)
| EDirectory (d : Directory)
| EShare (s : Share).

Definition can_access (fuel : nat) (db : DB) (obj : Entity) (user_id : Z) (is_write : bool) : res bool :=
  match obj with
  | EUser u => Val (StorageUser_can_access u user_id is_write)
  | EFile f => File_can_access fuel db f user_id is_write
  | EDirectory d => Directory_can_access fuel db d user_id is_write
  | EShare s => Val (Share_can_access s user_id is_write)
  end.

(** *** The world of a request, and the managers *)

Record World : Type := mkWorld {
  database : DB;
  clock : Z;          (* what [int(time.time())] returns *)
  random : list Z     (* the coming results of [RNG.randint(1, 9007199254740992)] *)
}.

Definition lift_db {A : Type} (q : DB -> res A) : M World A :=
  fun w =>
    match q (database w) with
    | Val a => Return a w
    | Exc e => Raise e w
    | Timeout => Diverge
    end.

Definition get_db : M World DB := fun w => Return (database w) w.

Definition modify_db (f : DB -> DB) : M World unit :=
  fun w => Return tt (mkWorld (f (database w)) (clock w) (random w)).

(** [int(time.time())]. *)
Definition time_time : M World Z := fun w => Return (clock w) w.

(** [Model.objects.get(...)] on the result of a lookup. *)
Definition get_or_raise {A : Type} (o : option A) : M World A :=
  match o with
  | Some a => ret a
  | None => raise ObjectDoesNotExist
  end.

(** [with transaction.atomic(): m]: an exception leaving the block restores
    the database of its start; clock and generator are not transactional. *)
Definition atomic {A : Type} (m : M World A) : M World A :=
  fun w =>
    match m w with
    | Return a w' => Return a w'
    | Raise e w' => Raise e (mkWorld (database w) (clock w') (random w'))
    | Diverge => Diverge
    end.

(** The loop of the [save] methods,
    [while not self.id: rnd_id = _create_random_id(); if not exists: self.id = rnd_id],
    over the coming draws: the first draw that is no primary key of the
    table (and is truthy) becomes the id.  An object without id has id [0]
    here, which [not self.id] treats like [None]. *)
Fixpoint fresh_id (taken : Z -> bool) (draws : list Z) : option (Z * list Z) :=
  match draws with
  | [] => None
  | rnd_id :: rest =>
      if negb (taken rnd_id) && negb (rnd_id =? 0) then Some (rnd_id, rest)
      else fresh_id taken rest
  end.

Definition assign_id (current : Z) (taken : DB -> Z -> bool) : M World Z :=
  fun w =>
    if negb (current =? 0) then Return current w
    else
      match fresh_id (taken (database w)) (random w) with
      | Some (id, rest) => Return id (mkWorld (database w) (clock w) rest)
      | None => Diverge
      end.

(** [super().save()] of a row with a primary key: update the row that has
    it, insert when there is none. *)
Definition upsert {R : Type} (pk : R -> Z) (row : R) (table : list R) : list R :=
  if existsb (fun r => pk r =? pk row) table
  then map (fun r => if pk r =? pk row then row else r) table
  else table ++ [row].

Definition Directory_exists (db : DB) (pk : Z) : bool :=
  existsb (fun d => dir_id d =? pk) (Directory_table db).

Definition File_exists (db : DB) (pk : Z) : bool :=
  existsb (fun f => file_id f =? pk) (File_table db).

Definition Share_exists (db : DB) (pk : Z) : bool :=
  existsb (fun s => share_id s =? pk) (Share_table db).

Definition with_users (db : DB) (t : list StorageUser) : DB :=
  mkDB t (StorageUser_contacts db) (Directory_table db) (File_table db) (Share_table db).

Definition with_contacts (db : DB) (t : list (Z * Z)) : DB :=
  mkDB (StorageUser_table db) t (Directory_table db) (File_table db) (Share_table db).

Definition with_directories (db : DB) (t : list Directory) : DB :=
  mkDB (StorageUser_table db) (StorageUser_contacts db) t (File_table db) (Share_table db).

Definition with_files (db : DB) (t : list File) : DB :=
  mkDB (StorageUser_table db) (StorageUser_contacts db) (Directory_table db) t (Share_table db).

Definition with_shares (db : DB) (t : list Share) : DB :=
  mkDB (StorageUser_table db) (StorageUser_contacts db) (Directory_table db) (File_table db) t.

(** [StorageUser.save] (the model does not override it). *)
Definition StorageUser_save (self : StorageUser) : M World StorageUser :=
  (modify_db (fun db => with_users db (upsert user_id self (StorageUser_table db))) ;;;
   ret self)%py.

(** [Directory.save]. *)
Definition Directory_save (self : Directory) : M World Directory :=
  (id <- assign_id (dir_id self) Directory_exists ;;
   let self' := mkDirectory id (dir_name self) (dir_owner self) (dir_parent self) in
   modify_db (fun db => with_directories db (upsert dir_id self' (Directory_table db))) ;;;
   ret self')%py.

(** [File.save]. *)
Definition File_save (self : File) : M World File :=
  (id <- assign_id (file_id self) File_exists ;;
   let self' := mkFile id (file_name self) (file_owner self)
                       (file_parent_directory self) (file_data self) in
   modify_db (fun db => with_files db (upsert file_id self' (File_table db))) ;;;
   ret self')%py.

(** [Share.save]. *)
Definition Share_save (self : Share) : M World Share :=
  (id <- assign_id (share_id self) Share_exists ;;
   let self' := mkShare id (share_issuer self) (share_subject self)
                        (share_target_file self) (share_target_directory self)
                        (share_can_write self) in
   modify_db (fun db => with_shares db (upsert share_id self' (Share_table db))) ;;;
   ret self')%py.

(** [Model.objects.create(...)]: [save] of an object that has no id yet.
    [StorageUser.objects.create] is given its id. *)
Definition StorageUser_objects_create (id : Z) (display_name : string) : M World StorageUser :=
  StorageUser_save (mkStorageUser id display_name).

Definition Directory_objects_create (name : string) (owner : Z) (parent : option Z) : M World Directory :=
  Directory_save (mkDirectory 0 name owner parent).

Definition File_objects_create (name : string) (owner parent_directory : Z) (data : list byte) : M World File :=
  File_save (mkFile 0 name owner parent_directory data).

Definition Share_objects_create (issuer subject : Z) (target_file target_directory : option Z)
    (can_write : bool) : M World Share :=
  Share_save (mkShare 0 issuer subject target_file target_directory can_write).

(** [file_obj.delete()]: the row goes, and with it ([on_delete=CASCADE]) the
    shares that target it. *)
Definition File_delete (self : File) : M World unit :=
  modify_db (fun db =>
    mkDB (StorageUser_table db) (StorageUser_contacts db) (Directory_table db)
         (filter (fun f => negb (file_id f =? file_id self)) (File_table db))
         (filter (fun s => negb (opt_is (share_target_file s) (file_id self))) (Share_table db))).

(** [user.contacts.get(id=contact_id)], [user.contacts.all()],
    [user.contacts.add(contact)] and [user.contacts.remove(contact_id)]. *)
Definition contacts_all (db : DB) (user : StorageUser) : list StorageUser :=
  filter (fun c => existsb (fun r => (fst r =? user_id user) && (snd r =? user_id c))
                           (StorageUser_contacts db))
         (StorageUser_table db).

Definition contacts_get (db : DB) (user : StorageUser) (id : Z) : option StorageUser :=
  find (fun c => user_id c =? id) (contacts_all db user).

Definition contacts_add (user contact : StorageUser) : M World unit :=
  modify_db (fun db =>
    if existsb (fun r => (fst r =? user_id user) && (snd r =? user_id contact))
               (StorageUser_contacts db)
    then db
    else with_contacts db (StorageUser_contacts db ++ [(user_id user, user_id contact)])).

Definition contacts_remove (user : StorageUser) (contact_id : Z) : M World unit :=
  modify_db (fun db =>
    with_contacts db
      (filter (fun r => negb ((fst r =? user_id user) && (snd r =? contact_id)))
              (StorageUser_contacts db))).

(** [share.delete()]. *)
Definition Share_delete (self : Share) : M World unit :=
  modify_db (fun db =>
    with_shares db (filter (fun s => negb (share_id s =? share_id self)) (Share_table db))).

(** [directory.delete()].  [Directory.parent] and [File.parent_directory]
    are declared [on_delete=RESTRICT]: while a directory or a file lies in
    the directory the deletion raises [RestrictedError] and changes
    nothing.  Otherwise the row goes, and with it ([on_delete=CASCADE]) the
    shares that target it. *)
Definition Directory_delete (self : Directory) : M World unit :=
  fun w =>
    if (0 <? List.length (Directory_file_set (database w) self))%nat
       || (0 <? List.length (Directory_directory_set (database w) self))%nat
    then Raise OtherException w
    else
      modify_db (fun db =>
        mkDB (StorageUser_table db) (StorageUser_contacts db)
             (filter (fun d => negb (dir_id d =? dir_id self)) (Directory_table db))
             (File_table db)
             (filter (fun s => negb (opt_is (share_target_directory s) (dir_id self)))
                     (Share_table db))) w.

(** [user.delete()].  The foreign keys [owner], [issuer] and [subject] and
    the two of the join table of [contacts] are [on_delete=CASCADE]: the
    user's directories and files go, the shares the user issued or received
    and those that target one of these directories or files, and the
    contact relations on either side.  A directory or file of another owner
    that lies in one of the deleted directories is held by
    [on_delete=RESTRICT]: the deletion then raises [RestrictedError] and
    changes nothing. *)
Definition owned_directory_ids (db : DB) (user : StorageUser) : list Z :=
  map dir_id (filter (fun d => dir_owner d =? user_id user) (Directory_table db)).

Definition owned_file_ids (db : DB) (user : StorageUser) : list Z :=
  map file_id (filter (fun f => file_owner f =? user_id user) (File_table db)).

Definition mem (id : Z) (ids : list Z) : bool := existsb (Z.eqb id) ids.

Definition opt_mem (o : option Z) (ids : list Z) : bool :=
  match o with
  | Some id => mem id ids
  | None => false
  end.

Definition StorageUser_delete (self : StorageUser) : M World unit :=
  fun w =>
    let db := database w in
    let dirs := owned_directory_ids db self in
    let files := owned_file_ids db self in
    if existsb (fun d => negb (dir_owner d =? user_id self) && opt_mem (dir_parent d) dirs)
               (Directory_table db)
       || existsb (fun f => negb (file_owner f =? user_id self)
                            && mem (file_parent_directory f) dirs)
                  (File_table db)
    then Raise OtherException w
    else
      modify_db (fun db =>
        mkDB (filter (fun u => negb (user_id u =? user_id self)) (StorageUser_table db))
             (filter (fun r => negb ((fst r =? user_id self) || (snd r =? user_id self)))
                     (StorageUser_contacts db))
             (filter (fun d => negb (dir_owner d =? user_id self)) (Directory_table db))
             (filter (fun f => negb (file_owner f =? user_id self)) (File_table db))
             (filter (fun s => negb ((share_issuer s =? user_id self)
                                     || (share_subject s =? user_id self)
                                     || opt_mem (share_target_directory s) dirs
                                     || opt_mem (share_target_file s) files))
                     (Share_table db))) w.

(** [_delete_user], the callback of the user-deletion message. *)
Definition _delete_user (user_id : Z) : M World unit :=
  (db <- get_db ;;
   match StorageUser_get db user_id with
   | None => ret tt
   | Some user => StorageUser_delete user
   end)%py.

End Models.

(** ** views.py *)

Module Views.
Import Models.

Definition LIMIT_SINGLE_FILE_SIZE : Z := 128 * 1024 * 1024.
Definition LIMIT_USER_TOTAL_SIZE : Z := 1024 * 1024 * 1024.

(** [DATA_UPLOAD_MAX_MEMORY_SIZE] of the settings of the service. *)
Definition DATA_UPLOAD_MAX_MEMORY_SIZE : Z := 128 * 1024 * 1024.

Definition STATUS_OK : string * Z := ("ok", 200).
Definition STATUS_CREATED : string * Z := ("ok", 201).
Definition STATUS_BAD_REQUEST : string * Z := ("malformed_request", 400).
Definition STATUS_UNAUTHORIZED : string * Z := ("unauthorized", 401).
Definition STATUS_NOT_FOUND : string * Z := ("not_found", 404).
Definition STATUS_PERMISSION_DENIED : string * Z := ("permission_denied", 403).
Definition STATUS_DUPLICATE_NAME : string * Z := ("duplicate_name", 409).
Definition STATUS_TRANSFERRAL_REJECTED : string * Z := ("transferral_rejected", 422).
Definition STATUS_CYCLIC_DIRECTORY_TREE : string * Z := ("cycle_detected", 409).
Definition STATUS_UNMOVABLE_DIRECTORY : string * Z := ("unmovable_directory", 422).
Definition STATUS_DIRECTORY_NOT_EMPTY : string * Z := ("not_empty", 422).
Definition STATUS_INVALID_SHARE_SUBJECT : string * Z := ("invalid_subject", 422).
Definition STATUS_INVALID_CONTACT : string * Z := ("invalid_contact", 422).
Definition STATUS_QUOTA_EXCEEDED : string * Z := ("quota_exceeded", 413).
Definition STAUTS_INTERNAL_ERROR : string * Z := ("internal_error", 500).

Definition AUTHORIZATION_HEADER_NAME : string := "Authorization".

Definition CLAIM_USER_ID : string := "user_id".
Definition CLAIM_USER_NAME : string := "user_name".
Definition CLAIM_ISSUED_AT : string := "iat".
Definition CLAIM_EXPIRES_AT : string := "exp".
Definition CLAIM_TOKEN_TYPE : string := "token_type".

Definition ACCESS_TOKEN_TYPE : string := "access".

(** The request, as far as the views read it.  [GET] is the query
    dictionary: a key is bound to the value that [query_dict[name]] gives.
    [body] is the content that the request carries, of the length that
    the request declares; a view reads it through [request_body]. *)
Record HttpRequest : Type := mkHttpRequest {
  method : string;
  headers : list (string * string);
  GET : list (string * string);
  body : list byte
}.

(** What a successful handler hands to [_response_for_json] or
    [_response_for_binary] next to the status.  The serializers of the
    service are applied to these objects. *)
Inductive Content : Type :=
| NoContent
| BinaryContent (data : list byte)
| FileContent (f : File)
| DirectoryContent (d : Directory)
| ShareContent (s : Share)
| UserContent (u : StorageUser)
| MessageContent (message : string).

Record Response : Type := mkResponse {
  status : string * Z;
  content : Content
}.

(** The values of a decoded token's claims, by their Python type. *)
Inductive PyValue : Type :=
| PyInt (z : Z)
| PyStr (s : string)
| PyBool (b : bool)
| PyOther.

Inductive PyType : Type := py_int | py_str.

(** [expected_type != type(v)]; the type of [True] is [bool], not [int]. *)
Definition type_differs (expected_type : PyType) (v : PyValue) : bool :=
  match expected_type, v with
  | py_int, PyInt _ => false
  | py_str, PyStr _ => false
  | _, _ => true
  end.

Definition dquote : string := String (ascii_of_nat 34) EmptyString.

(** [regex.match(token)] and [regex.sub] for [^Bearer ([^ ]+)$]: the part
    after the prefix, when it is not empty and holds no space. *)
Fixpoint has_space (s : string) : bool :=
  match s with
  | EmptyString => false
  | String c rest => Ascii.eqb c " "%char || has_space rest
  end.

Definition match_bearer (token : string) : option string :=
  let prefix := "Bearer " in
  if String.prefix prefix token then
    let rest := substring (String.length prefix) (String.length token - String.length prefix) token in
    if (String.length rest =? 0)%nat || has_space rest then None else Some rest
  else None.

(** The instance of [Union[File, Directory]] that [_verify_same_owner] and
    [_verify_unique_names] read: [e.owner], [e.name] and the equality of
    model instances (same model, same primary key). *)
Definition attr_owner (e : Entity) : option Z :=
  match e with
  | EFile f => Some (file_owner f)
  | EDirectory d => Some (dir_owner d)
  | _ => None
  end.

Definition attr_name (e : Entity) : option string :=
  match e with
  | EFile f => Some (file_name f)
  | EDirectory d => Some (dir_name d)
  | _ => None
  end.

Definition model_eqb (a b : Entity) : bool :=
  match a, b with
  | EUser x, EUser y => user_id x =? user_id y
  | EFile x, EFile y => file_id x =? file_id y
  | EDirectory x, EDirectory y => dir_id x =? dir_id y
  | EShare x, EShare y => share_id x =? share_id y
  | _, _ => false
  end.

Section Service.

(** Python's [int] on a string; [None] is its [ValueError]. *)
Variable int : string -> option Z.

(** The signature check and the parsing of
    [jwt.decode(token, VERIFYING_KEY, ALGORITHM)]: the claims of a token
    that the authority has signed; [None] is any exception they raise. *)
Variable jwt_decode : string -> option (list (string * PyValue)).

(** [jwt.decode(token, VERIFYING_KEY, ALGORITHM)] at the time [now].  After
    the signature check and the parsing the library validates, by default,
    the registered claim [exp] against the clock: a token whose expiry time
    is not later than [now] raises [ExpiredSignatureError].  (An [exp] that
    is no integer is left to the type check of the view, which refuses it
    with the same error as the library would.) *)
Definition jwt_decode_at (now : Z) (token : string) : option (list (string * PyValue)) :=
  match jwt_decode token with
  | Some claims =>
      match dict_get CLAIM_EXPIRES_AT claims with
      | Some (PyInt exp) => if exp <=? now then None else Some claims
      | _ => Some claims
      end
  | None => None
  end.

(** [request.body]: Django reads the content on the first access and
    raises [RequestDataTooBig] when the declared length exceeds
    [DATA_UPLOAD_MAX_MEMORY_SIZE]; [handle] answers that exception, like
    any it does not name, with [internal_error]. *)
Definition request_body (req : HttpRequest) : M World (list byte) :=
  if len (body req) >? DATA_UPLOAD_MAX_MEMORY_SIZE then raise OtherException
  else ret (body req).

(** The bound on the depth of [can_access] and on the iterations of the
    loop of [_verify_movable]. *)
Variable fuel : nat.

(** The converter [str]. *)
Definition str (x : string) : option string := Some x.

Definition _get_converter_for_enum (accepted_values : list string) : string -> option string :=
  fun x => if existsb (String.eqb x) accepted_values then Some x else None.

(** [_get_kwarg]; every call of the views leaves [required=True]. *)
Definition _get_kwarg {A : Type} (kwargs : list (string * string)) (name : string)
    (converter : string -> option A) : M World A :=
  match dict_get name kwargs with
  | Some v =>
      match converter v with
      | Some a => ret a
      | None => raise (ErrorBadRequest ("Malformed value for " ++ dquote ++ name ++ dquote))
      end
  | None => raise (ErrorBadRequest ("Missing value for " ++ dquote ++ name ++ dquote))
  end.

Fixpoint _verify_kwargs (kwargs : list (string * string)) (valid_names : list string) : M World unit :=
  match kwargs with
  | [] => ret tt
  | (name, _) :: rest =>
      if negb (existsb (String.eqb name) valid_names)
      then raise (ErrorBadRequest ("Cannot have value for " ++ dquote ++ name ++ dquote))
      else _verify_kwargs rest valid_names
  end.

(** [_get_query_param] with [required=True] ... *)
Definition _get_query_param {A : Type} (req : HttpRequest) (name : string)
    (converter : string -> option A) : M World A :=
  match dict_get name (GET req) with
  | Some v =>
      match converter v with
      | Some a => ret a
      | None => raise (ErrorBadRequest ("Malformed value for query parameter " ++ dquote ++ name ++ dquote))
      end
  | None => raise (ErrorBadRequest ("Missing required query parameter " ++ dquote ++ name ++ dquote))
  end.

(** ... and with [required=False] and the default [None]. *)
Definition _get_query_param_optional {A : Type} (req : HttpRequest) (name : string)
    (converter : string -> option A) : M World (option A) :=
  match dict_get name (GET req) with
  | Some v =>
      match converter v with
      | Some a => ret (Some a)
      | None => raise (ErrorBadRequest ("Malformed value for query parameter " ++ dquote ++ name ++ dquote))
      end
  | None => ret None
  end.

(** [_get_query_param(request, name, required=False,
    converter=_get_converter_for_enum([empty string])) == empty string]. *)
Definition flag_param (req : HttpRequest) (name : string) : M World bool :=
  (v <- _get_query_param_optional req name (_get_converter_for_enum [EmptyString]) ;;
   ret match v with
       | Some x => String.eqb x EmptyString
       | None => false
       end)%py.

Definition StorageUser_objects_get (id : Z) : M World StorageUser :=
  (db <- get_db ;; get_or_raise (StorageUser_get db id))%py.

Definition Directory_objects_get (id : Z) : M World Directory :=
  (db <- get_db ;; get_or_raise (Directory_get db id))%py.

Definition File_objects_get (id : Z) : M World File :=
  (db <- get_db ;; get_or_raise (File_get db id))%py.

(** The loop of [_verify_authenticated] over the required claims: [true]
    when it raises. *)
Fixpoint claims_invalid (token : list (string * PyValue)) (required : list (string * PyType)) : bool :=
  match required with
  | [] => false
  | (key, expected_type) :: rest =>
      match dict_get key token with
      | None => true
      | Some v => if type_differs expected_type v then true else claims_invalid token rest
      end
  end.

Definition required_claims : list (string * PyType) :=
  [(CLAIM_USER_ID, py_int); (CLAIM_USER_NAME, py_str); (CLAIM_ISSUED_AT, py_int);
   (CLAIM_EXPIRES_AT, py_int); (CLAIM_TOKEN_TYPE, py_str)].

(** [token[key]] where the loop above has checked the type; the other
    cases are Python's [KeyError] and [TypeError]. *)
Definition claim_int (token : list (string * PyValue)) (key : string) : M World Z :=
  match dict_get key token with
  | Some (PyInt z) => ret z
  | _ => raise OtherException
  end.

Definition claim_str (token : list (string * PyValue)) (key : string) : M World string :=
  match dict_get key token with
  | Some (PyStr x) => ret x
  | _ => raise OtherException
  end.

(** [_verify_authenticated].  The handler of [DatabaseError] around the
    atomic block serves a concurrent creation of the same user and has no
    run in this sequential model. *)
Definition _verify_authenticated (req : HttpRequest) (user_id : Z)
    : M World (StorageUser * list (string * PyValue)) :=
  match dict_get AUTHORIZATION_HEADER_NAME (headers req) with
  | None => raise ErrorUnauthorized
  | Some token =>
      match match_bearer token with
      | None => raise ErrorUnauthorized
      | Some token =>
          (library_now <- time_time ;;
           match jwt_decode_at library_now token with
           | None => raise ErrorUnauthorized
           | Some token =>
               raise_if (claims_invalid token required_claims) ErrorUnauthorized ;;;
               claimed_user_id <- claim_int token CLAIM_USER_ID ;;
               raise_if (negb (claimed_user_id =? user_id)) ErrorUnauthorized ;;;
               now <- time_time ;;
               expires_at <- claim_int token CLAIM_EXPIRES_AT ;;
               raise_if (now >? expires_at) ErrorUnauthorized ;;;
               issued_at <- claim_int token CLAIM_ISSUED_AT ;;
               raise_if (now <? issued_at) ErrorUnauthorized ;;;
               token_type <- claim_str token CLAIM_TOKEN_TYPE ;;
               raise_if (negb (String.eqb ACCESS_TOKEN_TYPE token_type)) ErrorUnauthorized ;;;
               user <- atomic
                 (db <- get_db ;;
                  match StorageUser_get db user_id with
                  | Some user => ret user
                  | None =>
                      user_name <- claim_str token CLAIM_USER_NAME ;;
                      user <- StorageUser_objects_create user_id user_name ;;
                      Directory_objects_create "root" (Models.user_id user) None ;;;
                      ret user
                  end) ;;
               ret (user, token)
           end)%py
      end
  end.

(** [_verify_can_access]; [obj] may be [None]. *)
Definition _verify_can_access (user_id : Z) (obj : option Entity) (is_write : bool) : M World unit :=
  match obj with
  | None => ret tt
  | Some obj =>
      (can_read <- lift_db (fun db => can_access fuel db obj user_id false) ;;
       if negb can_read then raise ErrorNotFound
       else if is_write then
         can_write <- lift_db (fun db => can_access fuel db obj user_id true) ;;
         if negb can_write then raise ErrorAccessDenied else ret tt
       else ret tt)%py
  end.

(** [_verify_same_owner] on its argument list; an argument may be [None],
    whose [owner] is an [AttributeError]. *)
Fixpoint same_owner_loop (owner : Z) (args : list (option Entity)) : res unit :=
  match args with
  | [] => Val tt
  | e :: rest =>
      match e with
      | Some e =>
          match attr_owner e with
          | Some o => if negb (o =? owner) then Exc ErrorTransferralRejected
                      else same_owner_loop owner rest
          | None => Exc OtherException
          end
      | None => Exc OtherException
      end
  end.

Definition _verify_same_owner (args : list (option Entity)) : res unit :=
  if (List.length args <=? 1)%nat then Val tt
  else
    match args with
    | Some e0 :: _ =>
        match attr_owner e0 with
        | Some owner => same_owner_loop owner args
        | None => Exc OtherException
        end
    | _ => Exc OtherException
    end.

(** The files of [directory.file_set.all()] followed by the directories of
    [directory.directory_set.all()]. *)
Definition children (db : DB) (directory : Directory) : list Entity :=
  map EFile (Directory_file_set db directory) ++ map EDirectory (Directory_directory_set db directory).

(** [_verify_unique_names]: [to_check] is a name ([inl]) or a file or
    directory ([inr]); [directory] may be [None], whose [file_set] is an
    [AttributeError]. *)
Definition name_is (e : Entity) (name : option string) : bool :=
  match attr_name e, name with
  | Some a, Some b => String.eqb a b
  | _, _ => false
  end.

Definition _verify_unique_names (to_check : string + Entity) (directory : option Directory)
    : DB -> res unit :=
  fun db =>
    match directory with
    | None => Exc OtherException
    | Some directory =>
        match to_check with
        | inl name =>
            if existsb (fun e => name_is e (Some name)) (children db directory)
            then Exc ErrorDuplicateName else Val tt
        | inr obj =>
            if existsb (fun e => negb (model_eqb e obj) && name_is e (attr_name obj))
                       (children db directory)
            then Exc ErrorDuplicateName else Val tt
        end
    end.

(** [directory.parent]: the row the nullable foreign key points to. *)
Definition Directory_parent (db : DB) (self : Directory) : res (option Directory) :=
  match dir_parent self with
  | None => Val None
  | Some pid =>
      match Directory_get db pid with
      | Some parent => Val (Some parent)
      | None => Exc ObjectDoesNotExist
      end
  end.

(** The [while] loop of [_verify_movable]; one unit of fuel an iteration. *)
Fixpoint movable_loop (n : nat) (db : DB) (to_check : Directory) (target_dir : option Directory)
    : res unit :=
  match target_dir with
  | None => Val tt
  | Some target =>
      match n with
      | O => Timeout
      | S n' =>
          if dir_id to_check =? dir_id target then Exc ErrorCyclicDirectoryTree
          else
            match Directory_parent db target with
            | Val next => movable_loop n' db to_check next
            | Exc e => Exc e
            | Timeout => Timeout
            end
      end
  end.

Definition _verify_movable (to_check : Directory) (target_dir : option Directory) : DB -> res unit :=
  fun db =>
    match dir_parent to_check with
    | None => Exc ErrorUnmovableDirectory
    | Some _ => movable_loop fuel db to_check target_dir
    end.

Definition _verify_empty (to_check : Directory) : DB -> res unit :=
  fun db =>
    if (0 <? List.length (Directory_file_set db to_check))%nat
       || (0 <? List.length (Directory_directory_set db to_check))%nat
    then Exc ErrorDirectoryNotEmpty else Val tt.

(** The query of [_verify_quota]:
    [SELECT COALESCE(SUM(LENGTH(data)), 0) FROM File WHERE owner_id = user_id],
    with [AND id <> excluded_file_id] when a file is excluded. *)
Definition sum_length (files : list File) : Z :=
  fold_right (fun f acc => len (file_data f) + acc) 0 files.

Definition quota_query (db : DB) (user_id : Z) (excluded_file_id : option Z) : Z :=
  match excluded_file_id with
  | None => sum_length (filter (fun f => file_owner f =? user_id) (File_table db))
  | Some excluded =>
      sum_length (filter (fun f => (file_owner f =? user_id) && negb (file_id f =? excluded))
                         (File_table db))
  end.

(** [_verify_quota].  The aggregate query has exactly one result row, so
    [fetchone()] is never [None]. *)
Definition _verify_quota (user_id : Z) (upload_size : Z) (excluded_file_id : option Z)
    : DB -> res unit :=
  fun db =>
    let size := quota_query db user_id excluded_file_id in
    if size + upload_size >? LIMIT_USER_TOTAL_SIZE then Exc ErrorQuotaExceeded else Val tt.

Definition is_some {A : Type} (o : option A) : bool :=
  match o with
  | Some _ => true
  | None => false
  end.

Definition set_file_name (f : File) (name : string) : File :=
  mkFile (file_id f) name (file_owner f) (file_parent_directory f) (file_data f).

Definition set_file_parent_directory (f : File) (parent : Directory) : File :=
  mkFile (file_id f) (file_name f) (file_owner f) (dir_id parent) (file_data f).

Definition set_file_data (f : File) (data : list byte) : File :=
  mkFile (file_id f) (file_name f) (file_owner f) (file_parent_directory f) data.

Definition set_dir_name (d : Directory) (name : string) : Directory :=
  mkDirectory (dir_id d) name (dir_owner d) (dir_parent d).

Definition set_dir_parent (d : Directory) (parent : Directory) : Directory :=
  mkDirectory (dir_id d) (dir_name d) (dir_owner d) (Some (dir_id parent)).

(** [FileView._handle_get]. *)
Definition FileView_handle_get (request : HttpRequest) (kwargs : list (string * string))
    : M World Response :=
  (_verify_kwargs kwargs ["file_id"] ;;;
   user_id <- _get_query_param request "user" int ;;
   _verify_authenticated request user_id ;;;
   file_id <- _get_kwarg kwargs "file_id" int ;;
   file_obj <- File_objects_get file_id ;;
   _verify_can_access user_id (Some (EFile file_obj)) false ;;;
   ret (mkResponse STATUS_OK (BinaryContent (file_data file_obj))))%py.

(** [FileView._handle_post]. *)
Definition FileView_handle_post (request : HttpRequest) (kwargs : list (string * string))
    : M World Response :=
  (_verify_kwargs kwargs [] ;;;
   user_id <- _get_query_param request "user" int ;;
   _verify_authenticated request user_id ;;;
   file_name <- _get_query_param request "name" str ;;
   parent_directory_id <- _get_query_param request "parentDirectory" int ;;
   parent_directory <- Directory_objects_get parent_directory_id ;;
   _verify_can_access user_id (Some (EDirectory parent_directory)) true ;;;
   lift_db (_verify_unique_names (inl file_name) (Some parent_directory)) ;;;
   body <- request_body request ;;
   raise_if (len body >? LIMIT_SINGLE_FILE_SIZE) ErrorQuotaExceeded ;;;
   file_obj <- atomic
     (lift_db (_verify_quota user_id (len body) None) ;;;
      File_objects_create file_name (dir_owner parent_directory) (dir_id parent_directory)
                          body) ;;
   ret (mkResponse STATUS_OK (FileContent file_obj)))%py.

(** [FileView._handle_put].  [not write_body and len(request.body) > 0]
    reads the body only when [write_body] is false. *)
Definition FileView_handle_put (request : HttpRequest) (kwargs : list (string * string))
    : M World Response :=
  (_verify_kwargs kwargs ["file_id"] ;;;
   user_id <- _get_query_param request "user" int ;;
   _verify_authenticated request user_id ;;;
   file_name <- _get_query_param_optional request "name" str ;;
   parent_directory_id <- _get_query_param_optional request "parentDirectory" int ;;
   write_body <- flag_param request "writebody" ;;
   (if write_body then ret tt
    else
      body <- request_body request ;;
      raise_if (len body >? 0)
               (ErrorBadRequest "Cannot have a request body when not editing the file content")) ;;;
   file_id <- _get_kwarg kwargs "file_id" int ;;
   file_obj <- File_objects_get file_id ;;
   _verify_can_access user_id (Some (EFile file_obj)) true ;;;
   file_obj <- atomic
     (file_obj <-
        (if is_some file_name || is_some parent_directory_id then
           current_dir <- Directory_objects_get (file_parent_directory file_obj) ;;
           _verify_can_access user_id (Some (EDirectory current_dir)) true ;;;
           moved <-
             match parent_directory_id with
             | Some parent_directory_id =>
                 target_dir <- Directory_objects_get parent_directory_id ;;
                 _verify_can_access user_id (Some (EDirectory target_dir)) true ;;;
                 lift_db (fun _ => _verify_same_owner
                            [Some (EFile file_obj); Some (EDirectory current_dir);
                             Some (EDirectory target_dir)]) ;;;
                 ret (target_dir,
                      if negb (model_eqb (EDirectory current_dir) (EDirectory target_dir))
                      then set_file_parent_directory file_obj target_dir
                      else file_obj)
             | None => ret (current_dir, file_obj)
             end ;;
           let target_dir := fst moved in
           let file_obj := snd moved in
           let file_obj := match file_name with
                           | Some file_name => set_file_name file_obj file_name
                           | None => file_obj
                           end in
           lift_db (_verify_unique_names (inr (EFile file_obj)) (Some target_dir)) ;;;
           ret file_obj
         else ret file_obj) ;;
      file_obj <-
        (if write_body then
           body <- request_body request ;;
           lift_db (_verify_quota user_id (len body) (Some (Models.file_id file_obj))) ;;;
           ret (set_file_data file_obj body)
         else ret file_obj) ;;
      File_save file_obj) ;;
   ret (mkResponse STATUS_OK (FileContent file_obj)))%py.

(** [FileView._handle_delete]. *)
Definition FileView_handle_delete (request : HttpRequest) (kwargs : list (string * string))
    : M World Response :=
  (_verify_kwargs kwargs ["file_id"] ;;;
   user_id <- _get_query_param request "user" int ;;
   _verify_authenticated request user_id ;;;
   file_id <- _get_kwarg kwargs "file_id" int ;;
   file_obj <- File_objects_get file_id ;;
   _verify_can_access user_id (Some (EFile file_obj)) true ;;;
   parent_directory <- Directory_objects_get (file_parent_directory file_obj) ;;
   _verify_can_access user_id (Some (EDirectory parent_directory)) true ;;;
   File_delete file_obj ;;;
   ret (mkResponse STATUS_OK NoContent))%py.

(** [DirectoryView._handle_post]. *)
Definition DirectoryView_handle_post (request : HttpRequest) (kwargs : list (string * string))
    : M World Response :=
  (_verify_kwargs kwargs [] ;;;
   user_id <- _get_query_param request "user" int ;;
   _verify_authenticated request user_id ;;;
   directory_name <- _get_query_param request "name" str ;;
   parent_directory_id <- _get_query_param request "parentDirectory" int ;;
   parent_directory <- Directory_objects_get parent_directory_id ;;
   _verify_can_access user_id (Some (EDirectory parent_directory)) true ;;;
   lift_db (_verify_unique_names (inl directory_name) (Some parent_directory)) ;;;
   directory <- Directory_objects_create directory_name (dir_owner parent_directory)
                                         (Some (dir_id parent_directory)) ;;
   ret (mkResponse STATUS_OK (DirectoryContent directory)))%py.

(** [current_dir != target_dir], where [current_dir] may be [None]. *)
Definition differs (current_dir : option Directory) (target_dir : Directory) : bool :=
  match current_dir with
  | Some current_dir => negb (model_eqb (EDirectory current_dir) (EDirectory target_dir))
  | None => true
  end.

(** [DirectoryView._handle_put]. *)
Definition DirectoryView_handle_put (request : HttpRequest) (kwargs : list (string * string))
    : M World Response :=
  (_verify_kwargs kwargs ["directory_id"] ;;;
   user_id <- _get_query_param request "user" int ;;
   _verify_authenticated request user_id ;;;
   directory_name <- _get_query_param_optional request "name" str ;;
   parent_directory_id <- _get_query_param_optional request "parentDirectory" int ;;
   directory_id <- _get_kwarg kwargs "directory_id" int ;;
   directory <- Directory_objects_get directory_id ;;
   _verify_can_access user_id (Some (EDirectory directory)) true ;;;
   directory <- atomic
     (directory <-
        (if is_some directory_name || is_some parent_directory_id then
           current_dir <- lift_db (fun db => Directory_parent db directory) ;;
           _verify_can_access user_id (option_map EDirectory current_dir) true ;;;
           moved <-
             match parent_directory_id with
             | Some parent_directory_id =>
                 target_dir <- Directory_objects_get parent_directory_id ;;
                 _verify_can_access user_id (Some (EDirectory target_dir)) true ;;;
                 lift_db (_verify_movable directory (Some target_dir)) ;;;
                 lift_db (fun _ => _verify_same_owner
                            [Some (EDirectory directory); option_map EDirectory current_dir;
                             Some (EDirectory target_dir)]) ;;;
                 ret (Some target_dir,
                      if differs current_dir target_dir
                      then set_dir_parent directory target_dir
                      else directory)
             | None => ret (current_dir, directory)
             end ;;
           let target_dir := fst moved in
           let directory := snd moved in
           let directory := match directory_name with
                            | Some directory_name => set_dir_name directory directory_name
                            | None => directory
                            end in
           lift_db (_verify_unique_names (inr (EDirectory directory)) target_dir) ;;;
           ret directory
         else ret directory) ;;
      Directory_save directory) ;;
   ret (mkResponse STATUS_OK (DirectoryContent directory)))%py.

(** [ShareView._handle_post]. *)
Definition ShareView_handle_post (request : HttpRequest) (kwargs : list (string * string))
    : M World Response :=
  (_verify_kwargs kwargs [] ;;;
   user_id <- _get_query_param request "user" int ;;
   _verify_authenticated request user_id ;;;
   user <- StorageUser_objects_get user_id ;;
   subject_id <- _get_query_param request "subject" int ;;
   subject <- StorageUser_objects_get subject_id ;;
   target_type <- _get_query_param request "targetType"
                    (_get_converter_for_enum ["file"; "directory"]) ;;
   target_id <- _get_query_param request "targetID" int ;;
   target <- (if String.eqb target_type "directory"
              then d <- Directory_objects_get target_id ;; ret (EDirectory d)
              else f <- File_objects_get target_id ;; ret (EFile f)) ;;
   _verify_can_access user_id (Some target) true ;;;
   can_write <- flag_param request "canWrite" ;;
   raise_if (match attr_owner target with
             | Some owner => negb (owner =? user_id)
             | None => true
             end) ErrorAccessDenied ;;;
   raise_if (user_id =? subject_id) ErrorInvalidShareSubject ;;;
   share <- match target with
            | EDirectory d =>
                Share_objects_create (Models.user_id user) (Models.user_id subject)
                                     None (Some (dir_id d)) can_write
            | EFile f =>
                Share_objects_create (Models.user_id user) (Models.user_id subject)
                                     (Some (file_id f)) None can_write
            | _ => raise OtherException
            end ;;
   ret (mkResponse STATUS_OK (ShareContent share)))%py.

(** [ContactView._handle_post]. *)
Definition ContactView_handle_post (request : HttpRequest) (kwargs : list (string * string))
    : M World Response :=
  (_verify_kwargs kwargs ["contact_id"] ;;;
   user_id <- _get_query_param request "user" int ;;
   _verify_authenticated request user_id ;;;
   user <- StorageUser_objects_get user_id ;;
   contact_id <- _get_kwarg kwargs "contact_id" int ;;
   raise_if (contact_id =? user_id) ErrorInvalidContact ;;;
   contact <- StorageUser_objects_get contact_id ;;
   db <- get_db ;;
   (if negb (existsb (fun c => model_eqb (EUser contact) (EUser c)) (contacts_all db user))
    then contacts_add user contact ;;; StorageUser_save user ;;; ret tt
    else ret tt) ;;;
   ret (mkResponse STATUS_OK (UserContent contact)))%py.

(** [ContactView._handle_delete]. *)
Definition ContactView_handle_delete (request : HttpRequest) (kwargs : list (string * string))
    : M World Response :=
  (_verify_kwargs kwargs ["contact_id"] ;;;
   user_id <- _get_query_param request "user" int ;;
   _verify_authenticated request user_id ;;;
   user <- StorageUser_objects_get user_id ;;
   contact_id <- _get_kwarg kwargs "contact_id" int ;;
   db <- get_db ;;
   get_or_raise (contacts_get db user contact_id) ;;;
   contacts_remove user contact_id ;;;
   StorageUser_save user ;;;
   ret (mkResponse STATUS_OK NoContent))%py.

(** The [except] clauses of [AbstractView.handle]. *)
Definition response_for_exn (e : exn) : Response :=
  match e with
  | ErrorBadRequest msg => mkResponse STATUS_BAD_REQUEST (MessageContent msg)
  | ErrorUnauthorized => mkResponse STATUS_UNAUTHORIZED NoContent
  | ErrorAccessDenied => mkResponse STATUS_PERMISSION_DENIED NoContent
  | ErrorDuplicateName => mkResponse STATUS_DUPLICATE_NAME NoContent
  | ErrorTransferralRejected => mkResponse STATUS_TRANSFERRAL_REJECTED NoContent
  | ErrorCyclicDirectoryTree => mkResponse STATUS_CYCLIC_DIRECTORY_TREE NoContent
  | ErrorUnmovableDirectory => mkResponse STATUS_UNMOVABLE_DIRECTORY NoContent
  | ErrorDirectoryNotEmpty => mkResponse STATUS_DIRECTORY_NOT_EMPTY NoContent
  | ErrorInvalidShareSubject => mkResponse STATUS_INVALID_SHARE_SUBJECT NoContent
  | ErrorInvalidContact => mkResponse STATUS_INVALID_CONTACT NoContent
  | ErrorQuotaExceeded => mkResponse STATUS_QUOTA_EXCEEDED NoContent
  | ErrorNotFound => mkResponse STATUS_NOT_FOUND NoContent
  | ObjectDoesNotExist => mkResponse STATUS_NOT_FOUND NoContent
  | OtherException => mkResponse STAUTS_INTERNAL_ERROR NoContent
  end.

(** [AbstractView.handle] around the method that the verb selects: the
    response and the world the request leaves; [None] when the method does
    not return. *)
Definition handle (method_by_verb : HttpRequest -> list (string * string) -> M World Response)
    (request : HttpRequest) (kwargs : list (string * string)) (w : World)
    : option (Response * World) :=
  match method_by_verb request kwargs w with
  | Return r w' => Some (r, w')
  | Raise e w' => Some (response_for_exn e, w')
  | Diverge => None
  end.

Definition Share_objects_get (id : Z) : M World Share :=
  (db <- get_db ;; get_or_raise (Share_get db id))%py.

(** [UserInfoView._handle_get]. *)
Definition UserInfoView_handle_get (request : HttpRequest) (kwargs : list (string * string))
    : M World Response :=
  (user_id <- _get_kwarg kwargs "user_id" int ;;
   authenticated <- _verify_authenticated request user_id ;;
   let user := fst authenticated in
   _verify_can_access user_id (Some (EUser user)) false ;;;
   ret (mkResponse STATUS_OK (UserContent user)))%py.

(** [DirectoryView._handle_get]. *)
Definition DirectoryView_handle_get (request : HttpRequest) (kwargs : list (string * string))
    : M World Response :=
  (_verify_kwargs kwargs ["directory_id"] ;;;
   user_id <- _get_query_param request "user" int ;;
   _verify_authenticated request user_id ;;;
   directory_id <- _get_kwarg kwargs "directory_id" int ;;
   directory <- Directory_objects_get directory_id ;;
   _verify_can_access user_id (Some (EDirectory directory)) false ;;;
   ret (mkResponse STATUS_OK (DirectoryContent directory)))%py.

(** [to_delete_list.pop()]: the last element and the list without it. *)
Definition pop {A : Type} (l : list A) : option (A * list A) :=
  match rev l with
  | [] => None
  | x :: r => Some (x, rev r)
  end.

(** [for file in to_delete.file_set.all(): file.delete()]. *)
Fixpoint delete_files (files : list File) : M World unit :=
  match files with
  | [] => ret tt
  | file :: rest => (File_delete file ;;; delete_files rest)%py
  end.

(** The [while] loop of the cascading deletion; one unit of fuel an
    iteration. *)
Fixpoint cascade_loop (n : nat) (to_delete_list : list Directory) : M World unit :=
  match pop to_delete_list with
  | None => ret tt
  | Some (to_delete, to_delete_list) =>
      match n with
      | O => fun _ => Diverge
      | S n' =>
          (db <- get_db ;;
           let children := Directory_directory_set db to_delete in
           if (List.length children =? 0)%nat then
             delete_files (Directory_file_set db to_delete) ;;;
             Directory_delete to_delete ;;;
             cascade_loop n' to_delete_list
           else
             cascade_loop n' (to_delete_list ++ [to_delete] ++ children))%py
      end
  end.

(** [DirectoryView._handle_delete]. *)
Definition DirectoryView_handle_delete (request : HttpRequest) (kwargs : list (string * string))
    : M World Response :=
  (_verify_kwargs kwargs ["directory_id"] ;;;
   user_id <- _get_query_param request "user" int ;;
   _verify_authenticated request user_id ;;;
   directory_id <- _get_kwarg kwargs "directory_id" int ;;
   directory <- Directory_objects_get directory_id ;;
   _verify_can_access user_id (Some (EDirectory directory)) true ;;;
   parent_directory <- lift_db (fun db => Directory_parent db directory) ;;
   match parent_directory with
   | None => raise ErrorUnmovableDirectory
   | Some parent_directory =>
       _verify_can_access user_id (Some (EDirectory parent_directory)) true ;;;
       cascade <- flag_param request "cascade" ;;
       (if cascade then atomic (cascade_loop fuel [directory])
        else lift_db (_verify_empty directory) ;;; Directory_delete directory) ;;;
       ret (mkResponse STATUS_OK NoContent)
   end)%py.

(** [ShareView._handle_get]. *)
Definition ShareView_handle_get (request : HttpRequest) (kwargs : list (string * string))
    : M World Response :=
  (_verify_kwargs kwargs ["share_id"] ;;;
   user_id <- _get_query_param request "user" int ;;
   _verify_authenticated request user_id ;;;
   share_id <- _get_kwarg kwargs "share_id" int ;;
   share <- Share_objects_get share_id ;;
   _verify_can_access user_id (Some (EShare share)) false ;;;
   ret (mkResponse STATUS_OK (ShareContent share)))%py.

(** [ShareView._handle_delete]. *)
Definition ShareView_handle_delete (request : HttpRequest) (kwargs : list (string * string))
    : M World Response :=
  (_verify_kwargs kwargs ["share_id"] ;;;
   user_id <- _get_query_param request "user" int ;;
   _verify_authenticated request user_id ;;;
   share_id <- _get_kwarg kwargs "share_id" int ;;
   share <- Share_objects_get share_id ;;
   _verify_can_access user_id (Some (EShare share)) true ;;;
   Share_delete share ;;;
   ret (mkResponse STATUS_OK NoContent))%py.

(** [ContactView._handle_get]. *)
Definition ContactView_handle_get (request : HttpRequest) (kwargs : list (string * string))
    : M World Response :=
  (_verify_kwargs kwargs ["contact_id"] ;;;
   user_id <- _get_query_param request "user" int ;;
   _verify_authenticated request user_id ;;;
   contact_id <- _get_kwarg kwargs "contact_id" int ;;
   contact <- StorageUser_objects_get contact_id ;;
   ret (mkResponse STATUS_OK (UserContent contact)))%py.

(** A view: the four methods that [AbstractView.__init__] enters in
    [method_by_verb]. *)
Record View : Type := mkView {
  _handle_get : HttpRequest -> list (string * string) -> M World Response;
  _handle_post : HttpRequest -> list (string * string) -> M World Response;
  _handle_put : HttpRequest -> list (string * string) -> M World Response;
  _handle_delete : HttpRequest -> list (string * string) -> M World Response
}.

(** The methods of [AbstractView], which a view inherits unless it
    overrides them. *)
Definition unsupported (verb : string) : HttpRequest -> list (string * string) -> M World Response :=
  fun _ _ => raise (ErrorBadRequest ("Unsupported method: " ++ verb)).

Definition AbstractView : View :=
  mkView (unsupported "GET") (unsupported "POST") (unsupported "PUT") (unsupported "DELETE").

(** [_handle_unsupported_method(self, request)] called as
    [(request, **kwargs)]: it takes no keyword argument, so any URL
    argument is a [TypeError]. *)
Definition _handle_unsupported_method (request : HttpRequest) (kwargs : list (string * string))
    : M World Response :=
  match kwargs with
  | [] => raise (ErrorBadRequest ("Unsupported method: " ++ method request))
  | _ :: _ => raise OtherException
  end.

(** [self.method_by_verb.get(request.method, self._handle_unsupported_method)]. *)
Definition method_by_verb (view : View) (verb : string)
    : HttpRequest -> list (string * string) -> M World Response :=
  if String.eqb verb "GET" then _handle_get view
  else if String.eqb verb "POST" then _handle_post view
  else if String.eqb verb "PUT" then _handle_put view
  else if String.eqb verb "DELETE" then _handle_delete view
  else _handle_unsupported_method.

Definition UserInfoView : View :=
  mkView UserInfoView_handle_get (_handle_post AbstractView) (_handle_put AbstractView)
         (_handle_delete AbstractView).

Definition FileView : View :=
  mkView FileView_handle_get FileView_handle_post FileView_handle_put FileView_handle_delete.

Definition DirectoryView : View :=
  mkView DirectoryView_handle_get DirectoryView_handle_post DirectoryView_handle_put
         DirectoryView_handle_delete.

Definition ShareView : View :=
  mkView ShareView_handle_get ShareView_handle_post (_handle_put AbstractView)
         ShareView_handle_delete.

Definition ContactView : View :=
  mkView ContactView_handle_get ContactView_handle_post (_handle_put AbstractView)
         ContactView_handle_delete.

(** [AbstractView.handle] of a view. *)
Definition View_handle (view : View) (request : HttpRequest) (kwargs : list (string * string))
    (w : World) : option (Response * World) :=
  handle (method_by_verb view (method request)) request kwargs w.

End Service.

End Views.

Import Models Views.

(** ** The specification's wording of the decisions *)

(** A share of the table targets directory [D] with subject [U]. *)
Definition share_matches (D : Directory) (U : Z) (s : Share) : bool :=
  opt_is (share_target_directory s) (dir_id D) && (share_subject s =? U).

(** The local grant on a directory: a write-capable matching share grants
    both accesses, any matching share grants read. *)
Definition local_grant (db : DB) (D : Directory) (U : Z) (wants_write : bool) : bool :=
  existsb (fun s => share_matches D U s && (share_can_write s || negb wants_write))
          (Share_table db).

(** The access decision for a directory, one level of it: owner, then local
    grant, then the decision [up] for the parent, and denial at a root. *)
Definition directory_decision (db : DB) (D : Directory) (U : Z) (wants_write : bool)
    (up : Directory -> res bool) : res bool :=
  if dir_owner D =? U then Val true
  else if local_grant db D U wants_write then Val true
  else
    match dir_parent D with
    | Some pid =>
        match Directory_get db pid with
        | Some parent => up parent
        | None => Exc ObjectDoesNotExist
        end
    | None => Val false
    end.

(** [descends db D x n]: [n] steps through [parent] lead from directory [x]
    to directory [D]. *)
Inductive descends (db : DB) (D : Directory) : Directory -> nat -> Prop :=
| descends_here : descends db D D 0
| descends_step (x parent : Directory) (pid : Z) (n : nat) :
    dir_parent x = Some pid ->
    Directory_get db pid = Some parent ->
    descends db D parent n ->
    descends db D x (S n).

(** The sum of the byte-lengths of the files [u] owns, the file [excluding]
    left out when it is given. *)
Definition usage (db : DB) (u : Z) (excluding : option Z) : Z :=
  fold_left
    (fun acc f =>
       if (file_owner f =? u) && negb (opt_is excluding (file_id f))
       then acc + len (file_data f) else acc)
    (File_table db) 0.

(** [U] holds a write-capable share on directory [D]. *)
Definition holds_write_share (db : DB) (D : Directory) (U : Z) : Prop :=
  exists s, In s (Share_table db) /\ share_target_directory s = Some (dir_id D)
            /\ share_subject s = U /\ share_can_write s = true.

(** [outside db D x n]: the [n] steps through [parent] from directory [x] to
    its root never meet the directory [D]. *)
Inductive outside (db : DB) (D : Directory) : Directory -> nat -> Prop :=
| outside_root (x : Directory) :
    dir_id x <> dir_id D -> dir_parent x = None -> outside db D x 0
| outside_step (x parent : Directory) (pid : Z) (n : nat) :
    dir_id x <> dir_id D ->
    dir_parent x = Some pid ->
    Directory_get db pid = Some parent ->
    outside db D parent n ->
    outside db D x (S n).

(** The value of a flag parameter: absent, or present and empty. *)
Definition flag_value (req : HttpRequest) (name : string) (b : bool) : Prop :=
  if b then dict_get name (GET req) = Some EmptyString else dict_get name (GET req) = None.

(** ** The operations behind their first checks, and the worlds they leave *)

Section ShareCreation.

Variable fuel : nat.
Variables (request : HttpRequest) (issuer subject : StorageUser).
Variables (user_id subject_id : Z) (target : Entity) (can_write : bool).

(** [ShareView._handle_post] from its access gate on. *)
Definition share_tail : M World Response :=
  (_verify_can_access fuel user_id (Some target) true ;;;
   can_write <- flag_param request "canWrite" ;;
   raise_if (match attr_owner target with
             | Some owner => negb (owner =? user_id)
             | None => true
             end) ErrorAccessDenied ;;;
   raise_if (user_id =? subject_id) ErrorInvalidShareSubject ;;;
   share <- match target with
            | EDirectory d =>
                Share_objects_create (Models.user_id issuer) (Models.user_id subject)
                                     None (Some (dir_id d)) can_write
            | EFile f =>
                Share_objects_create (Models.user_id issuer) (Models.user_id subject)
                                     (Some (file_id f)) None can_write
            | _ => raise OtherException
            end ;;
   ret (mkResponse STATUS_OK (ShareContent share)))%py.

(** The row a successful call inserts. *)
Definition new_share (id : Z) : Share :=
  match target with
  | EFile f => mkShare id (Models.user_id issuer) (Models.user_id subject) (Some (file_id f)) None can_write
  | EDirectory d => mkShare id (Models.user_id issuer) (Models.user_id subject) None (Some (dir_id d)) can_write
  | _ => mkShare id (Models.user_id issuer) (Models.user_id subject) None None can_write
  end.

End ShareCreation.

Section ContactRemoval.

Variables (w1 : World) (user : StorageUser) (contact_id : Z).

(** The world after the removal of the relation and [user.save()]. *)
Definition contact_removed : World :=
  mkWorld
    (with_users
       (with_contacts (database w1)
          (filter (fun r => negb ((fst r =? Models.user_id user) && (snd r =? contact_id)))
                  (StorageUser_contacts (database w1))))
       (upsert Models.user_id user (StorageUser_table (database w1))))
    (clock w1) (random w1).

End ContactRemoval.

Section DirectoryMove.

Variable fuel : nat.
Variables (request : HttpRequest) (w1 : World) (user_id target_id : Z).
Variables (directory target : Directory).

(** The atomic block of [DirectoryView._handle_put] for a request that
    names a target parent, [current_dir] being [directory.parent]. *)
Definition move_block (current_dir : option Directory) : M World Directory :=
  (directory <-
     (_verify_can_access fuel user_id (option_map EDirectory current_dir) true ;;;
      moved <-
        (target_dir <- Directory_objects_get target_id ;;
         _verify_can_access fuel user_id (Some (EDirectory target_dir)) true ;;;
         lift_db (_verify_movable fuel directory (Some target_dir)) ;;;
         lift_db (fun _ => _verify_same_owner
                    [Some (EDirectory directory); option_map EDirectory current_dir;
                     Some (EDirectory target_dir)]) ;;;
         ret (Some target_dir,
              if differs current_dir target_dir
              then set_dir_parent directory target_dir
              else directory)) ;;
      let target_dir := fst moved in
      let directory := snd moved in
      let directory := match dict_get "name" (GET request) with
                       | Some directory_name => set_dir_name directory directory_name
                       | None => directory
                       end in
      lift_db (_verify_unique_names (inr (EDirectory directory)) target_dir) ;;;
      ret directory) ;;
   Directory_save directory)%py.

(** The directory that the handler saves. *)
Definition moved_directory (current_dir : option Directory) : Directory :=
  let moved := if differs current_dir target
               then set_dir_parent directory target else directory in
  match dict_get "name" (GET request) with
  | Some directory_name => set_dir_name moved directory_name
  | None => moved
  end.

(** The three checks of a move, in the order the handler makes them. *)
Definition move_checks (current_dir : option Directory) : res unit :=
  res_bind (_verify_movable fuel directory (Some target) (database w1)) (fun _ =>
  res_bind (_verify_same_owner [Some (EDirectory directory); option_map EDirectory current_dir;
                                Some (EDirectory target)]) (fun _ =>
  _verify_unique_names (inr (EDirectory (moved_directory current_dir))) (Some target)
                       (database w1))).

End DirectoryMove.

Section FileWrite.

Variables (request : HttpRequest) (w1 : World) (file_name : string).
Variables (parent_directory : Directory) (file_obj : File).

(** The file a successful creation inserts, and the world it leaves. *)
Definition uploaded (id : Z) : File :=
  mkFile id file_name (dir_owner parent_directory) (dir_id parent_directory) (body request).

Definition after_upload (id : Z) (rest : list Z) : World :=
  mkWorld (with_files (database w1) (File_table (database w1) ++ [uploaded id])) (clock w1) rest.

(** The world after the content of the file has been replaced. *)
Definition after_update : World :=
  mkWorld (with_files (database w1)
             (upsert Models.file_id (set_file_data file_obj (body request))
                     (File_table (database w1))))
          (clock w1) (random w1).

End FileWrite.

(** ** Who is granted access *)

(** The grant of a share on the file itself. *)
Definition file_grant (db : DB) (f : File) (U : Z) (wants_write : bool) : bool :=
  existsb (fun s => opt_is (share_target_file s) (file_id f) && (share_subject s =? U)
                    && (share_can_write s || negb wants_write))
          (Share_table db).

(** [ungranted db U w x n]: on the [n] steps through [parent] from
    directory [x] to its root, no directory is owned by [U] or carries a
    share that grants [U] the access [w]. *)
Inductive ungranted (db : DB) (U : Z) (w : bool) : Directory -> nat -> Prop :=
| ungranted_root (x : Directory) :
    dir_owner x <> U -> local_grant db x U w = false -> dir_parent x = None ->
    ungranted db U w x 0
| ungranted_step (x parent : Directory) (pid : Z) (n : nat) :
    dir_owner x <> U -> local_grant db x U w = false ->
    dir_parent x = Some pid -> Directory_get db pid = Some parent ->
    ungranted db U w parent n ->
    ungranted db U w x (S n).

(** The world after the first valid token of an unseen user: the user's row
    and a root directory with the drawn id have been inserted. *)
Definition provisioned (w : World) (user_id : Z) (user_name : string) (id : Z)
    (rest : list Z) : World :=
  mkWorld
    (with_directories
       (with_users (database w)
          (StorageUser_table (database w) ++ [mkStorageUser user_id user_name]))
       (Directory_table (database w) ++ [mkDirectory id "root" user_id None]))
    (clock w) rest.

(** The five claims of a token that [_verify_authenticated] accepts. *)
Definition access_claims (claims : list (string * PyValue)) (user_id : Z) (user_name : string)
    (issued_at expires_at : Z) : Prop :=
  dict_get CLAIM_USER_ID claims = Some (PyInt user_id)
  /\ dict_get CLAIM_USER_NAME claims = Some (PyStr user_name)
  /\ dict_get CLAIM_ISSUED_AT claims = Some (PyInt issued_at)
  /\ dict_get CLAIM_EXPIRES_AT claims = Some (PyInt expires_at)
  /\ dict_get CLAIM_TOKEN_TYPE claims = Some (PyStr ACCESS_TOKEN_TYPE).

(** ** Worlds that deletions leave *)

(** The world after [share.delete()]. *)
Definition share_revoked (w1 : World) (share : Share) : World :=
  mkWorld (with_shares (database w1)
             (filter (fun s => negb (share_id s =? share_id share)) (Share_table (database w1))))
          (clock w1) (random w1).

(** The world after [file_obj.delete()]. *)
Definition file_deleted (w1 : World) (file_obj : File) : World :=
  mkWorld
    (mkDB (StorageUser_table (database w1)) (StorageUser_contacts (database w1))
          (Directory_table (database w1))
          (filter (fun f => negb (file_id f =? file_id file_obj)) (File_table (database w1)))
          (filter (fun s => negb (opt_is (share_target_file s) (file_id file_obj)))
                  (Share_table (database w1))))
    (clock w1) (random w1).

(** The world after [directory.delete()] of a directory that holds
    nothing. *)
Definition directory_deleted (w1 : World) (directory : Directory) : World :=
  mkWorld
    (mkDB (StorageUser_table (database w1)) (StorageUser_contacts (database w1))
          (filter (fun d => negb (dir_id d =? dir_id directory)) (Directory_table (database w1)))
          (File_table (database w1))
          (filter (fun s => negb (opt_is (share_target_directory s) (dir_id directory)))
                  (Share_table (database w1))))
    (clock w1) (random w1).

(** The world after [user.contacts.add(contact)] of a new relation and
    [user.save()]. *)
Definition contact_added (w1 : World) (user contact : StorageUser) : World :=
  mkWorld
    (with_users
       (with_contacts (database w1)
          (StorageUser_contacts (database w1) ++ [(user_id user, user_id contact)]))
       (upsert user_id user (StorageUser_table (database w1))))
    (clock w1) (random w1).

(** ** Requests that are refused early *)

(** The answers to a request that is refused before it is authenticated. *)
Definition refusal (e : exn) : Prop :=
  e = ErrorUnauthorized \/ exists msg, e = ErrorBadRequest msg.

(** ** Invariants of the tables *)

(** The names of the files and directories that lie in the directory with
    id [pid]. *)
Definition entry_names (db : DB) (pid : Z) : list string :=
  (map file_name (filter (fun f => file_parent_directory f =? pid) (File_table db))
   ++ map dir_name (filter (fun d => opt_is (dir_parent d) pid) (Directory_table db)))%list.

(** No directory holds two entries of one name. *)
Definition names_unique (db : DB) : Prop := forall pid, NoDup (entry_names db pid).

(** ** What a request leaves behind *)

(** The world in which a computation ends, by returning or by raising. *)
Definition leaves {A : Type} (o : outcome World A) : option World :=
  match o with
  | Return _ w' => Some w'
  | Raise _ w' => Some w'
  | Diverge => None
  end.

(** [m], started in [w], ends only in worlds whose database satisfies
    [Inv]. *)
Definition keeps (Inv : DB -> Prop) {A : Type} (m : M World A) (w : World) : Prop :=
  forall w', leaves (m w) = Some w' -> Inv (database w').

(** [m] leaves every world as it found it. *)
Definition reads {A : Type} (m : M World A) : Prop :=
  forall w w', leaves (m w) = Some w' -> w' = w.

(** Every file and every directory below a root lies in a directory that
    exists and has the same owner. *)
Definition owners_consistent (db : DB) : Prop :=
  (forall f, In f (File_table db) ->
     exists p, Directory_get db (file_parent_directory f) = Some p
               /\ dir_owner p = file_owner f)
  /\ (forall d pid, In d (Directory_table db) -> dir_parent d = Some pid ->
        exists p, Directory_get db pid = Some p /\ dir_owner p = dir_owner d).

(** The world after a share [s] has been created in [w1]. *)
Definition share_granted (w1 : World) (s : Share) (rest : list Z) : World :=
  mkWorld (with_shares (database w1) (Share_table (database w1) ++ [s])) (clock w1) rest.

(** ** What a caller without write access cannot touch *)

(** A database whose rows all come from [db0] and in which the file with
    id [i] is still the file [f]. *)
Definition file_kept (db0 : DB) (i : Z) (f : File) (db : DB) : Prop :=
  File_get db i = Some f
  /\ (forall d, In d (Directory_table db) -> In d (Directory_table db0))
  /\ (forall g, In g (File_table db) -> In g (File_table db0)).

(** A directory of [db0] to which [u] is not refused write access. *)
Definition not_refused (fuel : nat) (db0 : DB) (u : Z) (x : Directory) : Prop :=
  In x (Directory_table db0) /\ Directory_can_access fuel db0 x u true <> Val false.

(** [m] leaves the table of files as it found it. *)
Definition leaves_files {A : Type} (m : M World A) : Prop :=
  forall w w', leaves (m w) = Some w' -> File_table (database w') = File_table (database w).

(** ** The cascading deletion *)

(** [covers db h x]: below directory [x] the directories of [db] form a
    tree of at most [h] levels, [x] included. *)
Inductive covers (db : DB) : nat -> Directory -> Prop :=
| covers_node (h : nat) (x : Directory) :
    (forall c, In c (Directory_directory_set db x) -> covers db h c) ->
    covers db (S h) x.

(** The rows of [db'] are rows of [db]. *)
Definition sub_db (db' db : DB) : Prop :=
  (forall d, In d (Directory_table db') -> In d (Directory_table db))
  /\ (forall g, In g (File_table db') -> In g (File_table db)).

(** What the cascading deletion of [x0] has done to [db0] when it has
    reached [db]: rows have only been removed; a row that is left still has
    its directory; and what has been removed lay below [x0]. *)
Definition only_below (db0 : DB) (x0 : Directory) (db : DB) : Prop :=
  sub_db db db0
  /\ (forall y p, In y (Directory_table db) -> In p (Directory_table db0) ->
        dir_parent y = Some (dir_id p) -> In p (Directory_table db))
  /\ (forall g p, In g (File_table db) -> In p (Directory_table db0) ->
        file_parent_directory g = dir_id p -> In p (Directory_table db))
  /\ (forall r, In r (Directory_table db0) ->
        In r (Directory_table db) \/ exists m, descends db0 x0 r m)
  /\ (forall g, In g (File_table db0) ->
        In g (File_table db)
        \/ exists y m, In y (Directory_table db0) /\ descends db0 x0 y m
                       /\ file_parent_directory g = dir_id y).

(** A database whose directories all come from [db0] and in which the
    directory with id [j] is still the directory [d]. *)
Definition directory_kept (db0 : DB) (j : Z) (d : Directory) (db : DB) : Prop :=
  Directory_get db j = Some d
  /\ (forall x, In x (Directory_table db) -> In x (Directory_table db0)).

(** [m] leaves every directory that is found as it is. *)
Definition keeps_lookups {A : Type} (m : M World A) : Prop :=
  forall w w', leaves (m w) = Some w' ->
    forall j d, Directory_get (database w) j = Some d -> Directory_get (database w') j = Some d.

(** ** A well-formed tree *)

(** The primary keys of the files and of the directories are distinct and
    truthy, and no directory holds two entries of one name. *)
Definition well_formed (db : DB) : Prop :=
  NoDup (map file_id (File_table db))
  /\ NoDup (map dir_id (Directory_table db))
  /\ (forall f, In f (File_table db) -> file_id f <> 0)
  /\ (forall d, In d (Directory_table db) -> dir_id d <> 0)
  /\ names_unique db.

(** No other entry of the directory in which the file [f] lies has the name
    of [f]. *)
Definition file_fits (db : DB) (f : File) : Prop :=
  (forall y, In y (File_table db) -> file_id y <> file_id f ->
     file_parent_directory y = file_parent_directory f -> file_name y <> file_name f)
  /\ (forall y, In y (Directory_table db) ->
        dir_parent y = Some (file_parent_directory f) -> dir_name y <> file_name f).

(** No other entry of the directory in which the directory [d] lies, if it
    lies in one, has the name of [d]. *)
Definition directory_fits (db : DB) (d : Directory) : Prop :=
  forall pid, dir_parent d = Some pid ->
    (forall y, In y (File_table db) -> file_parent_directory y = pid ->
       file_name y <> dir_name d)
    /\ (forall y, In y (Directory_table db) -> dir_id y <> dir_id d ->
          dir_parent y = Some pid -> dir_name y <> dir_name d).

(** [m] ends in a database that satisfies [Inv] whenever it starts in one. *)
Definition preserves (Inv : DB -> Prop) {A : Type} (m : M World A) : Prop :=
  forall w w', leaves (m w) = Some w' -> Inv (database w) -> Inv (database w').

(** [m] changes nothing, or nothing but what the first valid token of an
    unseen user brings: the user's record and root directory. *)
Definition only_provisions {A : Type} (m : M World A) : Prop :=
  forall w w', leaves (m w) = Some w' ->
    w' = w
    \/ exists user_id user_name id rest,
         StorageUser_get (database w) user_id = None
         /\ fresh_id (Directory_exists (database w)) (random w) = Some (id, rest)
         /\ w' = provisioned w user_id user_name id rest.

(** ** The refusals of the access check *)

(** The answer to a request refuses the caller [user_id] at the entity
    [obj], where [v] is the world in which the handler checks the access:
    with [not_found] when the caller cannot read [obj]; with
    [permission_denied] when the check is one for writing and the caller
    can read and cannot write [obj].  Either answer leaves [v] as it
    is. *)
Definition refused_by_access (fuel : nat) (v : World) (user_id : Z) (obj : Entity)
    (is_write : bool) (answer : option (Response * World)) : Prop :=
  (can_access fuel (database v) obj user_id false = Val false ->
   answer = Some (mkResponse ("not_found", 404) NoContent, v))
  /\ (is_write = true ->
      can_access fuel (database v) obj user_id false = Val true ->
      can_access fuel (database v) obj user_id true = Val false ->
      answer = Some (mkResponse ("permission_denied", 403) NoContent, v)).

(** The value of an optional integer parameter: [None] when it is absent,
    the integer when it is present and one. *)
Definition optional_value (int : string -> option Z) (req : HttpRequest) (name : string)
    (v : option Z) : Prop :=
  match dict_get name (GET req) with
  | Some s => int s <> None /\ v = int s
  | None => v = None
  end.

(** The parameters that [FileView._handle_put] reads before it looks the
    file up: the new parent directory, the flag [writebody], and no body
    without the flag. *)
Definition file_put_parameters (int : string -> option Z) (req : HttpRequest)
    (parent_directory_id : option Z) (write_body : bool) : Prop :=
  optional_value int req "parentDirectory" parent_directory_id
  /\ flag_value req "writebody" write_body
  /\ (write_body = false -> len (body req) = 0).

(** ** A small instance *)

Module Example.

(** User 1 owns the root (id 1), "docs" (id 2) in it and "deep" (id 3) in
    "docs"; user 2 owns the root 10 and holds a write-capable share on
    "docs" and a read-only share on the file 21, and grants user 1 write
    access to the root 10; "a.txt" (id 20) lies in "deep", "b.txt" (id 21)
    in the root 1. *)
Definition root1 : Directory := mkDirectory 1 "root" 1 None.
Definition docs : Directory := mkDirectory 2 "docs" 1 (Some 1).
Definition deep : Directory := mkDirectory 3 "deep" 1 (Some 2).
Definition root2 : Directory := mkDirectory 10 "root" 2 None.
Definition a_txt : File := mkFile 20 "a.txt" 1 3 [x61; x62; x63].
Definition b_txt : File := mkFile 21 "b.txt" 1 1 [x64].
Definition share_docs : Share := mkShare 30 1 2 None (Some 2) true.
Definition share_b : Share := mkShare 31 1 2 (Some 21) None false.
Definition share_root2 : Share := mkShare 32 2 1 None (Some 10) true.

Definition db0 : DB :=
  mkDB [mkStorageUser 1 "alice"; mkStorageUser 2 "bob"; mkStorageUser 3 "carol"]
       [(1, 2)]
       [root1; docs; deep; root2]
       [a_txt; b_txt]
       [share_docs; share_b; share_root2].

(** An instance of Python's [int] for the examples: decimal digits. *)
Fixpoint digits (s : string) (acc : Z) : option Z :=
  match s with
  | EmptyString => Some acc
  | String c rest =>
      let n := Z.of_nat (nat_of_ascii c) - 48 in
      if (0 <=? n) && (n <=? 9) then digits rest (10 * acc + n) else None
  end.

Definition int (s : string) : option Z :=
  match s with
  | EmptyString => None
  | _ => digits s 0
  end.

(** An instance of the token library for the examples: four tokens,
    issued at second 1000 and expiring at second 2000. *)
Definition claims_of (uid : Z) (name : string) : list (string * PyValue) :=
  [("user_id", PyInt uid); ("user_name", PyStr name); ("iat", PyInt 1000);
   ("exp", PyInt 2000); ("token_type", PyStr "access")].

Definition jwt_decode (token : string) : option (list (string * PyValue)) :=
  if String.eqb token "alice" then Some (claims_of 1 "alice")
  else if String.eqb token "bob" then Some (claims_of 2 "bob")
  else if String.eqb token "carol" then Some (claims_of 3 "carol")
  else if String.eqb token "dave" then Some (claims_of 4 "dave")
  else None.

(** A request of the named user, authenticated by the user's token. *)
Definition request (method user_id token : string) (query : list (string * string))
    (body : list byte) : HttpRequest :=
  mkHttpRequest method [("Authorization", "Bearer " ++ token)] (("user", user_id) :: query) body.

(** The world at second [t]. *)
Definition world (db : DB) (t : Z) : World := mkWorld db t [1; 40; 41; 42].

(** A content of [n] zero bytes. *)
Definition zeros (n : Z) : list byte := repeat x00 (Z.to_nat n).

(** In [db_full] user 1 has filled its quota with eight files of the
    largest size a creation accepts; user 2 owns no file and holds a
    write-capable share on "docs". *)
Definition full_file (id : Z) (name : string) : File :=
  mkFile id name 1 1 (zeros LIMIT_SINGLE_FILE_SIZE).

Definition db_full : DB :=
  mkDB [mkStorageUser 1 "alice"; mkStorageUser 2 "bob"]
       []
       [root1; docs; root2]
       [full_file 101 "b1"; full_file 102 "b2"; full_file 103 "b3"; full_file 104 "b4";
        full_file 105 "b5"; full_file 106 "b6"; full_file 107 "b7"; full_file 108 "b8"]
       [share_docs].

End Example.

Arguments Example.zeros : simpl never.

(** ** Access control *)

Section AccessControl.

Variable db : DB.

Lemma share_loop_not_false (shares : list Share) (is_write : bool) :
  share_loop shares is_write <> Some false.
Proof.
  induction shares as [|s rest IH]; simpl.
  - discriminate.
  - destruct (share_can_write s); [discriminate|].
    destruct is_write; simpl; [exact IH | discriminate].
Qed.

Lemma share_loop_existsb (shares : list Share) (is_write : bool) :
  share_loop shares is_write =
  if existsb (fun s => share_can_write s || negb is_write) shares then Some true else None.
Proof.
  induction shares as [|s rest IH]; simpl; [reflexivity|].
  destruct (share_can_write s); simpl; [reflexivity|].
  destruct is_write; simpl; [exact IH | reflexivity].
Qed.

Lemma share_loop_write_read (shares : list Share) :
  share_loop shares true = Some true -> share_loop shares false = Some true.
Proof.
  destruct shares as [|s rest]; simpl; [discriminate|].
  intros _. destruct (share_can_write s); reflexivity.
Qed.

Lemma existsb_filter {A : Type} (p q : A -> bool) (l : list A) :
  existsb p (filter q l) = existsb (fun x => q x && p x) l.
Proof.
  induction l as [|x l IH]; simpl; [reflexivity|].
  destruct (q x); simpl; rewrite IH; reflexivity.
Qed.

Lemma existsb_pointwise {A : Type} (p q : A -> bool) (l : list A) :
  (forall x, p x = q x) -> existsb p l = existsb q l.
Proof.
  intros E. induction l as [|x l IH]; simpl; [reflexivity|].
  rewrite E, IH. reflexivity.
Qed.

Lemma local_grant_loop (D : Directory) (U : Z) (w : bool) :
  share_loop (filter_subject U (Directory_share_set db D)) w =
  if local_grant db D U w then Some true else None.
Proof.
  rewrite share_loop_existsb. unfold filter_subject, Directory_share_set, local_grant.
  rewrite !existsb_filter.
  rewrite (existsb_pointwise _
             (fun s => share_matches D U s && (share_can_write s || negb w))); [reflexivity|].
  intros s. unfold share_matches. rewrite andb_assoc. reflexivity.
Qed.

Lemma Directory_can_access_unfold (n : nat) (D : Directory) (U : Z) (w : bool) :
  Directory_can_access (S n) db D U w =
  directory_decision db D U w (fun parent => Directory_can_access n db parent U w).
Proof.
  simpl. unfold directory_decision. rewrite local_grant_loop.
  destruct (dir_owner D =? U); [reflexivity|].
  destruct (local_grant db D U w); reflexivity.
Qed.

End AccessControl.

Lemma holds_write_share_grant (db : DB) (D : Directory) (U : Z) (w : bool) :
  holds_write_share db D U -> local_grant db D U w = true.
Proof.
  intros (s & Hin & Ht & Hs & Hw). unfold local_grant.
  apply existsb_exists. exists s. split; [exact Hin|].
  unfold share_matches. rewrite Ht, Hs, Hw. simpl.
  rewrite !Z.eqb_refl. reflexivity.
Qed.

Lemma inherited_directory_access (db : DB) (D : Directory) (U : Z) (w : bool) :
  holds_write_share db D U ->
  forall x n, descends db D x n ->
  forall fuel, (n < fuel)%nat -> Directory_can_access fuel db x U w = Val true.
Proof.
  intros Hshare x n Hd.
  induction Hd as [|x parent pid n Hp Hget Hd IH]; intros fuel Hfuel.
  - destruct fuel as [|k]; [lia|].
    rewrite Directory_can_access_unfold. unfold directory_decision.
    rewrite (holds_write_share_grant db D U w Hshare).
    destruct (dir_owner D =? U); reflexivity.
  - destruct fuel as [|k]; [lia|].
    rewrite Directory_can_access_unfold. unfold directory_decision.
    rewrite Hp, Hget.
    destruct (dir_owner x =? U); [reflexivity|].
    destruct (local_grant db x U w); [reflexivity|].
    apply IH. lia.
Qed.

Lemma inherited_file_access (db : DB) (D : Directory) (U : Z) (w : bool) :
  holds_write_share db D U ->
  forall f parent n, Directory_get db (file_parent_directory f) = Some parent ->
  descends db D parent n ->
  forall fuel, (n < fuel)%nat -> File_can_access fuel db f U w = Val true.
Proof.
  intros Hshare f parent n Hget Hd fuel Hfuel. unfold File_can_access.
  destruct (file_owner f =? U); [reflexivity|].
  destruct (share_loop _ w) as [[|]|] eqn:E.
  - reflexivity.
  - exfalso. exact (share_loop_not_false _ _ E).
  - rewrite Hget. exact (inherited_directory_access db D U w Hshare parent n Hd fuel Hfuel).
Qed.

(** C2.  One level of [Directory.can_access] is the decision of the
    specification: the owner is granted read and write; otherwise a share
    on this directory for the user grants both when it is write-capable and
    read in any case; otherwise the parent decides with the same write
    requirement, and a directory without parent denies.  Consequently a user
    with a write-capable share on [D] has write access to every directory
    and every file below [D], whatever the shares on them, as soon as the
    fuel exceeds the number of steps up to [D]. *)
Theorem directory_access_decision_and_inheritance (db : DB) (D : Directory) (U : Z) :
  (forall (n : nat) (wants_write : bool),
      Directory_can_access (S n) db D U wants_write =
      directory_decision db D U wants_write
        (fun parent => Directory_can_access n db parent U wants_write))
  /\ (holds_write_share db D U ->
      (forall x n fuel, descends db D x n -> (n < fuel)%nat ->
          can_access fuel db (EDirectory x) U true = Val true)
      /\ (forall f parent n fuel,
          Directory_get db (file_parent_directory f) = Some parent ->
          descends db D parent n -> (n < fuel)%nat ->
          can_access fuel db (EFile f) U true = Val true)).
Proof.
  split.
  - intros n w. apply Directory_can_access_unfold.
  - intros Hshare. split.
    + intros x n fuel Hd Hfuel. simpl.
      exact (inherited_directory_access db D U true Hshare x n Hd fuel Hfuel).
    + intros f parent n fuel Hget Hd Hfuel. simpl.
      exact (inherited_file_access db D U true Hshare f parent n Hget Hd fuel Hfuel).
Qed.

Lemma directory_access_inheritance_witness :
  holds_write_share Example.db0 Example.docs 2
  /\ descends Example.db0 Example.docs Example.deep 1
  /\ can_access 2 Example.db0 (EDirectory Example.deep) 2 true = Val true
  /\ can_access 2 Example.db0 (EFile Example.a_txt) 2 true = Val true.
Proof.
  assert (Hs : holds_write_share Example.db0 Example.docs 2).
  { exists Example.share_docs. repeat split. simpl. left. reflexivity. }
  assert (Hd : descends Example.db0 Example.docs Example.deep 1).
  { apply (descends_step _ _ Example.deep Example.docs 2 0%nat);
      [reflexivity | reflexivity | apply descends_here]. }
  split; [exact Hs|]. split; [exact Hd|].
  pose proof (proj2 (directory_access_decision_and_inheritance Example.db0 Example.docs 2) Hs)
    as [Hdir Hfile].
  split.
  - apply (Hdir Example.deep 1%nat 2%nat Hd). apply le_n.
  - apply (Hfile Example.a_txt Example.deep 1%nat 2%nat); [reflexivity | exact Hd | apply le_n].
Defined.

Lemma Directory_write_read (db : DB) (u : Z) (fuel : nat) :
  forall d, Directory_can_access fuel db d u true = Val true ->
            Directory_can_access fuel db d u false = Val true.
Proof.
  induction fuel as [|n IH]; intros d; simpl; [discriminate|].
  destruct (dir_owner d =? u); [reflexivity|].
  destruct (share_loop _ true) as [[|]|] eqn:E.
  - intros _. rewrite (share_loop_write_read _ E). reflexivity.
  - exfalso. exact (share_loop_not_false _ _ E).
  - destruct (share_loop _ false) as [[|]|] eqn:E'.
    + reflexivity.
    + exfalso. exact (share_loop_not_false _ _ E').
    + destruct (dir_parent d) as [pid|]; [|discriminate].
      destruct (Directory_get db pid) as [p|]; [apply IH | discriminate].
Qed.

Lemma File_write_read (db : DB) (u : Z) (fuel : nat) (f : File) :
  File_can_access fuel db f u true = Val true ->
  File_can_access fuel db f u false = Val true.
Proof.
  unfold File_can_access.
  destruct (file_owner f =? u); [reflexivity|].
  destruct (share_loop _ true) as [[|]|] eqn:E.
  - intros _. rewrite (share_loop_write_read _ E). reflexivity.
  - exfalso. exact (share_loop_not_false _ _ E).
  - destruct (share_loop _ false) as [[|]|] eqn:E'.
    + reflexivity.
    + exfalso. exact (share_loop_not_false _ _ E').
    + destruct (Directory_get db (file_parent_directory f)) as [p|]; [|discriminate].
      apply Directory_write_read.
Qed.

Lemma Share_write_read (s : Share) (u : Z) :
  Share_can_access s u true = true -> Share_can_access s u false = true.
Proof.
  unfold Share_can_access. simpl.
  destruct (share_issuer s =? u); [reflexivity | discriminate].
Qed.

(** A write-capable caller passes the read test of the gate. *)
Lemma entity_write_read (fuel : nat) (db : DB) (obj : Entity) (u : Z) :
  can_access fuel db obj u true = Val true ->
  can_access fuel db obj u false = Val true.
Proof.
  destruct obj as [usr|f|d|s]; simpl.
  - discriminate.
  - apply File_write_read.
  - apply Directory_write_read.
  - intros H. injection H as H. rewrite (Share_write_read s u H). reflexivity.
Qed.

(** C10.  For a user profile, a directory, a file and a share alike:
    whenever [can_access(u, is_write=True)] returns [True], so does
    [can_access(u, is_write=False)]. *)
Theorem write_access_implies_read_access (fuel : nat) (db : DB) (obj : Entity) (u : Z) :
  can_access fuel db obj u true = Val true ->
  can_access fuel db obj u false = Val true.
Proof.
  destruct obj as [usr|f|d|s]; simpl.
  - (* a profile is never writable *)
    unfold StorageUser_can_access. simpl. discriminate.
  - exact (File_write_read db u fuel f).
  - exact (Directory_write_read db u fuel d).
  - (* only the issuer writes, and the issuer reads *)
    intros H. f_equal. apply Share_write_read. congruence.
Qed.

Lemma write_access_implies_read_access_witness :
  can_access 2 Example.db0 (EFile Example.a_txt) 2 true = Val true
  /\ can_access 2 Example.db0 (EFile Example.a_txt) 2 false = Val true.
Proof.
  split; [reflexivity|].
  apply (write_access_implies_read_access 2 Example.db0 (EFile Example.a_txt) 2).
  reflexivity.
Defined.

(** ** Quota *)

Lemma fold_usage (p : File -> bool) (files : list File) (acc : Z) :
  fold_left (fun a f => if p f then a + len (file_data f) else a) files acc =
  acc + sum_length (filter p files).
Proof.
  revert acc. induction files as [|f files IH]; intros acc; simpl.
  - lia.
  - rewrite IH. destruct (p f); simpl; lia.
Qed.

Lemma quota_query_usage (db : DB) (u : Z) (excluding : option Z) :
  quota_query db u excluding = usage db u excluding.
Proof.
  unfold usage. rewrite fold_usage. unfold quota_query.
  destruct excluding as [x|]; simpl.
  - f_equal. apply filter_ext. intros f. rewrite (Z.eqb_sym x). reflexivity.
  - f_equal. apply filter_ext. intros f. rewrite andb_true_r. reflexivity.
Qed.

(** C5.  [_verify_quota] sums the byte-lengths of the files the user owns,
    the excluded file left out when one is given, and authorizes exactly
    when that sum plus the proposed size does not exceed
    [LIMIT_USER_TOTAL_SIZE]: a write that reaches the ceiling exactly is
    authorized, one that exceeds it raises the quota error. *)
Theorem verify_quota_authorizes_up_to_ceiling (db : DB) (u proposedBytes : Z)
    (excluding : option Z) :
  quota_query db u excluding = usage db u excluding
  /\ _verify_quota u proposedBytes excluding db =
     (if usage db u excluding + proposedBytes <=? LIMIT_USER_TOTAL_SIZE
      then Val tt else Exc ErrorQuotaExceeded)
  /\ (usage db u excluding + proposedBytes = LIMIT_USER_TOTAL_SIZE ->
      _verify_quota u proposedBytes excluding db = Val tt)
  /\ (usage db u excluding + proposedBytes > LIMIT_USER_TOTAL_SIZE ->
      _verify_quota u proposedBytes excluding db = Exc ErrorQuotaExceeded)
  /\ response_for_exn ErrorQuotaExceeded = mkResponse ("quota_exceeded", 413) NoContent.
Proof.
  assert (E : _verify_quota u proposedBytes excluding db =
              (if usage db u excluding + proposedBytes <=? LIMIT_USER_TOTAL_SIZE
               then Val tt else Exc ErrorQuotaExceeded)).
  { unfold _verify_quota. rewrite quota_query_usage.
    destruct (Z.gtb_spec (usage db u excluding + proposedBytes) LIMIT_USER_TOTAL_SIZE) as [H|H];
      destruct (Z.leb_spec (usage db u excluding + proposedBytes) LIMIT_USER_TOTAL_SIZE) as [H'|H'];
      try reflexivity; lia. }
  split; [apply quota_query_usage|]. split; [exact E|]. split; [|split; [|reflexivity]].
  - intros H. rewrite E.
    destruct (Z.leb_spec (usage db u excluding + proposedBytes) LIMIT_USER_TOTAL_SIZE); [reflexivity | lia].
  - intros H. rewrite E.
    destruct (Z.leb_spec (usage db u excluding + proposedBytes) LIMIT_USER_TOTAL_SIZE); [lia | reflexivity].
Qed.

Lemma verify_quota_boundary_witness :
  usage Example.db0 1 (Some 21) = 3
  /\ _verify_quota 1 (LIMIT_USER_TOTAL_SIZE - 3) (Some 21) Example.db0 = Val tt
  /\ _verify_quota 1 (LIMIT_USER_TOTAL_SIZE - 2) (Some 21) Example.db0 = Exc ErrorQuotaExceeded.
Proof.
  pose proof (verify_quota_authorizes_up_to_ceiling Example.db0 1 (LIMIT_USER_TOTAL_SIZE - 3) (Some 21))
    as (_ & _ & Heq & _).
  pose proof (verify_quota_authorizes_up_to_ceiling Example.db0 1 (LIMIT_USER_TOTAL_SIZE - 2) (Some 21))
    as (_ & _ & _ & Hgt & _).
  split; [reflexivity|]. split.
  - apply Heq. reflexivity.
  - apply Hgt. reflexivity.
Defined.

(** ** The monad, step by step *)

Lemma bind_Return {W A B : Type} (m : M W A) (k : A -> M W B) (w w' : W) (a : A) :
  m w = Return a w' -> bind m k w = k a w'.
Proof. intros H. unfold bind. rewrite H. reflexivity. Qed.

Lemma bind_Raise {W A B : Type} (m : M W A) (k : A -> M W B) (w w' : W) (e : exn) :
  m w = Raise e w' -> bind m k w = Raise e w'.
Proof. intros H. unfold bind. rewrite H. reflexivity. Qed.

Lemma lift_db_Val {A : Type} (q : DB -> res A) (w : World) (a : A) :
  q (database w) = Val a -> lift_db q w = Return a w.
Proof. intros H. unfold lift_db. rewrite H. reflexivity. Qed.

Lemma lift_db_Exc {A : Type} (q : DB -> res A) (w : World) (e : exn) :
  q (database w) = Exc e -> lift_db q w = Raise e w.
Proof. intros H. unfold lift_db. rewrite H. reflexivity. Qed.

(** ** The access gate *)

Lemma verify_can_access_not_found (fuel : nat) (w : World) (obj : Entity) (u : Z) (is_write : bool) :
  can_access fuel (database w) obj u false = Val false ->
  _verify_can_access fuel u (Some obj) is_write w = Raise ErrorNotFound w.
Proof.
  intros H. unfold _verify_can_access.
  rewrite (bind_Return _ _ w w false); [reflexivity|].
  apply lift_db_Val. exact H.
Qed.

Lemma verify_can_access_denied (fuel : nat) (w : World) (obj : Entity) (u : Z) :
  can_access fuel (database w) obj u false = Val true ->
  can_access fuel (database w) obj u true = Val false ->
  _verify_can_access fuel u (Some obj) true w = Raise ErrorAccessDenied w.
Proof.
  intros Hr Hw. unfold _verify_can_access.
  rewrite (bind_Return _ _ w w true); [|apply lift_db_Val; exact Hr]. simpl.
  rewrite (bind_Return _ _ w w false); [reflexivity|].
  apply lift_db_Val. exact Hw.
Qed.

Lemma verify_can_access_read (fuel : nat) (w : World) (obj : Entity) (u : Z) :
  can_access fuel (database w) obj u false = Val true ->
  _verify_can_access fuel u (Some obj) false w = Return tt w.
Proof.
  intros Hr. unfold _verify_can_access.
  rewrite (bind_Return _ _ w w true); [reflexivity|].
  apply lift_db_Val. exact Hr.
Qed.

Lemma verify_can_access_write (fuel : nat) (w : World) (obj : Entity) (u : Z) :
  can_access fuel (database w) obj u true = Val true ->
  _verify_can_access fuel u (Some obj) true w = Return tt w.
Proof.
  intros Hw. unfold _verify_can_access.
  rewrite (bind_Return _ _ w w true);
    [|apply lift_db_Val; apply entity_write_read; exact Hw].
  simpl. rewrite (bind_Return _ _ w w true); [reflexivity|].
  apply lift_db_Val. exact Hw.
Qed.

(** ** Token validation *)

Lemma claims_valid_inv (claims : list (string * PyValue)) :
  claims_invalid claims required_claims = false ->
  exists uid name iat exp ty,
    dict_get CLAIM_USER_ID claims = Some (PyInt uid)
    /\ dict_get CLAIM_USER_NAME claims = Some (PyStr name)
    /\ dict_get CLAIM_ISSUED_AT claims = Some (PyInt iat)
    /\ dict_get CLAIM_EXPIRES_AT claims = Some (PyInt exp)
    /\ dict_get CLAIM_TOKEN_TYPE claims = Some (PyStr ty).
Proof.
  unfold required_claims. simpl.
  destruct (dict_get CLAIM_USER_ID claims) as [[uid| | |]|]; simpl; try discriminate.
  destruct (dict_get CLAIM_USER_NAME claims) as [[|name| |]|]; simpl; try discriminate.
  destruct (dict_get CLAIM_ISSUED_AT claims) as [[iat| | |]|]; simpl; try discriminate.
  destruct (dict_get CLAIM_EXPIRES_AT claims) as [[exp| | |]|]; simpl; try discriminate.
  destruct (dict_get CLAIM_TOKEN_TYPE claims) as [[|ty| |]|]; simpl; try discriminate.
  intros _. exists uid, name, iat, exp, ty. repeat split.
Qed.

Lemma jwt_decode_at_Some (jwt_decode : string -> option (list (string * PyValue)))
    (now : Z) (token : string) (claims : list (string * PyValue)) (expires_at : Z) :
  jwt_decode token = Some claims ->
  dict_get CLAIM_EXPIRES_AT claims = Some (PyInt expires_at) ->
  jwt_decode_at jwt_decode now token = if expires_at <=? now then None else Some claims.
Proof. intros Hdec He. unfold jwt_decode_at. rewrite Hdec, He. reflexivity. Qed.

Lemma jwt_decode_at_inv (jwt_decode : string -> option (list (string * PyValue)))
    (now : Z) (token : string) (claims : list (string * PyValue)) :
  jwt_decode_at jwt_decode now token = Some claims ->
  jwt_decode token = Some claims
  /\ (forall expires_at,
        dict_get CLAIM_EXPIRES_AT claims = Some (PyInt expires_at) -> now < expires_at).
Proof.
  unfold jwt_decode_at. destruct (jwt_decode token) as [c|]; [|discriminate].
  destruct (dict_get CLAIM_EXPIRES_AT c) as [[e| | |]|] eqn:He;
    try (intros H; injection H as <-; split; [reflexivity | intros x Hx; congruence]).
  destruct (Z.leb_spec e now) as [Hle|Hlt]; [discriminate|].
  intros H. injection H as <-. split; [reflexivity|].
  intros x Hx. assert (x = e) by congruence. lia.
Qed.

(** The checks of [_verify_authenticated] on the claims of a decoded token,
    up to the provisioning of the user. *)
Lemma verify_authenticated_checks (jwt_decode : string -> option (list (string * PyValue)))
    (req : HttpRequest) (user_id : Z) (w : World) :
  _verify_authenticated jwt_decode req user_id w = Raise ErrorUnauthorized w
  \/ exists header token claims issued_at expires_at,
       dict_get AUTHORIZATION_HEADER_NAME (headers req) = Some header
       /\ match_bearer header = Some token
       /\ jwt_decode token = Some claims
       /\ dict_get CLAIM_USER_ID claims = Some (PyInt user_id)
       /\ dict_get CLAIM_ISSUED_AT claims = Some (PyInt issued_at)
       /\ dict_get CLAIM_EXPIRES_AT claims = Some (PyInt expires_at)
       /\ issued_at <= clock w < expires_at.
Proof.
  unfold _verify_authenticated.
  destruct (dict_get AUTHORIZATION_HEADER_NAME (headers req)) as [header|] eqn:Hh; [|left; reflexivity].
  destruct (match_bearer header) as [token|] eqn:Hb; [|left; reflexivity].
  unfold bind at 1. unfold time_time at 1.
  destruct (jwt_decode_at jwt_decode (clock w) token) as [claims|] eqn:Hat; [|left; reflexivity].
  destruct (jwt_decode_at_inv _ _ _ _ Hat) as [Hdec Hlib].
  destruct (claims_invalid claims required_claims) eqn:Hc; [left; reflexivity|].
  destruct (claims_valid_inv claims Hc) as (uid & name & iat & exp & ty & Hu & Hn & Hi & He & Ht).
  unfold bind, raise_if, claim_int, claim_str, time_time, raise, ret.
  rewrite Hu, Hi, He, Ht.
  destruct (Z.eqb_spec uid user_id) as [Euid|Euid]; simpl; [|left; reflexivity].
  destruct (Z.gtb_spec (clock w) exp) as [Hexp|Hexp]; simpl; [left; reflexivity|].
  destruct (Z.ltb_spec (clock w) iat) as [Hiat|Hiat]; simpl; [left; reflexivity|].
  right. exists header, token, claims, iat, exp. subst uid.
  pose proof (Hlib exp He).
  repeat split; try assumption; try reflexivity; lia.
Qed.

Lemma verify_authenticated_accepts (jwt_decode : string -> option (list (string * PyValue)))
    (req : HttpRequest) (user_id : Z) (w : World)
    (header token : string) (claims : list (string * PyValue))
    (issued_at expires_at : Z) (user : StorageUser) :
  dict_get AUTHORIZATION_HEADER_NAME (headers req) = Some header ->
  match_bearer header = Some token ->
  jwt_decode token = Some claims ->
  claims_invalid claims required_claims = false ->
  dict_get CLAIM_USER_ID claims = Some (PyInt user_id) ->
  dict_get CLAIM_ISSUED_AT claims = Some (PyInt issued_at) ->
  dict_get CLAIM_EXPIRES_AT claims = Some (PyInt expires_at) ->
  dict_get CLAIM_TOKEN_TYPE claims = Some (PyStr ACCESS_TOKEN_TYPE) ->
  issued_at <= clock w < expires_at ->
  StorageUser_get (database w) user_id = Some user ->
  _verify_authenticated jwt_decode req user_id w = Return (user, claims) w.
Proof.
  intros Hh Hb Hdec Hc Hu Hi He Ht Hnow Huser.
  unfold _verify_authenticated. rewrite Hh, Hb.
  unfold bind at 1. unfold time_time at 1.
  rewrite (jwt_decode_at_Some jwt_decode (clock w) token claims expires_at Hdec He).
  destruct (Z.leb_spec expires_at (clock w)) as [Hlib|Hlib]; [lia|].
  rewrite Hc.
  unfold bind, raise_if, claim_int, claim_str, time_time, raise, ret, atomic, get_db.
  rewrite Hu, Hi, He, Ht. rewrite Z.eqb_refl. simpl.
  destruct (Z.gtb_spec (clock w) expires_at) as [Hexp|Hexp]; [lia|].
  destruct (Z.ltb_spec (clock w) issued_at) as [Hiat|Hiat]; [lia|]. simpl.
  rewrite Huser. reflexivity.
Qed.

(** C8, as the code has it.  [_verify_authenticated] raises the
    unauthorized error unless the token decodes to claims whose subject id
    is the user id of the request and whose validity interval holds the
    current time, [iat <= now < exp]: a token issued in the future, a token
    of another user and a token that has reached its expiry time are all
    refused.  The lower bound is included, the upper bound is not: the
    comparison [now > exp] of the view would accept [now = exp], but
    [jwt.decode] has refused that token before.  A token that passes the
    other checks is accepted for every [now] with [iat <= now < exp]. *)
Theorem token_validation (jwt_decode : string -> option (list (string * PyValue)))
    (req : HttpRequest) (user_id : Z) (w : World) :
  (_verify_authenticated jwt_decode req user_id w = Raise ErrorUnauthorized w
   \/ exists header token claims issued_at expires_at,
        dict_get AUTHORIZATION_HEADER_NAME (headers req) = Some header
        /\ match_bearer header = Some token
        /\ jwt_decode token = Some claims
        /\ dict_get CLAIM_USER_ID claims = Some (PyInt user_id)
        /\ dict_get CLAIM_ISSUED_AT claims = Some (PyInt issued_at)
        /\ dict_get CLAIM_EXPIRES_AT claims = Some (PyInt expires_at)
        /\ issued_at <= clock w < expires_at)
  /\ (forall header token claims claimed issued_at expires_at,
        dict_get AUTHORIZATION_HEADER_NAME (headers req) = Some header ->
        match_bearer header = Some token ->
        jwt_decode token = Some claims ->
        dict_get CLAIM_USER_ID claims = Some (PyInt claimed) ->
        dict_get CLAIM_ISSUED_AT claims = Some (PyInt issued_at) ->
        dict_get CLAIM_EXPIRES_AT claims = Some (PyInt expires_at) ->
        claimed <> user_id \/ clock w >= expires_at \/ clock w < issued_at ->
        _verify_authenticated jwt_decode req user_id w = Raise ErrorUnauthorized w
        /\ response_for_exn ErrorUnauthorized = mkResponse ("unauthorized", 401) NoContent)
  /\ (forall header token claims issued_at expires_at user,
        dict_get AUTHORIZATION_HEADER_NAME (headers req) = Some header ->
        match_bearer header = Some token ->
        jwt_decode token = Some claims ->
        claims_invalid claims required_claims = false ->
        dict_get CLAIM_USER_ID claims = Some (PyInt user_id) ->
        dict_get CLAIM_ISSUED_AT claims = Some (PyInt issued_at) ->
        dict_get CLAIM_EXPIRES_AT claims = Some (PyInt expires_at) ->
        dict_get CLAIM_TOKEN_TYPE claims = Some (PyStr ACCESS_TOKEN_TYPE) ->
        issued_at <= clock w < expires_at ->
        StorageUser_get (database w) user_id = Some user ->
        _verify_authenticated jwt_decode req user_id w = Return (user, claims) w).
Proof.
  split; [apply verify_authenticated_checks|]. split.
  - intros header token claims claimed iat exp Hh Hb Hdec Hu Hi He Hbad.
    split; [|reflexivity].
    destruct (verify_authenticated_checks jwt_decode req user_id w)
      as [H|(header' & token' & claims' & iat' & exp' & Hh' & Hb' & Hdec' & Hu' & Hi' & He' & Hnow)];
      [exact H|].
    exfalso.
    assert (header' = header) by congruence. subst header'.
    assert (token' = token) by congruence. subst token'.
    assert (claims' = claims) by congruence. subst claims'.
    assert (claimed = user_id) by congruence.
    assert (iat' = iat) by congruence.
    assert (exp' = exp) by congruence.
    lia.
  - intros header token claims iat exp user. apply verify_authenticated_accepts.
Qed.

Lemma token_validation_witness :
  _verify_authenticated Example.jwt_decode (Example.request "GET" "2" "bob" [] []) 2
                        (Example.world Example.db0 1999)
  = Return (mkStorageUser 2 "bob", Example.claims_of 2 "bob") (Example.world Example.db0 1999)
  /\ _verify_authenticated Example.jwt_decode (Example.request "GET" "2" "bob" [] []) 2
                           (Example.world Example.db0 1000)
     = Return (mkStorageUser 2 "bob", Example.claims_of 2 "bob") (Example.world Example.db0 1000)
  /\ _verify_authenticated Example.jwt_decode (Example.request "GET" "2" "bob" [] []) 2
                           (Example.world Example.db0 2001)
     = Raise ErrorUnauthorized (Example.world Example.db0 2001)
  /\ _verify_authenticated Example.jwt_decode (Example.request "GET" "1" "bob" [] []) 1
                           (Example.world Example.db0 1500)
     = Raise ErrorUnauthorized (Example.world Example.db0 1500).
Proof.
  split; [|split; [|split]].
  - apply (proj2 (proj2 (token_validation Example.jwt_decode (Example.request "GET" "2" "bob" [] [])
                           2 (Example.world Example.db0 1999)))
             "Bearer bob" "bob" (Example.claims_of 2 "bob") 1000 2000 (mkStorageUser 2 "bob"));
      try reflexivity.
    simpl. lia.
  - apply (proj2 (proj2 (token_validation Example.jwt_decode (Example.request "GET" "2" "bob" [] [])
                           2 (Example.world Example.db0 1000)))
             "Bearer bob" "bob" (Example.claims_of 2 "bob") 1000 2000 (mkStorageUser 2 "bob"));
      try reflexivity.
    simpl. lia.
  - apply (proj1 (proj2 (token_validation Example.jwt_decode (Example.request "GET" "2" "bob" [] [])
                           2 (Example.world Example.db0 2001)))
             "Bearer bob" "bob" (Example.claims_of 2 "bob") 2 1000 2000); try reflexivity.
    right. left. simpl. lia.
  - apply (proj1 (proj2 (token_validation Example.jwt_decode (Example.request "GET" "1" "bob" [] [])
                           1 (Example.world Example.db0 1500)))
             "Bearer bob" "bob" (Example.claims_of 2 "bob") 2 1000 2000); try reflexivity.
    left. lia.
Defined.

(** C8, against the claim.  User 2's token is valid from second 1000 to
    second 2000 and names user 2.  At second 2000 the current time lies in
    the closed interval of the claim, [iat <= now <= exp], and every other
    check passes; the request is refused all the same, by the decoder and
    so by every view.  One second earlier it is accepted. *)
Lemma token_refused_at_expiry :
  Example.jwt_decode "bob" = Some (Example.claims_of 2 "bob")
  /\ access_claims (Example.claims_of 2 "bob") 2 "bob" 1000 2000
  /\ 1000 <= clock (Example.world Example.db0 2000) <= 2000
  /\ _verify_authenticated Example.jwt_decode (Example.request "GET" "2" "bob" [] []) 2
                           (Example.world Example.db0 2000)
     = Raise ErrorUnauthorized (Example.world Example.db0 2000)
  /\ View_handle (FileView Example.int Example.jwt_decode 5)
                 (Example.request "GET" "2" "bob" [] []) [("file_id", "21")]
                 (Example.world Example.db0 2000)
     = Some (mkResponse ("unauthorized", 401) NoContent, Example.world Example.db0 2000)
  /\ View_handle (FileView Example.int Example.jwt_decode 5)
                 (Example.request "GET" "2" "bob" [] []) [("file_id", "21")]
                 (Example.world Example.db0 1999)
     = Some (mkResponse ("ok", 200) (BinaryContent [x64]), Example.world Example.db0 1999).
Proof.
  split; [reflexivity|]. split; [repeat split|]. split; [simpl; lia|].
  split; [reflexivity|]. split; reflexivity.
Qed.

(** ** Running a handler *)

Lemma get_query_param_Return {A : Type} (req : HttpRequest) (name v : string)
    (converter : string -> option A) (a : A) (w : World) :
  dict_get name (GET req) = Some v -> converter v = Some a ->
  _get_query_param req name converter w = Return a w.
Proof. intros H1 H2. unfold _get_query_param. rewrite H1, H2. reflexivity. Qed.

Lemma get_query_param_optional_Some {A : Type} (req : HttpRequest) (name v : string)
    (converter : string -> option A) (a : A) (w : World) :
  dict_get name (GET req) = Some v -> converter v = Some a ->
  _get_query_param_optional req name converter w = Return (Some a) w.
Proof. intros H1 H2. unfold _get_query_param_optional. rewrite H1, H2. reflexivity. Qed.

Lemma get_query_param_optional_None {A : Type} (req : HttpRequest) (name : string)
    (converter : string -> option A) (w : World) :
  dict_get name (GET req) = None ->
  _get_query_param_optional req name converter w = Return None w.
Proof. intros H1. unfold _get_query_param_optional. rewrite H1. reflexivity. Qed.

Lemma get_kwarg_Return {A : Type} (kwargs : list (string * string)) (name v : string)
    (converter : string -> option A) (a : A) (w : World) :
  dict_get name kwargs = Some v -> converter v = Some a ->
  _get_kwarg kwargs name converter w = Return a w.
Proof. intros H1 H2. unfold _get_kwarg. rewrite H1, H2. reflexivity. Qed.

Lemma flag_param_Return (req : HttpRequest) (name : string) (b : bool) (w : World) :
  flag_value req name b -> flag_param req name w = Return b w.
Proof.
  unfold flag_value, flag_param. intros H. destruct b.
  - rewrite (bind_Return _ _ w w (Some EmptyString)); [reflexivity|].
    apply (get_query_param_optional_Some req name EmptyString); [exact H | reflexivity].
  - rewrite (bind_Return _ _ w w None); [reflexivity|].
    apply get_query_param_optional_None. exact H.
Qed.

Lemma objects_get_Return {A : Type} (o : DB -> option A) (a : A) (w : World) :
  o (database w) = Some a ->
  bind get_db (fun db => get_or_raise (o db)) w = Return a w.
Proof. intros H. unfold bind, get_db. rewrite H. reflexivity. Qed.

Lemma objects_get_Raise {A : Type} (o : DB -> option A) (w : World) :
  o (database w) = None ->
  bind get_db (fun db => get_or_raise (o db)) w = Raise ObjectDoesNotExist w.
Proof. intros H. unfold bind, get_db. rewrite H. reflexivity. Qed.

Lemma fresh_id_free (taken : Z -> bool) (draws : list Z) (id : Z) (rest : list Z) :
  fresh_id taken draws = Some (id, rest) -> taken id = false /\ id <> 0.
Proof.
  induction draws as [|r draws IH]; simpl; [discriminate|].
  destruct (taken r) eqn:Ht; simpl; [exact IH|].
  destruct (Z.eqb_spec r 0) as [E|E]; simpl; [exact IH|].
  intros H. injection H as <- _. split; assumption.
Qed.

Lemma assign_id_fresh (taken : DB -> Z -> bool) (w : World) (id : Z) (rest : list Z) :
  fresh_id (taken (database w)) (random w) = Some (id, rest) ->
  assign_id 0 taken w = Return id (mkWorld (database w) (clock w) rest).
Proof. intros H. unfold assign_id. simpl. rewrite H. reflexivity. Qed.

Lemma upsert_fresh {R : Type} (pk : R -> Z) (row : R) (table : list R) :
  existsb (fun r => pk r =? pk row) table = false -> upsert pk row table = (table ++ [row])%list.
Proof. intros H. unfold upsert. rewrite H. reflexivity. Qed.

Lemma Share_objects_create_fresh (issuer subject : Z) (target_file target_directory : option Z)
    (can_write : bool) (w : World) (id : Z) (rest : list Z) :
  fresh_id (Share_exists (database w)) (random w) = Some (id, rest) ->
  Share_objects_create issuer subject target_file target_directory can_write w =
  Return (mkShare id issuer subject target_file target_directory can_write)
         (mkWorld (with_shares (database w)
                     (Share_table (database w)
                      ++ [mkShare id issuer subject target_file target_directory can_write]))
                  (clock w) rest).
Proof.
  intros Hfresh. destruct (fresh_id_free _ _ _ _ Hfresh) as [Hfree _].
  unfold Share_objects_create, Share_save.
  cbn [share_id share_issuer share_subject share_target_file share_target_directory
       share_can_write].
  rewrite (bind_Return _ _ _ _ _ (assign_id_fresh Share_exists w id rest Hfresh)).
  unfold bind, modify_db, ret. simpl.
  rewrite upsert_fresh by exact Hfree. reflexivity.
Qed.

Lemma File_objects_create_fresh (name : string) (owner parent : Z) (data : list byte)
    (w : World) (id : Z) (rest : list Z) :
  fresh_id (File_exists (database w)) (random w) = Some (id, rest) ->
  File_objects_create name owner parent data w =
  Return (mkFile id name owner parent data)
         (mkWorld (with_files (database w)
                     (File_table (database w) ++ [mkFile id name owner parent data]))
                  (clock w) rest).
Proof.
  intros Hfresh. destruct (fresh_id_free _ _ _ _ Hfresh) as [Hfree _].
  unfold File_objects_create, File_save.
  cbn [file_id file_name file_owner file_parent_directory file_data].
  rewrite (bind_Return _ _ _ _ _ (assign_id_fresh File_exists w id rest Hfresh)).
  unfold bind, modify_db, ret. cbn [database clock random].
  rewrite upsert_fresh by exact Hfree. reflexivity.
Qed.

(** ** The download and the deletion of a file, up to the check of access *)

Section FileOperations.

Variable int : string -> option Z.
Variable jwt_decode : string -> option (list (string * PyValue)).
Variable fuel : nat.

Variables (request : HttpRequest) (w w1 : World).
Variables (authenticated : StorageUser) (claims : list (string * PyValue)).
Variables (us fs : string) (user_id file_id : Z) (file_obj : File).

Hypothesis Huser : dict_get "user" (GET request) = Some us /\ int us = Some user_id.
Hypothesis Hauth :
  _verify_authenticated jwt_decode request user_id w = Return (authenticated, claims) w1.
Hypothesis Hfile : int fs = Some file_id /\ File_get (database w1) file_id = Some file_obj.

Lemma file_get_prefix :
  FileView_handle_get int jwt_decode fuel request [("file_id", fs)] w =
  (_verify_can_access fuel user_id (Some (EFile file_obj)) false ;;;
   ret (mkResponse STATUS_OK (BinaryContent (file_data file_obj))))%py w1.
Proof.
  destruct Huser as [Hu1 Hu2]. destruct Hfile as [Hf1 Hf2].
  unfold FileView_handle_get.
  rewrite (bind_Return _ _ w w tt) by reflexivity.
  rewrite (bind_Return _ _ w w user_id) by (apply (get_query_param_Return _ _ us); assumption).
  rewrite (bind_Return _ _ w w1 (authenticated, claims)) by exact Hauth.
  rewrite (bind_Return _ _ w1 w1 file_id)
    by (apply (get_kwarg_Return _ _ fs); [reflexivity | exact Hf1]).
  rewrite (bind_Return _ _ w1 w1 file_obj)
    by (apply (objects_get_Return (fun db => File_get db file_id)); exact Hf2).
  reflexivity.
Qed.

Lemma file_delete_prefix :
  FileView_handle_delete int jwt_decode fuel request [("file_id", fs)] w =
  (_verify_can_access fuel user_id (Some (EFile file_obj)) true ;;;
   parent_directory <- Directory_objects_get (file_parent_directory file_obj) ;;
   _verify_can_access fuel user_id (Some (EDirectory parent_directory)) true ;;;
   File_delete file_obj ;;;
   ret (mkResponse STATUS_OK NoContent))%py w1.
Proof.
  destruct Huser as [Hu1 Hu2]. destruct Hfile as [Hf1 Hf2].
  unfold FileView_handle_delete.
  rewrite (bind_Return _ _ w w tt) by reflexivity.
  rewrite (bind_Return _ _ w w user_id) by (apply (get_query_param_Return _ _ us); assumption).
  rewrite (bind_Return _ _ w w1 (authenticated, claims)) by exact Hauth.
  rewrite (bind_Return _ _ w1 w1 file_id)
    by (apply (get_kwarg_Return _ _ fs); [reflexivity | exact Hf1]).
  rewrite (bind_Return _ _ w1 w1 file_obj)
    by (apply (objects_get_Return (fun db => File_get db file_id)); exact Hf2).
  reflexivity.
Qed.

End FileOperations.

(** ** Creating a share *)

Section CreateShare.

Variable int : string -> option Z.
Variable jwt_decode : string -> option (list (string * PyValue)).
Variable fuel : nat.

Variables (request : HttpRequest) (w w1 : World).
Variables (authenticated issuer subject : StorageUser) (claims : list (string * PyValue)).
Variables (us ss ts target_type : string) (user_id subject_id target_id : Z).
Variables (target : Entity) (can_write : bool).

Hypothesis Huser : dict_get "user" (GET request) = Some us /\ int us = Some user_id.
Hypothesis Hauth :
  _verify_authenticated jwt_decode request user_id w = Return (authenticated, claims) w1.
Hypothesis Hissuer : StorageUser_get (database w1) user_id = Some issuer.
Hypothesis Hsubject : dict_get "subject" (GET request) = Some ss /\ int ss = Some subject_id.
Hypothesis Hsubject_row : StorageUser_get (database w1) subject_id = Some subject.
Hypothesis Htype : dict_get "targetType" (GET request) = Some target_type.
Hypothesis Htarget_id : dict_get "targetID" (GET request) = Some ts /\ int ts = Some target_id.
Hypothesis Htarget :
  (target_type = "directory" /\
   exists d, Directory_get (database w1) target_id = Some d /\ target = EDirectory d)
  \/ (target_type = "file" /\
      exists f, File_get (database w1) target_id = Some f /\ target = EFile f).
Hypothesis Hflag : flag_value request "canWrite" can_write.

Local Abbreviation tail := (share_tail fuel request issuer subject user_id subject_id target).
Local Abbreviation created := (new_share issuer subject target can_write).

Lemma share_post_prefix :
  ShareView_handle_post int jwt_decode fuel request [] w = tail w1.
Proof.
  destruct Huser as [Hu1 Hu2]. destruct Hsubject as [Hs1 Hs2]. destruct Htarget_id as [Ht1 Ht2].
  unfold ShareView_handle_post.
  rewrite (bind_Return _ _ w w tt) by reflexivity.
  rewrite (bind_Return _ _ w w user_id) by (apply (get_query_param_Return _ _ us); assumption).
  rewrite (bind_Return _ _ w w1 (authenticated, claims)) by exact Hauth.
  rewrite (bind_Return _ _ w1 w1 issuer)
    by (apply (objects_get_Return (fun db => StorageUser_get db user_id)); exact Hissuer).
  rewrite (bind_Return _ _ w1 w1 subject_id) by (apply (get_query_param_Return _ _ ss); assumption).
  rewrite (bind_Return _ _ w1 w1 subject)
    by (apply (objects_get_Return (fun db => StorageUser_get db subject_id)); exact Hsubject_row).
  unfold share_tail.
  destruct Htarget as [[Ety (d & Hd & Etg)] | [Ety (f & Hf & Etg)]]; rewrite Etg; rewrite Ety in Htype.
  - rewrite (bind_Return _ _ w1 w1 "directory")
      by (apply (get_query_param_Return _ _ "directory"); [exact Htype | reflexivity]).
    rewrite (bind_Return _ _ w1 w1 target_id) by (apply (get_query_param_Return _ _ ts); assumption).
    rewrite (bind_Return _ _ w1 w1 (EDirectory d)).
    + reflexivity.
    + simpl. apply bind_Return with (w' := w1) (a := d).
      apply (objects_get_Return (fun db => Directory_get db target_id)). exact Hd.
  - rewrite (bind_Return _ _ w1 w1 "file")
      by (apply (get_query_param_Return _ _ "file"); [exact Htype | reflexivity]).
    rewrite (bind_Return _ _ w1 w1 target_id) by (apply (get_query_param_Return _ _ ts); assumption).
    rewrite (bind_Return _ _ w1 w1 (EFile f)).
    + reflexivity.
    + simpl. apply bind_Return with (w' := w1) (a := f).
      apply (objects_get_Return (fun db => File_get db target_id)). exact Hf.
Qed.

Lemma verify_can_access_pure (user : Z) (obj : option Entity) (is_write : bool)
    (v w' : World) (a : unit) :
  _verify_can_access fuel user obj is_write v = Return a w' -> w' = v.
Proof.
  unfold _verify_can_access. destruct obj as [obj|]; [|unfold ret; congruence].
  unfold bind, lift_db, raise, ret.
  destruct (can_access fuel (database v) obj user false) as [[|]| |]; simpl; try discriminate.
  destruct is_write; [|congruence].
  destruct (can_access fuel (database v) obj user true) as [[|]| |]; simpl; try discriminate.
  congruence.
Qed.

Lemma target_owner : exists owner, attr_owner target = Some owner.
Proof.
  destruct Htarget as [[_ (d & _ & Etg)] | [_ (f & _ & Etg)]]; rewrite Etg; simpl; eauto.
Qed.

Lemma owner_can_write :
  attr_owner target = Some user_id -> (0 < fuel)%nat ->
  can_access fuel (database w1) target user_id true = Val true.
Proof.
  intros Ho Hfuel.
  destruct Htarget as [[_ (d & _ & Etg)] | [_ (f & _ & Etg)]]; rewrite Etg in *; simpl in *.
  - destruct fuel as [|n]; [lia|]. simpl.
    injection Ho as Ho. rewrite Ho, Z.eqb_refl. reflexivity.
  - unfold File_can_access. injection Ho as Ho. rewrite Ho, Z.eqb_refl. reflexivity.
Qed.

Lemma share_tail_not_owner :
  attr_owner target <> Some user_id ->
  can_access fuel (database w1) target user_id true = Val true ->
  tail w1 = Raise ErrorAccessDenied w1.
Proof.
  intros Ho Hw. unfold share_tail.
  rewrite (bind_Return _ _ w1 w1 tt) by (apply verify_can_access_write; exact Hw).
  rewrite (bind_Return _ _ w1 w1 can_write) by (apply flag_param_Return; exact Hflag).
  destruct target_owner as [owner Eo]. rewrite Eo.
  destruct (Z.eqb_spec owner user_id) as [E|E]; [congruence|]. reflexivity.
Qed.

Lemma share_tail_only_owner (r : Response) (w2 : World) :
  tail w1 = Return r w2 -> attr_owner target = Some user_id /\ subject_id <> user_id.
Proof.
  unfold share_tail. unfold bind at 1.
  destruct (_verify_can_access fuel user_id (Some target) true w1) as [[] w'| |] eqn:Hgate;
    try discriminate.
  apply verify_can_access_pure in Hgate. subst w'.
  rewrite (bind_Return _ _ w1 w1 can_write) by (apply flag_param_Return; exact Hflag).
  destruct target_owner as [owner Eo]. rewrite Eo.
  destruct (Z.eqb_spec owner user_id) as [E|E]; simpl; [|discriminate].
  rewrite (bind_Return _ _ w1 w1 tt) by reflexivity.
  destruct (Z.eqb_spec user_id subject_id) as [E'|E']; simpl; [discriminate|].
  intros _. split; [congruence | congruence].
Qed.

Lemma share_tail_invalid_subject :
  attr_owner target = Some user_id -> (0 < fuel)%nat -> subject_id = user_id ->
  tail w1 = Raise ErrorInvalidShareSubject w1.
Proof.
  intros Ho Hfuel Es. unfold share_tail.
  rewrite (bind_Return _ _ w1 w1 tt)
    by (apply verify_can_access_write; apply owner_can_write; assumption).
  rewrite (bind_Return _ _ w1 w1 can_write) by (apply flag_param_Return; exact Hflag).
  rewrite Ho, Z.eqb_refl. simpl.
  rewrite (bind_Return _ _ w1 w1 tt) by reflexivity.
  rewrite Es, Z.eqb_refl. reflexivity.
Qed.

Lemma share_tail_creates (id : Z) (rest : list Z) :
  attr_owner target = Some user_id -> (0 < fuel)%nat -> subject_id <> user_id ->
  fresh_id (Share_exists (database w1)) (random w1) = Some (id, rest) ->
  tail w1 =
  Return (mkResponse STATUS_OK (ShareContent (created id)))
         (mkWorld (with_shares (database w1) (Share_table (database w1) ++ [created id]))
                  (clock w1) rest).
Proof.
  intros Ho Hfuel Es Hfresh. unfold share_tail.
  rewrite (bind_Return _ _ w1 w1 tt)
    by (apply verify_can_access_write; apply owner_can_write; assumption).
  rewrite (bind_Return _ _ w1 w1 can_write) by (apply flag_param_Return; exact Hflag).
  rewrite Ho, Z.eqb_refl. simpl.
  rewrite (bind_Return _ _ w1 w1 tt) by reflexivity.
  destruct (Z.eqb_spec user_id subject_id) as [E|E]; [congruence|]. simpl.
  rewrite (bind_Return _ _ w1 w1 tt) by reflexivity.
  unfold new_share.
  destruct Htarget as [[_ (d & _ & Etg)] | [_ (f & _ & Etg)]]; rewrite Etg;
    rewrite (bind_Return _ _ _ _ _ (Share_objects_create_fresh _ _ _ _ _ w1 id rest Hfresh));
    reflexivity.
Qed.

Lemma share_tail_not_found :
  can_access fuel (database w1) target user_id false = Val false ->
  tail w1 = Raise ErrorNotFound w1.
Proof.
  intros Hr. unfold share_tail. apply bind_Raise. apply verify_can_access_not_found. exact Hr.
Qed.

Lemma share_tail_read_only :
  can_access fuel (database w1) target user_id false = Val true ->
  can_access fuel (database w1) target user_id true = Val false ->
  tail w1 = Raise ErrorAccessDenied w1.
Proof.
  intros Hr Hw. unfold share_tail. apply bind_Raise. apply verify_can_access_denied; assumption.
Qed.

(** C4, as the code has it.  For an authenticated issuer, an existing
    subject and an existing target: the call succeeds only if the issuer
    owns the target and the subject is another user; an issuer who cannot
    read the target is refused with the not-found error; an issuer who is
    not the owner and can read the target is refused with the permission
    error, whether it can only read the target or a share gives it write
    access as well; the owner is refused with the invalid-subject error
    when it names itself, and otherwise the share is created. *)
Theorem create_share_owner_only :
  (forall r w2,
      ShareView_handle_post int jwt_decode fuel request [] w = Return r w2 ->
      attr_owner target = Some user_id /\ subject_id <> user_id)
  /\ (can_access fuel (database w1) target user_id false = Val false ->
      ShareView_handle_post int jwt_decode fuel request [] w = Raise ErrorNotFound w1)
  /\ (can_access fuel (database w1) target user_id false = Val true ->
      can_access fuel (database w1) target user_id true = Val false ->
      ShareView_handle_post int jwt_decode fuel request [] w = Raise ErrorAccessDenied w1)
  /\ (attr_owner target <> Some user_id ->
      can_access fuel (database w1) target user_id true = Val true ->
      ShareView_handle_post int jwt_decode fuel request [] w = Raise ErrorAccessDenied w1)
  /\ ((0 < fuel)%nat -> attr_owner target = Some user_id ->
      (subject_id = user_id ->
       ShareView_handle_post int jwt_decode fuel request [] w = Raise ErrorInvalidShareSubject w1)
      /\ (subject_id <> user_id ->
          forall id rest,
            fresh_id (Share_exists (database w1)) (random w1) = Some (id, rest) ->
            ShareView_handle_post int jwt_decode fuel request [] w =
            Return (mkResponse STATUS_OK (ShareContent (created id)))
                   (mkWorld (with_shares (database w1)
                               (Share_table (database w1) ++ [created id]))
                            (clock w1) rest))).
Proof.
  rewrite share_post_prefix. split; [|split; [|split; [|split]]].
  - intros r w2. apply share_tail_only_owner.
  - apply share_tail_not_found.
  - apply share_tail_read_only.
  - apply share_tail_not_owner.
  - intros Hfuel Ho. split.
    + intros Es. apply share_tail_invalid_subject; assumption.
    + intros Es id rest Hfresh. apply share_tail_creates; assumption.
Qed.

End CreateShare.

Lemma create_share_by_grantee_refused :
  can_access 5 Example.db0 (EDirectory Example.docs) 2 true = Val true
  /\ handle (ShareView_handle_post Example.int Example.jwt_decode 5)
            (Example.request "POST" "2" "bob"
               [("subject", "3"); ("targetType", "directory"); ("targetID", "2");
                ("canWrite", EmptyString)] [])
            [] (Example.world Example.db0 1500)
     = Some (mkResponse ("permission_denied", 403) NoContent, Example.world Example.db0 1500)
  /\ handle (ShareView_handle_post Example.int Example.jwt_decode 5)
            (Example.request "POST" "2" "bob"
               [("subject", "2"); ("targetType", "directory"); ("targetID", "2")] [])
            [] (Example.world Example.db0 1500)
     = Some (mkResponse ("permission_denied", 403) NoContent, Example.world Example.db0 1500).
Proof. vm_compute. repeat split. Qed.

Lemma create_share_owner_only_witness :
  handle (ShareView_handle_post Example.int Example.jwt_decode 5)
         (Example.request "POST" "1" "alice"
            [("subject", "3"); ("targetType", "directory"); ("targetID", "2")] [])
         [] (Example.world Example.db0 1500)
  = Some (mkResponse ("ok", 200) (ShareContent (mkShare 1 1 3 None (Some 2) false)),
          mkWorld (with_shares Example.db0
                     (Share_table Example.db0 ++ [mkShare 1 1 3 None (Some 2) false]))
                  1500 [40; 41; 42]).
Proof.
  unfold handle.
  rewrite (proj2 (proj2 (proj2 (proj2 (proj2 (create_share_owner_only Example.int
             Example.jwt_decode 5
             (Example.request "POST" "1" "alice"
                [("subject", "3"); ("targetType", "directory"); ("targetID", "2")] [])
             (Example.world Example.db0 1500) (Example.world Example.db0 1500)
             (mkStorageUser 1 "alice") (mkStorageUser 1 "alice") (mkStorageUser 3 "carol")
             (Example.claims_of 1 "alice") "1" "3" "2" "directory" 1 3 2
             (EDirectory Example.docs) false
             (conj eq_refl eq_refl) eq_refl eq_refl (conj eq_refl eq_refl) eq_refl eq_refl
             (conj eq_refl eq_refl)
             (or_introl (conj eq_refl (ex_intro _ Example.docs (conj eq_refl eq_refl))))
             eq_refl))))
           ltac:(lia) eq_refl) ltac:(lia) 1 [40; 41; 42] eq_refl).
  reflexivity.
Defined.

(** ** Removing a contact *)

Lemma contacts_get_removed (db : DB) (users : list StorageUser) (user : StorageUser)
    (contact_id : Z) :
  contacts_get
    (with_users
       (with_contacts db
          (filter (fun r => negb ((fst r =? user_id user) && (snd r =? contact_id)))
                  (StorageUser_contacts db)))
       users)
    user contact_id = None.
Proof.
  unfold contacts_get, contacts_all. simpl.
  destruct (find _ _) as [c|] eqn:E; [|reflexivity].
  exfalso. apply find_some in E. destruct E as [Hin Hid].
  apply filter_In in Hin. destruct Hin as [_ Hrel].
  apply existsb_exists in Hrel. destruct Hrel as ([a b] & Hrow & Hab).
  apply filter_In in Hrow. destruct Hrow as [_ Hkept]. simpl in *.
  apply andb_true_iff in Hab. destruct Hab as [Ha Hb].
  apply Z.eqb_eq in Hid, Hb. rewrite Ha in Hkept.
  assert (Eb : b = contact_id) by congruence.
  apply Z.eqb_eq in Eb. rewrite Eb in Hkept. discriminate.
Qed.

Section RemoveContact.

Variable int : string -> option Z.
Variable jwt_decode : string -> option (list (string * PyValue)).

Variables (request : HttpRequest) (w w1 : World).
Variables (authenticated user : StorageUser) (claims : list (string * PyValue)).
Variables (us cs : string) (user_id contact_id : Z).

Hypothesis Huser : dict_get "user" (GET request) = Some us /\ int us = Some user_id.
Hypothesis Hauth :
  _verify_authenticated jwt_decode request user_id w = Return (authenticated, claims) w1.
Hypothesis Huser_row : StorageUser_get (database w1) user_id = Some user.
Hypothesis Hcontact : int cs = Some contact_id.

Lemma contact_delete_prefix :
  ContactView_handle_delete int jwt_decode request [("contact_id", cs)] w =
  (db <- get_db ;;
   get_or_raise (contacts_get db user contact_id) ;;;
   contacts_remove user contact_id ;;;
   StorageUser_save user ;;;
   ret (mkResponse STATUS_OK NoContent))%py w1.
Proof.
  destruct Huser as [Hu1 Hu2]. unfold ContactView_handle_delete.
  rewrite (bind_Return _ _ w w tt) by reflexivity.
  rewrite (bind_Return _ _ w w user_id) by (apply (get_query_param_Return _ _ us); assumption).
  rewrite (bind_Return _ _ w w1 (authenticated, claims)) by exact Hauth.
  rewrite (bind_Return _ _ w1 w1 user)
    by (apply (objects_get_Return (fun db => StorageUser_get db user_id)); exact Huser_row).
  rewrite (bind_Return _ _ w1 w1 contact_id)
    by (apply (get_kwarg_Return _ _ cs); [reflexivity | exact Hcontact]).
  reflexivity.
Qed.

(** C9, as the code has it.  Removing a contact that is among the user's
    contacts succeeds and leaves the relation absent; removing one that is
    not among them, be it never added or already removed, is answered with
    not-found and changes nothing. *)
Theorem remove_contact_requires_relation :
  (contacts_get (database w1) user contact_id = None ->
   ContactView_handle_delete int jwt_decode request [("contact_id", cs)] w
   = Raise ObjectDoesNotExist w1
   /\ response_for_exn ObjectDoesNotExist = mkResponse ("not_found", 404) NoContent)
  /\ (forall contact, contacts_get (database w1) user contact_id = Some contact ->
      ContactView_handle_delete int jwt_decode request [("contact_id", cs)] w
      = Return (mkResponse STATUS_OK NoContent) (contact_removed w1 user contact_id)
      /\ contacts_get (database (contact_removed w1 user contact_id)) user contact_id = None).
Proof.
  split.
  - intros Hnone. split; [|reflexivity].
    rewrite contact_delete_prefix. unfold bind, get_db. rewrite Hnone. reflexivity.
  - intros contact Hsome. split; [|apply contacts_get_removed].
    rewrite contact_delete_prefix. unfold bind, get_db. rewrite Hsome. reflexivity.
Qed.

End RemoveContact.

Lemma remove_absent_contact_not_found :
  contacts_get Example.db0 (mkStorageUser 1 "alice") 3 = None
  /\ handle (ContactView_handle_delete Example.int Example.jwt_decode)
            (Example.request "DELETE" "1" "alice" [] []) [("contact_id", "3")]
            (Example.world Example.db0 1500)
     = Some (mkResponse ("not_found", 404) NoContent, Example.world Example.db0 1500)
  /\ (exists w2,
        handle (ContactView_handle_delete Example.int Example.jwt_decode)
               (Example.request "DELETE" "1" "alice" [] []) [("contact_id", "2")]
               (Example.world Example.db0 1500)
        = Some (mkResponse ("ok", 200) NoContent, w2)
        /\ handle (ContactView_handle_delete Example.int Example.jwt_decode)
                  (Example.request "DELETE" "1" "alice" [] []) [("contact_id", "2")] w2
           = Some (mkResponse ("not_found", 404) NoContent, w2)).
Proof.
  split; [reflexivity|]. split; [reflexivity|].
  eexists. split; vm_compute; reflexivity.
Qed.

Lemma remove_contact_witness :
  ContactView_handle_delete Example.int Example.jwt_decode
    (Example.request "DELETE" "1" "alice" [] []) [("contact_id", "2")]
    (Example.world Example.db0 1500)
  = Return (mkResponse STATUS_OK NoContent)
           (contact_removed (Example.world Example.db0 1500) (mkStorageUser 1 "alice") 2)
  /\ ContactView_handle_delete Example.int Example.jwt_decode
       (Example.request "DELETE" "1" "alice" [] []) [("contact_id", "3")]
       (Example.world Example.db0 1500)
     = Raise ObjectDoesNotExist (Example.world Example.db0 1500).
Proof.
  split.
  - apply (proj2 (remove_contact_requires_relation Example.int Example.jwt_decode
                    (Example.request "DELETE" "1" "alice" [] [])
                    (Example.world Example.db0 1500) (Example.world Example.db0 1500)
                    (mkStorageUser 1 "alice") (mkStorageUser 1 "alice")
                    (Example.claims_of 1 "alice") "1" "2" 1 2
                    (conj eq_refl eq_refl) eq_refl eq_refl eq_refl)
                 (mkStorageUser 2 "bob") eq_refl).
  - apply (proj1 (remove_contact_requires_relation Example.int Example.jwt_decode
                    (Example.request "DELETE" "1" "alice" [] [])
                    (Example.world Example.db0 1500) (Example.world Example.db0 1500)
                    (mkStorageUser 1 "alice") (mkStorageUser 1 "alice")
                    (Example.claims_of 1 "alice") "1" "3" 1 3
                    (conj eq_refl eq_refl) eq_refl eq_refl eq_refl)
                 eq_refl).
Defined.

(** ** Moving a directory *)

Lemma World_eta (w : World) : mkWorld (database w) (clock w) (random w) = w.
Proof. destruct w. reflexivity. Qed.

Lemma movable_loop_cycle (db : DB) (D : Directory) (x : Directory) (n : nat) :
  descends db D x n ->
  forall fuel, (n < fuel)%nat -> movable_loop fuel db D (Some x) = Exc ErrorCyclicDirectoryTree.
Proof.
  induction 1 as [|x parent pid n Hp Hget Hd IH]; intros fuel Hfuel.
  - destruct fuel as [|k]; [lia|]. simpl. rewrite Z.eqb_refl. reflexivity.
  - destruct fuel as [|k]; [lia|]. simpl.
    destruct (dir_id D =? dir_id x); [reflexivity|].
    unfold Directory_parent. rewrite Hp, Hget. apply IH. lia.
Qed.

Lemma movable_loop_outside (db : DB) (D : Directory) (x : Directory) (n : nat) :
  outside db D x n ->
  forall fuel, (n < fuel)%nat -> movable_loop fuel db D (Some x) = Val tt.
Proof.
  induction 1 as [x Hid Hp|x parent pid n Hid Hp Hget Ho IH]; intros fuel Hfuel.
  - destruct fuel as [|k]; [lia|]. simpl.
    destruct (Z.eqb_spec (dir_id D) (dir_id x)) as [E|E]; [congruence|].
    unfold Directory_parent. rewrite Hp. destruct k; reflexivity.
  - destruct fuel as [|k]; [lia|]. simpl.
    destruct (Z.eqb_spec (dir_id D) (dir_id x)) as [E|E]; [congruence|].
    unfold Directory_parent. rewrite Hp, Hget. apply IH. lia.
Qed.

Lemma same_owner_three (a b c : Directory) :
  _verify_same_owner [Some (EDirectory a); Some (EDirectory b); Some (EDirectory c)] =
  if (dir_owner b =? dir_owner a) && (dir_owner c =? dir_owner a)
  then Val tt else Exc ErrorTransferralRejected.
Proof.
  unfold _verify_same_owner. simpl. rewrite Z.eqb_refl. simpl.
  destruct (dir_owner b =? dir_owner a); simpl; [|reflexivity].
  destruct (dir_owner c =? dir_owner a); reflexivity.
Qed.

Lemma get_query_param_optional_str (req : HttpRequest) (name : string) (w : World) :
  _get_query_param_optional req name str w = Return (dict_get name (GET req)) w.
Proof.
  unfold _get_query_param_optional, str. destruct (dict_get name (GET req)); reflexivity.
Qed.

Lemma atomic_Raise {A : Type} (m : M World A) (w : World) (e : exn) (w' : World) :
  m w = Raise e w' -> clock w' = clock w -> random w' = random w ->
  atomic m w = Raise e w.
Proof.
  intros H Hc Hr. unfold atomic. rewrite H, Hc, Hr. rewrite World_eta. reflexivity.
Qed.

Lemma upsert_owner (d : Directory) (table : list Directory) :
  NoDup (map dir_id table) ->
  (forall r, In r table -> dir_id r = dir_id d -> dir_owner r = dir_owner d) ->
  existsb (fun r => dir_id r =? dir_id d) table = true ->
  map dir_owner (upsert dir_id d table) = map dir_owner table
  /\ map dir_id (upsert dir_id d table) = map dir_id table.
Proof.
  intros _ Hsame Hex. unfold upsert. rewrite Hex. rewrite !map_map.
  split; apply map_ext_in; intros r Hin;
    destruct (Z.eqb_spec (dir_id r) (dir_id d)) as [E|E]; try reflexivity.
  - symmetry. apply Hsame; assumption.
  - symmetry. exact E.
Qed.

Lemma Directory_get_In (db : DB) (id : Z) (d : Directory) :
  Directory_get db id = Some d -> In d (Directory_table db) /\ dir_id d = id.
Proof.
  unfold Directory_get. intros H. apply find_some in H. destruct H as [Hin Hid].
  apply Z.eqb_eq in Hid. split; assumption.
Qed.

Lemma Directory_save_existing (d : Directory) (w : World) :
  dir_id d <> 0 ->
  Directory_save d w =
  Return d (mkWorld (with_directories (database w) (upsert dir_id d (Directory_table (database w))))
                    (clock w) (random w)).
Proof.
  intros Hid. unfold Directory_save, bind, assign_id, modify_db, ret.
  destruct (Z.eqb_spec (dir_id d) 0) as [E|E]; [contradiction|]. simpl.
  destruct d. reflexivity.
Qed.

Lemma lift_db_Timeout {A : Type} (q : DB -> res A) (w : World) :
  q (database w) = Timeout -> lift_db q w = Diverge.
Proof. intros H. unfold lift_db. rewrite H. reflexivity. Qed.

Lemma bind_Diverge {W A B : Type} (m : M W A) (k : A -> M W B) (w : W) :
  m w = Diverge -> bind m k w = Diverge.
Proof. intros H. unfold bind. rewrite H. reflexivity. Qed.

Lemma bind_assoc {W A B C : Type} (m : M W A) (f : A -> M W B) (g : B -> M W C) (w : W) :
  bind (bind m f) g w = bind m (fun x => bind (f x) g) w.
Proof. unfold bind. destruct (m w); reflexivity. Qed.

Lemma NoDup_pk {R : Type} (pk : R -> Z) (table : list R) (a b : R) :
  NoDup (map pk table) -> In a table -> In b table -> pk a = pk b -> a = b.
Proof.
  induction table as [|r table IH]; simpl; [contradiction|].
  intros Hnd Ha Hb E. inversion Hnd as [|x l Hnotin Hnd']. subst.
  destruct Ha as [Ha|Ha], Hb as [Hb|Hb].
  - congruence.
  - subst a. exfalso. apply Hnotin. rewrite E. apply in_map. exact Hb.
  - subst b. exfalso. apply Hnotin. rewrite <- E. apply in_map. exact Ha.
  - apply IH; assumption.
Qed.

Section MoveDirectory.

Variable int : string -> option Z.
Variable jwt_decode : string -> option (list (string * PyValue)).
Variable fuel : nat.

Variables (request : HttpRequest) (w w1 : World).
Variables (authenticated : StorageUser) (claims : list (string * PyValue)).
Variables (us ds ps : string) (user_id directory_id target_id : Z).
Variables (directory target : Directory).

Hypothesis Huser : dict_get "user" (GET request) = Some us /\ int us = Some user_id.
Hypothesis Hauth :
  _verify_authenticated jwt_decode request user_id w = Return (authenticated, claims) w1.
Hypothesis Htarget_id :
  dict_get "parentDirectory" (GET request) = Some ps /\ int ps = Some target_id.
Hypothesis Hdirectory :
  int ds = Some directory_id /\ Directory_get (database w1) directory_id = Some directory.
Hypothesis Hwrite :
  can_access fuel (database w1) (EDirectory directory) user_id true = Val true.
Hypothesis Htarget : Directory_get (database w1) target_id = Some target.
Hypothesis Htarget_write :
  can_access fuel (database w1) (EDirectory target) user_id true = Val true.

Local Abbreviation block := (move_block fuel request user_id target_id directory).
Local Abbreviation moved := (moved_directory request directory target).
Local Abbreviation checks := (move_checks fuel request w1 directory target).

Lemma move_prefix (current_dir : option Directory) :
  Directory_parent (database w1) directory = Val current_dir ->
  DirectoryView_handle_put int jwt_decode fuel request [("directory_id", ds)] w =
  (directory <- atomic (block current_dir) ;;
   ret (mkResponse STATUS_OK (DirectoryContent directory)))%py w1.
Proof.
  intros Hcur.
  destruct Huser as [Hu1 Hu2]. destruct Htarget_id as [Ht1 Ht2]. destruct Hdirectory as [Hd1 Hd2].
  unfold DirectoryView_handle_put.
  rewrite (bind_Return _ _ w w tt) by reflexivity.
  rewrite (bind_Return _ _ w w user_id) by (apply (get_query_param_Return _ _ us); assumption).
  rewrite (bind_Return _ _ w w1 (authenticated, claims)) by exact Hauth.
  rewrite (bind_Return _ _ w1 w1 (dict_get "name" (GET request)))
    by apply get_query_param_optional_str.
  rewrite (bind_Return _ _ w1 w1 (Some target_id))
    by (apply (get_query_param_optional_Some _ _ ps); assumption).
  rewrite (bind_Return _ _ w1 w1 directory_id)
    by (apply (get_kwarg_Return _ _ ds); [reflexivity | exact Hd1]).
  rewrite (bind_Return _ _ w1 w1 directory)
    by (apply (objects_get_Return (fun db => Directory_get db directory_id)); exact Hd2).
  rewrite (bind_Return _ _ w1 w1 tt) by (apply verify_can_access_write; exact Hwrite).
  rewrite orb_true_r.
  unfold move_block, atomic, bind.
  rewrite (lift_db_Val _ w1 current_dir Hcur).
  reflexivity.
Qed.

Lemma move_block_checks (current_dir : option Directory) :
  _verify_can_access fuel user_id (option_map EDirectory current_dir) true w1 = Return tt w1 ->
  block current_dir w1 =
  match checks current_dir with
  | Val _ => Directory_save (moved current_dir) w1
  | Exc e => Raise e w1
  | Timeout => Diverge
  end.
Proof.
  intros Hgate. unfold move_block, move_checks.
  rewrite ?bind_assoc. rewrite (bind_Return _ _ w1 w1 tt Hgate).
  rewrite ?bind_assoc.
  rewrite (bind_Return _ _ w1 w1 target)
    by (apply (objects_get_Return (fun db => Directory_get db target_id)); exact Htarget).
  rewrite ?bind_assoc.
  rewrite (bind_Return _ _ w1 w1 tt) by (apply verify_can_access_write; exact Htarget_write).
  rewrite ?bind_assoc.
  destruct (_verify_movable fuel directory (Some target) (database w1)) as [[]|e|] eqn:Hm;
    [rewrite (bind_Return _ _ w1 w1 tt) by (apply lift_db_Val; exact Hm)
    |rewrite (bind_Raise _ _ w1 w1 e) by (apply lift_db_Exc; exact Hm); reflexivity
    |rewrite bind_Diverge by (apply lift_db_Timeout; exact Hm); reflexivity].
  rewrite ?bind_assoc.
  destruct (_verify_same_owner _) as [[]|e|] eqn:Ho;
    [rewrite (bind_Return _ _ w1 w1 tt) by (apply lift_db_Val; reflexivity)
    |rewrite (bind_Raise _ _ w1 w1 e) by (apply lift_db_Exc; reflexivity); reflexivity
    |rewrite bind_Diverge by (apply lift_db_Timeout; reflexivity); reflexivity].
  rewrite ?bind_assoc. rewrite (bind_Return _ _ w1 w1 _ eq_refl).
  cbn [fst snd res_bind]. fold (moved current_dir).
  rewrite ?bind_assoc.
  destruct (_verify_unique_names _ _ (database w1)) as [[]|e|] eqn:Hn;
    [rewrite (bind_Return _ _ w1 w1 tt) by (apply lift_db_Val; exact Hn)
    |rewrite (bind_Raise _ _ w1 w1 e) by (apply lift_db_Exc; exact Hn); reflexivity
    |rewrite bind_Diverge by (apply lift_db_Timeout; exact Hn); reflexivity].
  reflexivity.
Qed.


Lemma handle_put_checks (current_dir : option Directory) :
  Directory_parent (database w1) directory = Val current_dir ->
  _verify_can_access fuel user_id (option_map EDirectory current_dir) true w1 = Return tt w1 ->
  DirectoryView_handle_put int jwt_decode fuel request [("directory_id", ds)] w =
  match checks current_dir with
  | Val _ =>
      (saved <- Directory_save (moved current_dir) ;;
       ret (mkResponse STATUS_OK (DirectoryContent saved)))%py w1
  | Exc e => Raise e w1
  | Timeout => Diverge
  end.
Proof.
  intros Hcur Hgate. rewrite (move_prefix current_dir Hcur).
  pose proof (move_block_checks current_dir Hgate) as Hblock.
  destruct (checks current_dir) as [[]|e|].
  - unfold bind at 1. unfold atomic. rewrite Hblock. unfold bind.
    destruct (Directory_save (moved current_dir) w1) as [saved w2|e w2|] eqn:Hs;
      try reflexivity.
    exfalso. revert Hs. unfold Directory_save, bind, assign_id, modify_db, ret.
    destruct (negb _); [discriminate|].
    destruct (fresh_id _ _) as [[id rest]|]; discriminate.
  - apply bind_Raise. apply (atomic_Raise _ w1 e w1 Hblock); reflexivity.
  - apply bind_Diverge. unfold atomic. rewrite Hblock. reflexivity.
Qed.

Lemma moved_directory_owner (current_dir : option Directory) :
  dir_owner (moved current_dir) = dir_owner directory
  /\ dir_id (moved current_dir) = dir_id directory.
Proof.
  unfold moved_directory.
  destruct (dict_get "name" (GET request)); destruct (differs current_dir target);
    split; reflexivity.
Qed.

(** C6.  A move of a directory, by a caller who may write the directory,
    its current parent and the target parent: a root is answered with
    [unmovable_directory]; a directory whose target parent is the directory
    itself or lies below it is answered with [cycle_detected]; a target
    parent outside the directory's subtree is answered with
    [transferral_rejected] unless directory, current parent and target
    parent have one owner.  Each refusal leaves the world as it was, and a
    move that succeeds changes the owner of no directory and of no file. *)
Theorem move_directory_rejections :
  (dir_parent directory = None ->
   DirectoryView_handle_put int jwt_decode fuel request [("directory_id", ds)] w
   = Raise ErrorUnmovableDirectory w1)
  /\ (forall cid current,
        dir_parent directory = Some cid ->
        Directory_get (database w1) cid = Some current ->
        can_access fuel (database w1) (EDirectory current) user_id true = Val true ->
        (forall n, descends (database w1) directory target n -> (n < fuel)%nat ->
            DirectoryView_handle_put int jwt_decode fuel request [("directory_id", ds)] w
            = Raise ErrorCyclicDirectoryTree w1)
        /\ (forall n, outside (database w1) directory target n -> (n < fuel)%nat ->
            ~ (dir_owner current = dir_owner directory
               /\ dir_owner target = dir_owner directory) ->
            DirectoryView_handle_put int jwt_decode fuel request [("directory_id", ds)] w
            = Raise ErrorTransferralRejected w1)
        /\ (forall r w2,
            DirectoryView_handle_put int jwt_decode fuel request [("directory_id", ds)] w
            = Return r w2 ->
            directory_id <> 0 ->
            dir_owner current = dir_owner directory
            /\ dir_owner target = dir_owner directory
            /\ File_table (database w2) = File_table (database w1)
            /\ (exists saved,
                  r = mkResponse STATUS_OK (DirectoryContent saved)
                  /\ dir_id saved = dir_id directory
                  /\ dir_owner saved = dir_owner directory)
            /\ (NoDup (map dir_id (Directory_table (database w1))) ->
                map dir_id (Directory_table (database w2))
                = map dir_id (Directory_table (database w1))
                /\ map dir_owner (Directory_table (database w2))
                   = map dir_owner (Directory_table (database w1)))))
  /\ response_for_exn ErrorUnmovableDirectory = mkResponse ("unmovable_directory", 422) NoContent
  /\ response_for_exn ErrorCyclicDirectoryTree = mkResponse ("cycle_detected", 409) NoContent
  /\ response_for_exn ErrorTransferralRejected = mkResponse ("transferral_rejected", 422) NoContent.
Proof.
  split; [|split; [|repeat split]].
  - intros Hroot.
    rewrite (handle_put_checks None);
      [|unfold Directory_parent; rewrite Hroot; reflexivity | reflexivity].
    unfold move_checks, _verify_movable. rewrite Hroot. reflexivity.
  - intros cid current Hp Hcur Hcur_write.
    assert (Hchecks :
      DirectoryView_handle_put int jwt_decode fuel request [("directory_id", ds)] w =
      match checks (Some current) with
      | Val _ =>
          (saved <- Directory_save (moved (Some current)) ;;
           ret (mkResponse STATUS_OK (DirectoryContent saved)))%py w1
      | Exc e => Raise e w1
      | Timeout => Diverge
      end).
    { apply handle_put_checks.
      - unfold Directory_parent. rewrite Hp, Hcur. reflexivity.
      - apply verify_can_access_write. exact Hcur_write. }
    assert (Hmov : _verify_movable fuel directory (Some target) (database w1) =
                   movable_loop fuel (database w1) directory (Some target)).
    { unfold _verify_movable. rewrite Hp. reflexivity. }
    split; [|split].
    + intros n Hd Hfuel. rewrite Hchecks. unfold move_checks.
      rewrite Hmov, (movable_loop_cycle _ _ _ _ Hd fuel Hfuel). reflexivity.
    + intros n Ho Hfuel Howners. rewrite Hchecks. unfold move_checks.
      rewrite Hmov, (movable_loop_outside _ _ _ _ Ho fuel Hfuel).
      cbn [res_bind option_map]. rewrite same_owner_three.
      destruct (Z.eqb_spec (dir_owner current) (dir_owner directory)) as [E1|E1];
        [|reflexivity].
      destruct (Z.eqb_spec (dir_owner target) (dir_owner directory)) as [E2|E2];
        [|reflexivity].
      exfalso. apply Howners. split; assumption.
    + intros r w2 Hret Hid. rewrite Hchecks in Hret. unfold move_checks in Hret.
      destruct (_verify_movable fuel directory (Some target) (database w1)) as [[]|e|];
        try discriminate.
      cbn [res_bind option_map] in Hret. rewrite same_owner_three in Hret.
      destruct (Z.eqb_spec (dir_owner current) (dir_owner directory)) as [E1|E1];
        [|discriminate].
      destruct (Z.eqb_spec (dir_owner target) (dir_owner directory)) as [E2|E2];
        [|discriminate].
      cbn [andb res_bind] in Hret.
      destruct (_verify_unique_names _ _ (database w1)) as [[]|e|]; try discriminate.
      destruct (moved_directory_owner (Some current)) as [Hown Hsame].
      destruct (Directory_get_In _ _ _ (proj2 Hdirectory)) as [Hin Hdid].
      assert (Hnz : dir_id (moved (Some current)) <> 0) by congruence.
      rewrite (bind_Return _ _ w1 _ _ (Directory_save_existing _ w1 Hnz)) in Hret.
      unfold ret in Hret. injection Hret as <- <-.
      split; [exact E1|]. split; [exact E2|]. split; [reflexivity|]. split.
      * exists (moved (Some current)). repeat split; assumption.
      * intros Hpk. cbn [database with_directories Directory_table].
        apply and_comm. apply upsert_owner.
        -- exact Hpk.
        -- intros x Hx Ex. rewrite Hsame in Ex.
           rewrite (NoDup_pk dir_id _ x directory Hpk Hx Hin Ex). symmetry. exact Hown.
        -- apply existsb_exists. exists directory. split; [exact Hin|].
           rewrite Hsame. apply Z.eqb_refl.
Qed.

End MoveDirectory.

Lemma move_directory_witness :
  DirectoryView_handle_put Example.int Example.jwt_decode 5
    (Example.request "PUT" "1" "alice" [("parentDirectory", "2")] []) [("directory_id", "1")]
    (Example.world Example.db0 1500)
  = Raise ErrorUnmovableDirectory (Example.world Example.db0 1500)
  /\ DirectoryView_handle_put Example.int Example.jwt_decode 5
       (Example.request "PUT" "1" "alice" [("parentDirectory", "3")] []) [("directory_id", "2")]
       (Example.world Example.db0 1500)
     = Raise ErrorCyclicDirectoryTree (Example.world Example.db0 1500)
  /\ DirectoryView_handle_put Example.int Example.jwt_decode 5
       (Example.request "PUT" "1" "alice" [("parentDirectory", "10")] []) [("directory_id", "2")]
       (Example.world Example.db0 1500)
     = Raise ErrorTransferralRejected (Example.world Example.db0 1500)
  /\ (exists r w2,
        DirectoryView_handle_put Example.int Example.jwt_decode 5
          (Example.request "PUT" "1" "alice" [("parentDirectory", "1")] []) [("directory_id", "3")]
          (Example.world Example.db0 1500)
        = Return r w2
        /\ r = mkResponse STATUS_OK (DirectoryContent (mkDirectory 3 "deep" 1 (Some 1)))
        /\ map dir_owner (Directory_table (database w2))
           = map dir_owner (Directory_table Example.db0)).
Proof.
  split; [|split; [|split]].
  - apply (proj1 (move_directory_rejections Example.int Example.jwt_decode 5
                    (Example.request "PUT" "1" "alice" [("parentDirectory", "2")] [])
                    (Example.world Example.db0 1500) (Example.world Example.db0 1500)
                    (mkStorageUser 1 "alice") (Example.claims_of 1 "alice")
                    "1" "1" "2" 1 1 2 Example.root1 Example.docs
                    (conj eq_refl eq_refl) eq_refl (conj eq_refl eq_refl)
                    (conj eq_refl eq_refl) eq_refl eq_refl eq_refl)).
    reflexivity.
  - apply (proj1 (proj1 (proj2 (move_directory_rejections Example.int Example.jwt_decode 5
                    (Example.request "PUT" "1" "alice" [("parentDirectory", "3")] [])
                    (Example.world Example.db0 1500) (Example.world Example.db0 1500)
                    (mkStorageUser 1 "alice") (Example.claims_of 1 "alice")
                    "1" "2" "3" 1 2 3 Example.docs Example.deep
                    (conj eq_refl eq_refl) eq_refl (conj eq_refl eq_refl)
                    (conj eq_refl eq_refl) eq_refl eq_refl eq_refl))
                  1 Example.root1 eq_refl eq_refl eq_refl) 1%nat).
    + apply (descends_step _ _ Example.deep Example.docs 2 0%nat);
        [reflexivity | reflexivity | apply descends_here].
    + lia.
  - apply (proj1 (proj2 (proj1 (proj2 (move_directory_rejections Example.int Example.jwt_decode 5
                    (Example.request "PUT" "1" "alice" [("parentDirectory", "10")] [])
                    (Example.world Example.db0 1500) (Example.world Example.db0 1500)
                    (mkStorageUser 1 "alice") (Example.claims_of 1 "alice")
                    "1" "2" "10" 1 2 10 Example.docs Example.root2
                    (conj eq_refl eq_refl) eq_refl (conj eq_refl eq_refl)
                    (conj eq_refl eq_refl) eq_refl eq_refl eq_refl))
                  1 Example.root1 eq_refl eq_refl eq_refl)) 0%nat).
    + apply outside_root; [discriminate | reflexivity].
    + lia.
    + simpl. intros [_ H]. discriminate.
  - eexists. eexists. split; [vm_compute; reflexivity|]. split; [reflexivity|].
    pose proof (proj2 (proj2 (proj1 (proj2 (move_directory_rejections
                    Example.int Example.jwt_decode 5
                    (Example.request "PUT" "1" "alice" [("parentDirectory", "1")] [])
                    (Example.world Example.db0 1500) (Example.world Example.db0 1500)
                    (mkStorageUser 1 "alice") (Example.claims_of 1 "alice")
                    "1" "3" "1" 1 3 1 Example.deep Example.root1
                    (conj eq_refl eq_refl) eq_refl (conj eq_refl eq_refl)
                    (conj eq_refl eq_refl) eq_refl eq_refl eq_refl))
                  2 Example.docs eq_refl eq_refl eq_refl))) as Hok.
    destruct (Hok _ _ eq_refl ltac:(discriminate)) as (_ & _ & _ & _ & Hmap).
    apply Hmap. simpl. repeat constructor; simpl; intuition discriminate.
Defined.

(** ** Writing files *)

Lemma len_zeros (n : Z) : 0 <= n -> len (Example.zeros n) = n.
Proof.
  intros H. unfold len, Example.zeros. rewrite repeat_length. apply Z2Nat.id. exact H.
Qed.

Lemma sum_length_app (a b : list File) : sum_length (a ++ b) = sum_length a + sum_length b.
Proof.
  induction a as [|f a IH]; simpl; [reflexivity|]. rewrite IH. lia.
Qed.

Lemma usage_sum (db : DB) (u : Z) :
  usage db u None = sum_length (filter (fun f => file_owner f =? u) (File_table db)).
Proof. rewrite <- quota_query_usage. reflexivity. Qed.

Section Upload.

Variable int : string -> option Z.
Variable jwt_decode : string -> option (list (string * PyValue)).
Variable fuel : nat.

Variables (request : HttpRequest) (w w1 : World).
Variables (authenticated : StorageUser) (claims : list (string * PyValue)).
Variables (us ps file_name : string) (user_id parent_directory_id : Z).
Variable parent_directory : Directory.

Hypothesis Huser : dict_get "user" (GET request) = Some us /\ int us = Some user_id.
Hypothesis Hauth :
  _verify_authenticated jwt_decode request user_id w = Return (authenticated, claims) w1.
Hypothesis Hname : dict_get "name" (GET request) = Some file_name.
Hypothesis Hparent :
  dict_get "parentDirectory" (GET request) = Some ps /\ int ps = Some parent_directory_id.
Hypothesis Hdirectory : Directory_get (database w1) parent_directory_id = Some parent_directory.
Hypothesis Hwrite :
  can_access fuel (database w1) (EDirectory parent_directory) user_id true = Val true.
Hypothesis Hunique :
  _verify_unique_names (inl file_name) (Some parent_directory) (database w1) = Val tt.

Local Abbreviation new_file := (uploaded request file_name parent_directory).
Local Abbreviation after := (after_upload request w1 file_name parent_directory).

Lemma request_body_Return (req : HttpRequest) (v : World) :
  len (body req) <= DATA_UPLOAD_MAX_MEMORY_SIZE -> request_body req v = Return (body req) v.
Proof.
  intros H. unfold request_body.
  destruct (Z.gtb_spec (len (body req)) DATA_UPLOAD_MAX_MEMORY_SIZE); [lia | reflexivity].
Qed.

Lemma request_body_Raise (req : HttpRequest) (v : World) :
  len (body req) > DATA_UPLOAD_MAX_MEMORY_SIZE -> request_body req v = Raise OtherException v.
Proof.
  intros H. unfold request_body.
  destruct (Z.gtb_spec (len (body req)) DATA_UPLOAD_MAX_MEMORY_SIZE); [reflexivity | lia].
Qed.

Lemma post_checks :
  FileView_handle_post int jwt_decode fuel request [] w =
  if len (body request) >? DATA_UPLOAD_MAX_MEMORY_SIZE then Raise OtherException w1
  else if len (body request) >? LIMIT_SINGLE_FILE_SIZE then Raise ErrorQuotaExceeded w1
  else if quota_query (database w1) user_id None + len (body request) >? LIMIT_USER_TOTAL_SIZE
       then Raise ErrorQuotaExceeded w1
       else (file_obj <- File_objects_create file_name (dir_owner parent_directory)
                           (dir_id parent_directory) (body request) ;;
             ret (mkResponse STATUS_OK (FileContent file_obj)))%py w1.
Proof.
  destruct Huser as [Hu1 Hu2]. destruct Hparent as [Hp1 Hp2].
  unfold FileView_handle_post.
  rewrite (bind_Return _ _ w w tt) by reflexivity.
  rewrite (bind_Return _ _ w w user_id) by (apply (get_query_param_Return _ _ us); assumption).
  rewrite (bind_Return _ _ w w1 (authenticated, claims)) by exact Hauth.
  rewrite (bind_Return _ _ w1 w1 file_name)
    by (apply (get_query_param_Return _ _ file_name); [exact Hname | reflexivity]).
  rewrite (bind_Return _ _ w1 w1 parent_directory_id)
    by (apply (get_query_param_Return _ _ ps); assumption).
  rewrite (bind_Return _ _ w1 w1 parent_directory)
    by (apply (objects_get_Return (fun db => Directory_get db parent_directory_id));
        exact Hdirectory).
  rewrite (bind_Return _ _ w1 w1 tt) by (apply verify_can_access_write; exact Hwrite).
  rewrite (bind_Return _ _ w1 w1 tt) by (apply lift_db_Val; exact Hunique).
  destruct (Z.gtb_spec (len (body request)) DATA_UPLOAD_MAX_MEMORY_SIZE) as [Hbig|Hbig].
  { apply bind_Raise. apply request_body_Raise. lia. }
  rewrite (bind_Return _ _ w1 w1 (body request)) by (apply request_body_Return; exact Hbig).
  destruct (len (body request) >? LIMIT_SINGLE_FILE_SIZE); [reflexivity|].
  rewrite (bind_Return _ _ w1 w1 tt) by reflexivity.
  unfold bind at 1. unfold atomic.
  unfold _verify_quota.
  destruct (quota_query (database w1) user_id None + len (body request) >? LIMIT_USER_TOTAL_SIZE)
    eqn:Hq.
  - rewrite (bind_Raise _ _ w1 w1 ErrorQuotaExceeded).
    + rewrite World_eta. reflexivity.
    + apply lift_db_Exc. rewrite Hq. reflexivity.
  - rewrite (bind_Return _ _ w1 w1 tt) by (apply lift_db_Val; rewrite Hq; reflexivity).
    unfold bind.
    destruct (File_objects_create _ _ _ _ w1) as [f w2|e w2|] eqn:Hc; try reflexivity.
    exfalso. revert Hc. unfold File_objects_create, File_save, bind, assign_id, modify_db, ret.
    destruct (negb _); [discriminate|].
    destruct (fresh_id _ _) as [[id rest]|]; discriminate.
Qed.

(** A body over the cap of a single file is over the bound of the
    settings, which is the same number: reading it fails, and the
    comparison with [LIMIT_SINGLE_FILE_SIZE] is never reached with a body
    that exceeds it. *)
Lemma post_over_cap :
  len (body request) > LIMIT_SINGLE_FILE_SIZE ->
  FileView_handle_post int jwt_decode fuel request [] w = Raise OtherException w1.
Proof.
  intros H. rewrite post_checks.
  destruct (Z.gtb_spec (len (body request)) DATA_UPLOAD_MAX_MEMORY_SIZE) as [Hbig|Hbig];
    [reflexivity|].
  unfold DATA_UPLOAD_MAX_MEMORY_SIZE in Hbig. unfold LIMIT_SINGLE_FILE_SIZE in H. lia.
Qed.

Lemma post_accepts (id : Z) (rest : list Z) :
  len (body request) <= LIMIT_SINGLE_FILE_SIZE ->
  usage (database w1) user_id None + len (body request) <= LIMIT_USER_TOTAL_SIZE ->
  fresh_id (File_exists (database w1)) (random w1) = Some (id, rest) ->
  FileView_handle_post int jwt_decode fuel request [] w =
  Return (mkResponse STATUS_OK (FileContent (new_file id))) (after id rest).
Proof.
  intros Hcap Hquota Hfresh. rewrite post_checks. rewrite quota_query_usage.
  destruct (Z.gtb_spec (len (body request)) DATA_UPLOAD_MAX_MEMORY_SIZE) as [Hbig|Hbig];
    [unfold DATA_UPLOAD_MAX_MEMORY_SIZE in Hbig; unfold LIMIT_SINGLE_FILE_SIZE in Hcap; lia|].
  destruct (Z.gtb_spec (len (body request)) LIMIT_SINGLE_FILE_SIZE); [lia|].
  destruct (Z.gtb_spec (usage (database w1) user_id None + len (body request))
                       LIMIT_USER_TOTAL_SIZE); [lia|].
  rewrite (bind_Return _ _ _ _ _ (File_objects_create_fresh _ _ _ _ w1 id rest Hfresh)).
  reflexivity.
Qed.

(** The upload is charged to the owner of the directory. *)
Lemma after_upload_usage (id : Z) (rest : list Z) :
  usage (database (after id rest)) (dir_owner parent_directory) None =
  usage (database w1) (dir_owner parent_directory) None + len (body request).
Proof.
  rewrite !usage_sum. unfold after_upload. cbn [database with_files File_table].
  rewrite filter_app, sum_length_app. cbn [filter uploaded file_owner].
  rewrite Z.eqb_refl. cbn [sum_length fold_right]. unfold uploaded. cbn [file_data]. lia.
Qed.

(** An upload by the owner of the directory keeps the owner under the
    ceiling. *)
Lemma owner_upload_within_ceiling (id : Z) (rest : list Z) (r : Response) :
  user_id = dir_owner parent_directory ->
  FileView_handle_post int jwt_decode fuel request [] w = Return r (after id rest) ->
  usage (database (after id rest)) user_id None <= LIMIT_USER_TOTAL_SIZE.
Proof.
  intros Howner Hret. rewrite post_checks in Hret.
  destruct (len (body request) >? DATA_UPLOAD_MAX_MEMORY_SIZE); [discriminate|].
  destruct (len (body request) >? LIMIT_SINGLE_FILE_SIZE); [discriminate|].
  rewrite quota_query_usage in Hret.
  destruct (Z.gtb_spec (usage (database w1) user_id None + len (body request))
                       LIMIT_USER_TOTAL_SIZE) as [Hgt|Hle]; [discriminate|].
  rewrite Howner in Hle |- *. rewrite after_upload_usage. exact Hle.
Qed.

End Upload.

Section UpdateContent.

Variable int : string -> option Z.
Variable jwt_decode : string -> option (list (string * PyValue)).
Variable fuel : nat.

Variables (request : HttpRequest) (w w1 : World).
Variables (authenticated : StorageUser) (claims : list (string * PyValue)).
Variables (us fs : string) (user_id file_id : Z).
Variable file_obj : File.

Hypothesis Huser : dict_get "user" (GET request) = Some us /\ int us = Some user_id.
Hypothesis Hauth :
  _verify_authenticated jwt_decode request user_id w = Return (authenticated, claims) w1.
Hypothesis Hname : dict_get "name" (GET request) = None.
Hypothesis Hparent : dict_get "parentDirectory" (GET request) = None.
Hypothesis Hwritebody : flag_value request "writebody" true.
Hypothesis Hfile : int fs = Some file_id /\ File_get (database w1) file_id = Some file_obj.
Hypothesis Hwrite : can_access fuel (database w1) (EFile file_obj) user_id true = Val true.

Lemma put_checks :
  file_id <> 0 ->
  FileView_handle_put int jwt_decode fuel request [("file_id", fs)] w =
  if len (body request) >? DATA_UPLOAD_MAX_MEMORY_SIZE then Raise OtherException w1
  else
  if quota_query (database w1) user_id (Some (Models.file_id file_obj)) + len (body request)
       >? LIMIT_USER_TOTAL_SIZE
  then Raise ErrorQuotaExceeded w1
  else Return (mkResponse STATUS_OK (FileContent (set_file_data file_obj (body request))))
              (after_update request w1 file_obj).
Proof.
  intros Hnz.
  destruct Huser as [Hu1 Hu2]. destruct Hfile as [Hf1 Hf2].
  unfold FileView_handle_put.
  rewrite (bind_Return _ _ w w tt) by reflexivity.
  rewrite (bind_Return _ _ w w user_id) by (apply (get_query_param_Return _ _ us); assumption).
  rewrite (bind_Return _ _ w w1 (authenticated, claims)) by exact Hauth.
  rewrite (bind_Return _ _ w1 w1 None) by (apply get_query_param_optional_None; exact Hname).
  rewrite (bind_Return _ _ w1 w1 None) by (apply get_query_param_optional_None; exact Hparent).
  rewrite (bind_Return _ _ w1 w1 true) by (apply flag_param_Return; exact Hwritebody).
  rewrite (bind_Return _ _ w1 w1 tt) by reflexivity.
  rewrite (bind_Return _ _ w1 w1 file_id)
    by (apply (get_kwarg_Return _ _ fs); [reflexivity | exact Hf1]).
  rewrite (bind_Return _ _ w1 w1 file_obj)
    by (apply (objects_get_Return (fun db => File_get db file_id)); exact Hf2).
  rewrite (bind_Return _ _ w1 w1 tt) by (apply verify_can_access_write; exact Hwrite).
  cbn [is_some orb].
  unfold bind at 1. unfold atomic.
  rewrite (bind_Return _ _ w1 w1 file_obj) by reflexivity.
  rewrite ?bind_assoc.
  destruct (Z.gtb_spec (len (body request)) DATA_UPLOAD_MAX_MEMORY_SIZE) as [Hbig|Hbig].
  { rewrite (bind_Raise _ _ w1 w1 OtherException) by (apply request_body_Raise; lia).
    rewrite World_eta. reflexivity. }
  rewrite (bind_Return _ _ w1 w1 (body request)) by (apply request_body_Return; exact Hbig).
  rewrite ?bind_assoc. unfold _verify_quota.
  destruct (quota_query (database w1) user_id (Some (Models.file_id file_obj))
            + len (body request) >? LIMIT_USER_TOTAL_SIZE) eqn:Hq.
  - rewrite (bind_Raise _ _ w1 w1 ErrorQuotaExceeded).
    + rewrite World_eta. reflexivity.
    + apply lift_db_Exc. rewrite Hq. reflexivity.
  - rewrite (bind_Return _ _ w1 w1 tt) by (apply lift_db_Val; rewrite Hq; reflexivity).
    rewrite (bind_Return _ _ w1 w1 (set_file_data file_obj (body request))) by reflexivity.
    assert (Hid : Models.file_id file_obj = file_id).
    { unfold File_get in Hf2. apply find_some in Hf2. apply Z.eqb_eq. exact (proj2 Hf2). }
    unfold File_save, bind, assign_id, modify_db, ret. cbn [Models.file_id set_file_data].
    rewrite Hid. destruct (Z.eqb_spec file_id 0) as [E|E]; [contradiction|].
    cbn [negb]. unfold after_update, set_file_data. rewrite Hid. reflexivity.
Qed.

End UpdateContent.

Lemma LIMIT_SINGLE_FILE_SIZE_nonneg : 0 <= LIMIT_SINGLE_FILE_SIZE.
Proof. unfold LIMIT_SINGLE_FILE_SIZE. lia. Qed.

Lemma db_full_usage : usage Example.db_full 1 None = LIMIT_USER_TOTAL_SIZE.
Proof.
  rewrite usage_sum. unfold Example.db_full, Example.full_file.
  cbn [File_table map filter file_owner Z.eqb Pos.eqb sum_length fold_right file_data].
  rewrite !(len_zeros _ LIMIT_SINGLE_FILE_SIZE_nonneg).
  reflexivity.
Qed.

(** C1 at its failing input.  User 1 is at the ceiling; user 2, who owns
    no file and writes "docs" through a share, uploads one byte into
    "docs".  The quota check is made for user 2, the file is recorded for
    user 1, and the request is accepted: user 1 is over the ceiling. *)
Theorem upload_by_grantee_exceeds_owner_quota :
  usage Example.db_full 1 None = LIMIT_USER_TOTAL_SIZE
  /\ can_access 5 Example.db_full (EDirectory Example.docs) 2 true = Val true
  /\ handle (FileView_handle_post Example.int Example.jwt_decode 5)
            (Example.request "POST" "2" "bob" [("name", "a.txt"); ("parentDirectory", "2")] [x61])
            [] (Example.world Example.db_full 1500)
     = Some (mkResponse ("ok", 200) (FileContent (mkFile 1 "a.txt" 1 2 [x61])),
             mkWorld (with_files Example.db_full
                        (File_table Example.db_full ++ [mkFile 1 "a.txt" 1 2 [x61]]))
                     1500 [40; 41; 42])
  /\ usage (with_files Example.db_full (File_table Example.db_full ++ [mkFile 1 "a.txt" 1 2 [x61]]))
           1 None
     = LIMIT_USER_TOTAL_SIZE + 1
  /\ LIMIT_USER_TOTAL_SIZE + 1 > LIMIT_USER_TOTAL_SIZE.
Proof.
  split; [exact db_full_usage|]. split; [reflexivity|]. split; [|split; [|lia]].
  - unfold handle.
    rewrite (post_accepts Example.int Example.jwt_decode 5
               (Example.request "POST" "2" "bob" [("name", "a.txt"); ("parentDirectory", "2")] [x61])
               (Example.world Example.db_full 1500) (Example.world Example.db_full 1500)
               (mkStorageUser 2 "bob") (Example.claims_of 2 "bob")
               "2" "2" "a.txt" 2 2 Example.docs
               (conj eq_refl eq_refl) eq_refl eq_refl (conj eq_refl eq_refl) eq_refl eq_refl
               eq_refl 1 [40; 41; 42]).
    + reflexivity.
    + unfold len, LIMIT_SINGLE_FILE_SIZE. simpl. lia.
    + rewrite usage_sum. unfold len, LIMIT_USER_TOTAL_SIZE. simpl. lia.
    + reflexivity.
  - pose proof (after_upload_usage
               (Example.request "POST" "2" "bob" [("name", "a.txt"); ("parentDirectory", "2")] [x61])
               (Example.world Example.db_full 1500) "a.txt" Example.docs 1 [40; 41; 42]) as H.
    cbn [database after_upload Example.world dir_owner Example.docs] in H.
    unfold uploaded in H. cbn [dir_owner dir_id Example.docs Example.request body] in H.
    rewrite H. rewrite db_full_usage. reflexivity.
Qed.

(** C3 at its failing input.  A content of one byte more than
    [LIMIT_SINGLE_FILE_SIZE] is refused, on creation and on update, but not
    with [quota_exceeded]: the bound of the settings on the body of a
    request is the same number, so reading the body fails before the view
    compares any length, and [handle] answers [internal_error].  Nothing is
    stored.  The comparison of [FileView._handle_post] with the cap is
    never reached by a body over the cap, and [FileView._handle_put] has no
    such comparison. *)
Theorem file_size_cap_answers_internal_error :
  len (Example.zeros (LIMIT_SINGLE_FILE_SIZE + 1)) > LIMIT_SINGLE_FILE_SIZE
  /\ handle (FileView_handle_put Example.int Example.jwt_decode 5)
            (Example.request "PUT" "1" "alice" [("writebody", EmptyString)]
                             (Example.zeros (LIMIT_SINGLE_FILE_SIZE + 1)))
            [("file_id", "21")] (Example.world Example.db0 1500)
     = Some (mkResponse ("internal_error", 500) NoContent, Example.world Example.db0 1500)
  /\ handle (FileView_handle_post Example.int Example.jwt_decode 5)
            (Example.request "POST" "1" "alice" [("name", "c.txt"); ("parentDirectory", "1")]
                             (Example.zeros (LIMIT_SINGLE_FILE_SIZE + 1)))
            [] (Example.world Example.db0 1500)
     = Some (mkResponse ("internal_error", 500) NoContent, Example.world Example.db0 1500)
  /\ response_for_exn ErrorQuotaExceeded = mkResponse ("quota_exceeded", 413) NoContent.
Proof.
  assert (Hlen : len (Example.zeros (LIMIT_SINGLE_FILE_SIZE + 1)) = LIMIT_SINGLE_FILE_SIZE + 1).
  { apply len_zeros. unfold LIMIT_SINGLE_FILE_SIZE. lia. }
  split; [rewrite Hlen; lia|]. split; [|split; [|reflexivity]].
  - unfold handle.
    rewrite (put_checks Example.int Example.jwt_decode 5
               (Example.request "PUT" "1" "alice" [("writebody", EmptyString)]
                                (Example.zeros (LIMIT_SINGLE_FILE_SIZE + 1)))
               (Example.world Example.db0 1500) (Example.world Example.db0 1500)
               (mkStorageUser 1 "alice") (Example.claims_of 1 "alice")
               "1" "21" 1 21 Example.b_txt
               (conj eq_refl eq_refl) eq_refl eq_refl eq_refl eq_refl (conj eq_refl eq_refl)
               eq_refl ltac:(discriminate)).
    cbn [body Example.request]. rewrite Hlen.
    replace (LIMIT_SINGLE_FILE_SIZE + 1 >? DATA_UPLOAD_MAX_MEMORY_SIZE) with true by reflexivity.
    reflexivity.
  - unfold handle.
    rewrite (post_over_cap Example.int Example.jwt_decode 5
               (Example.request "POST" "1" "alice" [("name", "c.txt"); ("parentDirectory", "1")]
                                (Example.zeros (LIMIT_SINGLE_FILE_SIZE + 1)))
               (Example.world Example.db0 1500) (Example.world Example.db0 1500)
               (mkStorageUser 1 "alice") (Example.claims_of 1 "alice")
               "1" "1" "c.txt" 1 1 Example.root1
               (conj eq_refl eq_refl) eq_refl eq_refl (conj eq_refl eq_refl) eq_refl eq_refl
               eq_refl).
    + reflexivity.
    + cbn [body Example.request]. rewrite Hlen. lia.
Qed.

(** ** Who is granted access *)

Lemma file_grant_loop (db : DB) (f : File) (U : Z) (w : bool) :
  share_loop (filter_subject U (File_share_set db f)) w =
  if file_grant db f U w then Some true else None.
Proof.
  rewrite share_loop_existsb. unfold filter_subject, File_share_set, file_grant.
  rewrite !existsb_filter.
  rewrite (existsb_pointwise _
             (fun s => opt_is (share_target_file s) (file_id f) && (share_subject s =? U)
                       && (share_can_write s || negb w))); [reflexivity|].
  intros s. rewrite andb_assoc. reflexivity.
Qed.

Lemma directory_grant_on_chain (db : DB) (U : Z) (w : bool) (fuel : nat) :
  forall d, Directory_can_access fuel db d U w = Val true ->
  exists a n, descends db a d n /\ (n < fuel)%nat
              /\ (dir_owner a = U \/ local_grant db a U w = true).
Proof.
  induction fuel as [|k IH]; intros d; [discriminate|].
  rewrite Directory_can_access_unfold. unfold directory_decision.
  destruct (Z.eqb_spec (dir_owner d) U) as [Eo|Eo].
  - intros _. exists d, 0%nat. split; [apply descends_here|]. split; [lia | left; exact Eo].
  - destruct (local_grant db d U w) eqn:Eg.
    + intros _. exists d, 0%nat. split; [apply descends_here|]. split; [lia | right; exact Eg].
    + destruct (dir_parent d) as [pid|] eqn:Ep; [|discriminate].
      destruct (Directory_get db pid) as [p|] eqn:Eget; [|discriminate].
      intros H. destruct (IH p H) as (a & n & Hd & Hn & Hg).
      exists a, (S n). split; [|split; [lia | exact Hg]].
      exact (descends_step db a d p pid n Ep Eget Hd).
Qed.

Lemma directory_denied (db : DB) (U : Z) (w : bool) (x : Directory) (n : nat) :
  ungranted db U w x n ->
  forall fuel, (n < fuel)%nat -> Directory_can_access fuel db x U w = Val false.
Proof.
  induction 1 as [x Ho Hg Hp|x parent pid n Ho Hg Hp Hget Hu IH]; intros fuel Hfuel;
    (destruct fuel as [|k]; [lia|]);
    rewrite Directory_can_access_unfold; unfold directory_decision;
    (destruct (Z.eqb_spec (dir_owner x) U) as [E|E]; [contradiction|]);
    rewrite Hg, Hp.
  - reflexivity.
  - rewrite Hget. apply IH. lia.
Qed.

(** X1.  Access to a directory or a file is granted only through ownership
    or a share: whenever [can_access] returns [True] for a directory, some
    directory on the way from it up to its root is owned by the user or
    carries a share whose subject is the user (a write-capable one when
    write access is asked); for a file, the user owns the file, or a share
    on the file grants the access, or the directory chain does. *)
Theorem access_only_by_owner_or_share (fuel : nat) (db : DB) (U : Z) (wants_write : bool) :
  (forall d, can_access fuel db (EDirectory d) U wants_write = Val true ->
     exists a n, descends db a d n
                 /\ (dir_owner a = U \/ local_grant db a U wants_write = true))
  /\ (forall f, can_access fuel db (EFile f) U wants_write = Val true ->
        file_owner f = U \/ file_grant db f U wants_write = true
        \/ exists parent a n,
             Directory_get db (file_parent_directory f) = Some parent
             /\ descends db a parent n
             /\ (dir_owner a = U \/ local_grant db a U wants_write = true)).
Proof.
  split.
  - intros d H. simpl in H.
    destruct (directory_grant_on_chain db U wants_write fuel d H) as (a & n & Hd & _ & Hg).
    exists a, n. split; assumption.
  - intros f. simpl. unfold File_can_access. rewrite file_grant_loop.
    destruct (Z.eqb_spec (file_owner f) U) as [Eo|Eo]; [left; exact Eo|].
    destruct (file_grant db f U wants_write); [right; left; reflexivity|].
    destruct (Directory_get db (file_parent_directory f)) as [p|] eqn:Eget; [|discriminate].
    intros H. right. right.
    destruct (directory_grant_on_chain db U wants_write fuel p H) as (a & n & Hd & _ & Hg).
    exists p, a, n. repeat split; assumption.
Qed.

Lemma access_only_by_owner_or_share_witness :
  exists a n, descends Example.db0 a Example.deep n
              /\ (dir_owner a = 2 \/ local_grant Example.db0 a 2 true = true).
Proof.
  apply (proj1 (access_only_by_owner_or_share 3 Example.db0 2 true) Example.deep).
  reflexivity.
Defined.

(** X2.  Without ownership and without a sufficient share the access is
    refused: when no directory from the file's directory up to the root is
    owned by the user or carries a share granting the wanted access, and
    the user neither owns the file nor holds such a share on it,
    [can_access] returns [False], for the directories and for the file. In
    particular read-only shares never give write access. *)
Theorem access_denied_without_grant (fuel : nat) (db : DB) (U : Z) (wants_write : bool)
    (x : Directory) (n : nat) :
  ungranted db U wants_write x n -> (n < fuel)%nat ->
  can_access fuel db (EDirectory x) U wants_write = Val false
  /\ (forall f, Directory_get db (file_parent_directory f) = Some x ->
        file_owner f <> U -> file_grant db f U wants_write = false ->
        can_access fuel db (EFile f) U wants_write = Val false).
Proof.
  intros Hu Hfuel. split.
  - simpl. exact (directory_denied db U wants_write x n Hu fuel Hfuel).
  - intros f Hget Ho Hg. simpl. unfold File_can_access. rewrite file_grant_loop, Hg.
    destruct (Z.eqb_spec (file_owner f) U) as [E|E]; [contradiction|].
    rewrite Hget. exact (directory_denied db U wants_write x n Hu fuel Hfuel).
Qed.

Lemma access_denied_without_grant_witness :
  can_access 2 Example.db0 (EDirectory Example.root1) 2 true = Val false
  /\ can_access 2 Example.db0 (EFile Example.b_txt) 2 true = Val false
  /\ can_access 2 Example.db0 (EFile Example.b_txt) 2 false = Val true.
Proof.
  assert (Hu : ungranted Example.db0 2 true Example.root1 0).
  { apply ungranted_root; [discriminate | reflexivity | reflexivity]. }
  destruct (access_denied_without_grant 2 Example.db0 2 true Example.root1 0 Hu ltac:(lia))
    as [Hd Hf].
  split; [exact Hd|]. split; [|reflexivity].
  apply Hf; [reflexivity | discriminate | reflexivity].
Defined.

(** ** Tokens and provisioning *)

Lemma access_claims_valid (claims : list (string * PyValue)) (u : Z) (name : string) (iat exp : Z) :
  access_claims claims u name iat exp -> claims_invalid claims required_claims = false.
Proof.
  intros (Hu & Hn & Hi & He & Ht). unfold required_claims. simpl.
  rewrite Hu, Hn, Hi, He, Ht. reflexivity.
Qed.

Lemma find_app_fresh {A : Type} (p : A -> bool) (l : list A) (x : A) :
  find p l = None -> p x = true -> find p (l ++ [x]) = Some x.
Proof.
  induction l as [|a l IH]; simpl; intros Hn Hx.
  - rewrite Hx. reflexivity.
  - destruct (p a); [discriminate | apply IH; assumption].
Qed.

Lemma find_app_found {A : Type} (p : A -> bool) (l : list A) (x y : A) :
  find p l = Some y -> find p (l ++ [x]) = Some y.
Proof.
  induction l as [|a l IH]; simpl; [discriminate|].
  destruct (p a); [trivial | exact IH].
Qed.

Lemma find_none_existsb {A : Type} (p : A -> bool) (l : list A) :
  find p l = None -> existsb p l = false.
Proof.
  induction l as [|a l IH]; simpl; [reflexivity|].
  destruct (p a); [discriminate | exact IH].
Qed.

(** What [_verify_authenticated] does with a token that passes its checks. *)
Lemma verify_authenticated_provisions
    (jwt_decode : string -> option (list (string * PyValue)))
    (req : HttpRequest) (user_id : Z) (w : World)
    (header token : string) (claims : list (string * PyValue))
    (user_name : string) (issued_at expires_at : Z) :
  dict_get AUTHORIZATION_HEADER_NAME (headers req) = Some header ->
  match_bearer header = Some token ->
  jwt_decode token = Some claims ->
  access_claims claims user_id user_name issued_at expires_at ->
  issued_at <= clock w < expires_at ->
  _verify_authenticated jwt_decode req user_id w =
  match StorageUser_get (database w) user_id with
  | Some user => Return (user, claims) w
  | None =>
      match fresh_id (Directory_exists (database w)) (random w) with
      | Some (id, rest) =>
          Return (mkStorageUser user_id user_name, claims)
                 (provisioned w user_id user_name id rest)
      | None => Diverge
      end
  end.
Proof.
  intros Hh Hb Hdec Hclaims Hnow.
  pose proof (access_claims_valid _ _ _ _ _ Hclaims) as Hc.
  destruct Hclaims as (Hu & Hn & Hi & He & Ht).
  unfold _verify_authenticated. rewrite Hh, Hb.
  unfold bind at 1. unfold time_time at 1.
  rewrite (jwt_decode_at_Some jwt_decode (clock w) token claims expires_at Hdec He).
  destruct (Z.leb_spec expires_at (clock w)) as [Hlib|Hlib]; [lia|].
  rewrite Hc.
  unfold bind, raise_if, claim_int, claim_str, time_time, raise, ret, atomic, get_db.
  rewrite Hu, Hi, He, Ht, Hn. rewrite Z.eqb_refl. simpl.
  destruct (Z.gtb_spec (clock w) expires_at) as [Hexp|Hexp]; [lia|].
  destruct (Z.ltb_spec (clock w) issued_at) as [Hiat|Hiat]; [lia|]. simpl.
  destruct (StorageUser_get (database w) user_id) as [user|] eqn:Huser; [reflexivity|].
  unfold StorageUser_objects_create, StorageUser_save, Directory_objects_create, Directory_save,
    bind, modify_db, ret, assign_id. simpl.
  unfold Directory_exists at 1. simpl.
  fold (Directory_exists (database w)).
  destruct (fresh_id (Directory_exists (database w)) (random w)) as [[id rest]|] eqn:Hfresh;
    [|reflexivity].
  destruct (fresh_id_free _ _ _ _ Hfresh) as [Hfree _].
  unfold provisioned.
  rewrite (upsert_fresh Models.user_id (mkStorageUser user_id user_name))
    by (apply find_none_existsb; exact Huser).
  rewrite (upsert_fresh dir_id (mkDirectory id "root" user_id None)) by exact Hfree.
  reflexivity.
Qed.

Lemma verify_authenticated_inv (jwt_decode : string -> option (list (string * PyValue)))
    (req : HttpRequest) (user_id : Z) (w : World) :
  _verify_authenticated jwt_decode req user_id w = Raise ErrorUnauthorized w
  \/ exists header token claims user_name issued_at expires_at,
       dict_get AUTHORIZATION_HEADER_NAME (headers req) = Some header
       /\ match_bearer header = Some token
       /\ jwt_decode token = Some claims
       /\ access_claims claims user_id user_name issued_at expires_at
       /\ issued_at <= clock w < expires_at.
Proof.
  unfold _verify_authenticated.
  destruct (dict_get AUTHORIZATION_HEADER_NAME (headers req)) as [header|] eqn:Hh;
    [|left; reflexivity].
  destruct (match_bearer header) as [token|] eqn:Hb; [|left; reflexivity].
  unfold bind at 1. unfold time_time at 1.
  destruct (jwt_decode_at jwt_decode (clock w) token) as [claims|] eqn:Hat; [|left; reflexivity].
  destruct (jwt_decode_at_inv _ _ _ _ Hat) as [Hdec Hlib].
  destruct (claims_invalid claims required_claims) eqn:Hc; [left; reflexivity|].
  destruct (claims_valid_inv claims Hc) as (uid & name & iat & exp & ty & Hu & Hn & Hi & He & Ht).
  unfold bind, raise_if, claim_int, claim_str, time_time, raise, ret.
  rewrite Hu, Hi, He, Ht.
  remember (String.eqb ACCESS_TOKEN_TYPE ty) as kind_ok eqn:Ekind.
  destruct (Z.eqb_spec uid user_id) as [Euid|Euid]; simpl; [|left; reflexivity].
  destruct (Z.gtb_spec (clock w) exp) as [Hexp|Hexp]; simpl; [left; reflexivity|].
  destruct (Z.ltb_spec (clock w) iat) as [Hiat|Hiat]; simpl; [left; reflexivity|].
  destruct kind_ok; simpl; [|left; reflexivity].
  symmetry in Ekind. apply String.eqb_eq in Ekind.
  right. exists header, token, claims, name, iat, exp. subst uid ty.
  pose proof (Hlib exp He).
  repeat split; try assumption; lia.
Qed.

(** X3.  A token is refused with [unauthorized] unless it carries the five
    required claims with their types (the subject id, issue and expiry
    times as integers; the name and the kind as strings) and its kind is
    ["access"]; a token of another kind, or with a claim missing or of
    another type, never authenticates. *)
Theorem token_needs_typed_access_claims
    (jwt_decode : string -> option (list (string * PyValue)))
    (req : HttpRequest) (user_id : Z) (w : World) :
  (_verify_authenticated jwt_decode req user_id w = Raise ErrorUnauthorized w
   \/ exists header token claims user_name issued_at expires_at,
        dict_get AUTHORIZATION_HEADER_NAME (headers req) = Some header
        /\ match_bearer header = Some token
        /\ jwt_decode token = Some claims
        /\ access_claims claims user_id user_name issued_at expires_at)
  /\ (forall header token claims,
        dict_get AUTHORIZATION_HEADER_NAME (headers req) = Some header ->
        match_bearer header = Some token ->
        jwt_decode token = Some claims ->
        (claims_invalid claims required_claims = true
         \/ dict_get CLAIM_TOKEN_TYPE claims <> Some (PyStr ACCESS_TOKEN_TYPE)) ->
        _verify_authenticated jwt_decode req user_id w = Raise ErrorUnauthorized w).
Proof.
  split.
  - destruct (verify_authenticated_inv jwt_decode req user_id w)
      as [H|(header & token & claims & name & iat & exp & Hh & Hb & Hd & Hc & _)];
      [left; exact H|].
    right. exists header, token, claims, name, iat, exp.
    exact (conj Hh (conj Hb (conj Hd Hc))).
  - intros header token claims Hh Hb Hd Hbad.
    destruct (verify_authenticated_inv jwt_decode req user_id w)
      as [H|(header' & token' & claims' & name & iat & exp & Hh' & Hb' & Hd' & Hc & _)];
      [exact H|].
    exfalso.
    assert (header' = header) by congruence. subst header'.
    assert (token' = token) by congruence. subst token'.
    assert (claims' = claims) by congruence. subst claims'.
    destruct Hbad as [Hinv|Hty].
    + rewrite (access_claims_valid _ _ _ _ _ Hc) in Hinv. discriminate.
    + apply Hty. exact (proj2 (proj2 (proj2 (proj2 Hc)))).
Qed.

Lemma token_needs_typed_access_claims_witness :
  _verify_authenticated
    (fun _ : string =>
       Some [("user_id", PyBool true); ("user_name", PyStr "eve"); ("iat", PyInt 1000);
             ("exp", PyInt 2000); ("token_type", PyStr "access")])
    (Example.request "GET" "1" "eve" [] []) 1 (Example.world Example.db0 1500)
  = Raise ErrorUnauthorized (Example.world Example.db0 1500)
  /\ _verify_authenticated
       (fun _ : string =>
          Some [("user_id", PyInt 1); ("user_name", PyStr "eve"); ("iat", PyInt 1000);
                ("exp", PyInt 2000); ("token_type", PyStr "refresh")])
       (Example.request "GET" "1" "eve" [] []) 1 (Example.world Example.db0 1500)
     = Raise ErrorUnauthorized (Example.world Example.db0 1500).
Proof.
  split.
  - apply (proj2 (token_needs_typed_access_claims _ (Example.request "GET" "1" "eve" [] []) 1
                    (Example.world Example.db0 1500))
             "Bearer eve" "eve" _ eq_refl eq_refl eq_refl).
    left. reflexivity.
  - apply (proj2 (token_needs_typed_access_claims _ (Example.request "GET" "1" "eve" [] []) 1
                    (Example.world Example.db0 1500))
             "Bearer eve" "eve" _ eq_refl eq_refl eq_refl).
    right. discriminate.
Defined.

(** X4.  [_verify_authenticated] raises nothing but the unauthorized
    error, and a refused request leaves the world as it was: no user and no
    root directory is created for a token that does not pass. *)
Theorem authentication_fails_only_unauthorized
    (jwt_decode : string -> option (list (string * PyValue)))
    (req : HttpRequest) (user_id : Z) (w w' : World) (e : exn) :
  _verify_authenticated jwt_decode req user_id w = Raise e w' ->
  e = ErrorUnauthorized /\ w' = w.
Proof.
  destruct (verify_authenticated_inv jwt_decode req user_id w)
    as [H|(header & token & claims & name & iat & exp & Hh & Hb & Hd & Hc & Hnow)].
  - rewrite H. intros E. injection E as <- <-. split; reflexivity.
  - rewrite (verify_authenticated_provisions jwt_decode req user_id w header token claims
               name iat exp Hh Hb Hd Hc Hnow).
    destruct (StorageUser_get (database w) user_id); [discriminate|].
    destruct (fresh_id _ _) as [[id rest]|]; discriminate.
Qed.

Lemma authentication_fails_only_unauthorized_witness :
  _verify_authenticated Example.jwt_decode (Example.request "GET" "4" "dave" [] []) 4
                        (Example.world Example.db0 2001)
  = Raise ErrorUnauthorized (Example.world Example.db0 2001)
  /\ ErrorUnauthorized = ErrorUnauthorized
  /\ Example.world Example.db0 2001 = Example.world Example.db0 2001.
Proof.
  split; [reflexivity|].
  apply (authentication_fails_only_unauthorized Example.jwt_decode
           (Example.request "GET" "4" "dave" [] []) 4 (Example.world Example.db0 2001)).
  reflexivity.
Defined.

(** X5.  The first valid token of a user that has no record creates the
    record, with the name of the token, and one root directory of that
    user, with the first drawn id that is free; nothing else changes.  In
    the world it leaves both are found by their ids, and the user's root is
    a root: it has no parent. *)
Theorem first_token_provisions_user_and_root
    (jwt_decode : string -> option (list (string * PyValue)))
    (req : HttpRequest) (user_id : Z) (w : World)
    (header token : string) (claims : list (string * PyValue))
    (user_name : string) (issued_at expires_at id : Z) (rest : list Z) :
  dict_get AUTHORIZATION_HEADER_NAME (headers req) = Some header ->
  match_bearer header = Some token ->
  jwt_decode_at jwt_decode (clock w) token = Some claims ->
  access_claims claims user_id user_name issued_at expires_at ->
  issued_at <= clock w <= expires_at ->
  StorageUser_get (database w) user_id = None ->
  fresh_id (Directory_exists (database w)) (random w) = Some (id, rest) ->
  _verify_authenticated jwt_decode req user_id w
  = Return (mkStorageUser user_id user_name, claims) (provisioned w user_id user_name id rest)
  /\ StorageUser_get (database (provisioned w user_id user_name id rest)) user_id
     = Some (mkStorageUser user_id user_name)
  /\ Directory_get (database (provisioned w user_id user_name id rest)) id
     = Some (mkDirectory id "root" user_id None)
  /\ Directory_get (database w) id = None
  /\ id <> 0
  /\ File_table (database (provisioned w user_id user_name id rest)) = File_table (database w)
  /\ Share_table (database (provisioned w user_id user_name id rest)) = Share_table (database w).
Proof.
  intros Hh Hb Hat Hc Hnow' Huser Hfresh.
  destruct (jwt_decode_at_inv _ _ _ _ Hat) as [Hd Hlib].
  assert (Hnow : issued_at <= clock w < expires_at).
  { pose proof (Hlib expires_at (proj1 (proj2 (proj2 (proj2 Hc))))). lia. }
  destruct (fresh_id_free _ _ _ _ Hfresh) as [Hfree Hnz].
  assert (Hnone : Directory_get (database w) id = None).
  { unfold Directory_get. destruct (find _ _) as [d|] eqn:E; [|reflexivity].
    exfalso. apply find_some in E. destruct E as [Hin Hid].
    unfold Directory_exists in Hfree.
    assert (existsb (fun d0 => dir_id d0 =? id) (Directory_table (database w)) = true)
      by (apply existsb_exists; exists d; split; assumption).
    congruence. }
  split; [|split; [|split; [|split; [exact Hnone|split; [exact Hnz|split; reflexivity]]]]].
  - rewrite (verify_authenticated_provisions jwt_decode req user_id w header token claims
               user_name issued_at expires_at Hh Hb Hd Hc Hnow).
    rewrite Huser, Hfresh. reflexivity.
  - unfold StorageUser_get, provisioned. simpl.
    apply find_app_fresh; [exact Huser | apply Z.eqb_refl].
  - unfold Directory_get, provisioned. simpl.
    apply find_app_fresh; [exact Hnone | apply Z.eqb_refl].
Qed.

Lemma first_token_provisions_witness :
  _verify_authenticated Example.jwt_decode (Example.request "GET" "4" "dave" [] []) 4
                        (Example.world Example.db0 1500)
  = Return (mkStorageUser 4 "dave", Example.claims_of 4 "dave")
           (provisioned (Example.world Example.db0 1500) 4 "dave" 40 [41; 42]).
Proof.
  apply (first_token_provisions_user_and_root Example.jwt_decode
           (Example.request "GET" "4" "dave" [] []) 4 (Example.world Example.db0 1500)
           "Bearer dave" "dave" (Example.claims_of 4 "dave") "dave" 1000 2000 40 [41; 42]);
    try reflexivity.
  - repeat split.
  - simpl. lia.
Defined.

(** X6.  Authentication is idempotent: when a request has authenticated, a
    second request with the same token at the same time authenticates the
    same user and changes nothing more; the record and the root that the
    first request may have created are not created twice. *)
Theorem authentication_idempotent
    (jwt_decode : string -> option (list (string * PyValue)))
    (req : HttpRequest) (user_id : Z) (w w' : World)
    (user : StorageUser) (claims : list (string * PyValue)) :
  _verify_authenticated jwt_decode req user_id w = Return (user, claims) w' ->
  _verify_authenticated jwt_decode req user_id w' = Return (user, claims) w'
  /\ StorageUser_get (database w') user_id = Some user.
Proof.
  destruct (verify_authenticated_inv jwt_decode req user_id w)
    as [H|(header & token & claims' & name & iat & exp & Hh & Hb & Hd & Hc & Hnow)];
    [rewrite H; discriminate|].
  rewrite (verify_authenticated_provisions jwt_decode req user_id w header token claims'
             name iat exp Hh Hb Hd Hc Hnow).
  destruct (StorageUser_get (database w) user_id) as [u|] eqn:Huser.
  - intros E. injection E as <- <- <-. split; [|exact Huser].
    rewrite (verify_authenticated_provisions jwt_decode req user_id w header token claims'
               name iat exp Hh Hb Hd Hc Hnow).
    rewrite Huser. reflexivity.
  - destruct (fresh_id _ _) as [[id rest]|] eqn:Hfresh; [|discriminate].
    intros E. injection E as <- <- <-.
    assert (Hfound : StorageUser_get (database (provisioned w user_id name id rest)) user_id
                     = Some (mkStorageUser user_id name)).
    { unfold StorageUser_get, provisioned. simpl.
      apply find_app_fresh; [exact Huser | apply Z.eqb_refl]. }
    split; [|exact Hfound].
    rewrite (verify_authenticated_provisions jwt_decode req user_id
               (provisioned w user_id name id rest) header token claims' name iat exp
               Hh Hb Hd Hc Hnow).
    rewrite Hfound. reflexivity.
Qed.

Lemma authentication_idempotent_witness :
  _verify_authenticated Example.jwt_decode (Example.request "GET" "4" "dave" [] []) 4
    (provisioned (Example.world Example.db0 1500) 4 "dave" 40 [41; 42])
  = Return (mkStorageUser 4 "dave", Example.claims_of 4 "dave")
           (provisioned (Example.world Example.db0 1500) 4 "dave" 40 [41; 42]).
Proof.
  apply (authentication_idempotent Example.jwt_decode
           (Example.request "GET" "4" "dave" [] []) 4 (Example.world Example.db0 1500)).
  reflexivity.
Defined.

(** ** The Authorization header *)

Lemma prefix_split (p s : string) :
  String.prefix p s = true -> exists r, s = p ++ r.
Proof.
  revert s. induction p as [|a p IH]; intros s.
  - intros _. exists s. reflexivity.
  - destruct s as [|b s]; simpl; [discriminate|].
    destruct (ascii_dec a b) as [E|E]; [|discriminate].
    intros H. destruct (IH s H) as [r Hr]. exists r. subst. reflexivity.
Qed.

Lemma prefix_append (p r : string) : String.prefix p (p ++ r) = true.
Proof.
  induction p as [|a p IH]; simpl.
  - destruct r; reflexivity.
  - destruct (ascii_dec a a) as [E|E]; [exact IH | contradiction].
Qed.

Lemma substring_all (r : string) : substring 0 (String.length r) r = r.
Proof. induction r as [|c r IH]; simpl; [reflexivity | rewrite IH; reflexivity]. Qed.

Lemma substring_after (p r : string) :
  substring (String.length p) (String.length (p ++ r) - String.length p) (p ++ r) = r.
Proof.
  induction p as [|a p IH]; simpl.
  - rewrite Nat.sub_0_r. apply substring_all.
  - exact IH.
Qed.

Lemma length_zero_empty (r : string) : (String.length r =? 0)%nat = true <-> r = EmptyString.
Proof.
  destruct r; simpl; split; intros H; try reflexivity; discriminate.
Qed.

(** X7.  The header is accepted exactly when it is the word [Bearer], one
    space, and a token that is not empty and holds no space; what is handed
    to the decoder is that token, unchanged.  A header without the prefix,
    with an empty token or with a second space is refused. *)
Theorem match_bearer_exact (header token : string) :
  match_bearer header = Some token <->
  header = "Bearer " ++ token /\ token <> EmptyString /\ has_space token = false.
Proof.
  unfold match_bearer. split.
  - destruct (String.prefix "Bearer " header) eqn:Hp; [|discriminate].
    destruct (prefix_split _ _ Hp) as [r Hr]. subst header.
    rewrite substring_after.
    destruct (String.length r =? 0)%nat eqn:Hl; [discriminate|].
    destruct (has_space r) eqn:Hs; [discriminate|].
    simpl. intros E. injection E as <-. split; [reflexivity|]. split; [|exact Hs].
    intros ->. discriminate.
  - intros (-> & Hne & Hs).
    rewrite prefix_append, substring_after, Hs.
    destruct (String.length token =? 0)%nat eqn:Hl; [|reflexivity].
    exfalso. apply Hne. apply length_zero_empty. exact Hl.
Qed.

Lemma match_bearer_exact_witness :
  match_bearer "Bearer abc.def" = Some "abc.def"
  /\ match_bearer "Bearer " = None
  /\ match_bearer "Bearer a b" = None
  /\ match_bearer "bearer abc" = None.
Proof.
  split; [|repeat split].
  apply (proj2 (match_bearer_exact "Bearer abc.def" "abc.def")).
  split; [reflexivity|]. split; [discriminate | reflexivity].
Defined.

(** ** Looking at a share and revoking it *)

Lemma find_filter_other {R : Type} (pk : R -> Z) (i j : Z) (l : list R) :
  j <> i ->
  find (fun r => pk r =? j) (filter (fun r => negb (pk r =? i)) l) = find (fun r => pk r =? j) l.
Proof.
  intros Hji. induction l as [|r l IH]; simpl; [reflexivity|].
  destruct (Z.eqb_spec (pk r) i) as [Ei|Ei]; simpl.
  - destruct (Z.eqb_spec (pk r) j) as [Ej|Ej]; [congruence | exact IH].
  - destruct (pk r =? j); [reflexivity | exact IH].
Qed.

Lemma find_filter_same {R : Type} (pk : R -> Z) (i : Z) (l : list R) :
  find (fun r => pk r =? i) (filter (fun r => negb (pk r =? i)) l) = None.
Proof.
  induction l as [|r l IH]; simpl; [reflexivity|].
  destruct (Z.eqb_spec (pk r) i) as [Ei|Ei]; simpl; [exact IH|].
  destruct (Z.eqb_spec (pk r) i); [contradiction | exact IH].
Qed.

Lemma find_pk {R : Type} (pk : R -> Z) (i : Z) (l : list R) (r : R) :
  find (fun r => pk r =? i) l = Some r -> pk r = i.
Proof. intros H. apply find_some in H. apply Z.eqb_eq. exact (proj2 H). Qed.

Section ShareAccess.

Variable int : string -> option Z.
Variable jwt_decode : string -> option (list (string * PyValue)).
Variable fuel : nat.

Variables (request : HttpRequest) (w w1 : World).
Variables (authenticated : StorageUser) (claims : list (string * PyValue)).
Variables (us ss : string) (user_id share_id : Z) (share : Share).

Hypothesis Huser : dict_get "user" (GET request) = Some us /\ int us = Some user_id.
Hypothesis Hauth :
  _verify_authenticated jwt_decode request user_id w = Return (authenticated, claims) w1.
Hypothesis Hshare : int ss = Some share_id /\ Share_get (database w1) share_id = Some share.

Lemma share_get_prefix :
  ShareView_handle_get int jwt_decode fuel request [("share_id", ss)] w =
  (_verify_can_access fuel user_id (Some (EShare share)) false ;;;
   ret (mkResponse STATUS_OK (ShareContent share)))%py w1.
Proof.
  destruct Huser as [Hu1 Hu2]. destruct Hshare as [Hs1 Hs2].
  unfold ShareView_handle_get.
  rewrite (bind_Return _ _ w w tt) by reflexivity.
  rewrite (bind_Return _ _ w w user_id) by (apply (get_query_param_Return _ _ us); assumption).
  rewrite (bind_Return _ _ w w1 (authenticated, claims)) by exact Hauth.
  rewrite (bind_Return _ _ w1 w1 share_id)
    by (apply (get_kwarg_Return _ _ ss); [reflexivity | exact Hs1]).
  rewrite (bind_Return _ _ w1 w1 share)
    by (apply (objects_get_Return (fun db => Share_get db share_id)); exact Hs2).
  reflexivity.
Qed.

Lemma share_delete_prefix :
  ShareView_handle_delete int jwt_decode fuel request [("share_id", ss)] w =
  (_verify_can_access fuel user_id (Some (EShare share)) true ;;;
   Share_delete share ;;;
   ret (mkResponse STATUS_OK NoContent))%py w1.
Proof.
  destruct Huser as [Hu1 Hu2]. destruct Hshare as [Hs1 Hs2].
  unfold ShareView_handle_delete.
  rewrite (bind_Return _ _ w w tt) by reflexivity.
  rewrite (bind_Return _ _ w w user_id) by (apply (get_query_param_Return _ _ us); assumption).
  rewrite (bind_Return _ _ w w1 (authenticated, claims)) by exact Hauth.
  rewrite (bind_Return _ _ w1 w1 share_id)
    by (apply (get_kwarg_Return _ _ ss); [reflexivity | exact Hs1]).
  rewrite (bind_Return _ _ w1 w1 share)
    by (apply (objects_get_Return (fun db => Share_get db share_id)); exact Hs2).
  reflexivity.
Qed.

(** X8.  A share is shown to its issuer and to its subject and can be
    revoked by its issuer alone.  For an authenticated request on an
    existing share: the issuer's DELETE answers [ok] and removes exactly
    that share (it is no longer found, every other share is found as
    before, nothing else changes); the subject's DELETE answers
    [permission_denied]; for anyone else GET and DELETE answer [not_found];
    the refused requests change nothing. *)
Theorem share_shown_to_parties_revoked_by_issuer :
  (user_id = share_issuer share ->
   handle (ShareView_handle_get int jwt_decode fuel) request [("share_id", ss)] w
   = Some (mkResponse ("ok", 200) (ShareContent share), w1)
   /\ handle (ShareView_handle_delete int jwt_decode fuel) request [("share_id", ss)] w
      = Some (mkResponse ("ok", 200) NoContent, share_revoked w1 share)
   /\ Share_get (database (share_revoked w1 share)) share_id = None
   /\ (forall j, j <> share_id ->
         Share_get (database (share_revoked w1 share)) j = Share_get (database w1) j))
  /\ (user_id <> share_issuer share -> user_id = share_subject share ->
      handle (ShareView_handle_get int jwt_decode fuel) request [("share_id", ss)] w
      = Some (mkResponse ("ok", 200) (ShareContent share), w1)
      /\ handle (ShareView_handle_delete int jwt_decode fuel) request [("share_id", ss)] w
         = Some (mkResponse ("permission_denied", 403) NoContent, w1))
  /\ (user_id <> share_issuer share -> user_id <> share_subject share ->
      handle (ShareView_handle_get int jwt_decode fuel) request [("share_id", ss)] w
      = Some (mkResponse ("not_found", 404) NoContent, w1)
      /\ handle (ShareView_handle_delete int jwt_decode fuel) request [("share_id", ss)] w
         = Some (mkResponse ("not_found", 404) NoContent, w1)).
Proof.
  assert (Hid : Models.share_id share = share_id)
    by (apply (find_pk Models.share_id _ _ _ (proj2 Hshare))).
  unfold handle. rewrite share_get_prefix, share_delete_prefix.
  split; [|split].
  - intros Hi.
    assert (Hacc : forall b, can_access fuel (database w1) (EShare share) user_id b = Val true).
    { intros b. simpl. unfold Share_can_access. rewrite <- Hi, Z.eqb_refl. reflexivity. }
    rewrite (bind_Return _ _ w1 w1 tt) by (apply verify_can_access_read; apply Hacc).
    rewrite (bind_Return _ _ w1 w1 tt) by (apply verify_can_access_write; apply Hacc).
    split; [reflexivity|]. split; [reflexivity|]. split.
    + unfold Share_get, share_revoked. cbn [database with_shares Share_table].
      rewrite Hid. apply (find_filter_same Models.share_id).
    + intros j Hj. unfold Share_get, share_revoked. cbn [database with_shares Share_table].
      rewrite Hid. apply (find_filter_other Models.share_id). exact Hj.
  - intros Hi Hs.
    assert (Hr : can_access fuel (database w1) (EShare share) user_id false = Val true).
    { simpl. unfold Share_can_access. rewrite <- Hs, Z.eqb_refl.
      destruct (share_issuer share =? user_id); reflexivity. }
    assert (Hw : can_access fuel (database w1) (EShare share) user_id true = Val false).
    { simpl. unfold Share_can_access.
      destruct (Z.eqb_spec (share_issuer share) user_id); [congruence | reflexivity]. }
    rewrite (bind_Return _ _ w1 w1 tt) by (apply verify_can_access_read; exact Hr).
    rewrite (bind_Raise _ _ w1 w1 ErrorAccessDenied)
      by (apply verify_can_access_denied; assumption).
    split; reflexivity.
  - intros Hi Hs.
    assert (Hr : can_access fuel (database w1) (EShare share) user_id false = Val false).
    { simpl. unfold Share_can_access.
      destruct (Z.eqb_spec (share_issuer share) user_id); [congruence|].
      destruct (Z.eqb_spec (share_subject share) user_id); [congruence | reflexivity]. }
    rewrite (bind_Raise _ _ w1 w1 ErrorNotFound) by (apply verify_can_access_not_found; exact Hr).
    rewrite (bind_Raise _ _ w1 w1 ErrorNotFound) by (apply verify_can_access_not_found; exact Hr).
    split; reflexivity.
Qed.

End ShareAccess.

Lemma share_shown_to_parties_revoked_by_issuer_witness :
  handle (ShareView_handle_delete Example.int Example.jwt_decode 3)
         (Example.request "DELETE" "2" "bob" [] []) [("share_id", "30")]
         (Example.world Example.db0 1500)
  = Some (mkResponse ("permission_denied", 403) NoContent, Example.world Example.db0 1500)
  /\ handle (ShareView_handle_delete Example.int Example.jwt_decode 3)
            (Example.request "DELETE" "1" "alice" [] []) [("share_id", "30")]
            (Example.world Example.db0 1500)
     = Some (mkResponse ("ok", 200) NoContent,
             share_revoked (Example.world Example.db0 1500) Example.share_docs).
Proof.
  split.
  - apply (proj2 (proj1 (proj2 (share_shown_to_parties_revoked_by_issuer
             Example.int Example.jwt_decode 3
             (Example.request "DELETE" "2" "bob" [] [])
             (Example.world Example.db0 1500) (Example.world Example.db0 1500)
             (mkStorageUser 2 "bob") (Example.claims_of 2 "bob") "2" "30" 2 30
             Example.share_docs (conj eq_refl eq_refl) eq_refl (conj eq_refl eq_refl)))
           ltac:(discriminate) eq_refl)).
  - apply (proj1 (proj2 (proj1 (share_shown_to_parties_revoked_by_issuer
             Example.int Example.jwt_decode 3
             (Example.request "DELETE" "1" "alice" [] [])
             (Example.world Example.db0 1500) (Example.world Example.db0 1500)
             (mkStorageUser 1 "alice") (Example.claims_of 1 "alice") "1" "30" 1 30
             Example.share_docs (conj eq_refl eq_refl) eq_refl (conj eq_refl eq_refl))
           eq_refl))).
Defined.

(** ** Deleting a file *)

Section FileRemoval.

Variable int : string -> option Z.
Variable jwt_decode : string -> option (list (string * PyValue)).
Variable fuel : nat.

Variables (request : HttpRequest) (w w1 : World).
Variables (authenticated : StorageUser) (claims : list (string * PyValue)).
Variables (us fs : string) (user_id file_id : Z) (file_obj : File).
Variable parent_directory : Directory.

Hypothesis Huser : dict_get "user" (GET request) = Some us /\ int us = Some user_id.
Hypothesis Hauth :
  _verify_authenticated jwt_decode request user_id w = Return (authenticated, claims) w1.
Hypothesis Hfile : int fs = Some file_id /\ File_get (database w1) file_id = Some file_obj.
Hypothesis Hparent :
  Directory_get (database w1) (file_parent_directory file_obj) = Some parent_directory.
Hypothesis Hwrite : can_access fuel (database w1) (EFile file_obj) user_id true = Val true.

Lemma file_delete_gate :
  FileView_handle_delete int jwt_decode fuel request [("file_id", fs)] w =
  (_verify_can_access fuel user_id (Some (EDirectory parent_directory)) true ;;;
   File_delete file_obj ;;;
   ret (mkResponse STATUS_OK NoContent))%py w1.
Proof.
  rewrite (file_delete_prefix int jwt_decode fuel request w w1 authenticated claims us fs
             user_id file_id file_obj Huser Hauth Hfile).
  rewrite (bind_Return _ _ w1 w1 tt) by (apply verify_can_access_write; exact Hwrite).
  rewrite (bind_Return _ _ w1 w1 parent_directory)
    by (apply (objects_get_Return (fun db => Directory_get db (file_parent_directory file_obj)));
        exact Hparent).
  reflexivity.
Qed.

(** X9.  Deleting a file takes write access to the file and to the
    directory it lies in.  With both, DELETE answers [ok]; afterwards the
    file is not found, no share targets it, every other file is found as
    before, and users, contacts and directories are as they were.  A caller
    who can write the file (through a share on the file) and cannot read
    the directory gets [not_found], one who can only read the directory
    gets [permission_denied]; in both cases nothing is deleted. *)
Theorem file_delete_needs_file_and_directory_write :
  (can_access fuel (database w1) (EDirectory parent_directory) user_id true = Val true ->
   handle (FileView_handle_delete int jwt_decode fuel) request [("file_id", fs)] w
   = Some (mkResponse ("ok", 200) NoContent, file_deleted w1 file_obj)
   /\ File_get (database (file_deleted w1 file_obj)) file_id = None
   /\ (forall j, j <> file_id ->
         File_get (database (file_deleted w1 file_obj)) j = File_get (database w1) j)
   /\ (forall s, In s (Share_table (database (file_deleted w1 file_obj))) ->
         share_target_file s <> Some file_id)
   /\ (forall s, In s (Share_table (database w1)) -> share_target_file s <> Some file_id ->
         In s (Share_table (database (file_deleted w1 file_obj))))
   /\ Directory_table (database (file_deleted w1 file_obj)) = Directory_table (database w1)
   /\ StorageUser_table (database (file_deleted w1 file_obj)) = StorageUser_table (database w1)
   /\ StorageUser_contacts (database (file_deleted w1 file_obj))
      = StorageUser_contacts (database w1))
  /\ (can_access fuel (database w1) (EDirectory parent_directory) user_id false = Val false ->
      handle (FileView_handle_delete int jwt_decode fuel) request [("file_id", fs)] w
      = Some (mkResponse ("not_found", 404) NoContent, w1))
  /\ (can_access fuel (database w1) (EDirectory parent_directory) user_id false = Val true ->
      can_access fuel (database w1) (EDirectory parent_directory) user_id true = Val false ->
      handle (FileView_handle_delete int jwt_decode fuel) request [("file_id", fs)] w
      = Some (mkResponse ("permission_denied", 403) NoContent, w1)).
Proof.
  assert (Hid : Models.file_id file_obj = file_id)
    by (apply (find_pk Models.file_id _ _ _ (proj2 Hfile))).
  unfold handle. rewrite file_delete_gate.
  split; [|split].
  - intros Hd.
    rewrite (bind_Return _ _ w1 w1 tt) by (apply verify_can_access_write; exact Hd).
    split; [reflexivity|].
    unfold File_get, file_deleted. cbn [database File_table Share_table Directory_table
                                        StorageUser_table StorageUser_contacts].
    rewrite Hid.
    split; [apply (find_filter_same Models.file_id)|].
    split; [intros j Hj; apply (find_filter_other Models.file_id); exact Hj|].
    split; [|split; [|repeat split]].
    + intros s Hin Ht. apply filter_In in Hin. destruct Hin as [_ Hneg].
      rewrite Ht in Hneg. simpl in Hneg. rewrite Z.eqb_refl in Hneg. discriminate.
    + intros s Hin Ht. apply filter_In. split; [exact Hin|].
      destruct (share_target_file s) as [t|]; [|reflexivity]. simpl.
      destruct (Z.eqb_spec t file_id); [congruence | reflexivity].
  - intros Hr.
    rewrite (bind_Raise _ _ w1 w1 ErrorNotFound) by (apply verify_can_access_not_found; exact Hr).
    reflexivity.
  - intros Hr Hw.
    rewrite (bind_Raise _ _ w1 w1 ErrorAccessDenied)
      by (apply verify_can_access_denied; assumption).
    reflexivity.
Qed.

End FileRemoval.

Lemma file_delete_needs_file_and_directory_write_witness :
  handle (FileView_handle_delete Example.int Example.jwt_decode 3)
         (Example.request "DELETE" "2" "bob" [] []) [("file_id", "20")]
         (Example.world Example.db0 1500)
  = Some (mkResponse ("ok", 200) NoContent,
          file_deleted (Example.world Example.db0 1500) Example.a_txt)
  /\ File_get (database (file_deleted (Example.world Example.db0 1500) Example.a_txt)) 20 = None.
Proof.
  destruct (proj1 (file_delete_needs_file_and_directory_write
             Example.int Example.jwt_decode 3
             (Example.request "DELETE" "2" "bob" [] [])
             (Example.world Example.db0 1500) (Example.world Example.db0 1500)
             (mkStorageUser 2 "bob") (Example.claims_of 2 "bob") "2" "20" 2 20
             Example.a_txt Example.deep (conj eq_refl eq_refl) eq_refl (conj eq_refl eq_refl)
             eq_refl eq_refl) eq_refl) as (H1 & H2 & _).
  split; [exact H1 | exact H2].
Defined.

(** ** Deleting a directory *)

Section DirectoryRemoval.

Variable int : string -> option Z.
Variable jwt_decode : string -> option (list (string * PyValue)).
Variable fuel : nat.

Variables (request : HttpRequest) (w w1 : World).
Variables (authenticated : StorageUser) (claims : list (string * PyValue)).
Variables (us ds : string) (user_id directory_id : Z) (directory : Directory).

Hypothesis Huser : dict_get "user" (GET request) = Some us /\ int us = Some user_id.
Hypothesis Hauth :
  _verify_authenticated jwt_decode request user_id w = Return (authenticated, claims) w1.
Hypothesis Hdir :
  int ds = Some directory_id /\ Directory_get (database w1) directory_id = Some directory.
Hypothesis Hwrite :
  can_access fuel (database w1) (EDirectory directory) user_id true = Val true.

Lemma directory_delete_prefix :
  DirectoryView_handle_delete int jwt_decode fuel request [("directory_id", ds)] w =
  (parent_directory <- lift_db (fun db => Directory_parent db directory) ;;
   match parent_directory with
   | None => raise ErrorUnmovableDirectory
   | Some parent_directory =>
       _verify_can_access fuel user_id (Some (EDirectory parent_directory)) true ;;;
       cascade <- flag_param request "cascade" ;;
       (if cascade then atomic (cascade_loop fuel [directory])
        else lift_db (_verify_empty directory) ;;; Directory_delete directory) ;;;
       ret (mkResponse STATUS_OK NoContent)
   end)%py w1.
Proof.
  destruct Huser as [Hu1 Hu2]. destruct Hdir as [Hd1 Hd2].
  unfold DirectoryView_handle_delete.
  rewrite (bind_Return _ _ w w tt) by reflexivity.
  rewrite (bind_Return _ _ w w user_id) by (apply (get_query_param_Return _ _ us); assumption).
  rewrite (bind_Return _ _ w w1 (authenticated, claims)) by exact Hauth.
  rewrite (bind_Return _ _ w1 w1 directory_id)
    by (apply (get_kwarg_Return _ _ ds); [reflexivity | exact Hd1]).
  rewrite (bind_Return _ _ w1 w1 directory)
    by (apply (objects_get_Return (fun db => Directory_get db directory_id)); exact Hd2).
  rewrite (bind_Return _ _ w1 w1 tt) by (apply verify_can_access_write; exact Hwrite).
  reflexivity.
Qed.

(** X10.  Deleting a directory.  A root directory is never deleted: DELETE
    answers [unmovable_directory], with or without [cascade].  For another
    directory the caller needs write access to its parent as well: a caller
    who writes the directory through a share on it and cannot read the
    parent gets [not_found], one who can only read the parent gets
    [permission_denied].  Without [cascade], a directory that holds a file
    or a directory is refused with [not_empty]; an empty one is deleted:
    afterwards it is not found, no share targets it, and every other
    directory and all files are as before.  The refusals change nothing. *)
Theorem directory_delete_rules :
  (dir_parent directory = None ->
   handle (DirectoryView_handle_delete int jwt_decode fuel) request [("directory_id", ds)] w
   = Some (mkResponse ("unmovable_directory", 422) NoContent, w1))
  /\ (forall pid parent,
        dir_parent directory = Some pid -> Directory_get (database w1) pid = Some parent ->
        (can_access fuel (database w1) (EDirectory parent) user_id false = Val false ->
         handle (DirectoryView_handle_delete int jwt_decode fuel) request
                [("directory_id", ds)] w
         = Some (mkResponse ("not_found", 404) NoContent, w1))
        /\ (can_access fuel (database w1) (EDirectory parent) user_id false = Val true ->
            can_access fuel (database w1) (EDirectory parent) user_id true = Val false ->
            handle (DirectoryView_handle_delete int jwt_decode fuel) request
                   [("directory_id", ds)] w
            = Some (mkResponse ("permission_denied", 403) NoContent, w1))
        /\ (can_access fuel (database w1) (EDirectory parent) user_id true = Val true ->
            flag_value request "cascade" false ->
            (Directory_file_set (database w1) directory <> []
             \/ Directory_directory_set (database w1) directory <> [] ->
             handle (DirectoryView_handle_delete int jwt_decode fuel) request
                    [("directory_id", ds)] w
             = Some (mkResponse ("not_empty", 422) NoContent, w1))
            /\ (Directory_file_set (database w1) directory = [] ->
                Directory_directory_set (database w1) directory = [] ->
                handle (DirectoryView_handle_delete int jwt_decode fuel) request
                       [("directory_id", ds)] w
                = Some (mkResponse ("ok", 200) NoContent, directory_deleted w1 directory)
                /\ Directory_get (database (directory_deleted w1 directory)) directory_id = None
                /\ (forall j, j <> directory_id ->
                      Directory_get (database (directory_deleted w1 directory)) j
                      = Directory_get (database w1) j)
                /\ (forall s, In s (Share_table (database (directory_deleted w1 directory))) ->
                      share_target_directory s <> Some directory_id)
                /\ File_table (database (directory_deleted w1 directory))
                   = File_table (database w1)))).
Proof.
  assert (Hid : dir_id directory = directory_id)
    by (apply (find_pk dir_id _ _ _ (proj2 Hdir))).
  unfold handle. rewrite directory_delete_prefix.
  split.
  - intros Hroot.
    rewrite (bind_Return _ _ w1 w1 None)
      by (apply lift_db_Val; unfold Directory_parent; rewrite Hroot; reflexivity).
    reflexivity.
  - intros pid parent Hp Hget.
    rewrite (bind_Return _ _ w1 w1 (Some parent))
      by (apply lift_db_Val; unfold Directory_parent; rewrite Hp, Hget; reflexivity).
    split; [|split].
    + intros Hr.
      rewrite (bind_Raise _ _ w1 w1 ErrorNotFound)
        by (apply verify_can_access_not_found; exact Hr).
      reflexivity.
    + intros Hr Hw.
      rewrite (bind_Raise _ _ w1 w1 ErrorAccessDenied)
        by (apply verify_can_access_denied; assumption).
      reflexivity.
    + intros Hw Hflag.
      rewrite (bind_Return _ _ w1 w1 tt) by (apply verify_can_access_write; exact Hw).
      rewrite (bind_Return _ _ w1 w1 false) by (apply flag_param_Return; exact Hflag).
      split.
      * intros Hne.
        assert (Hexc : _verify_empty directory (database w1) = Exc ErrorDirectoryNotEmpty).
        { unfold _verify_empty.
          destruct (Directory_file_set (database w1) directory) as [|f fs]; [|reflexivity].
          destruct (Directory_directory_set (database w1) directory) as [|d dl]; [|reflexivity].
          destruct Hne as [Hne|Hne]; contradiction. }
        rewrite (bind_Raise _ _ w1 w1 ErrorDirectoryNotEmpty);
          [reflexivity|].
        apply bind_Raise. apply lift_db_Exc. exact Hexc.
      * intros Hf Hd.
        assert (Hval : _verify_empty directory (database w1) = Val tt).
        { unfold _verify_empty. rewrite Hf, Hd. reflexivity. }
        rewrite (bind_Return _ _ w1 (directory_deleted w1 directory) tt).
        2:{ rewrite (bind_Return _ _ w1 w1 tt) by (apply lift_db_Val; exact Hval).
            unfold Directory_delete. rewrite Hf, Hd. reflexivity. }
        split; [reflexivity|].
        unfold Directory_get, directory_deleted.
        cbn [database File_table Share_table Directory_table].
        rewrite Hid.
        split; [apply (find_filter_same dir_id)|].
        split; [intros j Hj; apply (find_filter_other dir_id); exact Hj|].
        split; [|reflexivity].
        intros s Hin Ht. apply filter_In in Hin. destruct Hin as [_ Hneg].
        rewrite Ht in Hneg. simpl in Hneg. rewrite Z.eqb_refl in Hneg. discriminate.
Qed.

End DirectoryRemoval.

Lemma directory_delete_rules_witness :
  handle (DirectoryView_handle_delete Example.int Example.jwt_decode 3)
         (Example.request "DELETE" "1" "alice" [("cascade", EmptyString)] [])
         [("directory_id", "1")] (Example.world Example.db0 1500)
  = Some (mkResponse ("unmovable_directory", 422) NoContent, Example.world Example.db0 1500)
  /\ handle (DirectoryView_handle_delete Example.int Example.jwt_decode 3)
            (Example.request "DELETE" "1" "alice" [] [])
            [("directory_id", "3")] (Example.world Example.db0 1500)
     = Some (mkResponse ("not_empty", 422) NoContent, Example.world Example.db0 1500).
Proof.
  split.
  - apply (proj1 (directory_delete_rules
             Example.int Example.jwt_decode 3
             (Example.request "DELETE" "1" "alice" [("cascade", EmptyString)] [])
             (Example.world Example.db0 1500) (Example.world Example.db0 1500)
             (mkStorageUser 1 "alice") (Example.claims_of 1 "alice") "1" "1" 1 1
             Example.root1 (conj eq_refl eq_refl) eq_refl (conj eq_refl eq_refl) eq_refl)
           eq_refl).
  - apply (proj1 (proj2 (proj2 (proj2 (directory_delete_rules
             Example.int Example.jwt_decode 3
             (Example.request "DELETE" "1" "alice" [] [])
             (Example.world Example.db0 1500) (Example.world Example.db0 1500)
             (mkStorageUser 1 "alice") (Example.claims_of 1 "alice") "1" "3" 1 3
             Example.deep (conj eq_refl eq_refl) eq_refl (conj eq_refl eq_refl) eq_refl)
           2 Example.docs eq_refl eq_refl)) eq_refl eq_refl)).
    left. discriminate.
Defined.

(** ** Contacts *)

(** The user that [_verify_authenticated] returns is the row of the
    database it leaves. *)
Lemma verify_authenticated_user (jwt_decode : string -> option (list (string * PyValue)))
    (req : HttpRequest) (user_id : Z) (w w' : World)
    (user : StorageUser) (claims : list (string * PyValue)) :
  _verify_authenticated jwt_decode req user_id w = Return (user, claims) w' ->
  StorageUser_get (database w') user_id = Some user.
Proof.
  destruct (verify_authenticated_inv jwt_decode req user_id w)
    as [H|(header & token & claims' & name & iat & exp & Hh & Hb & Hd & Hc & Hnow)];
    [rewrite H; discriminate|].
  rewrite (verify_authenticated_provisions jwt_decode req user_id w header token claims'
             name iat exp Hh Hb Hd Hc Hnow).
  destruct (StorageUser_get (database w) user_id) as [u|] eqn:Huser.
  - intros E. injection E as <- <- <-. exact Huser.
  - destruct (fresh_id _ _) as [[id rest]|] eqn:Hfresh; [|discriminate].
    intros E. injection E as <- <- <-.
    unfold StorageUser_get, provisioned. simpl.
    apply find_app_fresh; [exact Huser | apply Z.eqb_refl].
Qed.

Lemma existsb_find_none {A : Type} (p : A -> bool) (l : list A) :
  existsb p l = false -> find p l = None.
Proof.
  induction l as [|a l IH]; simpl; [reflexivity|].
  destruct (p a); [discriminate | exact IH].
Qed.

Lemma find_some_existsb {A : Type} (p : A -> bool) (l : list A) (x : A) :
  find p l = Some x -> existsb p l = true.
Proof.
  induction l as [|a l IH]; simpl; [discriminate|].
  destruct (p a); [reflexivity | exact IH].
Qed.

(** A row found by its key is still found after other rows have been
    replaced and rows have been filtered out, when it passes the filter. *)
Lemma find_filter_replace (user contact : StorageUser) (q : StorageUser -> bool)
    (table : list StorageUser) :
  user_id user <> user_id contact ->
  q contact = true ->
  find (fun c => user_id c =? user_id contact) table = Some contact ->
  find (fun c => user_id c =? user_id contact)
       (filter q (map (fun r => if user_id r =? user_id user then user else r) table))
  = Some contact.
Proof.
  intros Hne Hq. induction table as [|r t IH]; simpl; [discriminate|].
  destruct (Z.eqb_spec (user_id r) (user_id contact)) as [E|E].
  - intros H. injection H as ->.
    destruct (Z.eqb_spec (user_id contact) (user_id user)) as [E'|E']; [congruence|].
    rewrite Hq. simpl. rewrite Z.eqb_refl. reflexivity.
  - intros H. specialize (IH H).
    destruct (Z.eqb_spec (user_id r) (user_id user)) as [E'|E'].
    + destruct (q user); [|exact IH]. simpl.
      destruct (Z.eqb_spec (user_id user) (user_id contact)); [contradiction | exact IH].
    + destruct (q r); [|exact IH]. simpl.
      destruct (Z.eqb_spec (user_id r) (user_id contact)); [contradiction | exact IH].
Qed.

Section Contacts.

Variable int : string -> option Z.
Variable jwt_decode : string -> option (list (string * PyValue)).

Variables (request : HttpRequest) (w w1 : World).
Variables (user : StorageUser) (claims : list (string * PyValue)).
Variables (us cs : string) (user_id contact_id : Z).

Hypothesis Huser : dict_get "user" (GET request) = Some us /\ int us = Some user_id.
Hypothesis Hauth :
  _verify_authenticated jwt_decode request user_id w = Return (user, claims) w1.
Hypothesis Hcontact : int cs = Some contact_id.

Lemma contact_get_prefix :
  ContactView_handle_get int jwt_decode request [("contact_id", cs)] w =
  (contact <- StorageUser_objects_get contact_id ;;
   ret (mkResponse STATUS_OK (UserContent contact)))%py w1.
Proof.
  destruct Huser as [Hu1 Hu2]. unfold ContactView_handle_get.
  rewrite (bind_Return _ _ w w tt) by reflexivity.
  rewrite (bind_Return _ _ w w user_id) by (apply (get_query_param_Return _ _ us); assumption).
  rewrite (bind_Return _ _ w w1 (user, claims)) by exact Hauth.
  rewrite (bind_Return _ _ w1 w1 contact_id)
    by (apply (get_kwarg_Return _ _ cs); [reflexivity | exact Hcontact]).
  reflexivity.
Qed.

Lemma contact_post_prefix :
  ContactView_handle_post int jwt_decode request [("contact_id", cs)] w =
  (raise_if (contact_id =? user_id) ErrorInvalidContact ;;;
   contact <- StorageUser_objects_get contact_id ;;
   db <- get_db ;;
   (if negb (existsb (fun c => model_eqb (EUser contact) (EUser c)) (contacts_all db user))
    then contacts_add user contact ;;; StorageUser_save user ;;; ret tt
    else ret tt) ;;;
   ret (mkResponse STATUS_OK (UserContent contact)))%py w1.
Proof.
  destruct Huser as [Hu1 Hu2]. unfold ContactView_handle_post.
  rewrite (bind_Return _ _ w w tt) by reflexivity.
  rewrite (bind_Return _ _ w w user_id) by (apply (get_query_param_Return _ _ us); assumption).
  rewrite (bind_Return _ _ w w1 (user, claims)) by exact Hauth.
  rewrite (bind_Return _ _ w1 w1 user)
    by (apply (objects_get_Return (fun db => StorageUser_get db user_id));
        exact (verify_authenticated_user _ _ _ _ _ _ _ Hauth)).
  rewrite (bind_Return _ _ w1 w1 contact_id)
    by (apply (get_kwarg_Return _ _ cs); [reflexivity | exact Hcontact]).
  reflexivity.
Qed.

(** X11.  Contacts.  A user cannot add itself: POST answers
    [invalid_contact]; a contact that is no user answers [not_found].
    Adding an existing user answers [ok] with that user's record: when the
    relation is there already nothing changes (adding is idempotent),
    otherwise exactly one relation, from the caller to the contact, is
    recorded, and the contact is then found among the caller's contacts.
    GET on a contact answers with the record of any existing user, whether
    or not it is among the caller's contacts, and [not_found] when there is
    no such user. *)
Theorem contact_rules :
  (contact_id = user_id ->
   handle (ContactView_handle_post int jwt_decode) request [("contact_id", cs)] w
   = Some (mkResponse ("invalid_contact", 422) NoContent, w1))
  /\ (StorageUser_get (database w1) contact_id = None ->
      (contact_id <> user_id ->
       handle (ContactView_handle_post int jwt_decode) request [("contact_id", cs)] w
       = Some (mkResponse ("not_found", 404) NoContent, w1))
      /\ handle (ContactView_handle_get int jwt_decode) request [("contact_id", cs)] w
         = Some (mkResponse ("not_found", 404) NoContent, w1))
  /\ (forall contact, StorageUser_get (database w1) contact_id = Some contact ->
      handle (ContactView_handle_get int jwt_decode) request [("contact_id", cs)] w
      = Some (mkResponse ("ok", 200) (UserContent contact), w1)
      /\ (contact_id <> user_id ->
          (contacts_get (database w1) user contact_id <> None ->
           handle (ContactView_handle_post int jwt_decode) request [("contact_id", cs)] w
           = Some (mkResponse ("ok", 200) (UserContent contact), w1))
          /\ (contacts_get (database w1) user contact_id = None ->
              handle (ContactView_handle_post int jwt_decode) request [("contact_id", cs)] w
              = Some (mkResponse ("ok", 200) (UserContent contact), contact_added w1 user contact)
              /\ StorageUser_contacts (database (contact_added w1 user contact))
                 = (StorageUser_contacts (database w1) ++ [(user_id, contact_id)])%list
              /\ contacts_get (database (contact_added w1 user contact)) user contact_id
                 = Some contact))).
Proof.
  pose proof (verify_authenticated_user _ _ _ _ _ _ _ Hauth) as Hrow.
  assert (Huid : Models.user_id user = user_id) by (apply (find_pk Models.user_id _ _ _ Hrow)).
  unfold handle. rewrite contact_get_prefix, contact_post_prefix.
  split; [|split].
  - intros ->. rewrite Z.eqb_refl. reflexivity.
  - intros Hnone.
    assert (Hget : StorageUser_objects_get contact_id w1 = Raise ObjectDoesNotExist w1)
      by (apply (objects_get_Raise (fun db => StorageUser_get db contact_id)); exact Hnone).
    split.
    + intros Hne. destruct (Z.eqb_spec contact_id user_id) as [E|E]; [contradiction|].
      rewrite (bind_Return _ _ w1 w1 tt) by reflexivity.
      rewrite (bind_Raise _ _ w1 w1 ObjectDoesNotExist) by exact Hget. reflexivity.
    + rewrite (bind_Raise _ _ w1 w1 ObjectDoesNotExist) by exact Hget. reflexivity.
  - intros contact Hsome.
    assert (Hget : StorageUser_objects_get contact_id w1 = Return contact w1)
      by (apply (objects_get_Return (fun db => StorageUser_get db contact_id)); exact Hsome).
    assert (Hcid : Models.user_id contact = contact_id)
      by (apply (find_pk Models.user_id _ _ _ Hsome)).
    split.
    + rewrite (bind_Return _ _ w1 w1 contact) by exact Hget. reflexivity.
    + intros Hne. destruct (Z.eqb_spec contact_id user_id) as [E|E]; [contradiction|].
      rewrite (bind_Return _ _ w1 w1 tt) by reflexivity.
      rewrite (bind_Return _ _ w1 w1 contact) by exact Hget.
      rewrite (bind_Return _ _ w1 w1 (database w1)) by reflexivity.
      assert (Hsame : existsb (fun c => model_eqb (EUser contact) (EUser c))
                              (contacts_all (database w1) user)
                      = existsb (fun c => Models.user_id c =? contact_id)
                                (contacts_all (database w1) user)).
      { apply existsb_pointwise. intros c. simpl. rewrite Hcid. apply Z.eqb_sym. }
      rewrite Hsame. split.
      * intros Hthere. unfold contacts_get in Hthere.
        destruct (find _ _) as [c|] eqn:Hfind; [|contradiction].
        rewrite (find_some_existsb _ _ _ Hfind). reflexivity.
      * intros Habsent. unfold contacts_get in Habsent.
        rewrite (find_none_existsb _ _ Habsent). cbn [negb].
        assert (Hrel : existsb (fun r => (fst r =? Models.user_id user)
                                         && (snd r =? Models.user_id contact))
                               (StorageUser_contacts (database w1)) = false).
        { destruct (existsb _ (StorageUser_contacts (database w1))) eqn:Eq; [|reflexivity].
          exfalso.
          pose proof (find_none _ _ Habsent contact) as Hn.
          assert (Hin : In contact (contacts_all (database w1) user)).
          { unfold contacts_all. apply filter_In. split; [|exact Eq].
            unfold StorageUser_get in Hsome. apply find_some in Hsome. exact (proj1 Hsome). }
          specialize (Hn Hin). simpl in Hn. rewrite Hcid, Z.eqb_refl in Hn. discriminate. }
        assert (Hrun : (contacts_add user contact ;;; StorageUser_save user ;;; ret tt)%py w1
                       = Return tt (contact_added w1 user contact)).
        { unfold bind, contacts_add, StorageUser_save, modify_db, ret.
          cbn [database clock random]. rewrite Hrel. reflexivity. }
        rewrite (bind_Return _ _ w1 (contact_added w1 user contact) tt) by exact Hrun.
        split; [reflexivity|].
        split; [unfold contact_added; cbn [database with_users with_contacts StorageUser_contacts];
                rewrite Huid, Hcid; reflexivity|].
        unfold contacts_get, contacts_all, contact_added.
        cbn [database with_users with_contacts StorageUser_contacts StorageUser_table].
        unfold upsert.
        rewrite (find_some_existsb (fun r => Models.user_id r =? Models.user_id user) _ user)
          by (rewrite Huid; exact Hrow).
        rewrite <- Hcid.
        apply find_filter_replace.
        -- rewrite Huid, Hcid. congruence.
        -- rewrite existsb_app. simpl. rewrite !Z.eqb_refl. simpl. apply orb_true_r.
        -- rewrite Hcid. exact Hsome.
Qed.

End Contacts.

Lemma contact_rules_witness :
  handle (ContactView_handle_post Example.int Example.jwt_decode)
         (Example.request "POST" "1" "alice" [] []) [("contact_id", "1")]
         (Example.world Example.db0 1500)
  = Some (mkResponse ("invalid_contact", 422) NoContent, Example.world Example.db0 1500)
  /\ handle (ContactView_handle_post Example.int Example.jwt_decode)
            (Example.request "POST" "1" "alice" [] []) [("contact_id", "3")]
            (Example.world Example.db0 1500)
     = Some (mkResponse ("ok", 200) (UserContent (mkStorageUser 3 "carol")),
             contact_added (Example.world Example.db0 1500) (mkStorageUser 1 "alice")
                           (mkStorageUser 3 "carol")).
Proof.
  split.
  - apply (proj1 (contact_rules Example.int Example.jwt_decode
             (Example.request "POST" "1" "alice" [] [])
             (Example.world Example.db0 1500) (Example.world Example.db0 1500)
             (mkStorageUser 1 "alice") (Example.claims_of 1 "alice") "1" "1" 1 1
             (conj eq_refl eq_refl) eq_refl eq_refl) eq_refl).
  - apply (proj1 (proj2 (proj2 (proj2 (proj2 (contact_rules Example.int Example.jwt_decode
             (Example.request "POST" "1" "alice" [] [])
             (Example.world Example.db0 1500) (Example.world Example.db0 1500)
             (mkStorageUser 1 "alice") (Example.claims_of 1 "alice") "1" "3" 1 3
             (conj eq_refl eq_refl) eq_refl eq_refl)) (mkStorageUser 3 "carol") eq_refl)
           ltac:(lia)) eq_refl)).
Defined.

(** ** Saving and creating rows *)

Lemma fresh_id_first (taken : Z -> bool) (draws : list Z) (id : Z) (rest : list Z) :
  fresh_id taken draws = Some (id, rest) ->
  exists skipped, draws = (skipped ++ id :: rest)%list
                  /\ forall x, In x skipped -> taken x = true \/ x = 0.
Proof.
  revert id rest. induction draws as [|r draws IH]; intros id rest; simpl; [discriminate|].
  destruct (taken r) eqn:Ht; simpl.
  - intros H. destruct (IH _ _ H) as (sk & -> & Hsk). exists (r :: sk). split; [reflexivity|].
    intros x [<-|Hin]; [left; exact Ht | apply Hsk; exact Hin].
  - destruct (Z.eqb_spec r 0) as [E|E]; simpl.
    + intros H. destruct (IH _ _ H) as (sk & -> & Hsk). exists (r :: sk). split; [reflexivity|].
      intros x [<-|Hin]; [right; exact E | apply Hsk; exact Hin].
    + intros H. injection H as <- <-. exists []. split; [reflexivity|]. intros x [].
Qed.

Lemma fresh_id_exists (taken : Z -> bool) (draws : list Z) (x : Z) :
  In x draws -> taken x = false -> x <> 0 ->
  exists id rest, fresh_id taken draws = Some (id, rest).
Proof.
  induction draws as [|r draws IH]; simpl; [intros []|].
  intros [->|Hin] Ht Hx.
  - rewrite Ht. destruct (Z.eqb_spec x 0); [contradiction|]. simpl. eauto.
  - destruct (negb (taken r) && negb (r =? 0)); [eauto | apply IH; assumption].
Qed.

Lemma find_app_other {R : Type} (pk : R -> Z) (row : R) (j : Z) (table : list R) :
  j <> pk row ->
  find (fun r => pk r =? j) (table ++ [row]) = find (fun r => pk r =? j) table.
Proof.
  intros Hj. induction table as [|r t IH]; simpl.
  - destruct (Z.eqb_spec (pk row) j); [congruence | reflexivity].
  - destruct (pk r =? j); [reflexivity | exact IH].
Qed.

(** Lookups after [upsert]. *)
Lemma upsert_lookup_same {R : Type} (pk : R -> Z) (row : R) (table : list R) :
  find (fun r => pk r =? pk row) (upsert pk row table) = Some row.
Proof.
  unfold upsert. destruct (existsb _ table) eqn:E.
  - induction table as [|r t IH]; simpl in *; [discriminate|].
    destruct (Z.eqb_spec (pk r) (pk row)) as [Er|Er]; simpl.
    + rewrite Z.eqb_refl. reflexivity.
    + destruct (Z.eqb_spec (pk r) (pk row)); [contradiction | apply IH; exact E].
  - apply find_app_fresh; [apply existsb_find_none; exact E | apply Z.eqb_refl].
Qed.

Lemma upsert_lookup_other {R : Type} (pk : R -> Z) (row : R) (j : Z) (table : list R) :
  j <> pk row ->
  find (fun r => pk r =? j) (upsert pk row table) = find (fun r => pk r =? j) table.
Proof.
  intros Hj. unfold upsert. destruct (existsb _ table) eqn:E.
  - clear E. induction table as [|r t IH]; simpl; [reflexivity|].
    destruct (Z.eqb_spec (pk r) (pk row)) as [Er|Er].
    + destruct (Z.eqb_spec (pk row) j); [congruence|].
      destruct (Z.eqb_spec (pk r) j); [congruence | exact IH].
    + destruct (pk r =? j); [reflexivity | exact IH].
  - apply find_app_other. exact Hj.
Qed.

Lemma upsert_length {R : Type} (pk : R -> Z) (row : R) (table : list R) :
  existsb (fun r => pk r =? pk row) table = true ->
  List.length (upsert pk row table) = List.length table.
Proof. intros E. unfold upsert. rewrite E. apply length_map. Qed.

Lemma assign_id_inv (current : Z) (taken : DB -> Z -> bool) (w w' : World) (id : Z) :
  assign_id current taken w = Return id w' ->
  (current <> 0 /\ id = current /\ w' = w)
  \/ (current = 0 /\ exists rest,
        fresh_id (taken (database w)) (random w) = Some (id, rest)
        /\ w' = mkWorld (database w) (clock w) rest).
Proof.
  unfold assign_id. destruct (Z.eqb_spec current 0) as [E|E]; simpl.
  - destruct (fresh_id _ _) as [[i rest]|] eqn:Hf; [|discriminate].
    intros H. injection H as <- <-. right. split; [exact E|]. exists rest. split; reflexivity.
  - intros H. injection H as <- <-. left. repeat split; assumption.
Qed.





(** ** The dispatch on the verb *)

Lemma eqb_neq_false (a b : string) : a <> b -> String.eqb a b = false.
Proof. intros H. apply String.eqb_neq. exact H. Qed.

(** X14.  The dispatch of [AbstractView.handle].  A verb that a view does
    not implement (PUT on shares and contacts; POST, PUT and DELETE on the
    user info) is answered with [malformed_request] and the message
    [Unsupported method: VERB], whatever the URL arguments.  A verb outside
    GET, POST, PUT and DELETE gets the same answer only on a URL without
    arguments: with a URL argument the fallback method, which accepts none,
    fails and the answer is [internal_error].  None of these requests
    changes anything. *)
Theorem unsupported_verb_answers
    (int : string -> option Z) (jwt_decode : string -> option (list (string * PyValue)))
    (fuel : nat) (request : HttpRequest) (kwargs : list (string * string)) (w : World) :
  (method request <> "GET" -> method request <> "POST" ->
   method request <> "PUT" -> method request <> "DELETE" ->
   forall view,
     View_handle view request kwargs w
     = Some (match kwargs with
             | [] => mkResponse ("malformed_request", 400)
                       (MessageContent ("Unsupported method: " ++ method request))
             | _ :: _ => mkResponse ("internal_error", 500) NoContent
             end, w))
  /\ (method request = "PUT" ->
      View_handle (ShareView int jwt_decode fuel) request kwargs w
      = Some (mkResponse ("malformed_request", 400) (MessageContent "Unsupported method: PUT"), w)
      /\ View_handle (ContactView int jwt_decode) request kwargs w
         = Some (mkResponse ("malformed_request", 400)
                   (MessageContent "Unsupported method: PUT"), w))
  /\ (method request = "POST" \/ method request = "PUT" \/ method request = "DELETE" ->
      View_handle (UserInfoView int jwt_decode fuel) request kwargs w
      = Some (mkResponse ("malformed_request", 400)
                (MessageContent ("Unsupported method: " ++ method request)), w)).
Proof.
  split; [|split].
  - intros Hg Hp Hu Hd view. unfold View_handle, method_by_verb.
    rewrite (eqb_neq_false _ _ Hg), (eqb_neq_false _ _ Hp), (eqb_neq_false _ _ Hu),
      (eqb_neq_false _ _ Hd).
    unfold handle, _handle_unsupported_method. destruct kwargs; reflexivity.
  - intros E. unfold View_handle. rewrite E. split; reflexivity.
  - intros [E|[E|E]]; unfold View_handle; rewrite E; reflexivity.
Qed.

Lemma unsupported_verb_answers_witness :
  View_handle (FileView Example.int Example.jwt_decode 3)
              (Example.request "PATCH" "1" "alice" [] []) [("file_id", "20")]
              (Example.world Example.db0 1500)
  = Some (mkResponse ("internal_error", 500) NoContent, Example.world Example.db0 1500)
  /\ View_handle (FileView Example.int Example.jwt_decode 3)
                 (Example.request "PATCH" "1" "alice" [] []) []
                 (Example.world Example.db0 1500)
     = Some (mkResponse ("malformed_request", 400)
               (MessageContent "Unsupported method: PATCH"), Example.world Example.db0 1500).
Proof.
  split.
  - apply (proj1 (unsupported_verb_answers Example.int Example.jwt_decode 3
                    (Example.request "PATCH" "1" "alice" [] []) [("file_id", "20")]
                    (Example.world Example.db0 1500)));
      discriminate.
  - apply (proj1 (unsupported_verb_answers Example.int Example.jwt_decode 3
                    (Example.request "PATCH" "1" "alice" [] []) []
                    (Example.world Example.db0 1500)));
      discriminate.
Defined.

(** ** Requests that do not authenticate *)

Lemma verify_kwargs_cases (kwargs : list (string * string)) (valid_names : list string)
    (w : World) :
  _verify_kwargs kwargs valid_names w = Return tt w
  \/ exists msg, _verify_kwargs kwargs valid_names w = Raise (ErrorBadRequest msg) w.
Proof.
  induction kwargs as [|[name v] rest IH]; simpl; [left; reflexivity|].
  destruct (negb (existsb (String.eqb name) valid_names)); [|exact IH].
  right. eexists. reflexivity.
Qed.

Lemma get_query_param_cases {A : Type} (req : HttpRequest) (name : string)
    (converter : string -> option A) (w : World) :
  (exists a, _get_query_param req name converter w = Return a w)
  \/ exists msg, _get_query_param req name converter w = Raise (ErrorBadRequest msg) w.
Proof.
  unfold _get_query_param. destruct (dict_get name (GET req)) as [v|].
  - destruct (converter v) as [a|]; [left; exists a; reflexivity | right; eexists; reflexivity].
  - right. eexists. reflexivity.
Qed.

Lemma get_kwarg_cases {A : Type} (kwargs : list (string * string)) (name : string)
    (converter : string -> option A) (w : World) :
  (exists a, _get_kwarg kwargs name converter w = Return a w)
  \/ exists msg, _get_kwarg kwargs name converter w = Raise (ErrorBadRequest msg) w.
Proof.
  unfold _get_kwarg. destruct (dict_get name kwargs) as [v|].
  - destruct (converter v) as [a|]; [left; exists a; reflexivity | right; eexists; reflexivity].
  - right. eexists. reflexivity.
Qed.

Section Unauthenticated.

Variable int : string -> option Z.
Variable jwt_decode : string -> option (list (string * PyValue)).
Variables (request : HttpRequest) (kwargs : list (string * string)) (w : World).

Hypothesis Hrefused :
  forall user_id, _verify_authenticated jwt_decode request user_id w = Raise ErrorUnauthorized w.

(** The first three steps of every handler but that of the user info. *)
Lemma prelude_refused {B : Type} (valid_names : list string)
    (k : Z -> StorageUser * list (string * PyValue) -> M World B) :
  exists e,
    bind (_verify_kwargs kwargs valid_names)
         (fun _ => bind (_get_query_param request "user" int)
                        (fun user_id => bind (_verify_authenticated jwt_decode request user_id)
                                             (k user_id))) w
    = Raise e w /\ refusal e.
Proof.
  destruct (verify_kwargs_cases kwargs valid_names w) as [Hk|[msg Hk]].
  - rewrite (bind_Return _ _ w w tt) by exact Hk.
    destruct (get_query_param_cases request "user" int w) as [[uid Hq]|[msg Hq]].
    + rewrite (bind_Return _ _ w w uid) by exact Hq.
      exists ErrorUnauthorized. split; [|left; reflexivity].
      apply bind_Raise. apply Hrefused.
    + exists (ErrorBadRequest msg). split; [|right; eexists; reflexivity].
      apply bind_Raise. exact Hq.
  - exists (ErrorBadRequest msg). split; [|right; eexists; reflexivity].
    apply bind_Raise. exact Hk.
Qed.

Lemma user_info_refused (fuel : nat) :
  exists e, UserInfoView_handle_get int jwt_decode fuel request kwargs w = Raise e w /\ refusal e.
Proof.
  unfold UserInfoView_handle_get.
  destruct (get_kwarg_cases kwargs "user_id" int w) as [[uid Hq]|[msg Hq]].
  - rewrite (bind_Return _ _ w w uid) by exact Hq.
    exists ErrorUnauthorized. split; [|left; reflexivity].
    apply bind_Raise. apply Hrefused.
  - exists (ErrorBadRequest msg). split; [|right; eexists; reflexivity].
    apply bind_Raise. exact Hq.
Qed.

End Unauthenticated.

Lemma handle_refused (m : HttpRequest -> list (string * string) -> M World Response)
    (request : HttpRequest) (kwargs : list (string * string)) (w : World) :
  (exists e, m request kwargs w = Raise e w /\ refusal e) ->
  exists r, handle m request kwargs w = Some (r, w)
            /\ (status r = ("unauthorized", 401) \/ status r = ("malformed_request", 400)).
Proof.
  intros (e & He & Hr). unfold handle. rewrite He.
  exists (response_for_exn e). split; [reflexivity|].
  destruct Hr as [->|[msg ->]]; [left | right]; reflexivity.
Qed.

(** X15.  Nothing happens without authentication.  When the token of a
    request is not accepted, every view answers every verb with
    [unauthorized], [malformed_request] or (for an unknown verb on a URL
    with arguments) [internal_error], and the database, the clock and the
    random source are exactly as before: no handler reads or writes an
    object before [_verify_authenticated] has passed. *)
Theorem unauthenticated_request_changes_nothing
    (int : string -> option Z) (jwt_decode : string -> option (list (string * PyValue)))
    (fuel : nat) (request : HttpRequest) (kwargs : list (string * string)) (w : World)
    (view : View) :
  (forall user_id,
     _verify_authenticated jwt_decode request user_id w = Raise ErrorUnauthorized w) ->
  In view [UserInfoView int jwt_decode fuel; FileView int jwt_decode fuel;
           DirectoryView int jwt_decode fuel; ShareView int jwt_decode fuel;
           ContactView int jwt_decode] ->
  exists r, View_handle view request kwargs w = Some (r, w)
            /\ (status r = ("unauthorized", 401) \/ status r = ("malformed_request", 400)
                \/ status r = ("internal_error", 500)).
Proof.
  intros Hrefused Hview.
  assert (Hweak : forall m,
            (exists e, m request kwargs w = Raise e w /\ refusal e) ->
            exists r, handle m request kwargs w = Some (r, w)
                      /\ (status r = ("unauthorized", 401) \/ status r = ("malformed_request", 400)
                          \/ status r = ("internal_error", 500))).
  { intros m Hm. destruct (handle_refused m request kwargs w Hm) as (r & Hr & [Hs|Hs]).
    - exists r. split; [exact Hr | left; exact Hs].
    - exists r. split; [exact Hr | right; left; exact Hs]. }
  assert (Hunsupported : forall verb,
            exists e, unsupported verb request kwargs w = Raise e w /\ refusal e).
  { intros verb. eexists. split; [reflexivity|]. right. eexists. reflexivity. }
  assert (Hfallback :
            exists r, handle _handle_unsupported_method request kwargs w = Some (r, w)
                      /\ (status r = ("unauthorized", 401) \/ status r = ("malformed_request", 400)
                          \/ status r = ("internal_error", 500))).
  { unfold handle, _handle_unsupported_method. destruct kwargs; eexists; split;
      try reflexivity; [right; left | right; right]; reflexivity. }
  unfold View_handle, method_by_verb.
  simpl in Hview.
  destruct Hview as [<-|[<-|[<-|[<-|[<-|[]]]]]];
    repeat (match goal with
            | |- context [String.eqb (method request) ?v] =>
                destruct (String.eqb (method request) v)
            end; cbv iota);
    first
      [ exact Hfallback
      | cbn [_handle_get _handle_post _handle_put _handle_delete UserInfoView FileView
             DirectoryView ShareView ContactView AbstractView];
        apply Hweak;
        first
          [ apply Hunsupported
          | apply user_info_refused; exact Hrefused
          | unfold FileView_handle_get, FileView_handle_post, FileView_handle_put,
              FileView_handle_delete, DirectoryView_handle_get, DirectoryView_handle_post,
              DirectoryView_handle_put, DirectoryView_handle_delete, ShareView_handle_get,
              ShareView_handle_post, ShareView_handle_delete, ContactView_handle_get,
              ContactView_handle_post, ContactView_handle_delete;
            apply prelude_refused; exact Hrefused ] ].
Qed.

Lemma unauthenticated_request_changes_nothing_witness :
  exists r,
    View_handle (FileView Example.int Example.jwt_decode 3)
                (mkHttpRequest "DELETE" [] [("user", "1")] []) [("file_id", "20")]
                (Example.world Example.db0 1500)
    = Some (r, Example.world Example.db0 1500)
    /\ (status r = ("unauthorized", 401) \/ status r = ("malformed_request", 400)
        \/ status r = ("internal_error", 500)).
Proof.
  apply (unauthenticated_request_changes_nothing Example.int Example.jwt_decode 3).
  - intros user_id. reflexivity.
  - right. left. reflexivity.
Defined.

(** ** What an upload leaves *)

(** The access decision for a directory reads the directories and the
    shares only. *)
Lemma Directory_can_access_tables (db db' : DB) :
  Directory_table db' = Directory_table db -> Share_table db' = Share_table db ->
  forall fuel d u b, Directory_can_access fuel db' d u b = Directory_can_access fuel db d u b.
Proof.
  intros Hd Hs. induction fuel as [|k IH]; intros d u b; simpl; [reflexivity|].
  unfold Directory_share_set, Directory_get. rewrite Hd, Hs.
  destruct (dir_owner d =? u); [reflexivity|].
  destruct (share_loop _ b); [reflexivity|].
  destruct (dir_parent d) as [pid|]; [|reflexivity].
  destruct (find _ _) as [p|]; [apply IH | reflexivity].
Qed.

Lemma File_objects_create_inv (name : string) (owner parent : Z) (data : list byte)
    (w w' : World) (f : File) :
  File_objects_create name owner parent data w = Return f w' ->
  exists id rest,
    fresh_id (File_exists (database w)) (random w) = Some (id, rest)
    /\ f = mkFile id name owner parent data
    /\ w' = mkWorld (with_files (database w) (File_table (database w) ++ [f])) (clock w) rest.
Proof.
  unfold File_objects_create, File_save.
  cbn [file_id file_name file_owner file_parent_directory file_data].
  unfold bind at 1.
  destruct (assign_id 0 File_exists w) as [id w1| |] eqn:Ha; try discriminate.
  destruct (assign_id_inv _ _ _ _ _ Ha) as [[Hc _]|[_ (rest & Hf & ->)]]; [contradiction|].
  unfold bind, modify_db, ret. cbn [database clock random].
  intros H. injection H as <- <-. exists id, rest.
  destruct (fresh_id_free _ _ _ _ Hf) as [Hfree _].
  rewrite (upsert_fresh file_id (mkFile id name owner parent data)) by exact Hfree.
  repeat split. exact Hf.
Qed.

Lemma usage_other_owner (db : DB) (f : File) (u : Z) :
  u <> file_owner f ->
  usage (with_files db (File_table db ++ [f])) u None = usage db u None.
Proof.
  intros Hu. rewrite !usage_sum. cbn [with_files File_table].
  rewrite filter_app, sum_length_app. cbn [filter].
  destruct (Z.eqb_spec (file_owner f) u); [congruence|]. cbn [sum_length fold_right]. lia.
Qed.

Section UploadOutcome.

Variable int : string -> option Z.
Variable jwt_decode : string -> option (list (string * PyValue)).
Variable fuel : nat.

Variables (request : HttpRequest) (w w1 : World).
Variables (authenticated : StorageUser) (claims : list (string * PyValue)).
Variables (us ps file_name : string) (user_id parent_directory_id : Z).
Variable parent_directory : Directory.

Hypothesis Huser : dict_get "user" (GET request) = Some us /\ int us = Some user_id.
Hypothesis Hauth :
  _verify_authenticated jwt_decode request user_id w = Return (authenticated, claims) w1.
Hypothesis Hname : dict_get "name" (GET request) = Some file_name.
Hypothesis Hparent :
  dict_get "parentDirectory" (GET request) = Some ps /\ int ps = Some parent_directory_id.
Hypothesis Hdirectory : Directory_get (database w1) parent_directory_id = Some parent_directory.
Hypothesis Hwrite :
  can_access fuel (database w1) (EDirectory parent_directory) user_id true = Val true.
Hypothesis Hunique :
  _verify_unique_names (inl file_name) (Some parent_directory) (database w1) = Val tt.

(** The three ways the handler ends once the name is free. *)
Lemma post_outcome (r : Response) (w2 : World) :
  handle (FileView_handle_post int jwt_decode fuel) request [] w = Some (r, w2) ->
  (len (body request) > DATA_UPLOAD_MAX_MEMORY_SIZE
   /\ r = mkResponse ("internal_error", 500) NoContent /\ w2 = w1)
  \/ (len (body request) <= DATA_UPLOAD_MAX_MEMORY_SIZE
      /\ r = mkResponse ("quota_exceeded", 413) NoContent /\ w2 = w1)
  \/ exists id rest,
       fresh_id (File_exists (database w1)) (random w1) = Some (id, rest)
       /\ r = mkResponse ("ok", 200) (FileContent (uploaded request file_name parent_directory id))
       /\ w2 = after_upload request w1 file_name parent_directory id rest
       /\ len (body request) <= LIMIT_SINGLE_FILE_SIZE
       /\ usage (database w1) user_id None + len (body request) <= LIMIT_USER_TOTAL_SIZE.
Proof.
  unfold handle.
  rewrite (post_checks int jwt_decode fuel request w w1 authenticated claims us ps file_name
             user_id parent_directory_id parent_directory
             Huser Hauth Hname Hparent Hdirectory Hwrite Hunique).
  destruct (Z.gtb_spec (len (body request)) DATA_UPLOAD_MAX_MEMORY_SIZE) as [Hbig|Hbig].
  { intros H. injection H as <- <-. left. split; [lia | split; reflexivity]. }
  destruct (Z.gtb_spec (len (body request)) LIMIT_SINGLE_FILE_SIZE) as [Hcap|Hcap].
  { intros H. injection H as <- <-. right. left. split; [exact Hbig | split; reflexivity]. }
  rewrite quota_query_usage.
  destruct (Z.gtb_spec (usage (database w1) user_id None + len (body request))
                       LIMIT_USER_TOTAL_SIZE) as [Hq|Hq].
  { intros H. injection H as <- <-. right. left. split; [exact Hbig | split; reflexivity]. }
  unfold bind.
  destruct (File_objects_create _ _ _ _ w1) as [f w'|e w'|] eqn:Hc; try discriminate.
  - destruct (File_objects_create_inv _ _ _ _ _ _ _ Hc) as (id & rest & Hf & -> & ->).
    unfold ret. intros H. injection H as <- <-. right. right. exists id, rest.
    repeat split; assumption.
  - exfalso. revert Hc. unfold File_objects_create, File_save, bind, assign_id, modify_db, ret.
    destruct (negb _); [discriminate|].
    destruct (fresh_id _ _) as [[id rest]|]; discriminate.
Qed.



End UploadOutcome.



(** ** What a deletion frees *)

Lemma filter_keeps_all {A : Type} (p : A -> bool) (l : list A) :
  (forall x, In x l -> p x = true) -> filter p l = l.
Proof.
  induction l as [|a l IH]; simpl; intros H; [reflexivity|].
  rewrite (H a (or_introl eq_refl)). f_equal. apply IH. intros x Hx. apply H. right. exact Hx.
Qed.

Lemma sum_length_remove (u : Z) (f : File) (table : list File) :
  NoDup (map file_id table) -> In f table ->
  sum_length (filter (fun g => file_owner g =? u) table)
  = sum_length (filter (fun g => file_owner g =? u)
                       (filter (fun g => negb (file_id g =? file_id f)) table))
    + (if file_owner f =? u then len (file_data f) else 0).
Proof.
  induction table as [|g t IH]; simpl; intros Hnd Hin; [contradiction|].
  inversion Hnd as [|x l Hnotin Hnd' Heq]; subst.
  destruct Hin as [->|Hin].
  - rewrite Z.eqb_refl. simpl.
    rewrite (filter_keeps_all (fun g => negb (file_id g =? file_id f)) t).
    + destruct (file_owner f =? u); simpl; lia.
    + intros x Hx. destruct (Z.eqb_spec (file_id x) (file_id f)) as [E|E]; [|reflexivity].
      exfalso. apply Hnotin. rewrite <- E. apply in_map. exact Hx.
  - assert (Hne : file_id g <> file_id f).
    { intros E. apply Hnotin. rewrite E. apply in_map. exact Hin. }
    destruct (Z.eqb_spec (file_id g) (file_id f)); [contradiction|]. simpl.
    specialize (IH Hnd' Hin).
    destruct (file_owner g =? u); simpl; lia.
Qed.

Section FreedQuota.

Variable int : string -> option Z.
Variable jwt_decode : string -> option (list (string * PyValue)).
Variable fuel : nat.

Variables (request : HttpRequest) (w w1 : World).
Variables (authenticated : StorageUser) (claims : list (string * PyValue)).
Variables (us fs : string) (user_id file_id : Z) (file_obj : File).
Variable parent_directory : Directory.

Hypothesis Huser : dict_get "user" (GET request) = Some us /\ int us = Some user_id.
Hypothesis Hauth :
  _verify_authenticated jwt_decode request user_id w = Return (authenticated, claims) w1.
Hypothesis Hfile : int fs = Some file_id /\ File_get (database w1) file_id = Some file_obj.
Hypothesis Hparent :
  Directory_get (database w1) (file_parent_directory file_obj) = Some parent_directory.
Hypothesis Hwrite : can_access fuel (database w1) (EFile file_obj) user_id true = Val true.
Hypothesis Hdirectory :
  can_access fuel (database w1) (EDirectory parent_directory) user_id true = Val true.
Hypothesis Hkeys : NoDup (map Models.file_id (File_table (database w1))).

(** X18.  Deleting a file frees its size for its owner.  In a table
    without duplicate ids, a DELETE that is answered [ok] lowers the usage
    of the file's owner by exactly the length of the file's content and
    leaves the usage of every other user as it was. *)
Theorem file_delete_frees_quota :
  exists w2,
    handle (FileView_handle_delete int jwt_decode fuel) request [("file_id", fs)] w
    = Some (mkResponse ("ok", 200) NoContent, w2)
    /\ usage (database w2) (file_owner file_obj) None
       = usage (database w1) (file_owner file_obj) None - len (file_data file_obj)
    /\ (forall u, u <> file_owner file_obj ->
          usage (database w2) u None = usage (database w1) u None).
Proof.
  exists (file_deleted w1 file_obj). split.
  - unfold handle.
    rewrite (file_delete_gate int jwt_decode fuel request w w1 authenticated claims us fs
               user_id file_id file_obj parent_directory Huser Hauth Hfile Hparent Hwrite).
    rewrite (bind_Return _ _ w1 w1 tt) by (apply verify_can_access_write; exact Hdirectory).
    reflexivity.
  - assert (Hin : In file_obj (File_table (database w1))).
    { destruct Hfile as [_ Hget]. unfold File_get in Hget. apply find_some in Hget.
      exact (proj1 Hget). }
    split.
    + rewrite !usage_sum. unfold file_deleted. cbn [database File_table].
      rewrite (sum_length_remove (file_owner file_obj) file_obj _ Hkeys Hin).
      rewrite Z.eqb_refl. lia.
    + intros u Hu. rewrite !usage_sum. unfold file_deleted. cbn [database File_table].
      rewrite (sum_length_remove u file_obj _ Hkeys Hin).
      destruct (Z.eqb_spec (file_owner file_obj) u); [congruence | lia].
Qed.

End FreedQuota.

Lemma file_delete_frees_quota_witness :
  exists w2,
    handle (FileView_handle_delete Example.int Example.jwt_decode 3)
           (Example.request "DELETE" "1" "alice" [] []) [("file_id", "20")]
           (Example.world Example.db0 1500)
    = Some (mkResponse ("ok", 200) NoContent, w2)
    /\ usage (database w2) 1 None = usage Example.db0 1 None - 3
    /\ (forall u, u <> 1 -> usage (database w2) u None = usage Example.db0 u None).
Proof.
  apply (file_delete_frees_quota Example.int Example.jwt_decode 3
           (Example.request "DELETE" "1" "alice" [] [])
           (Example.world Example.db0 1500) (Example.world Example.db0 1500)
           (mkStorageUser 1 "alice") (Example.claims_of 1 "alice") "1" "20" 1 20
           Example.a_txt Example.deep (conj eq_refl eq_refl) eq_refl (conj eq_refl eq_refl)
           eq_refl eq_refl eq_refl).
  simpl. constructor; [simpl; lia|]. constructor; [simpl; lia|]. constructor.
Defined.

(** ** Names within a directory *)

Lemma existsb_map {A B : Type} (f : A -> B) (p : B -> bool) (l : list A) :
  existsb p (map f l) = existsb (fun a => p (f a)) l.
Proof. induction l as [|a l IH]; simpl; [reflexivity | rewrite IH; reflexivity]. Qed.

Lemma existsb_eqb_In (name : string) (l : list string) :
  existsb (fun a => String.eqb a name) l = true <-> In name l.
Proof.
  rewrite existsb_exists. split.
  - intros (a & Hin & E). apply String.eqb_eq in E. subst. exact Hin.
  - intros Hin. exists name. split; [exact Hin | apply String.eqb_refl].
Qed.

(** The loop of [_verify_unique_names] on a name finds an entry exactly
    when the name is among the names of the directory. *)
Lemma name_taken_iff (db : DB) (d : Directory) (name : string) :
  existsb (fun e => name_is e (Some name)) (children db d) = true
  <-> In name (entry_names db (dir_id d)).
Proof.
  unfold children, entry_names, Directory_file_set, Directory_directory_set.
  rewrite existsb_app, !existsb_map, orb_true_iff, in_app_iff.
  rewrite <- !existsb_eqb_In, !existsb_map. reflexivity.
Qed.

Lemma verify_unique_names_cases (db : DB) (d : Directory) (name : string) :
  (In name (entry_names db (dir_id d))
   /\ _verify_unique_names (inl name) (Some d) db = Exc ErrorDuplicateName)
  \/ (~ In name (entry_names db (dir_id d))
      /\ _verify_unique_names (inl name) (Some d) db = Val tt).
Proof.
  unfold _verify_unique_names.
  destruct (existsb _ (children db d)) eqn:E.
  - left. split; [apply name_taken_iff; exact E | reflexivity].
  - right. split; [|reflexivity]. intros Hin. apply name_taken_iff in Hin. congruence.
Qed.

Lemma Directory_objects_create_inv (name : string) (owner : Z) (parent : option Z)
    (w w' : World) (d : Directory) :
  Directory_objects_create name owner parent w = Return d w' ->
  exists id rest,
    fresh_id (Directory_exists (database w)) (random w) = Some (id, rest)
    /\ d = mkDirectory id name owner parent
    /\ w' = mkWorld (with_directories (database w) (Directory_table (database w) ++ [d]))
                    (clock w) rest.
Proof.
  unfold Directory_objects_create, Directory_save.
  cbn [dir_id dir_name dir_owner dir_parent].
  unfold bind at 1.
  destruct (assign_id 0 Directory_exists w) as [id w1| |] eqn:Ha; try discriminate.
  destruct (assign_id_inv _ _ _ _ _ Ha) as [[Hc _]|[_ (rest & Hf & ->)]]; [contradiction|].
  unfold bind, modify_db, ret. cbn [database clock random].
  intros H. injection H as <- <-. exists id, rest.
  destruct (fresh_id_free _ _ _ _ Hf) as [Hfree _].
  rewrite (upsert_fresh dir_id (mkDirectory id name owner parent)) by exact Hfree.
  repeat split. exact Hf.
Qed.

Lemma Directory_objects_create_no_raise (name : string) (owner : Z) (parent : option Z)
    (w w' : World) (e : exn) :
  Directory_objects_create name owner parent w <> Raise e w'.
Proof.
  unfold Directory_objects_create, Directory_save, bind, assign_id, modify_db, ret.
  destruct (negb _); [discriminate|].
  destruct (fresh_id _ _) as [[id rest]|]; discriminate.
Qed.

(** A new file keeps the names unique when its name is free in its
    directory; so does a new directory. *)
Lemma names_unique_new_file (db : DB) (f : File) :
  names_unique db ->
  ~ In (file_name f) (entry_names db (file_parent_directory f)) ->
  names_unique (with_files db (File_table db ++ [f])).
Proof.
  intros Hinv Hfree pid. specialize (Hinv pid). unfold entry_names in *.
  cbn [with_files File_table Directory_table]. rewrite filter_app. cbn [filter].
  destruct (Z.eqb_spec (file_parent_directory f) pid) as [E|E].
  - subst pid. rewrite map_app. cbn [map]. rewrite <- app_assoc. cbn [app].
    apply (NoDup_Add (Add_app (file_name f) _ _)). split; assumption.
  - rewrite app_nil_r. exact Hinv.
Qed.

Lemma names_unique_new_directory (db : DB) (d : Directory) (pid : Z) :
  names_unique db ->
  dir_parent d = Some pid ->
  ~ In (dir_name d) (entry_names db pid) ->
  names_unique (with_directories db (Directory_table db ++ [d])).
Proof.
  intros Hinv Hp Hfree q. specialize (Hinv q). unfold entry_names in *.
  cbn [with_directories File_table Directory_table]. rewrite filter_app. cbn [filter].
  rewrite Hp. cbn [opt_is].
  destruct (Z.eqb_spec pid q) as [E|E].
  - subst q. rewrite map_app. cbn [map]. rewrite app_assoc.
    apply (NoDup_Add (Add_app (dir_name d) _ [])). rewrite app_nil_r. split; assumption.
  - rewrite app_nil_r. exact Hinv.
Qed.

Section SiblingNames.

Variable int : string -> option Z.
Variable jwt_decode : string -> option (list (string * PyValue)).
Variable fuel : nat.

Variables (request : HttpRequest) (w w1 : World).
Variables (authenticated : StorageUser) (claims : list (string * PyValue)).
Variables (us ps name : string) (user_id parent_directory_id : Z).
Variable parent_directory : Directory.

Hypothesis Huser : dict_get "user" (GET request) = Some us /\ int us = Some user_id.
Hypothesis Hauth :
  _verify_authenticated jwt_decode request user_id w = Return (authenticated, claims) w1.
Hypothesis Hname : dict_get "name" (GET request) = Some name.
Hypothesis Hparent :
  dict_get "parentDirectory" (GET request) = Some ps /\ int ps = Some parent_directory_id.
Hypothesis Hdirectory : Directory_get (database w1) parent_directory_id = Some parent_directory.
Hypothesis Hwrite :
  can_access fuel (database w1) (EDirectory parent_directory) user_id true = Val true.

Lemma file_post_prefix :
  FileView_handle_post int jwt_decode fuel request [] w =
  (lift_db (_verify_unique_names (inl name) (Some parent_directory)) ;;;
   body <- request_body request ;;
   raise_if (len body >? LIMIT_SINGLE_FILE_SIZE) ErrorQuotaExceeded ;;;
   file_obj <- atomic
     (lift_db (_verify_quota user_id (len body) None) ;;;
      File_objects_create name (dir_owner parent_directory) (dir_id parent_directory)
                          body) ;;
   ret (mkResponse STATUS_OK (FileContent file_obj)))%py w1.
Proof.
  destruct Huser as [Hu1 Hu2]. destruct Hparent as [Hp1 Hp2].
  unfold FileView_handle_post.
  rewrite (bind_Return _ _ w w tt) by reflexivity.
  rewrite (bind_Return _ _ w w user_id) by (apply (get_query_param_Return _ _ us); assumption).
  rewrite (bind_Return _ _ w w1 (authenticated, claims)) by exact Hauth.
  rewrite (bind_Return _ _ w1 w1 name)
    by (apply (get_query_param_Return _ _ name); [exact Hname | reflexivity]).
  rewrite (bind_Return _ _ w1 w1 parent_directory_id)
    by (apply (get_query_param_Return _ _ ps); assumption).
  rewrite (bind_Return _ _ w1 w1 parent_directory)
    by (apply (objects_get_Return (fun db => Directory_get db parent_directory_id));
        exact Hdirectory).
  rewrite (bind_Return _ _ w1 w1 tt) by (apply verify_can_access_write; exact Hwrite).
  reflexivity.
Qed.

Lemma directory_post_prefix :
  DirectoryView_handle_post int jwt_decode fuel request [] w =
  (lift_db (_verify_unique_names (inl name) (Some parent_directory)) ;;;
   directory <- Directory_objects_create name (dir_owner parent_directory)
                                         (Some (dir_id parent_directory)) ;;
   ret (mkResponse STATUS_OK (DirectoryContent directory)))%py w1.
Proof.
  destruct Huser as [Hu1 Hu2]. destruct Hparent as [Hp1 Hp2].
  unfold DirectoryView_handle_post.
  rewrite (bind_Return _ _ w w tt) by reflexivity.
  rewrite (bind_Return _ _ w w user_id) by (apply (get_query_param_Return _ _ us); assumption).
  rewrite (bind_Return _ _ w w1 (authenticated, claims)) by exact Hauth.
  rewrite (bind_Return _ _ w1 w1 name)
    by (apply (get_query_param_Return _ _ name); [exact Hname | reflexivity]).
  rewrite (bind_Return _ _ w1 w1 parent_directory_id)
    by (apply (get_query_param_Return _ _ ps); assumption).
  rewrite (bind_Return _ _ w1 w1 parent_directory)
    by (apply (objects_get_Return (fun db => Directory_get db parent_directory_id));
        exact Hdirectory).
  rewrite (bind_Return _ _ w1 w1 tt) by (apply verify_can_access_write; exact Hwrite).
  reflexivity.
Qed.

(** The ways the creation of a directory ends. *)
Lemma directory_post_outcome (r : Response) (w2 : World) :
  handle (DirectoryView_handle_post int jwt_decode fuel) request [] w = Some (r, w2) ->
  (In name (entry_names (database w1) parent_directory_id)
   /\ r = mkResponse ("duplicate_name", 409) NoContent /\ w2 = w1)
  \/ (~ In name (entry_names (database w1) parent_directory_id)
      /\ exists id rest,
           fresh_id (Directory_exists (database w1)) (random w1) = Some (id, rest)
           /\ r = mkResponse ("ok", 200)
                    (DirectoryContent (mkDirectory id name (dir_owner parent_directory)
                                                   (Some parent_directory_id)))
           /\ w2 = mkWorld
                     (with_directories (database w1)
                        (Directory_table (database w1)
                         ++ [mkDirectory id name (dir_owner parent_directory)
                                         (Some parent_directory_id)]))
                     (clock w1) rest).
Proof.
  assert (Hpid : dir_id parent_directory = parent_directory_id)
    by (apply (find_pk dir_id _ _ _ Hdirectory)).
  unfold handle. rewrite directory_post_prefix.
  destruct (verify_unique_names_cases (database w1) parent_directory name)
    as [[Hin Hv]|[Hfree Hv]]; rewrite Hpid in *.
  - rewrite (bind_Raise _ _ w1 w1 ErrorDuplicateName) by (apply lift_db_Exc; exact Hv).
    intros H. injection H as <- <-. left. repeat split. exact Hin.
  - rewrite (bind_Return _ _ w1 w1 tt) by (apply lift_db_Val; exact Hv).
    unfold bind.
    destruct (Directory_objects_create _ _ _ w1) as [d w'|e w'|] eqn:Hc; try discriminate.
    + destruct (Directory_objects_create_inv _ _ _ _ _ _ Hc) as (id & rest & Hf & -> & ->).
      unfold ret. intros H. injection H as <- <-. right. split; [exact Hfree|].
      exists id, rest. repeat split. exact Hf.
    + exfalso. exact (Directory_objects_create_no_raise _ _ _ _ _ _ Hc).
Qed.


End SiblingNames.


(** ** Computations that only read *)

Lemma reads_ret {A : Type} (a : A) : reads (ret a).
Proof. intros w w' H. injection H as <-. reflexivity. Qed.

Lemma reads_raise {A : Type} (e : exn) : reads (@raise World A e).
Proof. intros w w' H. injection H as <-. reflexivity. Qed.

Lemma reads_raise_if (c : bool) (e : exn) : reads (raise_if c e).
Proof. destruct c; [apply reads_raise | apply reads_ret]. Qed.

Lemma reads_lift_db {A : Type} (q : DB -> res A) : reads (lift_db q).
Proof.
  intros w w'. unfold lift_db. destruct (q (database w)); simpl; congruence.
Qed.

Lemma reads_get_db : reads get_db.
Proof. intros w w' H. injection H as <-. reflexivity. Qed.

Lemma reads_get_or_raise {A : Type} (o : option A) : reads (get_or_raise o).
Proof. destruct o; [apply reads_ret | apply reads_raise]. Qed.

Lemma reads_bind {A B : Type} (m : M World A) (k : A -> M World B) :
  reads m -> (forall a, reads (k a)) -> reads (bind m k).
Proof.
  intros Hm Hk w w'. unfold bind.
  destruct (m w) as [a w1|e w1|] eqn:E.
  - intros H. rewrite <- (Hm w w1) by (rewrite E; reflexivity). exact (Hk a w1 w' H).
  - intros H. injection H as <-. apply (Hm w w1). rewrite E. reflexivity.
  - discriminate.
Qed.

Lemma reads_verify_kwargs (kwargs : list (string * string)) (valid_names : list string) :
  reads (_verify_kwargs kwargs valid_names).
Proof.
  induction kwargs as [|[name v] rest IH]; simpl; [apply reads_ret|].
  destruct (negb _); [apply reads_raise | exact IH].
Qed.

Lemma reads_get_query_param {A : Type} (req : HttpRequest) (name : string)
    (converter : string -> option A) : reads (_get_query_param req name converter).
Proof.
  unfold _get_query_param. destruct (dict_get name (GET req)) as [v|]; [|apply reads_raise].
  destruct (converter v); [apply reads_ret | apply reads_raise].
Qed.

Lemma reads_get_query_param_optional {A : Type} (req : HttpRequest) (name : string)
    (converter : string -> option A) : reads (_get_query_param_optional req name converter).
Proof.
  unfold _get_query_param_optional. destruct (dict_get name (GET req)) as [v|]; [|apply reads_ret].
  destruct (converter v); [apply reads_ret | apply reads_raise].
Qed.

Lemma reads_get_kwarg {A : Type} (kwargs : list (string * string)) (name : string)
    (converter : string -> option A) : reads (_get_kwarg kwargs name converter).
Proof.
  unfold _get_kwarg. destruct (dict_get name kwargs) as [v|]; [|apply reads_raise].
  destruct (converter v); [apply reads_ret | apply reads_raise].
Qed.

Lemma reads_flag_param (req : HttpRequest) (name : string) : reads (flag_param req name).
Proof.
  unfold flag_param. apply reads_bind; [apply reads_get_query_param_optional|].
  intros a. apply reads_ret.
Qed.

Lemma reads_request_body (req : HttpRequest) : reads (request_body req).
Proof. unfold request_body. destruct (_ >? _); [apply reads_raise | apply reads_ret]. Qed.

Lemma reads_StorageUser_objects_get (id : Z) : reads (StorageUser_objects_get id).
Proof.
  unfold StorageUser_objects_get. apply reads_bind; [apply reads_get_db|].
  intros db. apply reads_get_or_raise.
Qed.

Lemma reads_Directory_objects_get (id : Z) : reads (Directory_objects_get id).
Proof.
  unfold Directory_objects_get. apply reads_bind; [apply reads_get_db|].
  intros db. apply reads_get_or_raise.
Qed.

Lemma reads_File_objects_get (id : Z) : reads (File_objects_get id).
Proof.
  unfold File_objects_get. apply reads_bind; [apply reads_get_db|].
  intros db. apply reads_get_or_raise.
Qed.

Lemma reads_Share_objects_get (id : Z) : reads (Share_objects_get id).
Proof.
  unfold Share_objects_get. apply reads_bind; [apply reads_get_db|].
  intros db. apply reads_get_or_raise.
Qed.

Lemma reads_verify_can_access (fuel : nat) (user_id : Z) (obj : option Entity) (is_write : bool) :
  reads (_verify_can_access fuel user_id obj is_write).
Proof.
  unfold _verify_can_access. destruct obj as [obj|]; [|apply reads_ret].
  apply reads_bind; [apply reads_lift_db|]. intros can_read.
  destruct (negb can_read); [apply reads_raise|].
  destruct is_write; [|apply reads_ret].
  apply reads_bind; [apply reads_lift_db|]. intros can_write.
  destruct (negb can_write); [apply reads_raise | apply reads_ret].
Qed.

Create HintDb reads.

#[local] Hint Resolve reads_ret reads_raise reads_raise_if reads_lift_db reads_get_db
  reads_get_or_raise reads_verify_kwargs reads_get_query_param reads_get_query_param_optional
  reads_get_kwarg reads_flag_param reads_request_body reads_StorageUser_objects_get
  reads_Directory_objects_get reads_File_objects_get reads_Share_objects_get
  reads_verify_can_access : reads.

(** ** Computations that keep an invariant *)

Section Keeping.

Variable Inv : DB -> Prop.

Lemma keeps_reads {A : Type} (m : M World A) (w : World) :
  reads m -> Inv (database w) -> keeps Inv m w.
Proof. intros Hm Hinv w' H. rewrite (Hm w w' H). exact Hinv. Qed.

Lemma keeps_bind {A B : Type} (m : M World A) (k : A -> M World B) (w : World) :
  keeps Inv m w ->
  (forall a w1, m w = Return a w1 -> Inv (database w1) -> keeps Inv (k a) w1) ->
  keeps Inv (bind m k) w.
Proof.
  intros Hm Hk w'. unfold bind.
  destruct (m w) as [a w1|e w1|] eqn:E.
  - apply (Hk a w1 eq_refl). apply Hm. rewrite E. reflexivity.
  - intros H. apply Hm. rewrite E. exact H.
  - discriminate.
Qed.

Lemma keeps_bind_reads {A B : Type} (m : M World A) (k : A -> M World B) (w : World) :
  reads m -> Inv (database w) ->
  (forall a, m w = Return a w -> keeps Inv (k a) w) ->
  keeps Inv (bind m k) w.
Proof.
  intros Hm Hinv Hk. apply keeps_bind; [apply keeps_reads; assumption|].
  intros a w1 E _.
  assert (w1 = w) by (apply (Hm w w1); rewrite E; reflexivity). subst w1.
  apply Hk. exact E.
Qed.

Lemma keeps_atomic {A : Type} (m : M World A) (w : World) :
  Inv (database w) -> keeps Inv m w -> keeps Inv (atomic m) w.
Proof.
  intros Hinv Hm w'. unfold atomic.
  destruct (m w) as [a w1|e w1|] eqn:E.
  - intros H. apply Hm. rewrite E. exact H.
  - intros H. injection H as <-. exact Hinv.
  - discriminate.
Qed.

Lemma keeps_handle (m : HttpRequest -> list (string * string) -> M World Response)
    (request : HttpRequest) (kwargs : list (string * string)) (w w2 : World) (r : Response) :
  keeps Inv (m request kwargs) w ->
  handle m request kwargs w = Some (r, w2) -> Inv (database w2).
Proof.
  intros Hm. unfold handle.
  destruct (m request kwargs w) as [a w1|e w1|] eqn:E; try discriminate;
    intros H; injection H as _ <-; apply Hm; rewrite E; reflexivity.
Qed.

End Keeping.

(** ** Owners along the directory tree *)

Lemma owners_same_tables (db db' : DB) :
  File_table db' = File_table db -> Directory_table db' = Directory_table db ->
  owners_consistent db -> owners_consistent db'.
Proof.
  intros Hf Hd [H1 H2]. unfold owners_consistent, Directory_get. rewrite Hf, Hd.
  split; assumption.
Qed.

Lemma In_upsert {R : Type} (pk : R -> Z) (row x : R) (table : list R) :
  In x (upsert pk row table) -> x = row \/ In x table.
Proof.
  unfold upsert. destruct (existsb _ table).
  - intros H. apply in_map_iff in H. destruct H as (r & E & Hin).
    destruct (pk r =? pk row); [left; congruence | right; congruence].
  - intros H. apply in_app_or in H. destruct H as [H|[H|[]]]; [right | left]; congruence.
Qed.

Lemma owners_new_file (db : DB) (f : File) (p : Directory) :
  owners_consistent db ->
  Directory_get db (file_parent_directory f) = Some p -> dir_owner p = file_owner f ->
  owners_consistent (with_files db (File_table db ++ [f])).
Proof.
  intros [H1 H2] Hp Ho. split.
  - intros x Hin. cbn [with_files File_table] in Hin. apply in_app_or in Hin.
    destruct Hin as [Hin|[<-|[]]]; [exact (H1 x Hin)|]. exists p. split; assumption.
  - exact H2.
Qed.

Lemma owners_file_rows (db : DB) (files : list File) :
  owners_consistent db ->
  (forall x, In x files ->
     exists p, Directory_get db (file_parent_directory x) = Some p
               /\ dir_owner p = file_owner x) ->
  owners_consistent (with_files db files).
Proof. intros [_ H2] H. split; [exact H | exact H2]. Qed.

(** Directories after a row has been saved: the lookups meet the same
    owners as before. *)
Lemma owners_directory_saved (db : DB) (d : Directory) :
  owners_consistent db ->
  (forall p, Directory_get db (dir_id d) = Some p -> dir_owner p = dir_owner d) ->
  (Directory_get db (dir_id d) = None ->
   forall x pid, In x (Directory_table db) -> dir_parent x = Some pid -> pid <> dir_id d) ->
  (forall pid, dir_parent d = Some pid ->
     pid = dir_id d
     \/ exists p, Directory_get db pid = Some p /\ dir_owner p = dir_owner d) ->
  owners_consistent (with_directories db (upsert dir_id d (Directory_table db))).
Proof.
  intros [H1 H2] Hsame Hfresh Hparent.
  assert (Hlook : forall pid o,
            (exists p, Directory_get db pid = Some p /\ dir_owner p = o) ->
            exists p, Directory_get (with_directories db (upsert dir_id d (Directory_table db)))
                                    pid = Some p /\ dir_owner p = o).
  { intros pid o (p & Hp & Ho). unfold Directory_get. cbn [with_directories Directory_table].
    destruct (Z.eq_dec pid (dir_id d)) as [->|Hne].
    - rewrite (upsert_lookup_same dir_id d). exists d. split; [reflexivity|].
      rewrite <- Ho. symmetry. apply Hsame. exact Hp.
    - rewrite (upsert_lookup_other dir_id d pid) by exact Hne. exists p. split; assumption. }
  split.
  - intros f Hin. apply Hlook. apply H1. exact Hin.
  - intros x pid Hin Hp. cbn [with_directories Directory_table] in Hin.
    apply In_upsert in Hin. destruct Hin as [->|Hin].
    + destruct (Hparent pid Hp) as [->|Hex].
      * exists d. split; [|reflexivity]. unfold Directory_get.
        cbn [with_directories Directory_table]. apply (upsert_lookup_same dir_id d).
      * apply Hlook. exact Hex.
    + apply Hlook. exact (H2 x pid Hin Hp).
Qed.

Lemma owners_file_deleted (db : DB) (files : list File) (shares : list Share) :
  owners_consistent db ->
  (forall x, In x files -> In x (File_table db)) ->
  owners_consistent (mkDB (StorageUser_table db) (StorageUser_contacts db) (Directory_table db)
                          files shares).
Proof.
  intros [H1 H2] Hsub. split.
  - intros f Hin. exact (H1 f (Hsub f Hin)).
  - exact H2.
Qed.

Lemma filter_nil_none {A : Type} (p : A -> bool) (l : list A) (x : A) :
  filter p l = [] -> In x l -> p x = false.
Proof.
  intros Hnil Hin. destruct (p x) eqn:E; [|reflexivity].
  assert (In x (filter p l)) by (apply filter_In; split; assumption).
  rewrite Hnil in H. contradiction.
Qed.

Lemma length_zero_nil {A : Type} (l : list A) : (0 <? List.length l)%nat = false -> l = [].
Proof. destruct l; [reflexivity | discriminate]. Qed.

Section OwnersKept.

Variable fuel : nat.

Local Abbreviation kept := (keeps owners_consistent).

Lemma File_save_keeps_owners (f : File) (w : World) (p : Directory) :
  owners_consistent (database w) ->
  Directory_get (database w) (file_parent_directory f) = Some p ->
  dir_owner p = file_owner f ->
  kept (File_save f) w.
Proof.
  intros Hinv Hp Ho w'. unfold File_save, bind, assign_id, modify_db, ret.
  assert (Hrows : forall id rest w'',
            w'' = mkWorld (with_files (database w)
                             (upsert file_id (mkFile id (file_name f) (file_owner f)
                                                (file_parent_directory f) (file_data f))
                                     (File_table (database w)))) (clock w) rest ->
            owners_consistent (database w'')).
  { intros id rest w'' ->. cbn [database]. apply owners_file_rows; [exact Hinv|].
    intros x Hin. apply In_upsert in Hin. destruct Hin as [->|Hin].
    - exists p. split; assumption.
    - exact (proj1 Hinv x Hin). }
  destruct (negb (file_id f =? 0)).
  - simpl. intros H. injection H as <-. apply (Hrows (file_id f) (random w)). reflexivity.
  - destruct (fresh_id _ _) as [[id rest]|]; [|discriminate].
    simpl. intros H. injection H as <-. apply (Hrows id rest). reflexivity.
Qed.

Lemma File_objects_create_keeps_owners (name : string) (p : Directory) (data : list byte)
    (w : World) :
  owners_consistent (database w) ->
  Directory_get (database w) (dir_id p) = Some p ->
  kept (File_objects_create name (dir_owner p) (dir_id p) data) w.
Proof.
  intros Hinv Hp. unfold File_objects_create.
  apply (File_save_keeps_owners _ w p); [exact Hinv | exact Hp | reflexivity].
Qed.

Lemma Directory_save_keeps_owners (d : Directory) (w : World) :
  owners_consistent (database w) ->
  (dir_id d <> 0 ->
   forall p, Directory_get (database w) (dir_id d) = Some p -> dir_owner p = dir_owner d) ->
  (forall pid, dir_parent d = Some pid ->
     exists p, Directory_get (database w) pid = Some p /\ dir_owner p = dir_owner d) ->
  kept (Directory_save d) w.
Proof.
  intros Hinv Hsame Hparent w'. unfold Directory_save, bind, assign_id, modify_db, ret.
  destruct (Z.eqb_spec (dir_id d) 0) as [Hz|Hnz]; cbn [negb].
  - destruct (fresh_id _ _) as [[id rest]|] eqn:Hf; [|discriminate].
    simpl. intros H. injection H as <-. cbn [database].
    destruct (fresh_id_free _ _ _ _ Hf) as [Hfree _].
    assert (Hnone : Directory_get (database w) id = None)
      by (apply existsb_find_none; exact Hfree).
    apply (owners_directory_saved (database w)
             (mkDirectory id (dir_name d) (dir_owner d) (dir_parent d))); cbn [dir_id dir_owner
             dir_parent].
    + exact Hinv.
    + intros p Hp. congruence.
    + intros _ x pid Hin Hx ->. destruct (proj2 Hinv x id Hin Hx) as (p & Hp & _). congruence.
    + intros pid Hp. right. apply Hparent. exact Hp.
  - simpl. intros H. injection H as <-. cbn [database].
    destruct d as [i n o pa]. cbn [dir_id dir_name dir_owner dir_parent] in *.
    apply (owners_directory_saved (database w) (mkDirectory i n o pa));
      cbn [dir_id dir_owner dir_parent].
    + exact Hinv.
    + apply Hsame. exact Hnz.
    + intros Hnone x pid Hin Hx ->. destruct (proj2 Hinv x i Hin Hx) as (p & Hp & _). congruence.
    + intros pid Hp. right. apply Hparent. exact Hp.
Qed.

Lemma Directory_objects_create_keeps_owners (name : string) (p : Directory) (w : World) :
  owners_consistent (database w) ->
  Directory_get (database w) (dir_id p) = Some p ->
  kept (Directory_objects_create name (dir_owner p) (Some (dir_id p))) w.
Proof.
  intros Hinv Hp. unfold Directory_objects_create.
  apply Directory_save_keeps_owners; cbn [dir_id dir_owner dir_parent].
  - exact Hinv.
  - intros Hnz. contradiction.
  - intros pid E. injection E as <-. exists p. split; [exact Hp | reflexivity].
Qed.

Lemma File_delete_keeps_owners (f : File) (w : World) :
  owners_consistent (database w) -> kept (File_delete f) w.
Proof.
  intros Hinv w' H. injection H as <-. cbn [database].
  apply owners_file_deleted; [exact Hinv|].
  intros x Hin. apply filter_In in Hin. exact (proj1 Hin).
Qed.

Lemma Directory_delete_keeps_owners (d : Directory) (w : World) :
  owners_consistent (database w) -> kept (Directory_delete d) w.
Proof.
  intros Hinv w'. unfold Directory_delete.
  destruct (0 <? List.length (Directory_file_set (database w) d))%nat eqn:Ef;
    [intros H; injection H as <-; exact Hinv|].
  destruct (0 <? List.length (Directory_directory_set (database w) d))%nat eqn:Ed;
    [intros H; injection H as <-; exact Hinv|].
  apply length_zero_nil in Ef, Ed.
  cbn [orb]. intros H. injection H as <-. cbn [database].
  destruct Hinv as [H1 H2].
  assert (Hlook : forall pid, pid <> dir_id d ->
            find (fun x => dir_id x =? pid)
                 (filter (fun x => negb (dir_id x =? dir_id d)) (Directory_table (database w)))
            = Directory_get (database w) pid).
  { intros pid Hne. apply (find_filter_other dir_id). exact Hne. }
  split.
  - intros f Hin. cbn [File_table] in Hin. unfold Directory_get. cbn [Directory_table].
    rewrite Hlook; [apply H1; exact Hin|].
    pose proof (filter_nil_none _ _ f Ef Hin) as Hn. simpl in Hn.
    apply Z.eqb_neq. exact Hn.
  - intros x pid Hin Hp. cbn [Directory_table] in Hin. apply filter_In in Hin.
    destruct Hin as [Hin _]. unfold Directory_get. cbn [Directory_table].
    rewrite Hlook; [apply (H2 x); assumption|].
    pose proof (filter_nil_none _ _ x Ed Hin) as Hn. simpl in Hn. rewrite Hp in Hn.
    simpl in Hn. apply Z.eqb_neq. exact Hn.
Qed.

Lemma delete_files_keeps_owners (files : list File) (w : World) :
  owners_consistent (database w) -> kept (delete_files files) w.
Proof.
  revert w. induction files as [|f rest IH]; intros w Hinv; simpl.
  - apply keeps_reads; [apply reads_ret | exact Hinv].
  - apply keeps_bind; [apply File_delete_keeps_owners; exact Hinv|].
    intros _ w1 _ Hinv1. apply IH. exact Hinv1.
Qed.

Lemma cascade_loop_keeps_owners (n : nat) (to_delete_list : list Directory) (w : World) :
  owners_consistent (database w) -> kept (cascade_loop n to_delete_list) w.
Proof.
  revert to_delete_list w. induction n as [|n IH]; intros l w Hinv; simpl.
  - destruct (pop l) as [[x l']|]; [intros w'; discriminate|].
    apply keeps_reads; [apply reads_ret | exact Hinv].
  - destruct (pop l) as [[x l']|]; [|apply keeps_reads; [apply reads_ret | exact Hinv]].
    apply keeps_bind_reads; [apply reads_get_db | exact Hinv|].
    intros db _.
    destruct (List.length (Directory_directory_set db x) =? 0)%nat.
    + apply keeps_bind; [apply delete_files_keeps_owners; exact Hinv|].
      intros _ w1 _ Hinv1.
      apply keeps_bind; [apply Directory_delete_keeps_owners; exact Hinv1|].
      intros _ w2 _ Hinv2. apply IH. exact Hinv2.
    + apply IH. exact Hinv.
Qed.

Lemma verify_authenticated_keeps_owners
    (jwt_decode : string -> option (list (string * PyValue)))
    (request : HttpRequest) (user_id : Z) (w : World) :
  owners_consistent (database w) -> kept (_verify_authenticated jwt_decode request user_id) w.
Proof.
  intros Hinv w'.
  destruct (verify_authenticated_inv jwt_decode request user_id w)
    as [H|(header & token & claims & name & iat & exp & Hh & Hb & Hd & Hc & Hnow)].
  - rewrite H. intros E. injection E as <-. exact Hinv.
  - rewrite (verify_authenticated_provisions jwt_decode request user_id w header token claims
               name iat exp Hh Hb Hd Hc Hnow).
    destruct (StorageUser_get (database w) user_id);
      [intros E; injection E as <-; exact Hinv|].
    destruct (fresh_id _ _) as [[id rest]|] eqn:Hf; [|discriminate].
    intros E. injection E as <-. unfold provisioned. cbn [database].
    destruct (fresh_id_free _ _ _ _ Hf) as [Hfree _].
    rewrite <- (upsert_fresh dir_id (mkDirectory id "root" user_id None)) by exact Hfree.
    apply (owners_directory_saved
             (with_users (database w)
                (StorageUser_table (database w) ++ [mkStorageUser user_id name]))
             (mkDirectory id "root" user_id None)); cbn [dir_id dir_owner dir_parent].
    + apply (owners_same_tables (database w)); [reflexivity | reflexivity | exact Hinv].
    + intros p Hp. exfalso.
      assert (Directory_get (database w) id = None) by (apply existsb_find_none; exact Hfree).
      unfold Directory_get in *. cbn [with_users Directory_table] in Hp. congruence.
    + intros _ x pid Hin Hx ->. cbn [with_users Directory_table] in Hin.
      destruct (proj2 Hinv x id Hin Hx) as (p & Hp & _).
      assert (Directory_get (database w) id = None) by (apply existsb_find_none; exact Hfree).
      congruence.
    + intros pid E. discriminate.
Qed.

End OwnersKept.

(** ** Every handler keeps the owners consistent *)

Lemma bind_Return_inv {A B : Type} (m : M World A) (k : A -> M World B) (w w' : World) (b : B) :
  bind m k w = Return b w' -> exists a w1, m w = Return a w1 /\ k a w1 = Return b w'.
Proof.
  unfold bind. destruct (m w) as [a w1|e w1|]; try discriminate.
  intros H. exists a, w1. split; [reflexivity | exact H].
Qed.

Lemma reads_Return {A : Type} (m : M World A) (w w' : World) (a : A) :
  reads m -> m w = Return a w' -> w' = w.
Proof. intros Hm E. apply (Hm w w'). rewrite E. reflexivity. Qed.

Lemma Directory_objects_get_inv (id : Z) (w w' : World) (d : Directory) :
  Directory_objects_get id w = Return d w' ->
  Directory_get (database w) id = Some d /\ dir_id d = id /\ w' = w.
Proof.
  unfold Directory_objects_get, bind, get_db, get_or_raise.
  destruct (Directory_get (database w) id) as [x|] eqn:E; [|discriminate].
  intros H. injection H as <- <-. split; [reflexivity|]. split; [|reflexivity].
  apply (find_pk dir_id _ _ _ E).
Qed.

Lemma File_objects_get_inv (id : Z) (w w' : World) (f : File) :
  File_objects_get id w = Return f w' ->
  File_get (database w) id = Some f /\ file_id f = id /\ w' = w.
Proof.
  unfold File_objects_get, bind, get_db, get_or_raise.
  destruct (File_get (database w) id) as [x|] eqn:E; [|discriminate].
  intros H. injection H as <- <-. split; [reflexivity|]. split; [|reflexivity].
  apply (find_pk file_id _ _ _ E).
Qed.

(** Operations on shares, contacts and users leave files and directories
    alone. *)
Lemma keeps_owners_same_tables {A : Type} (m : M World A) (w : World) :
  owners_consistent (database w) ->
  (forall w', leaves (m w) = Some w' ->
     File_table (database w') = File_table (database w)
     /\ Directory_table (database w') = Directory_table (database w)) ->
  keeps owners_consistent m w.
Proof.
  intros Hinv Hsame w' H. destruct (Hsame w' H) as [Hf Hd].
  exact (owners_same_tables _ _ Hf Hd Hinv).
Qed.

Lemma Share_objects_create_keeps_owners (issuer subject : Z) (tf td : option Z) (cw : bool)
    (w : World) :
  owners_consistent (database w) ->
  keeps owners_consistent (Share_objects_create issuer subject tf td cw) w.
Proof.
  intros Hinv. apply keeps_owners_same_tables; [exact Hinv|].
  intros w'. unfold Share_objects_create, Share_save, bind, assign_id, modify_db, ret.
  destruct (negb _).
  - simpl. intros H. injection H as <-. split; reflexivity.
  - destruct (fresh_id _ _) as [[id rest]|]; [|discriminate].
    simpl. intros H. injection H as <-. split; reflexivity.
Qed.

Lemma Share_delete_keeps_owners (s : Share) (w : World) :
  owners_consistent (database w) -> keeps owners_consistent (Share_delete s) w.
Proof.
  intros Hinv. apply keeps_owners_same_tables; [exact Hinv|].
  intros w' H. injection H as <-. split; reflexivity.
Qed.

Lemma contacts_add_keeps_owners (user contact : StorageUser) (w : World) :
  owners_consistent (database w) -> keeps owners_consistent (contacts_add user contact) w.
Proof.
  intros Hinv. apply keeps_owners_same_tables; [exact Hinv|].
  intros w' H. injection H as <-. cbn [database]. destruct (existsb _ _); split; reflexivity.
Qed.

Lemma contacts_remove_keeps_owners (user : StorageUser) (contact_id : Z) (w : World) :
  owners_consistent (database w) ->
  keeps owners_consistent (contacts_remove user contact_id) w.
Proof.
  intros Hinv. apply keeps_owners_same_tables; [exact Hinv|].
  intros w' H. injection H as <-. split; reflexivity.
Qed.

Lemma StorageUser_save_keeps_owners (user : StorageUser) (w : World) :
  owners_consistent (database w) -> keeps owners_consistent (StorageUser_save user) w.
Proof.
  intros Hinv. apply keeps_owners_same_tables; [exact Hinv|].
  intros w' H. injection H as <-. split; reflexivity.
Qed.

Ltac reads_step :=
  apply keeps_bind_reads; [solve [auto with reads] | assumption | intros ? ?].

Ltac auth_step :=
  apply keeps_bind;
  [apply verify_authenticated_keeps_owners; assumption | intros ? ? ? ?].

Ltac reads_rest :=
  solve
    [apply keeps_reads;
     [repeat first [solve [auto with reads] | apply reads_bind; [solve [auto with reads] | intros ?]]
     | assumption]].

Lemma lift_db_Return_inv {A : Type} (q : DB -> res A) (w w' : World) (a : A) :
  lift_db q w = Return a w' -> q (database w) = Val a.
Proof. unfold lift_db. destruct (q (database w)); try discriminate. congruence. Qed.

Lemma same_owner_file_dirs (f : File) (c t : Directory) :
  _verify_same_owner [Some (EFile f); Some (EDirectory c); Some (EDirectory t)] = Val tt ->
  dir_owner c = file_owner f /\ dir_owner t = file_owner f.
Proof.
  unfold _verify_same_owner. simpl. rewrite Z.eqb_refl. simpl.
  destruct (Z.eqb_spec (dir_owner c) (file_owner f)); simpl; [|discriminate].
  destruct (Z.eqb_spec (dir_owner t) (file_owner f)); simpl; [|discriminate].
  intros _. split; assumption.
Qed.

Lemma same_owner_dirs (d t : Directory) (c : option Directory) :
  _verify_same_owner [Some (EDirectory d); option_map EDirectory c; Some (EDirectory t)] = Val tt ->
  dir_owner t = dir_owner d.
Proof.
  destruct c as [c|]; cbn [option_map].
  - rewrite same_owner_three.
    destruct (dir_owner c =? dir_owner d); simpl; [|discriminate].
    destruct (Z.eqb_spec (dir_owner t) (dir_owner d)); [trivial | discriminate].
  - unfold _verify_same_owner. simpl. rewrite Z.eqb_refl. simpl. discriminate.
Qed.

Ltac reads_auto :=
  repeat first
    [ solve [auto with reads]
    | apply reads_bind; [|intros ?]
    | match goal with
      | |- reads (match ?x with _ => _ end) => destruct x
      end
    | progress cbv zeta ].

Tactic Notation "bind_inv" hyp(H) "as" ident(a) ident(Hs) :=
  apply bind_Return_inv in H;
  let v := fresh "v" in
  destruct H as (a & v & Hs & H);
  match type of Hs with
  | ?m ?w = Return ?x _ =>
      let E := fresh "E" in
      assert (E : v = w) by (apply (reads_Return m w v x); [reads_auto | exact Hs]);
      subst v
  end.

Section HandlersKeepOwners.

Variable int : string -> option Z.
Variable jwt_decode : string -> option (list (string * PyValue)).
Variable fuel : nat.

Variables (request : HttpRequest) (kwargs : list (string * string)).

Local Abbreviation kept := (keeps owners_consistent).

Lemma UserInfoView_get_keeps_owners (w : World) :
  owners_consistent (database w) ->
  kept (UserInfoView_handle_get int jwt_decode fuel request kwargs) w.
Proof.
  intros Hinv. unfold UserInfoView_handle_get.
  reads_step. auth_step. reads_rest.
Qed.

Lemma FileView_get_keeps_owners (w : World) :
  owners_consistent (database w) ->
  kept (FileView_handle_get int jwt_decode fuel request kwargs) w.
Proof.
  intros Hinv. unfold FileView_handle_get.
  reads_step. reads_step. auth_step. reads_rest.
Qed.

Lemma DirectoryView_get_keeps_owners (w : World) :
  owners_consistent (database w) ->
  kept (DirectoryView_handle_get int jwt_decode fuel request kwargs) w.
Proof.
  intros Hinv. unfold DirectoryView_handle_get.
  reads_step. reads_step. auth_step. reads_rest.
Qed.

Lemma ShareView_get_keeps_owners (w : World) :
  owners_consistent (database w) ->
  kept (ShareView_handle_get int jwt_decode fuel request kwargs) w.
Proof.
  intros Hinv. unfold ShareView_handle_get.
  reads_step. reads_step. auth_step. reads_rest.
Qed.

Lemma ContactView_get_keeps_owners (w : World) :
  owners_consistent (database w) ->
  kept (ContactView_handle_get int jwt_decode request kwargs) w.
Proof.
  intros Hinv. unfold ContactView_handle_get.
  reads_step. reads_step. auth_step. reads_rest.
Qed.

Lemma FileView_post_keeps_owners (w : World) :
  owners_consistent (database w) ->
  kept (FileView_handle_post int jwt_decode fuel request kwargs) w.
Proof.
  intros Hinv. unfold FileView_handle_post.
  reads_step. reads_step. auth_step.
  reads_step. reads_step.
  apply keeps_bind_reads; [solve [auto with reads] | assumption | intros pd Hpd].
  destruct (Directory_objects_get_inv _ _ _ _ Hpd) as (Hget & Hid & _).
  reads_step. reads_step. reads_step. reads_step.
  apply keeps_bind; [|intros; reads_rest].
  apply keeps_atomic; [assumption|].
  reads_step. apply File_objects_create_keeps_owners; [assumption|].
  rewrite Hid. exact Hget.
Qed.

Lemma FileView_delete_keeps_owners (w : World) :
  owners_consistent (database w) ->
  kept (FileView_handle_delete int jwt_decode fuel request kwargs) w.
Proof.
  intros Hinv. unfold FileView_handle_delete.
  reads_step. reads_step. auth_step.
  reads_step. reads_step. reads_step. reads_step. reads_step.
  apply keeps_bind; [apply File_delete_keeps_owners; assumption|].
  intros. reads_rest.
Qed.

Lemma DirectoryView_post_keeps_owners (w : World) :
  owners_consistent (database w) ->
  kept (DirectoryView_handle_post int jwt_decode fuel request kwargs) w.
Proof.
  intros Hinv. unfold DirectoryView_handle_post.
  reads_step. reads_step. auth_step.
  reads_step. reads_step.
  apply keeps_bind_reads; [solve [auto with reads] | assumption | intros pd Hpd].
  destruct (Directory_objects_get_inv _ _ _ _ Hpd) as (Hget & Hid & _).
  reads_step. reads_step.
  apply keeps_bind; [|intros; reads_rest].
  apply Directory_objects_create_keeps_owners; [assumption|].
  rewrite Hid. exact Hget.
Qed.

Lemma DirectoryView_delete_keeps_owners (w : World) :
  owners_consistent (database w) ->
  kept (DirectoryView_handle_delete int jwt_decode fuel request kwargs) w.
Proof.
  intros Hinv. unfold DirectoryView_handle_delete.
  reads_step. reads_step. auth_step.
  reads_step. reads_step. reads_step.
  apply keeps_bind_reads; [solve [auto with reads] | assumption | intros parent _].
  destruct parent as [parent|]; [|reads_rest].
  reads_step.
  apply keeps_bind_reads; [solve [auto with reads] | assumption | intros cascade _].
  apply keeps_bind; [|intros; reads_rest].
  destruct cascade.
  - apply keeps_atomic; [assumption|]. apply cascade_loop_keeps_owners. assumption.
  - reads_step. apply Directory_delete_keeps_owners. assumption.
Qed.

Lemma ShareView_post_keeps_owners (w : World) :
  owners_consistent (database w) ->
  kept (ShareView_handle_post int jwt_decode fuel request kwargs) w.
Proof.
  intros Hinv. unfold ShareView_handle_post.
  reads_step. reads_step. auth_step.
  reads_step. reads_step. reads_step.
  apply keeps_bind_reads; [solve [auto with reads] | assumption | intros target_type _].
  reads_step.
  apply keeps_bind_reads; [|assumption|intros target _].
  { destruct (String.eqb target_type "directory");
      (apply reads_bind; [solve [auto with reads] | intros ?; auto with reads]). }
  reads_step. reads_step. reads_step. reads_step.
  apply keeps_bind; [|intros; reads_rest].
  destruct target; first [reads_rest | apply Share_objects_create_keeps_owners; assumption].
Qed.

Lemma ShareView_delete_keeps_owners (w : World) :
  owners_consistent (database w) ->
  kept (ShareView_handle_delete int jwt_decode fuel request kwargs) w.
Proof.
  intros Hinv. unfold ShareView_handle_delete.
  reads_step. reads_step. auth_step.
  reads_step. reads_step. reads_step.
  apply keeps_bind; [apply Share_delete_keeps_owners; assumption|].
  intros. reads_rest.
Qed.

Lemma ContactView_post_keeps_owners (w : World) :
  owners_consistent (database w) ->
  kept (ContactView_handle_post int jwt_decode request kwargs) w.
Proof.
  intros Hinv. unfold ContactView_handle_post.
  reads_step. reads_step. auth_step.
  apply keeps_bind_reads; [solve [auto with reads] | assumption | intros user _].
  reads_step. reads_step.
  apply keeps_bind_reads; [solve [auto with reads] | assumption | intros contact _].
  apply keeps_bind_reads; [solve [auto with reads] | assumption | intros db _].
  apply keeps_bind; [|intros; reads_rest].
  destruct (negb _); [|reads_rest].
  apply keeps_bind; [apply contacts_add_keeps_owners; assumption|].
  intros _ w2 _ Hinv2.
  apply keeps_bind; [apply StorageUser_save_keeps_owners; assumption|].
  intros. reads_rest.
Qed.

Lemma ContactView_delete_keeps_owners (w : World) :
  owners_consistent (database w) ->
  kept (ContactView_handle_delete int jwt_decode request kwargs) w.
Proof.
  intros Hinv. unfold ContactView_handle_delete.
  reads_step. reads_step. auth_step.
  apply keeps_bind_reads; [solve [auto with reads] | assumption | intros user _].
  reads_step.
  apply keeps_bind_reads; [solve [auto with reads] | assumption | intros db _].
  reads_step.
  apply keeps_bind; [apply contacts_remove_keeps_owners; assumption|].
  intros _ w2 _ Hinv2.
  apply keeps_bind; [apply StorageUser_save_keeps_owners; assumption|].
  intros. reads_rest.
Qed.

Lemma FileView_put_keeps_owners (w : World) :
  owners_consistent (database w) ->
  kept (FileView_handle_put int jwt_decode fuel request kwargs) w.
Proof.
  intros Hinv. unfold FileView_handle_put.
  reads_step. reads_step. auth_step.
  apply keeps_bind_reads; [solve [auto with reads] | assumption | intros file_name _].
  apply keeps_bind_reads; [solve [auto with reads] | assumption | intros parent_directory_id _].
  apply keeps_bind_reads; [solve [auto with reads] | assumption | intros write_body _].
  apply keeps_bind_reads; [solve [reads_auto] | assumption | intros ? ?].
  reads_step.
  apply keeps_bind_reads; [solve [auto with reads] | assumption | intros file_obj Hfile].
  destruct (File_objects_get_inv _ _ _ _ Hfile) as (Hget & Hid & _).
  reads_step.
  apply keeps_bind; [|intros; reads_rest].
  apply keeps_atomic; [assumption|].
  assert (Hrow : exists p, Directory_get (database w1) (file_parent_directory file_obj) = Some p
                           /\ dir_owner p = file_owner file_obj).
  { apply (proj1 H2). unfold File_get in Hget. apply find_some in Hget. exact (proj1 Hget). }
  apply keeps_bind_reads; [reads_auto | assumption | intros f1 Hf1].
  assert (Hpost : file_owner f1 = file_owner file_obj
                  /\ exists p, Directory_get (database w1) (file_parent_directory f1) = Some p
                               /\ dir_owner p = file_owner f1).
  { destruct (is_some file_name || is_some parent_directory_id).
    - bind_inv Hf1 as current_dir Hcur.
      bind_inv Hf1 as u1 Hacc.
      bind_inv Hf1 as moved Hmv.
      assert (Hmoved : file_owner (snd moved) = file_owner file_obj
                       /\ exists p, Directory_get (database w1)
                                      (file_parent_directory (snd moved)) = Some p
                                    /\ dir_owner p = file_owner (snd moved)).
      { destruct parent_directory_id as [pid|].
        - bind_inv Hmv as target_dir Htgt.
          destruct (Directory_objects_get_inv _ _ _ _ Htgt) as (Hlook & Htid & _).
          bind_inv Hmv as u2 Hacc2.
          bind_inv Hmv as u3 Hsame.
          injection Hmv as <-. cbn [snd].
          apply lift_db_Return_inv in Hsame. destruct u3.
          destruct (same_owner_file_dirs _ _ _ Hsame) as [_ Hto].
          match goal with |- context [if ?c then _ else _] => destruct c end.
          + cbn [set_file_parent_directory file_owner file_parent_directory].
            split; [reflexivity|]. exists target_dir. rewrite Htid. split; assumption.
          + split; [reflexivity | exact Hrow].
        - injection Hmv as <-. cbn [snd]. split; [reflexivity | exact Hrow]. }
      cbv zeta in Hf1. bind_inv Hf1 as u4 Huniq. injection Hf1 as <-.
      destruct file_name; cbn [set_file_name file_owner file_parent_directory]; exact Hmoved.
    - injection Hf1 as <-. split; [reflexivity | exact Hrow]. }
  destruct Hpost as [Hown (p & Hp & Hpo)].
  apply keeps_bind_reads; [reads_auto | assumption | intros f2 Hf2].
  assert (Hsame : file_owner f2 = file_owner f1
                  /\ file_parent_directory f2 = file_parent_directory f1).
  { destruct write_body.
    - bind_inv Hf2 as content Hbody. bind_inv Hf2 as u5 Hquota. injection Hf2 as <-.
      split; reflexivity.
    - injection Hf2 as <-. split; reflexivity. }
  destruct Hsame as [E1 E2].
  apply (File_save_keeps_owners f2 w1 p); [assumption | rewrite E2; exact Hp | congruence].
Qed.

Lemma DirectoryView_put_keeps_owners (w : World) :
  owners_consistent (database w) ->
  kept (DirectoryView_handle_put int jwt_decode fuel request kwargs) w.
Proof.
  intros Hinv. unfold DirectoryView_handle_put.
  reads_step. reads_step. auth_step.
  apply keeps_bind_reads; [solve [auto with reads] | assumption | intros directory_name _].
  apply keeps_bind_reads; [solve [auto with reads] | assumption | intros parent_directory_id _].
  reads_step.
  apply keeps_bind_reads; [solve [auto with reads] | assumption | intros directory Hdir].
  destruct (Directory_objects_get_inv _ _ _ _ Hdir) as (Hget & Hid & _).
  reads_step.
  apply keeps_bind; [|intros; reads_rest].
  apply keeps_atomic; [assumption|].
  assert (Hrow : forall pid, dir_parent directory = Some pid ->
                   exists p, Directory_get (database w1) pid = Some p
                             /\ dir_owner p = dir_owner directory).
  { intros pid Hp. apply (proj2 H2 directory pid); [|exact Hp].
    unfold Directory_get in Hget. apply find_some in Hget. exact (proj1 Hget). }
  apply keeps_bind_reads; [reads_auto | assumption | intros d1 Hd1].
  assert (Hpost : dir_id d1 = dir_id directory /\ dir_owner d1 = dir_owner directory
                  /\ forall pid, dir_parent d1 = Some pid ->
                       exists p, Directory_get (database w1) pid = Some p
                                 /\ dir_owner p = dir_owner d1).
  { destruct (is_some directory_name || is_some parent_directory_id).
    - bind_inv Hd1 as current_dir Hcur.
      bind_inv Hd1 as u1 Hacc.
      bind_inv Hd1 as moved Hmv.
      assert (Hmoved : dir_id (snd moved) = dir_id directory
                       /\ dir_owner (snd moved) = dir_owner directory
                       /\ forall pid, dir_parent (snd moved) = Some pid ->
                            exists p, Directory_get (database w1) pid = Some p
                                      /\ dir_owner p = dir_owner (snd moved)).
      { destruct parent_directory_id as [pid|].
        - bind_inv Hmv as target_dir Htgt.
          destruct (Directory_objects_get_inv _ _ _ _ Htgt) as (Hlook & Htid & _).
          bind_inv Hmv as u2 Hacc2.
          bind_inv Hmv as u3 Hmovable.
          bind_inv Hmv as u4 Hsame.
          injection Hmv as <-. cbn [snd].
          apply lift_db_Return_inv in Hsame. destruct u4.
          pose proof (same_owner_dirs _ _ _ Hsame) as Hto.
          match goal with |- context [if ?c then _ else _] => destruct c end.
          + cbn [set_dir_parent dir_id dir_owner dir_parent].
            split; [reflexivity|]. split; [reflexivity|].
            intros q E. injection E as <-. exists target_dir. rewrite Htid. split; assumption.
          + split; [reflexivity|]. split; [reflexivity | exact Hrow].
        - injection Hmv as <-. cbn [snd]. split; [reflexivity|]. split; [reflexivity | exact Hrow]. }
      cbv zeta in Hd1. bind_inv Hd1 as u5 Huniq. injection Hd1 as <-.
      destruct directory_name; cbn [set_dir_name dir_id dir_owner dir_parent]; exact Hmoved.
    - injection Hd1 as <-. split; [reflexivity|]. split; [reflexivity | exact Hrow]. }
  destruct Hpost as (E1 & E2 & Hparent).
  apply Directory_save_keeps_owners; [assumption | | exact Hparent].
  intros _ p Hp. rewrite E1, Hid in Hp. rewrite E2. congruence.
Qed.

End HandlersKeepOwners.

(** X20.  Ownership follows the directory tree, and no request breaks it.
    When every file and every directory below a root lies in an existing
    directory of the same owner, the same holds after any request to any
    view, whatever the verb, the arguments and the answer: creations take
    the owner of the target directory, moves are only made between
    directories of one owner, and a directory is only deleted when nothing
    lies in it. *)
Theorem requests_keep_owners_consistent
    (int : string -> option Z) (jwt_decode : string -> option (list (string * PyValue)))
    (fuel : nat) (request : HttpRequest) (kwargs : list (string * string)) (w w2 : World)
    (view : View) (r : Response) :
  owners_consistent (database w) ->
  In view [UserInfoView int jwt_decode fuel; FileView int jwt_decode fuel;
           DirectoryView int jwt_decode fuel; ShareView int jwt_decode fuel;
           ContactView int jwt_decode] ->
  View_handle view request kwargs w = Some (r, w2) ->
  owners_consistent (database w2).
Proof.
  intros Hinv Hview. unfold View_handle, method_by_verb.
  assert (Hunsupported : forall verb,
            keeps owners_consistent (unsupported verb request kwargs) w).
  { intros verb. apply keeps_reads; [apply reads_raise | exact Hinv]. }
  assert (Hfallback : keeps owners_consistent (_handle_unsupported_method request kwargs) w).
  { unfold _handle_unsupported_method.
    destruct kwargs; (apply keeps_reads; [apply reads_raise | exact Hinv]). }
  simpl in Hview.
  destruct Hview as [<-|[<-|[<-|[<-|[<-|[]]]]]];
    repeat (match goal with
            | |- context [String.eqb (method request) ?v] =>
                destruct (String.eqb (method request) v)
            end; cbv iota);
    apply keeps_handle;
    cbn [_handle_get _handle_post _handle_put _handle_delete UserInfoView FileView
         DirectoryView ShareView ContactView AbstractView];
    match goal with
    | |- keeps _ (_handle_unsupported_method _ _) _ => exact Hfallback
    | |- keeps _ (unsupported _ _ _) _ => apply Hunsupported
    | |- keeps _ (UserInfoView_handle_get _ _ _ _ _) _ => apply UserInfoView_get_keeps_owners
    | |- keeps _ (FileView_handle_get _ _ _ _ _) _ => apply FileView_get_keeps_owners
    | |- keeps _ (FileView_handle_post _ _ _ _ _) _ => apply FileView_post_keeps_owners
    | |- keeps _ (FileView_handle_put _ _ _ _ _) _ => apply FileView_put_keeps_owners
    | |- keeps _ (FileView_handle_delete _ _ _ _ _) _ => apply FileView_delete_keeps_owners
    | |- keeps _ (DirectoryView_handle_get _ _ _ _ _) _ => apply DirectoryView_get_keeps_owners
    | |- keeps _ (DirectoryView_handle_post _ _ _ _ _) _ => apply DirectoryView_post_keeps_owners
    | |- keeps _ (DirectoryView_handle_put _ _ _ _ _) _ => apply DirectoryView_put_keeps_owners
    | |- keeps _ (DirectoryView_handle_delete _ _ _ _ _) _ =>
        apply DirectoryView_delete_keeps_owners
    | |- keeps _ (ShareView_handle_get _ _ _ _ _) _ => apply ShareView_get_keeps_owners
    | |- keeps _ (ShareView_handle_post _ _ _ _ _) _ => apply ShareView_post_keeps_owners
    | |- keeps _ (ShareView_handle_delete _ _ _ _ _) _ => apply ShareView_delete_keeps_owners
    | |- keeps _ (ContactView_handle_get _ _ _ _) _ => apply ContactView_get_keeps_owners
    | |- keeps _ (ContactView_handle_post _ _ _ _) _ => apply ContactView_post_keeps_owners
    | |- keeps _ (ContactView_handle_delete _ _ _ _) _ => apply ContactView_delete_keeps_owners
    end;
    exact Hinv.
Qed.

Lemma requests_keep_owners_consistent_witness :
  owners_consistent
    (with_directories Example.db0
       (Directory_table Example.db0 ++ [mkDirectory 40 "new" 1 (Some 2)])).
Proof.
  apply (requests_keep_owners_consistent Example.int Example.jwt_decode 3
           (Example.request "POST" "2" "bob" [("name", "new"); ("parentDirectory", "2")] [])
           [] (Example.world Example.db0 1500)
           (mkWorld (with_directories Example.db0
                       (Directory_table Example.db0 ++ [mkDirectory 40 "new" 1 (Some 2)]))
                    1500 [41; 42])
           (DirectoryView Example.int Example.jwt_decode 3)
           (mkResponse ("ok", 200) (DirectoryContent (mkDirectory 40 "new" 1 (Some 2))))).
  - split.
    + intros f [<-|[<-|[]]]; eexists; (split; [reflexivity | reflexivity]).
    + intros d pid [<-|[<-|[<-|[<-|[]]]]] E; inversion E; subst;
        eexists; (split; [reflexivity | reflexivity]).
  - right. right. left. reflexivity.
  - reflexivity.
Defined.

(** ** Granting and revoking *)

Lemma existsb_false_forall {A : Type} (p : A -> bool) (l : list A) (x : A) :
  existsb p l = false -> In x l -> p x = false.
Proof.
  intros H Hin. destruct (p x) eqn:E; [|reflexivity].
  assert (existsb p l = true) by (apply existsb_exists; exists x; split; assumption).
  congruence.
Qed.

Lemma filter_fresh_row {R : Type} (pk : R -> Z) (row : R) (table : list R) :
  existsb (fun r => pk r =? pk row) table = false ->
  filter (fun r => negb (pk r =? pk row)) (table ++ [row]) = table.
Proof.
  intros Hfree. rewrite filter_app. cbn [filter]. rewrite Z.eqb_refl. cbn [negb].
  rewrite app_nil_r. apply filter_keeps_all.
  intros x Hin. rewrite (existsb_false_forall _ _ x Hfree Hin). reflexivity.
Qed.

Lemma with_shares_same (db : DB) (t : list Share) :
  with_shares (with_shares db t) (Share_table db) = db.
Proof. destruct db. reflexivity. Qed.

Section GrantRevoke.

Variable int : string -> option Z.
Variable jwt_decode : string -> option (list (string * PyValue)).
Variable fuel : nat.

Variables (request : HttpRequest) (w w1 : World).
Variables (issuer subject : StorageUser) (claims : list (string * PyValue)).
Variables (us ss ts target_type : string) (user_id subject_id target_id : Z).
Variables (target : Entity) (can_write : bool) (id : Z) (rest : list Z).

Hypothesis Huser : dict_get "user" (GET request) = Some us /\ int us = Some user_id.
Hypothesis Hauth :
  _verify_authenticated jwt_decode request user_id w = Return (issuer, claims) w1.
Hypothesis Hsubject : dict_get "subject" (GET request) = Some ss /\ int ss = Some subject_id.
Hypothesis Hsubject_row : StorageUser_get (database w1) subject_id = Some subject.
Hypothesis Htype : dict_get "targetType" (GET request) = Some target_type.
Hypothesis Htarget_id : dict_get "targetID" (GET request) = Some ts /\ int ts = Some target_id.
Hypothesis Htarget :
  (target_type = "directory" /\
   exists d, Directory_get (database w1) target_id = Some d /\ target = EDirectory d)
  \/ (target_type = "file" /\
      exists f, File_get (database w1) target_id = Some f /\ target = EFile f).
Hypothesis Hflag : flag_value request "canWrite" can_write.
Hypothesis Howner : attr_owner target = Some user_id.
Hypothesis Hfuel : (0 < fuel)%nat.
Hypothesis Hother : subject_id <> user_id.
Hypothesis Hfresh : fresh_id (Share_exists (database w1)) (random w1) = Some (id, rest).

Local Abbreviation share := (new_share issuer subject target can_write id).
Local Abbreviation granted := (share_granted w1 (new_share issuer subject target can_write id) rest).

Lemma grant_post :
  handle (ShareView_handle_post int jwt_decode fuel) request [] w
  = Some (mkResponse ("ok", 200) (ShareContent share), granted).
Proof.
  unfold handle.
  rewrite (share_post_prefix int jwt_decode fuel request w w1 issuer issuer subject claims
             us ss ts target_type user_id subject_id target_id target
             Huser Hauth (verify_authenticated_user _ _ _ _ _ _ _ Hauth)
             Hsubject Hsubject_row Htype Htarget_id Htarget).
  rewrite (share_tail_creates fuel request w1 issuer subject target_type user_id subject_id
             target_id target can_write Htarget Hflag id rest Howner Hfuel Hother Hfresh).
  reflexivity.
Qed.

Lemma granted_access (b : bool) :
  can_write || negb b = true ->
  can_access fuel (database granted) target subject_id b = Val true.
Proof.
  intros Hb.
  assert (Hsid : Models.user_id subject = subject_id)
    by (apply (find_pk Models.user_id _ _ _ Hsubject_row)).
  destruct Htarget as [[_ (d & _ & ->)] | [_ (f & _ & ->)]]; cbn [can_access new_share].
  - destruct fuel as [|k]; [lia|]. cbn [Directory_can_access].
    destruct (dir_owner d =? subject_id); [reflexivity|].
    rewrite share_loop_existsb. unfold filter_subject, Directory_share_set.
    rewrite !existsb_filter. unfold share_granted. cbn [database with_shares Share_table].
    rewrite existsb_app. cbn [existsb share_can_write share_subject share_target_directory opt_is].
    rewrite Hsid, !Z.eqb_refl, Hb. cbn [andb orb]. rewrite orb_true_r. reflexivity.
  - unfold File_can_access.
    destruct (file_owner f =? subject_id); [reflexivity|].
    rewrite share_loop_existsb. unfold filter_subject, File_share_set.
    rewrite !existsb_filter. unfold share_granted. cbn [database with_shares Share_table].
    rewrite existsb_app. cbn [existsb share_can_write share_subject share_target_file opt_is].
    rewrite Hsid, !Z.eqb_refl, Hb. cbn [andb orb]. rewrite orb_true_r. reflexivity.
Qed.

(** X22.  A share gives its subject access until the issuer revokes it.
    When the owner of a file or directory shares it with another user, the
    subject can read the target afterwards, and can write it when the share
    is write-capable.  When the issuer then deletes the share, the database
    is exactly what it was before the share was created, so every access
    decision is again what it was. *)
Theorem share_grants_until_revoked :
  handle (ShareView_handle_post int jwt_decode fuel) request [] w
  = Some (mkResponse ("ok", 200) (ShareContent share), granted)
  /\ share_issuer share = user_id /\ share_subject share = subject_id
  /\ share_can_write share = can_write
  /\ can_access fuel (database granted) target subject_id false = Val true
  /\ (can_write = true -> can_access fuel (database granted) target subject_id true = Val true)
  /\ (forall (request2 : HttpRequest) (a2 : StorageUser) (c2 : list (string * PyValue))
             (ids : string),
        dict_get "user" (GET request2) = Some us ->
        _verify_authenticated jwt_decode request2 user_id granted = Return (a2, c2) granted ->
        int ids = Some id ->
        exists w3,
          handle (ShareView_handle_delete int jwt_decode fuel) request2 [("share_id", ids)] granted
          = Some (mkResponse ("ok", 200) NoContent, w3)
          /\ database w3 = database w1).
Proof.
  assert (Huid : Models.user_id issuer = user_id)
    by (apply (find_pk Models.user_id _ _ _ (verify_authenticated_user _ _ _ _ _ _ _ Hauth))).
  assert (Hsid : Models.user_id subject = subject_id)
    by (apply (find_pk Models.user_id _ _ _ Hsubject_row)).
  assert (Hfields : share_issuer share = user_id /\ share_subject share = subject_id
                    /\ share_can_write share = can_write /\ share_id share = id).
  { unfold new_share. destruct target; cbn; repeat split; assumption. }
  destruct Hfields as (Hi & Hs & Hc & Hsh).
  destruct (fresh_id_free _ _ _ _ Hfresh) as [Hfree _].
  split; [exact grant_post|]. split; [exact Hi|]. split; [exact Hs|]. split; [exact Hc|].
  split; [apply granted_access; apply orb_true_r|].
  split; [intros Hcw; apply granted_access; rewrite Hcw; reflexivity|].
  intros request2 a2 c2 ids Hu2 Hauth2 Hids.
  assert (Hfound : Share_get (database granted) id = Some share).
  { unfold Share_get, share_granted. cbn [database with_shares Share_table].
    apply find_app_fresh; [apply existsb_find_none; exact Hfree | rewrite Hsh; apply Z.eqb_refl]. }
  exists (share_revoked granted share). split.
  - unfold handle.
    rewrite (share_delete_prefix int jwt_decode fuel request2 granted granted a2 c2 us ids
               user_id id share (conj Hu2 (proj2 Huser)) Hauth2 (conj Hids Hfound)).
    rewrite (bind_Return _ _ granted granted tt).
    + reflexivity.
    + apply verify_can_access_write. cbn [can_access]. unfold Share_can_access.
      rewrite Hi, Z.eqb_refl. reflexivity.
  - unfold share_revoked, share_granted. cbn [database with_shares Share_table].
    rewrite (filter_fresh_row share_id share) by (rewrite Hsh; exact Hfree).
    apply with_shares_same.
Qed.

End GrantRevoke.

Lemma share_grants_until_revoked_witness :
  handle (ShareView_handle_post Example.int Example.jwt_decode 5)
         (Example.request "POST" "1" "alice"
            [("subject", "3"); ("targetType", "directory"); ("targetID", "2")] [])
         [] (Example.world Example.db0 1500)
  = Some (mkResponse ("ok", 200) (ShareContent (mkShare 1 1 3 None (Some 2) false)),
          share_granted (Example.world Example.db0 1500) (mkShare 1 1 3 None (Some 2) false)
                        [40; 41; 42])
  /\ can_access 5
       (database (share_granted (Example.world Example.db0 1500)
                    (mkShare 1 1 3 None (Some 2) false) [40; 41; 42]))
       (EDirectory Example.docs) 3 false = Val true.
Proof.
  destruct (share_grants_until_revoked Example.int Example.jwt_decode 5
              (Example.request "POST" "1" "alice"
                 [("subject", "3"); ("targetType", "directory"); ("targetID", "2")] [])
              (Example.world Example.db0 1500) (Example.world Example.db0 1500)
              (mkStorageUser 1 "alice") (mkStorageUser 3 "carol")
              (Example.claims_of 1 "alice") "1" "3" "2" "directory" 1 3 2
              (EDirectory Example.docs) false 1 [40; 41; 42]
              (conj eq_refl eq_refl) eq_refl (conj eq_refl eq_refl) eq_refl eq_refl
              (conj eq_refl eq_refl)
              (or_introl (conj eq_refl (ex_intro _ Example.docs (conj eq_refl eq_refl))))
              eq_refl eq_refl ltac:(lia) ltac:(lia) eq_refl)
    as (Hpost & _ & _ & _ & Hread & _).
  split; [exact Hpost | exact Hread].
Defined.

(** ** Deleting a user *)

Lemma find_filter_pass {A : Type} (q p : A -> bool) (l : list A) (x : A) :
  find q l = Some x -> p x = true -> find q (filter p l) = Some x.
Proof.
  intros Hfind Hp. induction l as [|a t IH]; simpl in *; [discriminate|].
  destruct (q a) eqn:Eq.
  - injection Hfind as ->. rewrite Hp. simpl. rewrite Eq. reflexivity.
  - destruct (p a); simpl; [rewrite Eq|]; apply IH; exact Hfind.
Qed.

Lemma mem_owned_directory (db : DB) (user : StorageUser) (pid : Z) :
  mem pid (owned_directory_ids db user) = true ->
  exists q, In q (Directory_table db) /\ dir_owner q = user_id user /\ dir_id q = pid.
Proof.
  unfold mem, owned_directory_ids. intros H. apply existsb_exists in H.
  destruct H as (x & Hin & E). apply Z.eqb_eq in E. subst x.
  apply in_map_iff in Hin. destruct Hin as (q & Hid & Hq).
  apply filter_In in Hq. destruct Hq as [Hq Ho]. apply Z.eqb_eq in Ho.
  exists q. repeat split; assumption.
Qed.

(** With owners that follow the tree, nothing of another owner lies in the
    directories of a user: the deletion is not restricted. *)
Lemma user_delete_unrestricted (db : DB) (user : StorageUser) :
  owners_consistent db -> NoDup (map dir_id (Directory_table db)) ->
  existsb (fun d => negb (dir_owner d =? user_id user)
                    && opt_mem (dir_parent d) (owned_directory_ids db user))
          (Directory_table db)
  || existsb (fun f => negb (file_owner f =? user_id user)
                       && mem (file_parent_directory f) (owned_directory_ids db user))
             (File_table db) = false.
Proof.
  intros [H1 H2] Hnd.
  assert (Hone : forall pid p o,
            mem pid (owned_directory_ids db user) = true ->
            Directory_get db pid = Some p -> dir_owner p = o -> o = user_id user).
  { intros pid p o Hm Hp Ho. destruct (mem_owned_directory db user pid Hm) as (q & Hq & Hqo & Hqi).
    unfold Directory_get in Hp. pose proof (find_pk dir_id _ _ _ Hp) as Hpi.
    apply find_some in Hp. destruct Hp as [Hp _].
    assert (p = q) by (apply (NoDup_pk dir_id _ p q Hnd Hp Hq); congruence).
    congruence. }
  apply orb_false_iff. split.
  - destruct (existsb _ (Directory_table db)) eqn:E; [|reflexivity]. exfalso.
    apply existsb_exists in E. destruct E as (d & Hin & Hd).
    apply andb_true_iff in Hd. destruct Hd as [Hno Hm].
    destruct (dir_parent d) as [pid|] eqn:Hp; [|discriminate]. cbn [opt_mem] in Hm.
    destruct (H2 d pid Hin Hp) as (p & Hget & Ho).
    pose proof (Hone pid p (dir_owner d) Hm Hget Ho) as E.
    rewrite E, Z.eqb_refl in Hno. discriminate.
  - destruct (existsb _ (File_table db)) eqn:E; [|reflexivity]. exfalso.
    apply existsb_exists in E. destruct E as (f & Hin & Hf).
    apply andb_true_iff in Hf. destruct Hf as [Hno Hm].
    destruct (H1 f Hin) as (p & Hget & Ho).
    pose proof (Hone _ p (file_owner f) Hm Hget Ho) as E.
    rewrite E, Z.eqb_refl in Hno. discriminate.
Qed.

(** X21.  [_delete_user].  For an id that is no user nothing happens.  For
    a user, in a database whose directories have distinct ids and whose
    owners follow the directory tree, the deletion returns and nothing of
    the user is left: the user is not found, no directory and no file is
    owned by it, no share was issued by it or names it as subject, and no
    contact relation mentions it.  What other users own stays, the other
    users are found as before, the owners still follow the directory tree,
    and a second deletion changes nothing. *)
Theorem delete_user_leaves_nothing (user_id : Z) (w : World) :
  (StorageUser_get (database w) user_id = None -> _delete_user user_id w = Return tt w)
  /\ (forall user, StorageUser_get (database w) user_id = Some user ->
        owners_consistent (database w) ->
        NoDup (map dir_id (Directory_table (database w))) ->
        exists w',
          _delete_user user_id w = Return tt w'
          /\ StorageUser_get (database w') user_id = None
          /\ (forall d, In d (Directory_table (database w')) -> dir_owner d <> user_id)
          /\ (forall f, In f (File_table (database w')) -> file_owner f <> user_id)
          /\ (forall s, In s (Share_table (database w')) ->
                share_issuer s <> user_id /\ share_subject s <> user_id)
          /\ (forall a b, In (a, b) (StorageUser_contacts (database w')) ->
                a <> user_id /\ b <> user_id)
          /\ (forall d, In d (Directory_table (database w)) -> dir_owner d <> user_id ->
                In d (Directory_table (database w')))
          /\ (forall f, In f (File_table (database w)) -> file_owner f <> user_id ->
                In f (File_table (database w')))
          /\ (forall j, j <> user_id ->
                StorageUser_get (database w') j = StorageUser_get (database w) j)
          /\ owners_consistent (database w')
          /\ _delete_user user_id w' = Return tt w').
Proof.
  split.
  - intros Hnone. unfold _delete_user, bind, get_db. rewrite Hnone. reflexivity.
  - intros user Hsome Hinv Hnd.
    assert (Huid : Models.user_id user = user_id)
      by (apply (find_pk Models.user_id _ _ _ Hsome)).
    unfold _delete_user, bind, get_db. rewrite Hsome. unfold StorageUser_delete.
    rewrite (user_delete_unrestricted (database w) user Hinv Hnd).
    unfold modify_db. rewrite Huid. eexists. split; [reflexivity|].
    cbn [database StorageUser_table StorageUser_contacts Directory_table File_table Share_table].
    assert (Hgone : find (fun u => Models.user_id u =? user_id)
                         (filter (fun u => negb (Models.user_id u =? user_id))
                                 (StorageUser_table (database w))) = None)
      by (apply (find_filter_same Models.user_id)).
    split; [exact Hgone|].
    split.
    { intros d Hin. apply filter_In in Hin. destruct Hin as [_ Hn].
      apply Z.eqb_neq. destruct (dir_owner d =? user_id); [discriminate | reflexivity]. }
    split.
    { intros f Hin. apply filter_In in Hin. destruct Hin as [_ Hn].
      apply Z.eqb_neq. destruct (file_owner f =? user_id); [discriminate | reflexivity]. }
    split.
    { intros s Hin. apply filter_In in Hin. destruct Hin as [_ Hn].
      apply negb_true_iff in Hn. apply orb_false_iff in Hn. destruct Hn as [Hn _].
      apply orb_false_iff in Hn. destruct Hn as [Hn _].
      apply orb_false_iff in Hn. destruct Hn as [Hn1 Hn2].
      split; apply Z.eqb_neq; assumption. }
    split.
    { intros a b Hin. apply filter_In in Hin. destruct Hin as [_ Hn]. cbn [fst snd] in Hn.
      apply negb_true_iff in Hn. apply orb_false_iff in Hn. destruct Hn as [Hn1 Hn2].
      split; apply Z.eqb_neq; assumption. }
    split.
    { intros d Hin Ho. apply filter_In. split; [exact Hin|].
      apply Z.eqb_neq in Ho. rewrite Ho. reflexivity. }
    split.
    { intros f Hin Ho. apply filter_In. split; [exact Hin|].
      apply Z.eqb_neq in Ho. rewrite Ho. reflexivity. }
    split.
    { intros j Hj. unfold StorageUser_get. cbn [StorageUser_table].
      apply (find_filter_other Models.user_id). exact Hj. }
    split.
    { destruct Hinv as [H1 H2]. split.
      - intros f Hin. cbn [File_table] in Hin. apply filter_In in Hin. destruct Hin as [Hin Ho].
        destruct (H1 f Hin) as (p & Hp & Hpo). exists p. split; [|exact Hpo].
        unfold Directory_get. cbn [Directory_table].
        apply find_filter_pass; [exact Hp | rewrite Hpo; exact Ho].
      - intros d pid Hin Hpar. cbn [Directory_table] in Hin. apply filter_In in Hin.
        destruct Hin as [Hin Ho].
        destruct (H2 d pid Hin Hpar) as (p & Hp & Hpo). exists p. split; [|exact Hpo].
        unfold Directory_get. cbn [Directory_table].
        apply find_filter_pass; [exact Hp | rewrite Hpo; exact Ho]. }
    unfold StorageUser_get. cbn [database StorageUser_table]. rewrite Hgone. reflexivity.
Qed.

Lemma delete_user_leaves_nothing_witness :
  exists w',
    _delete_user 2 (Example.world Example.db0 1500) = Return tt w'
    /\ StorageUser_get (database w') 2 = None
    /\ (forall s, In s (Share_table (database w')) ->
          share_issuer s <> 2 /\ share_subject s <> 2).
Proof.
  destruct (proj2 (delete_user_leaves_nothing 2 (Example.world Example.db0 1500))
              (mkStorageUser 2 "bob") eq_refl) as (w' & Hrun & Hgone & _ & _ & Hshares & _).
  - split.
    + intros f [<-|[<-|[]]]; eexists; (split; [reflexivity | reflexivity]).
    + intros d pid [<-|[<-|[<-|[<-|[]]]]] E; inversion E; subst;
        eexists; (split; [reflexivity | reflexivity]).
  - simpl. repeat (constructor; [simpl; lia|]). constructor.
  - exists w'. repeat split; try assumption; apply Hshares; assumption.
Defined.

(** ** Files out of reach *)

Lemma Directory_can_access_more_fuel (db : DB) (u : Z) (b : bool) (k : nat) :
  forall x r, Directory_can_access k db x u b = Val r ->
              Directory_can_access (S k) db x u b = Val r.
Proof.
  induction k as [|k IH]; intros x r; [discriminate|].
  rewrite (Directory_can_access_unfold db (S k)), (Directory_can_access_unfold db k).
  unfold directory_decision.
  destruct (dir_owner x =? u); [trivial|].
  destruct (local_grant db x u b); [trivial|].
  destruct (dir_parent x) as [pid|]; [|trivial].
  destruct (Directory_get db pid) as [p|]; [apply IH | trivial].
Qed.

Lemma pop_last {A : Type} (l l' : list A) (x : A) :
  pop l = Some (x, l') -> l = (l' ++ [x])%list.
Proof.
  unfold pop. destruct (rev l) as [|y r] eqn:E; [discriminate|].
  intros H. injection H as <- <-.
  rewrite <- (rev_involutive l), E. reflexivity.
Qed.

Lemma verify_can_access_Return_inv (fuel : nat) (u : Z) (obj : Entity) (w w' : World) (a : unit) :
  _verify_can_access fuel u (Some obj) true w = Return a w' ->
  can_access fuel (database w) obj u true = Val true.
Proof.
  unfold _verify_can_access, bind, lift_db, raise, ret.
  destruct (can_access fuel (database w) obj u false) as [[|]| |]; simpl; try discriminate.
  destruct (can_access fuel (database w) obj u true) as [[|]| |]; simpl; try discriminate.
  reflexivity.
Qed.

Section OutOfReach.

Variable fuel : nat.
Variables (db0 : DB) (u i : Z) (f : File).

Hypothesis Hdirs : NoDup (map dir_id (Directory_table db0)).
Hypothesis Hfiles : NoDup (map file_id (File_table db0)).
Hypothesis Hfile : File_get db0 i = Some f.
Hypothesis Hdenied : can_access fuel db0 (EFile f) u true = Val false.

Local Abbreviation kept := (keeps (file_kept db0 i f)).
Local Abbreviation good := (not_refused fuel db0 u).

Lemma lookup_row (x x' : Directory) :
  In x (Directory_table db0) -> Directory_get db0 (dir_id x) = Some x' -> x' = x.
Proof.
  intros Hin Hget. pose proof (find_pk dir_id _ _ _ Hget) as Hid.
  unfold Directory_get in Hget. apply find_some in Hget.
  apply (NoDup_pk dir_id _ x' x Hdirs (proj1 Hget) Hin Hid).
Qed.

(** A file in a directory that is not refused is not refused. *)
Lemma file_of_good_directory (x : Directory) (g : File) :
  good x -> file_parent_directory g = dir_id x ->
  File_can_access fuel db0 g u true <> Val false.
Proof.
  intros [Hin Hx] Hp. unfold File_can_access.
  destruct (file_owner g =? u); [discriminate|].
  destruct (share_loop _ true) as [[|]|] eqn:Hloop; [discriminate | |].
  - exfalso. exact (share_loop_not_false _ _ Hloop).
  - rewrite Hp. destruct (Directory_get db0 (dir_id x)) as [x'|] eqn:Hget; [|discriminate].
    rewrite (lookup_row x x' Hin Hget). exact Hx.
Qed.

Lemma good_directory_avoids_file (x : Directory) (g : File) :
  good x -> In g (File_table db0) -> file_parent_directory g = dir_id x -> file_id g <> i.
Proof.
  intros Hx Hin Hp E.
  assert (g = f).
  { pose proof (find_pk file_id _ _ _ Hfile) as Hid.
    unfold File_get in Hfile. pose proof (find_some _ _ Hfile) as [Hinf _].
    apply (NoDup_pk file_id _ g f Hfiles Hin Hinf). congruence. }
  subst g. exact (file_of_good_directory x f Hx Hp Hdenied).
Qed.

(** A directory in a directory that is not refused is not refused. *)
Lemma child_of_good_directory (x c : Directory) :
  good x -> In c (Directory_table db0) -> dir_parent c = Some (dir_id x) -> good c.
Proof.
  clear Hfiles Hfile Hdenied. intros [Hin Hx] Hc Hp. split; [exact Hc|].
  destruct fuel as [|k]; [discriminate|].
  rewrite (Directory_can_access_unfold db0 k). unfold directory_decision.
  destruct (dir_owner c =? u); [discriminate|].
  destruct (local_grant db0 c u true); [discriminate|].
  rewrite Hp. destruct (Directory_get db0 (dir_id x)) as [x'|] eqn:Hget; [|discriminate].
  rewrite (lookup_row x x' Hin Hget). intros Hk.
  apply Hx. apply Directory_can_access_more_fuel. exact Hk.
Qed.

Lemma File_delete_keeps_file (g : File) (w : World) :
  file_kept db0 i f (database w) -> file_id g <> i -> kept (File_delete g) w.
Proof.
  intros (Hget & Hd & Hf) Hne w' H. injection H as <-. cbn [database].
  split; [|split].
  - unfold File_get. cbn [File_table]. rewrite (find_filter_other file_id) by congruence.
    exact Hget.
  - exact Hd.
  - intros x Hin. cbn [File_table] in Hin. apply filter_In in Hin. apply Hf. exact (proj1 Hin).
Qed.

Lemma Directory_delete_keeps_file (d : Directory) (w : World) :
  file_kept db0 i f (database w) -> kept (Directory_delete d) w.
Proof.
  intros Hk w'. unfold Directory_delete.
  destruct (_ || _); intros H; injection H as <-; [exact Hk|].
  destruct Hk as (Hget & Hd & Hf). cbn [database]. split; [exact Hget|]. split; [|exact Hf].
  intros x Hin. cbn [Directory_table] in Hin. apply filter_In in Hin. apply Hd. exact (proj1 Hin).
Qed.

Lemma delete_files_keeps_file (files : list File) (w : World) :
  file_kept db0 i f (database w) -> (forall g, In g files -> file_id g <> i) ->
  kept (delete_files files) w.
Proof.
  revert w. induction files as [|g rest IH]; intros w Hk Hne; simpl.
  - apply keeps_reads; [apply reads_ret | exact Hk].
  - apply keeps_bind; [apply File_delete_keeps_file; [exact Hk | apply Hne; left; reflexivity]|].
    intros _ w1 _ Hk1. apply IH; [exact Hk1|]. intros x Hx. apply Hne. right. exact Hx.
Qed.

Lemma cascade_loop_keeps_file (n : nat) :
  forall (l : list Directory) (w : World),
    file_kept db0 i f (database w) -> (forall x, In x l -> good x) ->
    kept (cascade_loop n l) w.
Proof.
  induction n as [|n IH]; intros l w Hk Hgood; simpl.
  - destruct (pop l) as [[x l']|]; [intros w'; discriminate|].
    apply keeps_reads; [apply reads_ret | exact Hk].
  - destruct (pop l) as [[x l']|] eqn:Hpop; [|apply keeps_reads; [apply reads_ret | exact Hk]].
    apply pop_last in Hpop. subst l.
    assert (Hx : good x) by (apply Hgood; apply in_or_app; right; left; reflexivity).
    assert (Hl' : forall y, In y l' -> good y)
      by (intros y Hy; apply Hgood; apply in_or_app; left; exact Hy).
    apply keeps_bind_reads; [apply reads_get_db | exact Hk|].
    intros db Hdb. injection Hdb as <-.
    destruct (List.length (Directory_directory_set (database w) x) =? 0)%nat.
    + apply keeps_bind.
      * apply delete_files_keeps_file; [exact Hk|].
        intros g Hg. unfold Directory_file_set in Hg. apply filter_In in Hg.
        destruct Hg as [Hin Hp]. apply Z.eqb_eq in Hp.
        apply (good_directory_avoids_file x g Hx); [|exact Hp].
        apply (proj2 (proj2 Hk)). exact Hin.
      * intros _ w1 _ Hk1.
        apply keeps_bind; [apply Directory_delete_keeps_file; exact Hk1|].
        intros _ w2 _ Hk2. apply IH; assumption.
    + apply IH; [exact Hk|].
      intros y Hy. apply in_app_or in Hy. destruct Hy as [Hy|Hy]; [apply Hl'; exact Hy|].
      cbn [app] in Hy. destruct Hy as [<-|Hy]; [exact Hx|].
      unfold Directory_directory_set in Hy. apply filter_In in Hy. destruct Hy as [Hin Hp].
      apply (child_of_good_directory x y Hx).
      * apply (proj1 (proj2 Hk)). exact Hin.
      * destruct (dir_parent y) as [pid|]; [|discriminate]. cbn [opt_is] in Hp.
        apply Z.eqb_eq in Hp. congruence.
Qed.

End OutOfReach.

(** ** Operations that do not touch the files *)

Lemma leaves_files_reads {A : Type} (m : M World A) : reads m -> leaves_files m.
Proof. intros Hm w w' H. rewrite (Hm w w' H). reflexivity. Qed.

Lemma leaves_files_bind {A B : Type} (m : M World A) (k : A -> M World B) :
  leaves_files m -> (forall a, leaves_files (k a)) -> leaves_files (bind m k).
Proof.
  intros Hm Hk w w'. unfold bind.
  destruct (m w) as [a w1|e w1|] eqn:E.
  - intros H. rewrite (Hk a w1 w' H). apply Hm. rewrite E. reflexivity.
  - intros H. injection H as <-. apply Hm. rewrite E. reflexivity.
  - discriminate.
Qed.

Lemma leaves_files_atomic {A : Type} (m : M World A) : leaves_files m -> leaves_files (atomic m).
Proof.
  intros Hm w w'. unfold atomic.
  destruct (m w) as [a w1|e w1|] eqn:E.
  - intros H. injection H as <-. apply Hm. rewrite E. reflexivity.
  - intros H. injection H as <-. reflexivity.
  - discriminate.
Qed.

Lemma leaves_files_verify_authenticated
    (jwt_decode : string -> option (list (string * PyValue)))
    (request : HttpRequest) (user_id : Z) :
  leaves_files (_verify_authenticated jwt_decode request user_id).
Proof.
  intros w w'.
  destruct (verify_authenticated_inv jwt_decode request user_id w)
    as [H|(header & token & claims & name & iat & exp & Hh & Hb & Hd & Hc & Hnow)].
  - rewrite H. intros E. injection E as <-. reflexivity.
  - rewrite (verify_authenticated_provisions jwt_decode request user_id w header token claims
               name iat exp Hh Hb Hd Hc Hnow).
    destruct (StorageUser_get (database w) user_id);
      [intros E; injection E as <-; reflexivity|].
    destruct (fresh_id _ _) as [[id rest]|]; [|discriminate].
    intros E. injection E as <-. reflexivity.
Qed.

Lemma leaves_files_Directory_save (d : Directory) : leaves_files (Directory_save d).
Proof.
  intros w w'. unfold Directory_save, bind, assign_id, modify_db, ret.
  destruct (negb _).
  - simpl. intros H. injection H as <-. reflexivity.
  - destruct (fresh_id _ _) as [[id rest]|]; [|discriminate].
    simpl. intros H. injection H as <-. reflexivity.
Qed.

Lemma leaves_files_Directory_objects_create (name : string) (owner : Z) (parent : option Z) :
  leaves_files (Directory_objects_create name owner parent).
Proof. apply leaves_files_Directory_save. Qed.

Lemma leaves_files_Directory_delete (d : Directory) : leaves_files (Directory_delete d).
Proof.
  intros w w'. unfold Directory_delete.
  destruct (_ || _); intros H; injection H as <-; reflexivity.
Qed.

Lemma leaves_files_Share_objects_create (issuer subject : Z) (tf td : option Z) (cw : bool) :
  leaves_files (Share_objects_create issuer subject tf td cw).
Proof.
  intros w w'. unfold Share_objects_create, Share_save, bind, assign_id, modify_db, ret.
  destruct (negb _).
  - simpl. intros H. injection H as <-. reflexivity.
  - destruct (fresh_id _ _) as [[id rest]|]; [|discriminate].
    simpl. intros H. injection H as <-. reflexivity.
Qed.

Lemma leaves_files_Share_delete (s : Share) : leaves_files (Share_delete s).
Proof. intros w w' H. injection H as <-. reflexivity. Qed.

Lemma leaves_files_contacts_add (user contact : StorageUser) :
  leaves_files (contacts_add user contact).
Proof.
  intros w w' H. injection H as <-. cbn [database]. destruct (existsb _ _); reflexivity.
Qed.

Lemma leaves_files_contacts_remove (user : StorageUser) (contact_id : Z) :
  leaves_files (contacts_remove user contact_id).
Proof. intros w w' H. injection H as <-. reflexivity. Qed.

Lemma leaves_files_StorageUser_save (user : StorageUser) : leaves_files (StorageUser_save user).
Proof. intros w w' H. injection H as <-. reflexivity. Qed.

Create HintDb files.

#[local] Hint Resolve leaves_files_verify_authenticated leaves_files_Directory_save
  leaves_files_Directory_objects_create leaves_files_Directory_delete
  leaves_files_Share_objects_create leaves_files_Share_delete leaves_files_contacts_add
  leaves_files_contacts_remove leaves_files_StorageUser_save : files.

Ltac files_auto :=
  repeat first
    [ solve [auto with files]
    | solve [apply leaves_files_reads; reads_auto]
    | apply leaves_files_bind; [|intros ?]
    | apply leaves_files_atomic
    | match goal with
      | |- leaves_files (match ?x with _ => _ end) => destruct x
      end
    | progress cbv zeta ].

Section HandlersLeaveFiles.

Variable int : string -> option Z.
Variable jwt_decode : string -> option (list (string * PyValue)).
Variable fuel : nat.
Variables (request : HttpRequest) (kwargs : list (string * string)).

Lemma UserInfoView_get_leaves_files :
  leaves_files (UserInfoView_handle_get int jwt_decode fuel request kwargs).
Proof. unfold UserInfoView_handle_get. files_auto. Qed.

Lemma FileView_get_leaves_files :
  leaves_files (FileView_handle_get int jwt_decode fuel request kwargs).
Proof. unfold FileView_handle_get. files_auto. Qed.

Lemma DirectoryView_get_leaves_files :
  leaves_files (DirectoryView_handle_get int jwt_decode fuel request kwargs).
Proof. unfold DirectoryView_handle_get. files_auto. Qed.

Lemma DirectoryView_post_leaves_files :
  leaves_files (DirectoryView_handle_post int jwt_decode fuel request kwargs).
Proof. unfold DirectoryView_handle_post. files_auto. Qed.

Lemma DirectoryView_put_leaves_files :
  leaves_files (DirectoryView_handle_put int jwt_decode fuel request kwargs).
Proof. unfold DirectoryView_handle_put. files_auto. Qed.

Lemma ShareView_get_leaves_files :
  leaves_files (ShareView_handle_get int jwt_decode fuel request kwargs).
Proof. unfold ShareView_handle_get. files_auto. Qed.

Lemma ShareView_post_leaves_files :
  leaves_files (ShareView_handle_post int jwt_decode fuel request kwargs).
Proof. unfold ShareView_handle_post. files_auto. Qed.

Lemma ShareView_delete_leaves_files :
  leaves_files (ShareView_handle_delete int jwt_decode fuel request kwargs).
Proof. unfold ShareView_handle_delete. files_auto. Qed.

Lemma ContactView_get_leaves_files :
  leaves_files (ContactView_handle_get int jwt_decode request kwargs).
Proof. unfold ContactView_handle_get. files_auto. Qed.

Lemma ContactView_post_leaves_files :
  leaves_files (ContactView_handle_post int jwt_decode request kwargs).
Proof. unfold ContactView_handle_post. files_auto. Qed.

Lemma ContactView_delete_leaves_files :
  leaves_files (ContactView_handle_delete int jwt_decode request kwargs).
Proof. unfold ContactView_handle_delete. files_auto. Qed.

End HandlersLeaveFiles.

(** ** The handlers that write files *)

Lemma verify_authenticated_known_user
    (jwt_decode : string -> option (list (string * PyValue)))
    (request : HttpRequest) (user_id : Z) (w w1 : World)
    (a : StorageUser * list (string * PyValue)) :
  StorageUser_get (database w) user_id <> None ->
  _verify_authenticated jwt_decode request user_id w = Return a w1 -> w1 = w.
Proof.
  intros Hknown.
  destruct (verify_authenticated_inv jwt_decode request user_id w)
    as [H|(header & token & claims & name & iat & exp & Hh & Hb & Hd & Hc & Hnow)];
    [rewrite H; discriminate|].
  rewrite (verify_authenticated_provisions jwt_decode request user_id w header token claims
             name iat exp Hh Hb Hd Hc Hnow).
  destruct (StorageUser_get (database w) user_id); [|contradiction].
  intros E. injection E as _ <-. reflexivity.
Qed.

Lemma get_query_param_Return_inv {A : Type} (req : HttpRequest) (name v : string)
    (converter : string -> option A) (a b : A) (w w' : World) :
  dict_get name (GET req) = Some v -> converter v = Some a ->
  _get_query_param req name converter w = Return b w' -> b = a.
Proof.
  intros H1 H2. unfold _get_query_param. rewrite H1, H2. intros H. injection H as <-. reflexivity.
Qed.

Section FileOutOfReach.

Variable int : string -> option Z.
Variable jwt_decode : string -> option (list (string * PyValue)).
Variable fuel : nat.
Variables (request : HttpRequest) (kwargs : list (string * string)) (w : World).
Variables (us : string) (user_id i : Z) (f : File).

Hypothesis Hparam : dict_get "user" (GET request) = Some us.
Hypothesis Hint : int us = Some user_id.
Hypothesis Hknown : StorageUser_get (database w) user_id <> None.
Hypothesis Hdirs : NoDup (map dir_id (Directory_table (database w))).
Hypothesis Hfiles : NoDup (map file_id (File_table (database w))).
Hypothesis Hfile : File_get (database w) i = Some f.
Hypothesis Hdenied : can_access fuel (database w) (EFile f) user_id true = Val false.

Local Abbreviation there := (fun db : DB => File_get db i = Some f).
Local Abbreviation kept := (keeps (fun db : DB => File_get db i = Some f)).

Lemma keeps_leaves_files {A : Type} (m : M World A) (v : World) :
  leaves_files m -> there (database v) -> kept m v.
Proof.
  intros Hm Hthere w' H. unfold File_get. rewrite (Hm v w' H). exact Hthere.
Qed.

Lemma File_save_keeps_there (g : File) (v : World) :
  there (database v) -> file_id g <> i -> kept (File_save g) v.
Proof.
  intros Hthere Hne w'. unfold File_save, bind, assign_id, modify_db, ret.
  destruct (Z.eqb_spec (file_id g) 0) as [Hz|Hnz]; cbn [negb].
  - destruct (fresh_id _ _) as [[id rest]|] eqn:Hf; [|discriminate].
    simpl. intros H. injection H as <-. cbn [database]. unfold File_get.
    cbn [with_files File_table].
    destruct (fresh_id_free _ _ _ _ Hf) as [Hfree _].
    rewrite (upsert_lookup_other file_id); [exact Hthere|].
    cbn [file_id]. intros ->.
    apply existsb_find_none in Hfree. unfold File_get in Hthere. congruence.
  - simpl. intros H. injection H as <-. cbn [database]. unfold File_get.
    cbn [with_files File_table].
    rewrite (upsert_lookup_other file_id); [exact Hthere|].
    cbn [file_id]. congruence.
Qed.

Lemma File_objects_create_keeps_there (name : string) (owner parent : Z) (data : list byte)
    (v : World) :
  there (database v) -> kept (File_objects_create name owner parent data) v.
Proof.
  intros Hthere w'. unfold File_objects_create, File_save, bind, assign_id, modify_db, ret.
  cbn [file_id negb Z.eqb].
  destruct (fresh_id _ _) as [[id rest]|] eqn:Hf; [|discriminate].
  simpl. intros H. injection H as <-. cbn [database]. unfold File_get.
  cbn [with_files File_table].
  destruct (fresh_id_free _ _ _ _ Hf) as [Hfree _].
  rewrite (upsert_lookup_other file_id); [exact Hthere|].
  cbn [file_id]. intros ->.
  apply existsb_find_none in Hfree. unfold File_get in Hthere. congruence.
Qed.

Lemma File_delete_keeps_there (g : File) (v : World) :
  there (database v) -> file_id g <> i -> kept (File_delete g) v.
Proof.
  intros Hthere Hne w' H. injection H as <-. cbn [database]. unfold File_get.
  cbn [File_table]. rewrite (find_filter_other file_id) by congruence. exact Hthere.
Qed.

(** A file the handler may write is another file. *)
Lemma writable_is_other (g : File) (a : unit) (v : World) :
  File_get (database w) (file_id g) = Some g ->
  _verify_can_access fuel user_id (Some (EFile g)) true w = Return a v ->
  file_id g <> i.
Proof.
  intros Hg Hacc E. apply verify_can_access_Return_inv in Hacc.
  rewrite E in Hg. assert (g = f) by congruence. subst g. congruence.
Qed.

Ltac leaves_step :=
  apply keeps_bind;
  [apply keeps_leaves_files; [solve [files_auto] | assumption] | intros ? ? ? ?].

Ltac there_reads :=
  apply keeps_bind_reads; [solve [reads_auto] | assumption | intros ? ?].

Ltac there_rest := solve [apply keeps_reads; [reads_auto | assumption]].

Lemma FileView_post_keeps_there :
  kept (FileView_handle_post int jwt_decode fuel request kwargs) w.
Proof.
  unfold FileView_handle_post.
  there_reads. there_reads. leaves_step.
  there_reads. there_reads. there_reads. there_reads. there_reads. there_reads. there_reads.
  apply keeps_bind; [|intros; there_rest].
  apply keeps_atomic; [assumption|].
  there_reads. apply File_objects_create_keeps_there. assumption.
Qed.

Lemma FileView_put_keeps_there :
  kept (FileView_handle_put int jwt_decode fuel request kwargs) w.
Proof.
  unfold FileView_handle_put.
  there_reads.
  apply keeps_bind_reads; [solve [reads_auto] | assumption | intros uid Huid].
  rewrite (get_query_param_Return_inv _ _ _ _ _ _ _ _ Hparam Hint Huid) in *.
  apply keeps_bind;
    [apply keeps_leaves_files; [solve [files_auto] | assumption] | intros a1 w1 Hauth _].
  rewrite (verify_authenticated_known_user _ _ _ _ _ _ Hknown Hauth) in *.
  apply keeps_bind_reads; [solve [reads_auto] | assumption | intros file_name _].
  apply keeps_bind_reads; [solve [reads_auto] | assumption | intros parent_directory_id _].
  apply keeps_bind_reads; [solve [reads_auto] | assumption | intros write_body _].
  there_reads. there_reads.
  apply keeps_bind_reads; [solve [reads_auto] | assumption | intros file_obj Hget].
  destruct (File_objects_get_inv _ _ _ _ Hget) as (Hrow & Hid & _).
  apply keeps_bind_reads; [solve [reads_auto] | assumption | intros u1 Hacc].
  assert (Hother : file_id file_obj <> i).
  { apply (writable_is_other file_obj u1 w); [rewrite Hid; exact Hrow | exact Hacc]. }
  apply keeps_bind; [|intros; there_rest].
  apply keeps_atomic; [assumption|].
  apply keeps_bind_reads; [reads_auto | assumption | intros f1 Hf1].
  assert (Hid1 : file_id f1 = file_id file_obj).
  { destruct (is_some file_name || is_some parent_directory_id).
    - bind_inv Hf1 as current_dir Hcur.
      bind_inv Hf1 as u2 Hacc2.
      bind_inv Hf1 as moved Hmv.
      assert (Hmoved : file_id (snd moved) = file_id file_obj).
      { destruct parent_directory_id as [pid|].
        - bind_inv Hmv as target_dir Htgt.
          bind_inv Hmv as u3 Hacc3.
          bind_inv Hmv as u4 Hsame.
          injection Hmv as <-. cbn [snd].
          match goal with |- context [if ?c then _ else _] => destruct c end; reflexivity.
        - injection Hmv as <-. reflexivity. }
      cbv zeta in Hf1. bind_inv Hf1 as u5 Huniq. injection Hf1 as <-.
      destruct file_name; cbn [set_file_name file_id]; exact Hmoved.
    - injection Hf1 as <-. reflexivity. }
  apply keeps_bind_reads; [reads_auto | assumption | intros f2 Hf2].
  assert (Hid2 : file_id f2 = file_id f1).
  { destruct write_body.
    - bind_inv Hf2 as content Hbody. bind_inv Hf2 as u6 Hquota. injection Hf2 as <-.
      reflexivity.
    - injection Hf2 as <-. reflexivity. }
  apply File_save_keeps_there; [assumption | congruence].
Qed.

Lemma FileView_delete_keeps_there :
  kept (FileView_handle_delete int jwt_decode fuel request kwargs) w.
Proof.
  unfold FileView_handle_delete.
  there_reads.
  apply keeps_bind_reads; [solve [reads_auto] | assumption | intros uid Huid].
  rewrite (get_query_param_Return_inv _ _ _ _ _ _ _ _ Hparam Hint Huid) in *.
  apply keeps_bind;
    [apply keeps_leaves_files; [solve [files_auto] | assumption] | intros a1 w1 Hauth _].
  rewrite (verify_authenticated_known_user _ _ _ _ _ _ Hknown Hauth) in *.
  there_reads.
  apply keeps_bind_reads; [solve [reads_auto] | assumption | intros file_obj Hget].
  destruct (File_objects_get_inv _ _ _ _ Hget) as (Hrow & Hid & _).
  apply keeps_bind_reads; [solve [reads_auto] | assumption | intros u1 Hacc].
  assert (Hother : file_id file_obj <> i).
  { apply (writable_is_other file_obj u1 w); [rewrite Hid; exact Hrow | exact Hacc]. }
  there_reads. there_reads.
  apply keeps_bind; [apply File_delete_keeps_there; assumption|].
  intros. there_rest.
Qed.

Lemma DirectoryView_delete_keeps_there :
  kept (DirectoryView_handle_delete int jwt_decode fuel request kwargs) w.
Proof.
  unfold DirectoryView_handle_delete.
  there_reads.
  apply keeps_bind_reads; [solve [reads_auto] | assumption | intros uid Huid].
  rewrite (get_query_param_Return_inv _ _ _ _ _ _ _ _ Hparam Hint Huid) in *.
  apply keeps_bind;
    [apply keeps_leaves_files; [solve [files_auto] | assumption] | intros a1 w1 Hauth _].
  rewrite (verify_authenticated_known_user _ _ _ _ _ _ Hknown Hauth) in *.
  there_reads.
  apply keeps_bind_reads; [solve [reads_auto] | assumption | intros directory Hget].
  destruct (Directory_objects_get_inv _ _ _ _ Hget) as (Hrow & Hid & _).
  apply keeps_bind_reads; [solve [reads_auto] | assumption | intros u1 Hacc].
  apply verify_can_access_Return_inv in Hacc. cbn [can_access] in Hacc.
  apply keeps_bind_reads; [solve [reads_auto] | assumption | intros parent _].
  destruct parent as [parent|]; [|there_rest].
  there_reads.
  apply keeps_bind_reads; [solve [reads_auto] | assumption | intros cascade _].
  apply keeps_bind; [|intros; there_rest].
  destruct cascade.
  - apply keeps_atomic; [assumption|].
    assert (Hloop : keeps (file_kept (database w) i f) (cascade_loop fuel [directory]) w).
    { apply (cascade_loop_keeps_file fuel (database w) user_id i f Hdirs Hfiles Hfile Hdenied).
      - split; [exact Hfile|]. split; intros x Hx; exact Hx.
      - intros x [<-|[]]. split.
        + unfold Directory_get in Hrow. apply find_some in Hrow. exact (proj1 Hrow).
        + rewrite Hacc. discriminate. }
    intros w' Hw'. exact (proj1 (Hloop w' Hw')).
  - there_reads. apply keeps_leaves_files; [files_auto | assumption].
Qed.

End FileOutOfReach.

(** X23.  A caller cannot alter what it may not write.  Take a known user
    and a file to which [can_access] refuses that user write access, in a
    database whose files and directories have distinct ids.  Whatever
    request that user sends to whatever view, with whatever verb and
    arguments, the file is afterwards found under its id exactly as
    before: same name, same directory, same owner, same content.  In
    particular a cascading deletion never reaches it, since everything
    below a directory the caller may write is writable for the caller. *)
Theorem denied_caller_cannot_alter_file
    (int : string -> option Z) (jwt_decode : string -> option (list (string * PyValue)))
    (fuel : nat) (request : HttpRequest) (kwargs : list (string * string)) (w w2 : World)
    (view : View) (r : Response) (us : string) (user_id i : Z) (f : File) :
  In view [UserInfoView int jwt_decode fuel; FileView int jwt_decode fuel;
           DirectoryView int jwt_decode fuel; ShareView int jwt_decode fuel;
           ContactView int jwt_decode] ->
  dict_get "user" (GET request) = Some us -> int us = Some user_id ->
  StorageUser_get (database w) user_id <> None ->
  NoDup (map dir_id (Directory_table (database w))) ->
  NoDup (map file_id (File_table (database w))) ->
  File_get (database w) i = Some f ->
  can_access fuel (database w) (EFile f) user_id true = Val false ->
  View_handle view request kwargs w = Some (r, w2) ->
  File_get (database w2) i = Some f.
Proof.
  intros Hview Hparam Hint Hknown Hdirs Hfiles Hfile Hdenied.
  unfold View_handle, method_by_verb.
  assert (Hleaves : forall m : M World Response,
            leaves_files m -> keeps (fun db : DB => File_get db i = Some f) m w).
  { intros m Hm. apply keeps_leaves_files; assumption. }
  simpl in Hview.
  destruct Hview as [<-|[<-|[<-|[<-|[<-|[]]]]]];
    repeat (match goal with
            | |- context [String.eqb (method request) ?v] =>
                destruct (String.eqb (method request) v)
            end; cbv iota);
    apply (keeps_handle (fun db : DB => File_get db i = Some f));
    cbn [_handle_get _handle_post _handle_put _handle_delete UserInfoView FileView
         DirectoryView ShareView ContactView AbstractView];
    match goal with
    | |- keeps _ (_handle_unsupported_method _ _) _ =>
        apply Hleaves; apply leaves_files_reads; unfold _handle_unsupported_method;
        destruct kwargs; apply reads_raise
    | |- keeps _ (unsupported _ _ _) _ =>
        apply Hleaves; apply leaves_files_reads; apply reads_raise
    | |- keeps _ (UserInfoView_handle_get _ _ _ _ _) _ =>
        apply Hleaves; apply UserInfoView_get_leaves_files
    | |- keeps _ (FileView_handle_get _ _ _ _ _) _ =>
        apply Hleaves; apply FileView_get_leaves_files
    | |- keeps _ (FileView_handle_post _ _ _ _ _) _ =>
        apply FileView_post_keeps_there; assumption
    | |- keeps _ (FileView_handle_put _ _ _ _ _) _ =>
        apply (FileView_put_keeps_there int jwt_decode fuel request kwargs w us user_id i f);
        assumption
    | |- keeps _ (FileView_handle_delete _ _ _ _ _) _ =>
        apply (FileView_delete_keeps_there int jwt_decode fuel request kwargs w us user_id i f);
        assumption
    | |- keeps _ (DirectoryView_handle_get _ _ _ _ _) _ =>
        apply Hleaves; apply DirectoryView_get_leaves_files
    | |- keeps _ (DirectoryView_handle_post _ _ _ _ _) _ =>
        apply Hleaves; apply DirectoryView_post_leaves_files
    | |- keeps _ (DirectoryView_handle_put _ _ _ _ _) _ =>
        apply Hleaves; apply DirectoryView_put_leaves_files
    | |- keeps _ (DirectoryView_handle_delete _ _ _ _ _) _ =>
        apply (DirectoryView_delete_keeps_there int jwt_decode fuel request kwargs w us
                 user_id i f);
        assumption
    | |- keeps _ (ShareView_handle_get _ _ _ _ _) _ =>
        apply Hleaves; apply ShareView_get_leaves_files
    | |- keeps _ (ShareView_handle_post _ _ _ _ _) _ =>
        apply Hleaves; apply ShareView_post_leaves_files
    | |- keeps _ (ShareView_handle_delete _ _ _ _ _) _ =>
        apply Hleaves; apply ShareView_delete_leaves_files
    | |- keeps _ (ContactView_handle_get _ _ _ _) _ =>
        apply Hleaves; apply ContactView_get_leaves_files
    | |- keeps _ (ContactView_handle_post _ _ _ _) _ =>
        apply Hleaves; apply ContactView_post_leaves_files
    | |- keeps _ (ContactView_handle_delete _ _ _ _) _ =>
        apply Hleaves; apply ContactView_delete_leaves_files
    end.
Qed.

Lemma denied_caller_cannot_alter_file_witness :
  File_get
    (mkDB (StorageUser_table Example.db0) (StorageUser_contacts Example.db0)
          [Example.root1; Example.docs; Example.root2] [Example.b_txt]
          (Share_table Example.db0))
    21 = Some Example.b_txt.
Proof.
  apply (denied_caller_cannot_alter_file Example.int Example.jwt_decode 5
           (Example.request "DELETE" "2" "bob" [("cascade", EmptyString)] [])
           [("directory_id", "3")] (Example.world Example.db0 1500)
           (mkWorld
              (mkDB (StorageUser_table Example.db0) (StorageUser_contacts Example.db0)
                    [Example.root1; Example.docs; Example.root2] [Example.b_txt]
                    (Share_table Example.db0))
              1500 [1; 40; 41; 42])
           (DirectoryView Example.int Example.jwt_decode 5)
           (mkResponse ("ok", 200) NoContent) "2" 2 21 Example.b_txt).
  - right. right. left. reflexivity.
  - reflexivity.
  - reflexivity.
  - discriminate.
  - simpl. repeat (constructor; [simpl; lia|]). constructor.
  - simpl. repeat (constructor; [simpl; lia|]). constructor.
  - reflexivity.
  - reflexivity.
  - reflexivity.
Defined.

(** ** The cascading deletion ends and removes the directory *)

Lemma sub_db_refl (db : DB) : sub_db db db.
Proof. split; intros x Hx; exact Hx. Qed.

Lemma sub_db_trans (a b c : DB) : sub_db a b -> sub_db b c -> sub_db a c.
Proof. intros [H1 H2] [H3 H4]. split; intros x Hx; [apply H3, H1 | apply H4, H2]; exact Hx. Qed.

Lemma covers_sub (db db' : DB) (h : nat) :
  sub_db db' db -> forall x, covers db h x -> covers db' h x.
Proof.
  intros [Hsub _]. induction h as [|h IH]; intros x Hc; inversion Hc as [h' x' Hch]; subst.
  constructor. intros c Hin. apply IH. apply Hch.
  unfold Directory_directory_set in *. apply filter_In in Hin. apply filter_In.
  split; [apply Hsub; exact (proj1 Hin) | exact (proj2 Hin)].
Qed.

Lemma pop_app {A : Type} (l : list A) (x : A) : pop (l ++ [x]) = Some (x, l).
Proof. unfold pop. rewrite rev_app_distr. simpl. rewrite rev_involutive. reflexivity. Qed.

Lemma cascade_loop_nil (n : nat) (w : World) : cascade_loop n [] w = Return tt w.
Proof. destruct n; reflexivity. Qed.

Lemma cascade_loop_step (n : nat) (l : list Directory) (x : Directory) (w : World) :
  cascade_loop (S n) (l ++ [x]) w =
  if (List.length (Directory_directory_set (database w) x) =? 0)%nat
  then (delete_files (Directory_file_set (database w) x) ;;;
        Directory_delete x ;;;
        cascade_loop n l)%py w
  else cascade_loop n (l ++ [x] ++ Directory_directory_set (database w) x) w.
Proof.
  cbn [cascade_loop]. rewrite pop_app. unfold bind at 1, get_db.
  destruct (List.length (Directory_directory_set (database w) x) =? 0)%nat; reflexivity.
Qed.

Lemma filter_none {A : Type} (p : A -> bool) (l : list A) :
  (forall x, In x l -> p x = false) -> filter p l = [].
Proof.
  induction l as [|a l IH]; simpl; intros H; [reflexivity|].
  rewrite (H a (or_introl eq_refl)). apply IH. intros x Hx. apply H. right. exact Hx.
Qed.

(** [delete_files] returns; it removes the rows that carry the id of one of
    the files and touches no directory. *)
Lemma delete_files_spec (files : list File) :
  forall w, exists w',
    delete_files files w = Return tt w'
    /\ Directory_table (database w') = Directory_table (database w)
    /\ (forall g, In g (File_table (database w')) ->
          In g (File_table (database w))
          /\ forall g0, In g0 files -> file_id g <> file_id g0).
Proof.
  induction files as [|f rest IH]; intros w; simpl.
  - exists w. split; [reflexivity|]. split; [reflexivity|].
    intros g Hg. split; [exact Hg | intros g0 []].
  - unfold bind at 1. unfold File_delete at 1, modify_db.
    destruct (IH (mkWorld
                    (mkDB (StorageUser_table (database w)) (StorageUser_contacts (database w))
                          (Directory_table (database w))
                          (filter (fun g => negb (file_id g =? file_id f))
                                  (File_table (database w)))
                          (filter (fun s => negb (opt_is (share_target_file s) (file_id f)))
                                  (Share_table (database w))))
                    (clock w) (random w))) as (w' & Hrun & Hd & Hf).
    exists w'. split; [exact Hrun|]. split; [rewrite Hd; reflexivity|].
    intros g Hg. destruct (Hf g Hg) as [Hin Hne]. cbn [database File_table] in Hin.
    apply filter_In in Hin. destruct Hin as [Hin Hid]. split; [exact Hin|].
    intros g0 [<-|Hg0]; [|apply Hne; exact Hg0].
    apply Z.eqb_neq. destruct (file_id g =? file_id f); [discriminate | reflexivity].
Qed.

(** One turn of the loop deletes a directory that has no directory in it. *)
Lemma cascade_leaf (x : Directory) (w : World) :
  Directory_directory_set (database w) x = [] ->
  exists w',
    (forall n l, cascade_loop (S n) (l ++ [x]) w = cascade_loop n l w')
    /\ sub_db (database w') (database w)
    /\ (forall d, In d (Directory_table (database w')) -> dir_id d <> dir_id x).
Proof.
  intros Hleaf.
  destruct (delete_files_spec (Directory_file_set (database w) x) w) as (wf & Hrun & Hd & Hf).
  assert (Hfs : Directory_file_set (database wf) x = []).
  { unfold Directory_file_set. apply filter_none. intros g Hg.
    destruct (Hf g Hg) as [Hin Hne].
    destruct (Z.eqb_spec (file_parent_directory g) (dir_id x)) as [E|E]; [|reflexivity].
    exfalso. apply (Hne g); [|reflexivity].
    unfold Directory_file_set. apply filter_In. split; [exact Hin|].
    apply Z.eqb_eq. exact E. }
  assert (Hds : Directory_directory_set (database wf) x = []).
  { unfold Directory_directory_set in *. rewrite Hd. exact Hleaf. }
  eexists. split; [|split].
  - intros n l. rewrite cascade_loop_step, Hleaf. cbn [List.length Nat.eqb].
    rewrite (bind_Return _ _ w wf tt) by exact Hrun.
    unfold bind at 1. unfold Directory_delete at 1. rewrite Hfs, Hds.
    cbn [List.length Nat.ltb Nat.leb orb]. unfold modify_db. reflexivity.
  - cbn [database]. split.
    + intros d Hin. cbn [Directory_table] in Hin. apply filter_In in Hin.
      rewrite <- Hd. exact (proj1 Hin).
    + intros g Hin. cbn [File_table] in Hin. exact (proj1 (Hf g Hin)).
  - cbn [database Directory_table]. intros d Hin. apply filter_In in Hin.
    apply Z.eqb_neq. destruct (dir_id d =? dir_id x); [destruct Hin; discriminate | reflexivity].
Qed.

(** The loop works off a directory and everything below it. *)
Lemma cascade_subtree (h : nat) :
  forall x w, covers (database w) h x ->
  exists k w',
    (forall n l, cascade_loop (k + n) (l ++ [x]) w = cascade_loop n l w')
    /\ sub_db (database w') (database w)
    /\ (forall d, In d (Directory_table (database w')) -> dir_id d <> dir_id x).
Proof.
  induction h as [|h IH]; intros x w Hc; inversion Hc as [h' x' Hch]; subst.
  assert (Hlist : forall cs v,
            (forall c, In c cs -> covers (database v) h c) ->
            exists k v',
              (forall n l, cascade_loop (k + n) (l ++ cs) v = cascade_loop n l v')
              /\ sub_db (database v') (database v)
              /\ (forall c d, In c cs -> In d (Directory_table (database v')) ->
                    dir_id d <> dir_id c)).
  { intros cs. induction cs as [|c cs' IHcs] using rev_ind; intros v Hcov.
    - exists 0%nat, v. split; [intros n l; rewrite app_nil_r; reflexivity|].
      split; [apply sub_db_refl | intros c d []].
    - assert (Hcc : covers (database v) h c)
        by (apply Hcov; apply in_or_app; right; left; reflexivity).
      destruct (IH c v Hcc) as (k1 & v1 & Hrun1 & Hsub1 & Hgone1).
      destruct (IHcs v1) as (k2 & v2 & Hrun2 & Hsub2 & Hgone2).
      { intros c' Hc'. apply (covers_sub (database v)); [exact Hsub1|].
        apply Hcov. apply in_or_app. left. exact Hc'. }
      exists (k1 + k2)%nat, v2. split; [|split].
      + intros n l. rewrite app_assoc, <- Nat.add_assoc, Hrun1. apply Hrun2.
      + exact (sub_db_trans _ _ _ Hsub2 Hsub1).
      + intros c' d Hc' Hd. apply in_app_or in Hc'. destruct Hc' as [Hc'|[<-|[]]].
        * exact (Hgone2 c' d Hc' Hd).
        * apply Hgone1. apply (proj1 Hsub2). exact Hd. }
  destruct (Directory_directory_set (database w) x) as [|c0 cs0] eqn:Hchildren.
  - destruct (cascade_leaf x w Hchildren) as (w' & Hrun & Hsub & Hgone).
    exists 1%nat, w'. split; [exact Hrun|]. split; assumption.
  - destruct (Hlist (c0 :: cs0) w Hch) as (k & w2 & Hrun & Hsub & Hgone).
    assert (Hleaf : Directory_directory_set (database w2) x = []).
    { unfold Directory_directory_set. apply filter_none. intros d Hd.
      destruct (opt_is (dir_parent d) (dir_id x)) eqn:E; [|reflexivity].
      exfalso. apply (Hgone d d); [|exact Hd|reflexivity].
      rewrite <- Hchildren. unfold Directory_directory_set. apply filter_In.
      split; [apply (proj1 Hsub); exact Hd | exact E]. }
    destruct (cascade_leaf x w2 Hleaf) as (w3 & Hrun3 & Hsub3 & Hgone3).
    exists (S (k + 1))%nat, w3. split; [|split].
    + intros n l. cbn [Nat.add]. rewrite cascade_loop_step, Hchildren.
      cbn [List.length Nat.eqb]. rewrite app_assoc, <- Nat.add_assoc. rewrite Hrun.
      cbn [Nat.add]. apply Hrun3.
    + exact (sub_db_trans _ _ _ Hsub3 Hsub).
    + exact Hgone3.
Qed.

(** ** What the cascading deletion removes *)

Lemma Directory_get_row (db : DB) (y : Directory) :
  NoDup (map dir_id (Directory_table db)) -> In y (Directory_table db) ->
  Directory_get db (dir_id y) = Some y.
Proof.
  intros Hnd Hin. unfold Directory_get.
  destruct (find (fun d => dir_id d =? dir_id y) (Directory_table db)) as [y'|] eqn:E.
  - pose proof (find_pk dir_id _ _ _ E) as Hid. apply find_some in E.
    f_equal. apply (NoDup_pk dir_id _ y' y Hnd (proj1 E) Hin Hid).
  - exfalso. pose proof (find_none _ _ E y Hin) as Hn. simpl in Hn.
    rewrite Z.eqb_refl in Hn. discriminate.
Qed.

Section CascadeRemoves.

Variables (db0 : DB) (x0 : Directory).

Hypothesis Hdirs : NoDup (map dir_id (Directory_table db0)).
Hypothesis Hfiles : NoDup (map file_id (File_table db0)).

Local Abbreviation inv := (only_below db0 x0).
Local Abbreviation below := (fun y : Directory =>
  In y (Directory_table db0) /\ exists m, descends db0 x0 y m).

Lemma File_delete_only_below (g : File) (y : Directory) (w : World) :
  inv (database w) -> below y ->
  In g (File_table db0) -> file_parent_directory g = dir_id y ->
  keeps inv (File_delete g) w.
Proof.
  intros (Hsub & Hcd & Hcf & Hod & Hof) [Hy (m & Hm)] Hg Hp w' H. injection H as <-.
  cbn [database]. split; [|split; [|split; [|split]]].
  - split; [exact (proj1 Hsub)|]. intros x Hx. cbn [File_table] in Hx.
    apply filter_In in Hx. apply (proj2 Hsub). exact (proj1 Hx).
  - exact Hcd.
  - intros x p Hx. cbn [File_table] in Hx. apply filter_In in Hx. apply Hcf. exact (proj1 Hx).
  - exact Hod.
  - intros x Hx. cbn [File_table].
    destruct (Hof x Hx) as [Hin|Hb]; [|right; exact Hb].
    destruct (Z.eqb_spec (file_id x) (file_id g)) as [E|E].
    + right. assert (x = g) by (apply (NoDup_pk file_id _ x g Hfiles Hx Hg E)). subst x.
      exists y, m. repeat split; assumption.
    + left. apply filter_In. split; [exact Hin|].
      apply Z.eqb_neq in E. rewrite E. reflexivity.
Qed.

Lemma delete_files_only_below (files : list File) (y : Directory) (w : World) :
  inv (database w) -> below y ->
  (forall g, In g files -> In g (File_table db0) /\ file_parent_directory g = dir_id y) ->
  keeps inv (delete_files files) w.
Proof.
  intros Hinv Hy. revert w Hinv. induction files as [|g rest IH]; intros w Hinv Hall; simpl.
  - apply keeps_reads; [apply reads_ret | exact Hinv].
  - apply keeps_bind.
    + destruct (Hall g (or_introl eq_refl)) as [Hg Hp].
      apply (File_delete_only_below g y); assumption.
    + intros _ w1 _ Hinv1. apply IH; [exact Hinv1|].
      intros x Hx. apply Hall. right. exact Hx.
Qed.

Lemma Directory_delete_only_below (y : Directory) (w : World) :
  inv (database w) -> below y -> keeps inv (Directory_delete y) w.
Proof.
  intros Hinv [Hy (m & Hm)] w'. unfold Directory_delete.
  destruct (0 <? List.length (Directory_file_set (database w) y))%nat eqn:Ef;
    [intros H; injection H as <-; exact Hinv|].
  destruct (0 <? List.length (Directory_directory_set (database w) y))%nat eqn:Ed;
    [intros H; injection H as <-; exact Hinv|].
  apply length_zero_nil in Ef, Ed.
  cbn [orb]. intros H. injection H as <-. cbn [database].
  destruct Hinv as (Hsub & Hcd & Hcf & Hod & Hof).
  assert (Hkeep : forall p, In p (Directory_table (database w)) -> dir_id p <> dir_id y ->
                    In p (filter (fun d => negb (dir_id d =? dir_id y))
                                 (Directory_table (database w)))).
  { intros p Hp Hne. apply filter_In. split; [exact Hp|].
    apply Z.eqb_neq in Hne. rewrite Hne. reflexivity. }
  split; [|split; [|split; [|split]]].
  - split; [|exact (proj2 Hsub)]. intros x Hx. cbn [Directory_table] in Hx.
    apply filter_In in Hx. apply (proj1 Hsub). exact (proj1 Hx).
  - intros x p Hx Hp Hpar. cbn [Directory_table] in *. apply filter_In in Hx.
    destruct Hx as [Hx _]. apply Hkeep; [exact (Hcd x p Hx Hp Hpar)|].
    intros E. pose proof (filter_nil_none _ _ x Ed Hx) as Hn. simpl in Hn.
    rewrite Hpar in Hn. simpl in Hn. rewrite E, Z.eqb_refl in Hn. discriminate.
  - intros g p Hg Hp Hpar. cbn [File_table Directory_table] in *.
    apply Hkeep; [exact (Hcf g p Hg Hp Hpar)|].
    intros E. pose proof (filter_nil_none _ _ g Ef Hg) as Hn. simpl in Hn.
    rewrite Hpar, E, Z.eqb_refl in Hn. discriminate.
  - intros r Hr. cbn [Directory_table].
    destruct (Hod r Hr) as [Hin|Hb]; [|right; exact Hb].
    destruct (Z.eq_dec (dir_id r) (dir_id y)) as [E|E].
    + right. assert (r = y) by (apply (NoDup_pk dir_id _ r y Hdirs Hr Hy E)). subst r.
      exists m. exact Hm.
    + left. apply Hkeep; assumption.
  - exact Hof.
Qed.

Lemma cascade_loop_only_below (n : nat) :
  forall (l : list Directory) (w : World),
    inv (database w) -> (forall y, In y l -> below y) ->
    keeps inv (cascade_loop n l) w.
Proof.
  induction n as [|n IH]; intros l w Hinv Hl; simpl.
  - destruct (pop l) as [[x l']|]; [intros w'; discriminate|].
    apply keeps_reads; [apply reads_ret | exact Hinv].
  - destruct (pop l) as [[x l']|] eqn:Hpop; [|apply keeps_reads; [apply reads_ret | exact Hinv]].
    apply pop_last in Hpop. subst l.
    assert (Hx : below x) by (apply Hl; apply in_or_app; right; left; reflexivity).
    assert (Hl' : forall y, In y l' -> below y)
      by (intros y Hy; apply Hl; apply in_or_app; left; exact Hy).
    apply keeps_bind_reads; [apply reads_get_db | exact Hinv|].
    intros db Hdb. injection Hdb as <-.
    destruct (List.length (Directory_directory_set (database w) x) =? 0)%nat.
    + apply keeps_bind.
      * apply (delete_files_only_below _ x); [exact Hinv | exact Hx|].
        intros g Hg. unfold Directory_file_set in Hg. apply filter_In in Hg.
        destruct Hg as [Hin Hp]. apply Z.eqb_eq in Hp.
        split; [apply (proj2 (proj1 Hinv)); exact Hin | exact Hp].
      * intros _ w1 _ Hinv1.
        apply keeps_bind; [apply Directory_delete_only_below; assumption|].
        intros _ w2 _ Hinv2. apply IH; assumption.
    + apply IH; [exact Hinv|].
      intros y Hy. apply in_app_or in Hy. destruct Hy as [Hy|Hy]; [apply Hl'; exact Hy|].
      cbn [app] in Hy. destruct Hy as [<-|Hy]; [exact Hx|].
      unfold Directory_directory_set in Hy. apply filter_In in Hy. destruct Hy as [Hin Hp].
      destruct Hx as [Hx0 (m & Hm)].
      split; [apply (proj1 (proj1 Hinv)); exact Hin|].
      exists (S m). destruct (dir_parent y) as [pid|] eqn:Hpar; [|discriminate].
      cbn [opt_is] in Hp. apply Z.eqb_eq in Hp. subst pid.
      apply (descends_step db0 x0 y x (dir_id x) m Hpar); [|exact Hm].
      apply Directory_get_row; assumption.
Qed.

(** Once the directory itself is gone, nothing below it is left. *)
Lemma nothing_below_left (db : DB) :
  inv db -> (forall d, In d (Directory_table db) -> dir_id d <> dir_id x0) ->
  forall r m, descends db0 x0 r m -> ~ In r (Directory_table db).
Proof.
  intros (Hsub & Hcd & _) Hgone r m Hdesc.
  induction Hdesc as [|r p pid n Hpar Hget _ IH].
  - intros Hin. exact (Hgone x0 Hin eq_refl).
  - intros Hin. apply IH.
    pose proof (find_pk dir_id _ _ _ Hget) as Hid.
    unfold Directory_get in Hget. apply find_some in Hget.
    apply (Hcd r p Hin (proj1 Hget)). rewrite Hid. exact Hpar.
Qed.

End CascadeRemoves.

Lemma find_absent {R : Type} (pk : R -> Z) (i : Z) (l : list R) :
  (forall r, In r l -> pk r <> i) -> find (fun r => pk r =? i) l = None.
Proof.
  intros H. induction l as [|a l IH]; simpl; [reflexivity|].
  destruct (Z.eqb_spec (pk a) i) as [E|E]; [exfalso; exact (H a (or_introl eq_refl) E)|].
  apply IH. intros r Hr. apply H. right. exact Hr.
Qed.

Section CascadeDelete.

Variable int : string -> option Z.
Variable jwt_decode : string -> option (list (string * PyValue)).

Variables (request : HttpRequest) (w w1 : World).
Variables (authenticated : StorageUser) (claims : list (string * PyValue)).
Variables (us ds : string) (user_id directory_id pid : Z) (directory parent : Directory).
Variable h : nat.

Hypothesis Huser : dict_get "user" (GET request) = Some us /\ int us = Some user_id.
Hypothesis Hauth :
  _verify_authenticated jwt_decode request user_id w = Return (authenticated, claims) w1.
Hypothesis Hdir :
  int ds = Some directory_id /\ Directory_get (database w1) directory_id = Some directory.
Hypothesis Hcascade : flag_value request "cascade" true.
Hypothesis Hpar : dir_parent directory = Some pid.
Hypothesis Hparent : Directory_get (database w1) pid = Some parent.
Hypothesis Hcovers : covers (database w1) h directory.
Hypothesis Hdirs : NoDup (map dir_id (Directory_table (database w1))).
Hypothesis Hfiles : NoDup (map file_id (File_table (database w1))).

(** X24.  The cascading deletion removes the directory with everything
    below it, and nothing else.  Let the directories below the directory
    form a finite tree, in a database with distinct ids.  Then, from some
    amount of fuel on, a DELETE with [cascade] by a caller who may write
    the directory and its parent is answered [ok]; afterwards the directory
    is not found; of the directories that existed exactly those are left
    from which no chain of parents leads to the deleted directory; and of
    the files exactly those are left that lie in no such directory. *)
Theorem cascade_removes_subtree_only :
  exists k, forall fuel, (k <= fuel)%nat ->
    can_access fuel (database w1) (EDirectory directory) user_id true = Val true ->
    can_access fuel (database w1) (EDirectory parent) user_id true = Val true ->
    exists w3,
      handle (DirectoryView_handle_delete int jwt_decode fuel) request [("directory_id", ds)] w
      = Some (mkResponse ("ok", 200) NoContent, w3)
      /\ Directory_get (database w3) directory_id = None
      /\ (forall r, In r (Directory_table (database w1)) ->
            (In r (Directory_table (database w3))
             <-> ~ exists m, descends (database w1) directory r m))
      /\ (forall g, In g (File_table (database w1)) ->
            (In g (File_table (database w3))
             <-> ~ exists y m, In y (Directory_table (database w1))
                               /\ descends (database w1) directory y m
                               /\ file_parent_directory g = dir_id y))
      /\ sub_db (database w3) (database w1).
Proof.
  destruct (cascade_subtree h directory w1 Hcovers) as (k & w3 & Hrun & Hsub & Hgone).
  exists k. intros fuel Hk Hwrite Hwrite_parent. exists w3.
  assert (Hid : dir_id directory = directory_id)
    by (apply (find_pk dir_id _ _ _ (proj2 Hdir))).
  assert (Hin : In directory (Directory_table (database w1))).
  { destruct Hdir as [_ Hget]. unfold Directory_get in Hget. apply find_some in Hget.
    exact (proj1 Hget). }
  assert (Hloop : cascade_loop fuel [directory] w1 = Return tt w3).
  { replace fuel with (k + (fuel - k))%nat by lia.
    pose proof (Hrun (fuel - k)%nat []) as Hend. cbn [app] in Hend.
    rewrite Hend. apply cascade_loop_nil. }
  assert (Hinv : only_below (database w1) directory (database w3)).
  { apply (cascade_loop_only_below (database w1) directory Hdirs Hfiles fuel [directory] w1).
    - split; [apply sub_db_refl|]. split; [intros y p _ Hp _; exact Hp|].
      split; [intros g p _ Hp _; exact Hp|]. split; intros x Hx; left; exact Hx.
    - intros y [<-|[]]. split; [exact Hin|]. exists 0%nat. apply descends_here.
    - rewrite Hloop. reflexivity. }
  pose proof (nothing_below_left (database w1) directory (database w3) Hinv Hgone) as Hnone.
  split; [|split; [|split; [|split]]].
  - unfold handle.
    rewrite (directory_delete_prefix int jwt_decode fuel request w w1 authenticated claims
               us ds user_id directory_id directory Huser Hauth Hdir Hwrite).
    rewrite (bind_Return _ _ w1 w1 (Some parent))
      by (apply lift_db_Val; unfold Directory_parent; rewrite Hpar, Hparent; reflexivity).
    rewrite (bind_Return _ _ w1 w1 tt) by (apply verify_can_access_write; exact Hwrite_parent).
    rewrite (bind_Return _ _ w1 w1 true) by (apply flag_param_Return; exact Hcascade).
    rewrite (bind_Return _ _ w1 w3 tt) by (unfold atomic; rewrite Hloop; reflexivity).
    reflexivity.
  - unfold Directory_get. apply find_absent. intros r Hr. rewrite <- Hid. apply Hgone. exact Hr.
  - intros r Hr. split.
    + intros Hleft (m & Hm). exact (Hnone r m Hm Hleft).
    + intros Hnot. destruct (proj1 (proj2 (proj2 (proj2 Hinv))) r Hr) as [Hleft|Hb];
        [exact Hleft | contradiction].
  - intros g Hg. split.
    + intros Hleft (y & m & Hy & Hm & Hp).
      apply (Hnone y m Hm). exact (proj1 (proj2 (proj2 Hinv)) g y Hleft Hy Hp).
    + intros Hnot. destruct (proj2 (proj2 (proj2 (proj2 Hinv))) g Hg) as [Hleft|Hb];
        [exact Hleft | contradiction].
  - exact Hsub.
Qed.

End CascadeDelete.

Lemma cascade_removes_subtree_only_witness :
  exists k, forall fuel, (k <= fuel)%nat ->
    can_access fuel Example.db0 (EDirectory Example.docs) 1 true = Val true ->
    can_access fuel Example.db0 (EDirectory Example.root1) 1 true = Val true ->
    exists w3,
      handle (DirectoryView_handle_delete Example.int Example.jwt_decode fuel)
             (Example.request "DELETE" "1" "alice" [("cascade", EmptyString)] [])
             [("directory_id", "2")] (Example.world Example.db0 1500)
      = Some (mkResponse ("ok", 200) NoContent, w3)
      /\ Directory_get (database w3) 2 = None
      /\ (forall r, In r (Directory_table Example.db0) ->
            (In r (Directory_table (database w3))
             <-> ~ exists m, descends Example.db0 Example.docs r m))
      /\ (forall g, In g (File_table Example.db0) ->
            (In g (File_table (database w3))
             <-> ~ exists y m, In y (Directory_table Example.db0)
                               /\ descends Example.db0 Example.docs y m
                               /\ file_parent_directory g = dir_id y))
      /\ sub_db (database w3) Example.db0.
Proof.
  apply (cascade_removes_subtree_only Example.int Example.jwt_decode
           (Example.request "DELETE" "1" "alice" [("cascade", EmptyString)] [])
           (Example.world Example.db0 1500) (Example.world Example.db0 1500)
           (mkStorageUser 1 "alice") (Example.claims_of 1 "alice") "1" "2" 1 2 1
           Example.docs Example.root1 2
           (conj eq_refl eq_refl) eq_refl (conj eq_refl eq_refl) eq_refl eq_refl eq_refl).
  - constructor. intros c Hc. simpl in Hc. destruct Hc as [<-|[]].
    constructor. intros c Hc. simpl in Hc. destruct Hc.
  - simpl. repeat (constructor; [simpl; lia|]). constructor.
  - simpl. repeat (constructor; [simpl; lia|]). constructor.
Defined.

(** ** Directories out of reach *)

Lemma keeps_lookups_same {A : Type} (m : M World A) :
  (forall w w', leaves (m w) = Some w' ->
     Directory_table (database w') = Directory_table (database w)) ->
  keeps_lookups m.
Proof.
  intros Hm w w' H j d. unfold Directory_get. rewrite (Hm w w' H). trivial.
Qed.

Lemma keeps_lookups_reads {A : Type} (m : M World A) : reads m -> keeps_lookups m.
Proof. intros Hm. apply keeps_lookups_same. intros w w' H. rewrite (Hm w w' H). reflexivity. Qed.

Lemma keeps_lookups_bind {A B : Type} (m : M World A) (k : A -> M World B) :
  keeps_lookups m -> (forall a, keeps_lookups (k a)) -> keeps_lookups (bind m k).
Proof.
  intros Hm Hk w w'. unfold bind.
  destruct (m w) as [a w1|e w1|] eqn:E.
  - intros H j d Hj. apply (Hk a w1 w' H). apply (Hm w w1); [rewrite E; reflexivity | exact Hj].
  - intros H. injection H as <-. apply Hm. rewrite E. reflexivity.
  - discriminate.
Qed.

Lemma keeps_lookups_atomic {A : Type} (m : M World A) :
  keeps_lookups m -> keeps_lookups (atomic m).
Proof.
  intros Hm w w'. unfold atomic.
  destruct (m w) as [a w1|e w1|] eqn:E.
  - intros H. injection H as <-. apply Hm. rewrite E. reflexivity.
  - intros H. injection H as <-. intros j d Hj. exact Hj.
  - discriminate.
Qed.

Lemma keeps_lookups_Directory_objects_create (name : string) (owner : Z) (parent : option Z) :
  keeps_lookups (Directory_objects_create name owner parent).
Proof.
  intros w w'. unfold Directory_objects_create, Directory_save, bind, assign_id, modify_db, ret.
  cbn [dir_id negb Z.eqb].
  destruct (fresh_id _ _) as [[id rest]|] eqn:Hf; [|discriminate].
  simpl. intros H. injection H as <-. intros j d Hj. cbn [database]. unfold Directory_get.
  cbn [with_directories Directory_table].
  destruct (fresh_id_free _ _ _ _ Hf) as [Hfree _].
  rewrite (upsert_lookup_other dir_id); [exact Hj|].
  cbn [dir_id]. intros ->.
  apply existsb_find_none in Hfree. unfold Directory_get in Hj. congruence.
Qed.

Lemma keeps_lookups_verify_authenticated
    (jwt_decode : string -> option (list (string * PyValue)))
    (request : HttpRequest) (user_id : Z) :
  keeps_lookups (_verify_authenticated jwt_decode request user_id).
Proof.
  intros w w'.
  destruct (verify_authenticated_inv jwt_decode request user_id w)
    as [H|(header & token & claims & name & iat & exp & Hh & Hb & Hd & Hc & Hnow)].
  - rewrite H. intros E. injection E as <-. trivial.
  - rewrite (verify_authenticated_provisions jwt_decode request user_id w header token claims
               name iat exp Hh Hb Hd Hc Hnow).
    destruct (StorageUser_get (database w) user_id);
      [intros E; injection E as <-; trivial|].
    destruct (fresh_id _ _) as [[id rest]|]; [|discriminate].
    intros E. injection E as <-. intros j d Hj. unfold provisioned, Directory_get.
    cbn [database with_directories Directory_table]. apply find_app_found. exact Hj.
Qed.

Lemma keeps_lookups_File_save (f : File) : keeps_lookups (File_save f).
Proof.
  apply keeps_lookups_same. intros w w'.
  unfold File_save, bind, assign_id, modify_db, ret.
  destruct (negb _).
  - simpl. intros H. injection H as <-. reflexivity.
  - destruct (fresh_id _ _) as [[id rest]|]; [|discriminate].
    simpl. intros H. injection H as <-. reflexivity.
Qed.

Lemma keeps_lookups_File_objects_create (name : string) (owner parent : Z) (data : list byte) :
  keeps_lookups (File_objects_create name owner parent data).
Proof. apply keeps_lookups_File_save. Qed.

Lemma keeps_lookups_File_delete (f : File) : keeps_lookups (File_delete f).
Proof. apply keeps_lookups_same. intros w w' H. injection H as <-. reflexivity. Qed.

Lemma keeps_lookups_Share_objects_create (issuer subject : Z) (tf td : option Z) (cw : bool) :
  keeps_lookups (Share_objects_create issuer subject tf td cw).
Proof.
  apply keeps_lookups_same. intros w w'.
  unfold Share_objects_create, Share_save, bind, assign_id, modify_db, ret.
  destruct (negb _).
  - simpl. intros H. injection H as <-. reflexivity.
  - destruct (fresh_id _ _) as [[id rest]|]; [|discriminate].
    simpl. intros H. injection H as <-. reflexivity.
Qed.

Lemma keeps_lookups_Share_delete (s : Share) : keeps_lookups (Share_delete s).
Proof. apply keeps_lookups_same. intros w w' H. injection H as <-. reflexivity. Qed.

Lemma keeps_lookups_contacts_add (user contact : StorageUser) :
  keeps_lookups (contacts_add user contact).
Proof.
  apply keeps_lookups_same. intros w w' H. injection H as <-. cbn [database].
  destruct (existsb _ _); reflexivity.
Qed.

Lemma keeps_lookups_contacts_remove (user : StorageUser) (contact_id : Z) :
  keeps_lookups (contacts_remove user contact_id).
Proof. apply keeps_lookups_same. intros w w' H. injection H as <-. reflexivity. Qed.

Lemma keeps_lookups_StorageUser_save (user : StorageUser) : keeps_lookups (StorageUser_save user).
Proof. apply keeps_lookups_same. intros w w' H. injection H as <-. reflexivity. Qed.

Create HintDb lookups.

#[local] Hint Resolve keeps_lookups_verify_authenticated keeps_lookups_Directory_objects_create
  keeps_lookups_File_save keeps_lookups_File_objects_create keeps_lookups_File_delete
  keeps_lookups_Share_objects_create keeps_lookups_Share_delete keeps_lookups_contacts_add
  keeps_lookups_contacts_remove keeps_lookups_StorageUser_save : lookups.

Ltac lookups_auto :=
  repeat first
    [ solve [auto with lookups]
    | solve [apply keeps_lookups_reads; reads_auto]
    | apply keeps_lookups_bind; [|intros ?]
    | apply keeps_lookups_atomic
    | match goal with
      | |- keeps_lookups (match ?x with _ => _ end) => destruct x
      end
    | progress cbv zeta ].

Section HandlersKeepLookups.

Variable int : string -> option Z.
Variable jwt_decode : string -> option (list (string * PyValue)).
Variable fuel : nat.
Variables (request : HttpRequest) (kwargs : list (string * string)).

Lemma UserInfoView_get_keeps_lookups :
  keeps_lookups (UserInfoView_handle_get int jwt_decode fuel request kwargs).
Proof. unfold UserInfoView_handle_get. lookups_auto. Qed.

Lemma FileView_get_keeps_lookups :
  keeps_lookups (FileView_handle_get int jwt_decode fuel request kwargs).
Proof. unfold FileView_handle_get. lookups_auto. Qed.

Lemma FileView_post_keeps_lookups :
  keeps_lookups (FileView_handle_post int jwt_decode fuel request kwargs).
Proof. unfold FileView_handle_post. lookups_auto. Qed.

Lemma FileView_put_keeps_lookups :
  keeps_lookups (FileView_handle_put int jwt_decode fuel request kwargs).
Proof. unfold FileView_handle_put. lookups_auto. Qed.

Lemma FileView_delete_keeps_lookups :
  keeps_lookups (FileView_handle_delete int jwt_decode fuel request kwargs).
Proof. unfold FileView_handle_delete. lookups_auto. Qed.

Lemma DirectoryView_get_keeps_lookups :
  keeps_lookups (DirectoryView_handle_get int jwt_decode fuel request kwargs).
Proof. unfold DirectoryView_handle_get. lookups_auto. Qed.

Lemma DirectoryView_post_keeps_lookups :
  keeps_lookups (DirectoryView_handle_post int jwt_decode fuel request kwargs).
Proof. unfold DirectoryView_handle_post. lookups_auto. Qed.

Lemma ShareView_get_keeps_lookups :
  keeps_lookups (ShareView_handle_get int jwt_decode fuel request kwargs).
Proof. unfold ShareView_handle_get. lookups_auto. Qed.

Lemma ShareView_post_keeps_lookups :
  keeps_lookups (ShareView_handle_post int jwt_decode fuel request kwargs).
Proof. unfold ShareView_handle_post. lookups_auto. Qed.

Lemma ShareView_delete_keeps_lookups :
  keeps_lookups (ShareView_handle_delete int jwt_decode fuel request kwargs).
Proof. unfold ShareView_handle_delete. lookups_auto. Qed.

Lemma ContactView_get_keeps_lookups :
  keeps_lookups (ContactView_handle_get int jwt_decode request kwargs).
Proof. unfold ContactView_handle_get. lookups_auto. Qed.

Lemma ContactView_post_keeps_lookups :
  keeps_lookups (ContactView_handle_post int jwt_decode request kwargs).
Proof. unfold ContactView_handle_post. lookups_auto. Qed.

Lemma ContactView_delete_keeps_lookups :
  keeps_lookups (ContactView_handle_delete int jwt_decode request kwargs).
Proof. unfold ContactView_handle_delete. lookups_auto. Qed.

End HandlersKeepLookups.

Section DirectoryOutOfReach.

Variable int : string -> option Z.
Variable jwt_decode : string -> option (list (string * PyValue)).
Variable fuel : nat.
Variables (request : HttpRequest) (kwargs : list (string * string)) (w : World).
Variables (us : string) (user_id j : Z) (d : Directory).

Hypothesis Hparam : dict_get "user" (GET request) = Some us.
Hypothesis Hint : int us = Some user_id.
Hypothesis Hknown : StorageUser_get (database w) user_id <> None.
Hypothesis Hdirs : NoDup (map dir_id (Directory_table (database w))).
Hypothesis Hdir : Directory_get (database w) j = Some d.
Hypothesis Hdenied : can_access fuel (database w) (EDirectory d) user_id true = Val false.

Local Abbreviation there := (fun db : DB => Directory_get db j = Some d).
Local Abbreviation kept := (keeps (fun db : DB => Directory_get db j = Some d)).
Local Abbreviation kept_sub := (keeps (directory_kept (database w) j d)).
Local Abbreviation good := (not_refused fuel (database w) user_id).

Lemma keeps_keeps_lookups {A : Type} (m : M World A) (v : World) :
  keeps_lookups m -> there (database v) -> kept m v.
Proof. intros Hm Hthere w' H. exact (Hm v w' H j d Hthere). Qed.

Lemma good_is_other (x : Directory) : good x -> dir_id x <> j.
Proof.
  intros [Hin Hx] E. rewrite <- E in Hdir.
  rewrite (lookup_row (database w) Hdirs x d Hin Hdir) in Hdenied.
  exact (Hx Hdenied).
Qed.

Lemma writable_directory_is_other (x : Directory) (a : unit) (v : World) :
  Directory_get (database w) (dir_id x) = Some x ->
  _verify_can_access fuel user_id (Some (EDirectory x)) true w = Return a v ->
  dir_id x <> j.
Proof.
  intros Hx Hacc E. apply verify_can_access_Return_inv in Hacc.
  rewrite E in Hx. assert (x = d) by congruence. subst x. congruence.
Qed.

Lemma Directory_save_keeps_there (x : Directory) (v : World) :
  there (database v) -> dir_id x <> j -> kept (Directory_save x) v.
Proof.
  intros Hthere Hne w'. unfold Directory_save, bind, assign_id, modify_db, ret.
  destruct (Z.eqb_spec (dir_id x) 0) as [Hz|Hnz]; cbn [negb].
  - destruct (fresh_id _ _) as [[id rest]|] eqn:Hf; [|discriminate].
    simpl. intros H. injection H as <-. cbn [database]. unfold Directory_get.
    cbn [with_directories Directory_table].
    destruct (fresh_id_free _ _ _ _ Hf) as [Hfree _].
    rewrite (upsert_lookup_other dir_id); [exact Hthere|].
    cbn [dir_id]. intros ->.
    apply existsb_find_none in Hfree. unfold Directory_get in Hthere. congruence.
  - simpl. intros H. injection H as <-. cbn [database]. unfold Directory_get.
    cbn [with_directories Directory_table].
    rewrite (upsert_lookup_other dir_id); [exact Hthere|].
    cbn [dir_id]. congruence.
Qed.

Lemma Directory_delete_keeps_there (x : Directory) (v : World) :
  there (database v) -> dir_id x <> j -> kept (Directory_delete x) v.
Proof.
  intros Hthere Hne w'. unfold Directory_delete.
  destruct (_ || _); intros H; injection H as <-; [exact Hthere|].
  cbn [database]. unfold Directory_get. cbn [Directory_table].
  rewrite (find_filter_other dir_id) by congruence. exact Hthere.
Qed.

Lemma File_delete_keeps_directory (g : File) (v : World) :
  directory_kept (database w) j d (database v) -> kept_sub (File_delete g) v.
Proof. intros Hk w' H. injection H as <-. exact Hk. Qed.

Lemma delete_files_keeps_directory (files : list File) (v : World) :
  directory_kept (database w) j d (database v) -> kept_sub (delete_files files) v.
Proof.
  revert v. induction files as [|g rest IH]; intros v Hk; simpl.
  - apply keeps_reads; [apply reads_ret | exact Hk].
  - apply keeps_bind; [apply File_delete_keeps_directory; exact Hk|].
    intros _ w1 _ Hk1. apply IH. exact Hk1.
Qed.

Lemma Directory_delete_keeps_directory (x : Directory) (v : World) :
  directory_kept (database w) j d (database v) -> good x -> kept_sub (Directory_delete x) v.
Proof.
  intros [Hthere Hsub] Hx w' H.
  split.
  - exact (Directory_delete_keeps_there x v Hthere (good_is_other x Hx) w' H).
  - revert H. unfold Directory_delete.
    destruct (_ || _); intros H; injection H as <-; [exact Hsub|].
    cbn [database Directory_table]. intros y Hy. apply filter_In in Hy. apply Hsub.
    exact (proj1 Hy).
Qed.

Lemma cascade_loop_keeps_directory (n : nat) :
  forall (l : list Directory) (v : World),
    directory_kept (database w) j d (database v) -> (forall x, In x l -> good x) ->
    kept_sub (cascade_loop n l) v.
Proof.
  induction n as [|n IH]; intros l v Hk Hgood; simpl.
  - destruct (pop l) as [[x l']|]; [intros w'; discriminate|].
    apply keeps_reads; [apply reads_ret | exact Hk].
  - destruct (pop l) as [[x l']|] eqn:Hpop; [|apply keeps_reads; [apply reads_ret | exact Hk]].
    apply pop_last in Hpop. subst l.
    assert (Hx : good x) by (apply Hgood; apply in_or_app; right; left; reflexivity).
    assert (Hl' : forall y, In y l' -> good y)
      by (intros y Hy; apply Hgood; apply in_or_app; left; exact Hy).
    apply keeps_bind_reads; [apply reads_get_db | exact Hk|].
    intros db Hdb. injection Hdb as <-.
    destruct (List.length (Directory_directory_set (database v) x) =? 0)%nat.
    + apply keeps_bind; [apply delete_files_keeps_directory; exact Hk|].
      intros _ w1 _ Hk1.
      apply keeps_bind; [apply Directory_delete_keeps_directory; assumption|].
      intros _ w2 _ Hk2. apply IH; assumption.
    + apply IH; [exact Hk|].
      intros y Hy. apply in_app_or in Hy. destruct Hy as [Hy|Hy]; [apply Hl'; exact Hy|].
      cbn [app] in Hy. destruct Hy as [<-|Hy]; [exact Hx|].
      unfold Directory_directory_set in Hy. apply filter_In in Hy. destruct Hy as [Hin Hp].
      apply (child_of_good_directory fuel (database w) user_id Hdirs x y Hx).
      * apply (proj2 Hk). exact Hin.
      * destruct (dir_parent y) as [pid|]; [|discriminate]. cbn [opt_is] in Hp.
        apply Z.eqb_eq in Hp. congruence.
Qed.

Ltac there_reads :=
  apply keeps_bind_reads; [solve [reads_auto] | assumption | intros ? ?].

Ltac there_rest := solve [apply keeps_reads; [reads_auto | assumption]].

Lemma DirectoryView_put_keeps_directory :
  kept (DirectoryView_handle_put int jwt_decode fuel request kwargs) w.
Proof.
  unfold DirectoryView_handle_put.
  there_reads.
  apply keeps_bind_reads; [solve [reads_auto] | assumption | intros uid Huid].
  rewrite (get_query_param_Return_inv _ _ _ _ _ _ _ _ Hparam Hint Huid) in *.
  apply keeps_bind;
    [apply keeps_keeps_lookups; [solve [lookups_auto] | assumption] | intros a1 w1 Hauth _].
  rewrite (verify_authenticated_known_user _ _ _ _ _ _ Hknown Hauth) in *.
  apply keeps_bind_reads; [solve [reads_auto] | assumption | intros directory_name _].
  apply keeps_bind_reads; [solve [reads_auto] | assumption | intros parent_directory_id _].
  there_reads.
  apply keeps_bind_reads; [solve [reads_auto] | assumption | intros directory Hget].
  destruct (Directory_objects_get_inv _ _ _ _ Hget) as (Hrow & Hid & _).
  apply keeps_bind_reads; [solve [reads_auto] | assumption | intros u1 Hacc].
  assert (Hother : dir_id directory <> j).
  { apply (writable_directory_is_other directory u1 w); [rewrite Hid; exact Hrow | exact Hacc]. }
  apply keeps_bind; [|intros; there_rest].
  apply keeps_atomic; [assumption|].
  apply keeps_bind_reads; [reads_auto | assumption | intros d1 Hd1].
  assert (Hid1 : dir_id d1 = dir_id directory).
  { destruct (is_some directory_name || is_some parent_directory_id).
    - bind_inv Hd1 as current_dir Hcur.
      bind_inv Hd1 as u2 Hacc2.
      bind_inv Hd1 as moved Hmv.
      assert (Hmoved : dir_id (snd moved) = dir_id directory).
      { destruct parent_directory_id as [pid|].
        - bind_inv Hmv as target_dir Htgt.
          bind_inv Hmv as u3 Hacc3.
          bind_inv Hmv as u4 Hmovable.
          bind_inv Hmv as u5 Hsame.
          injection Hmv as <-. cbn [snd].
          match goal with |- context [if ?c then _ else _] => destruct c end; reflexivity.
        - injection Hmv as <-. reflexivity. }
      cbv zeta in Hd1. bind_inv Hd1 as u6 Huniq. injection Hd1 as <-.
      destruct directory_name; cbn [set_dir_name dir_id]; exact Hmoved.
    - injection Hd1 as <-. reflexivity. }
  apply Directory_save_keeps_there; [assumption | congruence].
Qed.

Lemma DirectoryView_delete_keeps_directory :
  kept (DirectoryView_handle_delete int jwt_decode fuel request kwargs) w.
Proof.
  unfold DirectoryView_handle_delete.
  there_reads.
  apply keeps_bind_reads; [solve [reads_auto] | assumption | intros uid Huid].
  rewrite (get_query_param_Return_inv _ _ _ _ _ _ _ _ Hparam Hint Huid) in *.
  apply keeps_bind;
    [apply keeps_keeps_lookups; [solve [lookups_auto] | assumption] | intros a1 w1 Hauth _].
  rewrite (verify_authenticated_known_user _ _ _ _ _ _ Hknown Hauth) in *.
  there_reads.
  apply keeps_bind_reads; [solve [reads_auto] | assumption | intros directory Hget].
  destruct (Directory_objects_get_inv _ _ _ _ Hget) as (Hrow & Hid & _).
  apply keeps_bind_reads; [solve [reads_auto] | assumption | intros u1 Hacc].
  assert (Hother : dir_id directory <> j).
  { apply (writable_directory_is_other directory u1 w); [rewrite Hid; exact Hrow | exact Hacc]. }
  apply verify_can_access_Return_inv in Hacc. cbn [can_access] in Hacc.
  apply keeps_bind_reads; [solve [reads_auto] | assumption | intros parent _].
  destruct parent as [parent|]; [|there_rest].
  there_reads.
  apply keeps_bind_reads; [solve [reads_auto] | assumption | intros cascade _].
  apply keeps_bind; [|intros; there_rest].
  destruct cascade.
  - apply keeps_atomic; [assumption|].
    assert (Hloop : kept_sub (cascade_loop fuel [directory]) w).
    { apply cascade_loop_keeps_directory.
      - split; [exact Hdir | intros x Hx; exact Hx].
      - intros x [<-|[]]. split.
        + unfold Directory_get in Hrow. apply find_some in Hrow. exact (proj1 Hrow).
        + rewrite Hacc. discriminate. }
    intros w' Hw'. exact (proj1 (Hloop w' Hw')).
  - there_reads. apply Directory_delete_keeps_there; assumption.
Qed.

End DirectoryOutOfReach.

(** X25.  A caller cannot alter a directory it may not write.  Take a
    known user and a directory to which [can_access] refuses that user
    write access, in a database whose directories have distinct ids.
    Whatever request that user sends to whatever view, the directory is
    afterwards found under its id exactly as before: it has not been
    renamed, moved or deleted, neither directly nor by a cascading deletion
    further up or down the tree. *)
Theorem denied_caller_cannot_alter_directory
    (int : string -> option Z) (jwt_decode : string -> option (list (string * PyValue)))
    (fuel : nat) (request : HttpRequest) (kwargs : list (string * string)) (w w2 : World)
    (view : View) (r : Response) (us : string) (user_id j : Z) (d : Directory) :
  In view [UserInfoView int jwt_decode fuel; FileView int jwt_decode fuel;
           DirectoryView int jwt_decode fuel; ShareView int jwt_decode fuel;
           ContactView int jwt_decode] ->
  dict_get "user" (GET request) = Some us -> int us = Some user_id ->
  StorageUser_get (database w) user_id <> None ->
  NoDup (map dir_id (Directory_table (database w))) ->
  Directory_get (database w) j = Some d ->
  can_access fuel (database w) (EDirectory d) user_id true = Val false ->
  View_handle view request kwargs w = Some (r, w2) ->
  Directory_get (database w2) j = Some d.
Proof.
  intros Hview Hparam Hint Hknown Hdirs Hdir Hdenied.
  unfold View_handle, method_by_verb.
  assert (Hlook : forall m : M World Response,
            keeps_lookups m -> keeps (fun db : DB => Directory_get db j = Some d) m w).
  { intros m Hm. apply keeps_keeps_lookups; assumption. }
  simpl in Hview.
  destruct Hview as [<-|[<-|[<-|[<-|[<-|[]]]]]];
    repeat (match goal with
            | |- context [String.eqb (method request) ?v] =>
                destruct (String.eqb (method request) v)
            end; cbv iota);
    apply (keeps_handle (fun db : DB => Directory_get db j = Some d));
    cbn [_handle_get _handle_post _handle_put _handle_delete UserInfoView FileView
         DirectoryView ShareView ContactView AbstractView];
    match goal with
    | |- keeps _ (_handle_unsupported_method _ _) _ =>
        apply Hlook; apply keeps_lookups_reads; unfold _handle_unsupported_method;
        destruct kwargs; apply reads_raise
    | |- keeps _ (unsupported _ _ _) _ =>
        apply Hlook; apply keeps_lookups_reads; apply reads_raise
    | |- keeps _ (UserInfoView_handle_get _ _ _ _ _) _ =>
        apply Hlook; apply UserInfoView_get_keeps_lookups
    | |- keeps _ (FileView_handle_get _ _ _ _ _) _ =>
        apply Hlook; apply FileView_get_keeps_lookups
    | |- keeps _ (FileView_handle_post _ _ _ _ _) _ =>
        apply Hlook; apply FileView_post_keeps_lookups
    | |- keeps _ (FileView_handle_put _ _ _ _ _) _ =>
        apply Hlook; apply FileView_put_keeps_lookups
    | |- keeps _ (FileView_handle_delete _ _ _ _ _) _ =>
        apply Hlook; apply FileView_delete_keeps_lookups
    | |- keeps _ (DirectoryView_handle_get _ _ _ _ _) _ =>
        apply Hlook; apply DirectoryView_get_keeps_lookups
    | |- keeps _ (DirectoryView_handle_post _ _ _ _ _) _ =>
        apply Hlook; apply DirectoryView_post_keeps_lookups
    | |- keeps _ (DirectoryView_handle_put _ _ _ _ _) _ =>
        apply (DirectoryView_put_keeps_directory int jwt_decode fuel request kwargs w us
                 user_id j d);
        assumption
    | |- keeps _ (DirectoryView_handle_delete _ _ _ _ _) _ =>
        apply (DirectoryView_delete_keeps_directory int jwt_decode fuel request kwargs w us
                 user_id j d);
        assumption
    | |- keeps _ (ShareView_handle_get _ _ _ _ _) _ =>
        apply Hlook; apply ShareView_get_keeps_lookups
    | |- keeps _ (ShareView_handle_post _ _ _ _ _) _ =>
        apply Hlook; apply ShareView_post_keeps_lookups
    | |- keeps _ (ShareView_handle_delete _ _ _ _ _) _ =>
        apply Hlook; apply ShareView_delete_keeps_lookups
    | |- keeps _ (ContactView_handle_get _ _ _ _) _ =>
        apply Hlook; apply ContactView_get_keeps_lookups
    | |- keeps _ (ContactView_handle_post _ _ _ _) _ =>
        apply Hlook; apply ContactView_post_keeps_lookups
    | |- keeps _ (ContactView_handle_delete _ _ _ _) _ =>
        apply Hlook; apply ContactView_delete_keeps_lookups
    end.
Qed.

Lemma denied_caller_cannot_alter_directory_witness :
  Directory_get Example.db0 1 = Some Example.root1.
Proof.
  apply (denied_caller_cannot_alter_directory Example.int Example.jwt_decode 5
           (Example.request "PUT" "2" "bob" [("name", "mine")] [])
           [("directory_id", "1")] (Example.world Example.db0 1500)
           (Example.world Example.db0 1500)
           (DirectoryView Example.int Example.jwt_decode 5)
           (mkResponse ("not_found", 404) NoContent) "2" 2 1 Example.root1).
  - right. right. left. reflexivity.
  - reflexivity.
  - reflexivity.
  - discriminate.
  - simpl. repeat (constructor; [simpl; lia|]). constructor.
  - reflexivity.
  - reflexivity.
  - reflexivity.
Defined.

(** ** Requests keep the tree well formed *)

Lemma NoDup_app_inv {A : Type} (l1 l2 : list A) :
  NoDup (l1 ++ l2) -> NoDup l1 /\ NoDup l2 /\ (forall a, In a l1 -> ~ In a l2).
Proof.
  intros H. split; [exact (NoDup_app_remove_r _ _ H)|].
  split; [exact (NoDup_app_remove_l _ _ H)|].
  induction l1 as [|x l1 IH]; simpl in *; [contradiction|].
  inversion H as [|y l Hnotin Hnd]. subst.
  intros a [<-|Ha] Hin.
  - apply Hnotin. apply in_or_app. right. exact Hin.
  - exact (IH Hnd a Ha Hin).
Qed.

Lemma NoDup_map_inj {R B : Type} (f : R -> B) (l : list R) (a b : R) :
  NoDup (map f l) -> NoDup l -> In a l -> In b l -> f a = f b -> a = b.
Proof.
  induction l as [|r l IH]; simpl; [contradiction|].
  intros Hnd Hl Ha Hb E. inversion Hnd as [|x t Hnotin Hnd']. inversion Hl as [|x' t' _ Hl']. subst.
  destruct Ha as [Ha|Ha], Hb as [Hb|Hb].
  - congruence.
  - subst a. exfalso. apply Hnotin. rewrite E. apply in_map. exact Hb.
  - subst b. exfalso. apply Hnotin. rewrite <- E. apply in_map. exact Ha.
  - apply IH; assumption.
Qed.

Lemma NoDup_of_pk {R : Type} (pk : R -> Z) (l : list R) : NoDup (map pk l) -> NoDup l.
Proof. apply NoDup_map_inv. Qed.

Lemma upsert_In {R : Type} (pk : R -> Z) (row : R) (l : list R) (y : R) :
  In y (upsert pk row l) -> y = row \/ (In y l /\ pk y <> pk row).
Proof.
  unfold upsert. destruct (existsb _ l) eqn:E.
  - intros H. apply in_map_iff in H. destruct H as (x & Hx & Hin).
    destruct (Z.eqb_spec (pk x) (pk row)); [left; congruence|].
    right. subst y. split; assumption.
  - intros H. apply in_app_or in H. destruct H as [H|[<-|[]]]; [|left; reflexivity].
    right. split; [exact H|].
    intros Heq. apply (existsb_false_forall _ _ y E) in H. apply Z.eqb_neq in H. contradiction.
Qed.

Lemma upsert_NoDup {R : Type} (pk : R -> Z) (row : R) (l : list R) :
  NoDup (map pk l) -> NoDup (map pk (upsert pk row l)).
Proof.
  intros Hnd. unfold upsert. destruct (existsb _ l) eqn:E.
  - rewrite map_map.
    replace (map (fun x => pk (if pk x =? pk row then row else x)) l) with (map pk l);
      [exact Hnd|].
    apply map_ext. intros x. destruct (Z.eqb_spec (pk x) (pk row)); congruence.
  - rewrite map_app. apply NoDup_app; [exact Hnd | constructor; [intros [] | constructor]|].
    intros a Ha [<-|[]]. apply in_map_iff in Ha. destruct Ha as (x & Hx & Hin).
    apply (existsb_false_forall _ _ x E) in Hin. apply Z.eqb_neq in Hin. contradiction.
Qed.

Section NamesOfATable.

Context {R B : Type} (pk : R -> Z) (nm : R -> B) (p : R -> bool).

Lemma names_filter_In (q : R -> bool) (l : list R) (a : B) :
  In a (map nm (filter p (filter q l))) -> In a (map nm (filter p l)).
Proof.
  intros H. apply in_map_iff in H. destruct H as (x & Hx & Hin).
  apply filter_In in Hin. destruct Hin as [Hin Hp]. apply filter_In in Hin.
  apply in_map_iff. exists x. split; [exact Hx|]. apply filter_In. split; [exact (proj1 Hin) | exact Hp].
Qed.

Lemma names_filter_NoDup (q : R -> bool) (l : list R) :
  NoDup (map nm (filter p l)) -> NoDup (map nm (filter p (filter q l))).
Proof.
  induction l as [|x l IH]; simpl; [trivial|].
  destruct (q x), (p x) eqn:Hp; simpl; rewrite ?Hp; simpl; intros H.
  - inversion H as [|y t Hnotin Hnd]. subst. constructor; [|exact (IH Hnd)].
    intros Hin. apply Hnotin. exact (names_filter_In q l _ Hin).
  - exact (IH H).
  - inversion H as [|y t Hnotin Hnd]. exact (IH Hnd).
  - exact (IH H).
Qed.

Lemma names_upsert_In (row : R) (l : list R) (a : B) :
  In a (map nm (filter p (upsert pk row l))) ->
  (p row = true /\ a = nm row) \/ In a (map nm (filter p l)).
Proof.
  intros H. apply in_map_iff in H. destruct H as (x & Hx & Hin).
  apply filter_In in Hin. destruct Hin as [Hin Hp].
  apply upsert_In in Hin. destruct Hin as [->|[Hin _]].
  - left. split; [exact Hp | congruence].
  - right. apply in_map_iff. exists x. split; [exact Hx|]. apply filter_In. split; assumption.
Qed.

Lemma names_upsert_NoDup (row : R) (l : list R) :
  NoDup (map pk l) ->
  NoDup (map nm (filter p l)) ->
  (p row = true ->
   forall y, In y l -> pk y <> pk row -> p y = true -> nm y <> nm row) ->
  NoDup (map nm (filter p (upsert pk row l))).
Proof.
  intros Hpk Hnd Hfree. unfold upsert. destruct (existsb _ l) eqn:E.
  - clear E. induction l as [|x l IH]; simpl; [constructor|].
    inversion Hpk as [|k t Hnotin Hpk']. subst.
    assert (Hnd' : NoDup (map nm (filter p l))).
    { simpl in Hnd. destruct (p x); [inversion Hnd; assumption | exact Hnd]. }
    assert (Hfree' : p row = true ->
              forall y, In y l -> pk y <> pk row -> p y = true -> nm y <> nm row).
    { intros Hp y Hy. apply Hfree; [exact Hp | right; exact Hy]. }
    specialize (IH Hpk' Hnd' Hfree').
    destruct (Z.eqb_spec (pk x) (pk row)) as [Heq|Hne].
    + destruct (p row) eqn:Hp; [|exact IH].
      simpl. constructor; [|exact IH].
      intros Hin. apply in_map_iff in Hin. destruct Hin as (y & Hy & Hin).
      apply filter_In in Hin. destruct Hin as [Hin Hpy].
      apply in_map_iff in Hin. destruct Hin as (z & Hz & Hin).
      destruct (Z.eqb_spec (pk z) (pk row)) as [Hzeq|Hzne].
      * apply Hnotin. rewrite Heq, <- Hzeq. apply in_map. exact Hin.
      * subst y. exact (Hfree' eq_refl z Hin Hzne Hpy Hy).
    + destruct (p x) eqn:Hpx; [|exact IH].
      simpl. constructor; [|exact IH].
      intros Hin. apply in_map_iff in Hin. destruct Hin as (y & Hy & Hin).
      apply filter_In in Hin. destruct Hin as [Hin Hpy].
      apply in_map_iff in Hin. destruct Hin as (z & Hz & Hin).
      destruct (Z.eqb_spec (pk z) (pk row)) as [Hzeq|Hzne].
      * subst y. apply (Hfree Hpy x (or_introl eq_refl) Hne Hpx). congruence.
      * subst y. simpl in Hnd. rewrite Hpx in Hnd. simpl in Hnd.
        inversion Hnd as [|k t Hx _]. apply Hx. rewrite <- Hy.
        apply in_map. apply filter_In. split; assumption.
  - rewrite filter_app, map_app. simpl. destruct (p row) eqn:Hp; simpl.
    + apply NoDup_app; [exact Hnd | constructor; [intros [] | constructor]|].
      intros a Ha [<-|[]]. apply in_map_iff in Ha. destruct Ha as (y & Hy & Hin).
      apply filter_In in Hin. destruct Hin as [Hin Hpy].
      refine (Hfree eq_refl y Hin _ Hpy Hy).
      apply (existsb_false_forall _ _ y E) in Hin. apply Z.eqb_neq in Hin. exact Hin.
    + rewrite app_nil_r. exact Hnd.
Qed.

End NamesOfATable.

Lemma names_unique_split (db : DB) :
  names_unique db <->
  forall pid,
    NoDup (map file_name (filter (fun f => file_parent_directory f =? pid) (File_table db)))
    /\ NoDup (map dir_name (filter (fun d => opt_is (dir_parent d) pid) (Directory_table db)))
    /\ (forall f d, In f (File_table db) -> In d (Directory_table db) ->
          file_parent_directory f = pid -> dir_parent d = Some pid ->
          file_name f <> dir_name d).
Proof.
  unfold names_unique, entry_names. split; intros H pid.
  - destruct (NoDup_app_inv _ _ (H pid)) as (Hf & Hd & Hfd).
    split; [exact Hf|]. split; [exact Hd|].
    intros f d Hin Hind Hp Hpd E. apply (Hfd (file_name f)).
    + apply in_map. apply filter_In. split; [exact Hin | apply Z.eqb_eq; exact Hp].
    + rewrite E. apply in_map. apply filter_In. split; [exact Hind|].
      rewrite Hpd. apply Z.eqb_refl.
  - destruct (H pid) as (Hf & Hd & Hfd). apply NoDup_app; [exact Hf | exact Hd|].
    intros a Ha Hb. apply in_map_iff in Ha, Hb.
    destruct Ha as (f & Hfa & Hin). destruct Hb as (d & Hda & Hind).
    apply filter_In in Hin, Hind. destruct Hin as [Hin Hp], Hind as [Hind Hpd].
    apply (Hfd f d Hin Hind); [apply Z.eqb_eq; exact Hp | | congruence].
    destruct (dir_parent d) as [x|]; [|discriminate]. cbn [opt_is] in Hpd.
    apply Z.eqb_eq in Hpd. congruence.
Qed.

Lemma well_formed_same_tree (db db' : DB) :
  File_table db' = File_table db -> Directory_table db' = Directory_table db ->
  well_formed db -> well_formed db'.
Proof.
  unfold well_formed, names_unique, entry_names. intros -> ->. trivial.
Qed.

Lemma well_formed_save_file (db : DB) (f : File) :
  well_formed db -> file_id f <> 0 -> file_fits db f ->
  well_formed (with_files db (upsert file_id f (File_table db))).
Proof.
  intros (Hfid & Hdid & Hfz & Hdz & Hnames) Hz [Hff Hfd].
  unfold well_formed. cbn [with_files File_table Directory_table].
  split; [apply upsert_NoDup; exact Hfid|]. split; [exact Hdid|].
  split; [intros y Hy; apply upsert_In in Hy; destruct Hy as [->|[Hy _]]; [exact Hz | exact (Hfz y Hy)]|].
  split; [exact Hdz|].
  apply names_unique_split. cbn [with_files File_table Directory_table].
  intros pid. destruct (proj1 (names_unique_split db) Hnames pid) as (Hf & Hd & Hcross).
  split; [|split; [exact Hd|]].
  - apply names_upsert_NoDup; [exact Hfid | exact Hf|].
    intros Hp y Hy Hne Hpy. apply Z.eqb_eq in Hp, Hpy. apply Hff; [exact Hy | exact Hne | congruence].
  - intros y d Hy Hd' Hp Hpd. apply upsert_In in Hy. destruct Hy as [->|[Hy _]].
    + intros E. apply (Hfd d Hd'); congruence.
    + exact (Hcross y d Hy Hd' Hp Hpd).
Qed.

Lemma well_formed_save_directory (db : DB) (d : Directory) :
  well_formed db -> dir_id d <> 0 -> directory_fits db d ->
  well_formed (with_directories db (upsert dir_id d (Directory_table db))).
Proof.
  intros (Hfid & Hdid & Hfz & Hdz & Hnames) Hz Hfits.
  unfold well_formed. cbn [with_directories File_table Directory_table].
  split; [exact Hfid|]. split; [apply upsert_NoDup; exact Hdid|].
  split; [exact Hfz|].
  split; [intros y Hy; apply upsert_In in Hy; destruct Hy as [->|[Hy _]]; [exact Hz | exact (Hdz y Hy)]|].
  apply names_unique_split. cbn [with_directories File_table Directory_table].
  intros pid. destruct (proj1 (names_unique_split db) Hnames pid) as (Hf & Hd & Hcross).
  split; [exact Hf|]. split.
  - apply names_upsert_NoDup; [exact Hdid | exact Hd|].
    intros Hp y Hy Hne Hpy.
    destruct (dir_parent d) as [x|] eqn:Hpar; [|discriminate]. cbn [opt_is] in Hp.
    apply Z.eqb_eq in Hp. subst x.
    destruct (dir_parent y) as [x|] eqn:Hpary; [|discriminate]. cbn [opt_is] in Hpy.
    apply Z.eqb_eq in Hpy. subst x.
    exact (proj2 (Hfits pid Hpar) y Hy Hne Hpary).
  - intros f y Hf' Hy Hp Hpd. apply upsert_In in Hy. destruct Hy as [->|[Hy _]].
    + exact (proj1 (Hfits pid Hpd) f Hf' Hp).
    + exact (Hcross f y Hf' Hy Hp Hpd).
Qed.

Lemma well_formed_filter (db : DB) (qd : Directory -> bool) (qf : File -> bool)
    (users : list StorageUser) (contacts : list (Z * Z)) (shares : list Share) :
  well_formed db ->
  well_formed (mkDB users contacts (filter qd (Directory_table db)) (filter qf (File_table db))
                    shares).
Proof.
  intros (Hfid & Hdid & Hfz & Hdz & Hnames).
  unfold well_formed. cbn [File_table Directory_table].
  assert (Hpk : forall (R : Type) (pk : R -> Z) (q : R -> bool) (l : list R),
            NoDup (map pk l) -> NoDup (map pk (filter q l))).
  { intros R pk q l H. rewrite <- (filter_true (filter q l)).
    apply names_filter_NoDup. rewrite filter_true. exact H. }
  split; [apply Hpk; exact Hfid|]. split; [apply Hpk; exact Hdid|].
  split; [intros y Hy; apply filter_In in Hy; exact (Hfz y (proj1 Hy))|].
  split; [intros y Hy; apply filter_In in Hy; exact (Hdz y (proj1 Hy))|].
  apply names_unique_split. cbn [File_table Directory_table].
  intros pid. destruct (proj1 (names_unique_split db) Hnames pid) as (Hf & Hd & Hcross).
  split; [apply names_filter_NoDup; exact Hf|].
  split; [apply names_filter_NoDup; exact Hd|].
  intros f d Hf' Hd'. apply filter_In in Hf', Hd'.
  exact (Hcross f d (proj1 Hf') (proj1 Hd')).
Qed.

Section Preserves.

Variable Inv : DB -> Prop.

Lemma preserves_reads {A : Type} (m : M World A) : reads m -> preserves Inv m.
Proof. intros Hm w w' H. rewrite (Hm w w' H). trivial. Qed.

Lemma preserves_bind {A B : Type} (m : M World A) (k : A -> M World B) :
  preserves Inv m -> (forall a, preserves Inv (k a)) -> preserves Inv (bind m k).
Proof.
  intros Hm Hk w w'. unfold bind.
  destruct (m w) as [a w1|e w1|] eqn:E.
  - intros H Hinv. apply (Hk a w1 w' H). apply (Hm w w1); [rewrite E; reflexivity | exact Hinv].
  - intros H. injection H as <-. apply Hm. rewrite E. reflexivity.
  - discriminate.
Qed.

Lemma preserves_atomic {A : Type} (m : M World A) : preserves Inv m -> preserves Inv (atomic m).
Proof.
  intros Hm w w'. unfold atomic.
  destruct (m w) as [a w1|e w1|] eqn:E.
  - intros H. injection H as <-. apply Hm. rewrite E. reflexivity.
  - intros H. injection H as <-. trivial.
  - discriminate.
Qed.

Lemma preserves_keeps {A : Type} (m : M World A) (w : World) :
  preserves Inv m -> Inv (database w) -> keeps Inv m w.
Proof. intros Hm Hinv w' H. exact (Hm w w' H Hinv). Qed.

End Preserves.

Lemma preserves_same_tree {A : Type} (m : M World A) :
  (forall w w', leaves (m w) = Some w' ->
     File_table (database w') = File_table (database w)
     /\ Directory_table (database w') = Directory_table (database w)) ->
  preserves well_formed m.
Proof.
  intros Hm w w' H. destruct (Hm w w' H) as [Hf Hd]. apply well_formed_same_tree; assumption.
Qed.

Lemma directory_fits_root (db : DB) (d : Directory) : dir_parent d = None -> directory_fits db d.
Proof. intros Hp pid E. congruence. Qed.

Lemma file_fits_ext (db : DB) (f g : File) :
  file_id g = file_id f -> file_name g = file_name f ->
  file_parent_directory g = file_parent_directory f ->
  file_fits db f -> file_fits db g.
Proof. unfold file_fits. intros -> -> ->. trivial. Qed.

Lemma directory_fits_ext (db : DB) (d e : Directory) :
  dir_id e = dir_id d -> dir_name e = dir_name d -> dir_parent e = dir_parent d ->
  directory_fits db d -> directory_fits db e.
Proof. unfold directory_fits. intros -> -> ->. trivial. Qed.

Lemma File_save_well_formed (f : File) (v : World) :
  well_formed (database v) ->
  (forall id, (file_id f <> 0 -> id = file_id f) ->
     file_fits (database v)
       (mkFile id (file_name f) (file_owner f) (file_parent_directory f) (file_data f))) ->
  keeps well_formed (File_save f) v.
Proof.
  intros Hwf Hfits w'. unfold File_save, bind, assign_id, modify_db, ret.
  destruct (Z.eqb_spec (file_id f) 0) as [Hz|Hnz]; cbn [negb].
  - destruct (fresh_id _ _) as [[id rest]|] eqn:Hf; [|discriminate].
    simpl. intros H. injection H as <-. cbn [database].
    apply well_formed_save_file; [exact Hwf | exact (proj2 (fresh_id_free _ _ _ _ Hf))|].
    apply Hfits. intros Hne. contradiction.
  - simpl. intros H. injection H as <-. cbn [database].
    apply well_formed_save_file; [exact Hwf | exact Hnz|]. apply Hfits. trivial.
Qed.

Lemma Directory_save_well_formed (d : Directory) (v : World) :
  well_formed (database v) ->
  (forall id, (dir_id d <> 0 -> id = dir_id d) ->
     directory_fits (database v) (mkDirectory id (dir_name d) (dir_owner d) (dir_parent d))) ->
  keeps well_formed (Directory_save d) v.
Proof.
  intros Hwf Hfits w'. unfold Directory_save, bind, assign_id, modify_db, ret.
  destruct (Z.eqb_spec (dir_id d) 0) as [Hz|Hnz]; cbn [negb].
  - destruct (fresh_id _ _) as [[id rest]|] eqn:Hf; [|discriminate].
    simpl. intros H. injection H as <-. cbn [database].
    apply well_formed_save_directory; [exact Hwf | exact (proj2 (fresh_id_free _ _ _ _ Hf))|].
    apply Hfits. intros Hne. contradiction.
  - simpl. intros H. injection H as <-. cbn [database].
    apply well_formed_save_directory; [exact Hwf | exact Hnz|]. apply Hfits. trivial.
Qed.

Lemma preserves_verify_authenticated
    (jwt_decode : string -> option (list (string * PyValue)))
    (request : HttpRequest) (user_id : Z) :
  preserves well_formed (_verify_authenticated jwt_decode request user_id).
Proof.
  intros w w'.
  destruct (verify_authenticated_inv jwt_decode request user_id w)
    as [H|(header & token & claims & name & iat & exp & Hh & Hb & Hd & Hc & Hnow)].
  - rewrite H. intros E. injection E as <-. trivial.
  - rewrite (verify_authenticated_provisions jwt_decode request user_id w header token claims
               name iat exp Hh Hb Hd Hc Hnow).
    destruct (StorageUser_get (database w) user_id);
      [intros E; injection E as <-; trivial|].
    destruct (fresh_id _ _) as [[id rest]|] eqn:Hf; [|discriminate].
    intros E Hwf. injection E as <-. unfold provisioned. cbn [database].
    destruct (fresh_id_free _ _ _ _ Hf) as [Hfree Hnz].
    set (db1 := with_users (database w)
                  (StorageUser_table (database w) ++ [mkStorageUser user_id name])) in *.
    change (Directory_table (database w)) with (Directory_table db1).
    rewrite <- (upsert_fresh dir_id (mkDirectory id "root" user_id None) (Directory_table db1))
      by exact Hfree.
    apply well_formed_save_directory; [|exact Hnz | apply directory_fits_root; reflexivity].
    apply (well_formed_same_tree (database w)); [reflexivity | reflexivity | exact Hwf].
Qed.

Lemma preserves_File_delete (f : File) : preserves well_formed (File_delete f).
Proof.
  intros w w' H Hwf. injection H as <-. cbn [database].
  rewrite <- (filter_true (Directory_table (database w))).
  apply well_formed_filter. exact Hwf.
Qed.

Lemma preserves_Directory_delete (d : Directory) : preserves well_formed (Directory_delete d).
Proof.
  intros w w'. unfold Directory_delete.
  destruct (_ || _); intros H Hwf; injection H as <-; [exact Hwf|].
  cbn [database].
  rewrite <- (filter_true (File_table (database w))).
  apply well_formed_filter. exact Hwf.
Qed.

Lemma preserves_delete_files (files : list File) : preserves well_formed (delete_files files).
Proof.
  induction files as [|g rest IH]; simpl.
  - apply preserves_reads. apply reads_ret.
  - apply preserves_bind; [apply preserves_File_delete | intros _; exact IH].
Qed.

Lemma preserves_cascade_loop (n : nat) :
  forall l, preserves well_formed (cascade_loop n l).
Proof.
  induction n as [|n IH]; intros l; simpl.
  - destruct (pop l) as [[x l']|]; [intros w w'; discriminate|].
    apply preserves_reads. apply reads_ret.
  - destruct (pop l) as [[x l']|]; [|apply preserves_reads; apply reads_ret].
    apply preserves_bind; [apply preserves_reads; apply reads_get_db|].
    intros db. cbv zeta. destruct (_ =? _)%nat.
    + apply preserves_bind; [apply preserves_delete_files|]. intros _.
      apply preserves_bind; [apply preserves_Directory_delete|]. intros _. apply IH.
    + apply IH.
Qed.

Lemma preserves_Share_objects_create (issuer subject : Z) (tf td : option Z) (cw : bool) :
  preserves well_formed (Share_objects_create issuer subject tf td cw).
Proof.
  apply preserves_same_tree. intros w w'.
  unfold Share_objects_create, Share_save, bind, assign_id, modify_db, ret.
  destruct (negb _).
  - simpl. intros H. injection H as <-. split; reflexivity.
  - destruct (fresh_id _ _) as [[id rest]|]; [|discriminate].
    simpl. intros H. injection H as <-. split; reflexivity.
Qed.

Lemma preserves_Share_delete (s : Share) : preserves well_formed (Share_delete s).
Proof.
  apply preserves_same_tree. intros w w' H. injection H as <-. split; reflexivity.
Qed.

Lemma preserves_contacts_add (user contact : StorageUser) :
  preserves well_formed (contacts_add user contact).
Proof.
  apply preserves_same_tree. intros w w' H. injection H as <-. cbn [database].
  destruct (existsb _ _); split; reflexivity.
Qed.

Lemma preserves_contacts_remove (user : StorageUser) (contact_id : Z) :
  preserves well_formed (contacts_remove user contact_id).
Proof.
  apply preserves_same_tree. intros w w' H. injection H as <-. split; reflexivity.
Qed.

Lemma preserves_StorageUser_save (user : StorageUser) :
  preserves well_formed (StorageUser_save user).
Proof.
  apply preserves_same_tree. intros w w' H. injection H as <-. split; reflexivity.
Qed.

Create HintDb tree.

#[local] Hint Resolve preserves_verify_authenticated preserves_File_delete
  preserves_Directory_delete preserves_delete_files preserves_cascade_loop
  preserves_Share_objects_create preserves_Share_delete preserves_contacts_add
  preserves_contacts_remove preserves_StorageUser_save : tree.

Ltac tree_auto :=
  repeat first
    [ solve [auto with tree]
    | solve [apply preserves_reads; reads_auto]
    | apply preserves_bind; [|intros ?]
    | apply preserves_atomic
    | match goal with
      | |- preserves _ (match ?x with _ => _ end) => destruct x
      end
    | progress cbv zeta ].

Section HandlersPreserveTree.

Variable int : string -> option Z.
Variable jwt_decode : string -> option (list (string * PyValue)).
Variable fuel : nat.
Variables (request : HttpRequest) (kwargs : list (string * string)).

Lemma UserInfoView_get_preserves_tree :
  preserves well_formed (UserInfoView_handle_get int jwt_decode fuel request kwargs).
Proof. unfold UserInfoView_handle_get. tree_auto. Qed.

Lemma FileView_get_preserves_tree :
  preserves well_formed (FileView_handle_get int jwt_decode fuel request kwargs).
Proof. unfold FileView_handle_get. tree_auto. Qed.

Lemma FileView_delete_preserves_tree :
  preserves well_formed (FileView_handle_delete int jwt_decode fuel request kwargs).
Proof. unfold FileView_handle_delete. tree_auto. Qed.

Lemma DirectoryView_get_preserves_tree :
  preserves well_formed (DirectoryView_handle_get int jwt_decode fuel request kwargs).
Proof. unfold DirectoryView_handle_get. tree_auto. Qed.

Lemma DirectoryView_delete_preserves_tree :
  preserves well_formed (DirectoryView_handle_delete int jwt_decode fuel request kwargs).
Proof. unfold DirectoryView_handle_delete. tree_auto. Qed.

Lemma ShareView_get_preserves_tree :
  preserves well_formed (ShareView_handle_get int jwt_decode fuel request kwargs).
Proof. unfold ShareView_handle_get. tree_auto. Qed.

Lemma ShareView_post_preserves_tree :
  preserves well_formed (ShareView_handle_post int jwt_decode fuel request kwargs).
Proof. unfold ShareView_handle_post. tree_auto. Qed.

Lemma ShareView_delete_preserves_tree :
  preserves well_formed (ShareView_handle_delete int jwt_decode fuel request kwargs).
Proof. unfold ShareView_handle_delete. tree_auto. Qed.

Lemma ContactView_get_preserves_tree :
  preserves well_formed (ContactView_handle_get int jwt_decode request kwargs).
Proof. unfold ContactView_handle_get. tree_auto. Qed.

Lemma ContactView_post_preserves_tree :
  preserves well_formed (ContactView_handle_post int jwt_decode request kwargs).
Proof. unfold ContactView_handle_post. tree_auto. Qed.

Lemma ContactView_delete_preserves_tree :
  preserves well_formed (ContactView_handle_delete int jwt_decode request kwargs).
Proof. unfold ContactView_handle_delete. tree_auto. Qed.

End HandlersPreserveTree.

Lemma file_fits_new (db : DB) (id owner pid : Z) (name : string) (data : list byte) :
  ~ In name (entry_names db pid) -> file_fits db (mkFile id name owner pid data).
Proof.
  intros Hfree. unfold entry_names in Hfree. split; cbn [file_name file_parent_directory].
  - intros y Hy _ Hp E. apply Hfree. apply in_or_app. left. rewrite <- E.
    apply in_map. apply filter_In. split; [exact Hy | apply Z.eqb_eq; exact Hp].
  - intros y Hy Hp E. apply Hfree. apply in_or_app. right. rewrite <- E.
    apply in_map. apply filter_In. split; [exact Hy|]. rewrite Hp. apply Z.eqb_refl.
Qed.

Lemma directory_fits_new (db : DB) (id owner pid : Z) (name : string) :
  ~ In name (entry_names db pid) -> directory_fits db (mkDirectory id name owner (Some pid)).
Proof.
  intros Hfree. unfold entry_names in Hfree. intros p E. cbn [dir_parent] in E.
  injection E as <-. split; cbn [dir_name].
  - intros y Hy Hp E. apply Hfree. apply in_or_app. left. rewrite <- E.
    apply in_map. apply filter_In. split; [exact Hy | apply Z.eqb_eq; exact Hp].
  - intros y Hy _ Hp E. apply Hfree. apply in_or_app. right. rewrite <- E.
    apply in_map. apply filter_In. split; [exact Hy|]. rewrite Hp. apply Z.eqb_refl.
Qed.

Lemma file_fits_checked (db : DB) (f : File) (target : Directory) :
  dir_id target = file_parent_directory f ->
  _verify_unique_names (inr (EFile f)) (Some target) db = Val tt -> file_fits db f.
Proof.
  intros Hid. unfold _verify_unique_names.
  destruct (existsb _ _) eqn:E; [discriminate|]. intros _.
  unfold children in E. rewrite existsb_app in E. apply orb_false_iff in E.
  destruct E as [Ef Ed]. rewrite existsb_map in Ef. rewrite existsb_map in Ed.
  unfold Directory_file_set in Ef. unfold Directory_directory_set in Ed. rewrite Hid in *.
  split.
  - intros y Hy Hne Hp Hn.
    assert (Hin : In y (filter (fun g => file_parent_directory g =? file_parent_directory f)
                               (File_table db)))
      by (apply filter_In; split; [exact Hy | apply Z.eqb_eq; exact Hp]).
    apply (existsb_false_forall _ _ y Ef) in Hin.
    cbn [model_eqb name_is attr_name] in Hin.
    apply Z.eqb_neq in Hne. rewrite Hne, Hn, String.eqb_refl in Hin. discriminate.
  - intros y Hy Hp Hn.
    assert (Hin : In y (filter (fun g => opt_is (dir_parent g) (file_parent_directory f))
                               (Directory_table db)))
      by (apply filter_In; split; [exact Hy | rewrite Hp; apply Z.eqb_refl]).
    apply (existsb_false_forall _ _ y Ed) in Hin.
    cbn [model_eqb name_is attr_name] in Hin.
    rewrite Hn, String.eqb_refl in Hin. discriminate.
Qed.

Lemma directory_fits_checked (db : DB) (d target : Directory) :
  dir_parent d = Some (dir_id target) ->
  _verify_unique_names (inr (EDirectory d)) (Some target) db = Val tt -> directory_fits db d.
Proof.
  intros Hid. unfold _verify_unique_names.
  destruct (existsb _ _) eqn:E; [discriminate|]. intros _.
  unfold children in E. rewrite existsb_app in E. apply orb_false_iff in E.
  destruct E as [Ef Ed]. rewrite existsb_map in Ef. rewrite existsb_map in Ed.
  unfold Directory_file_set in Ef. unfold Directory_directory_set in Ed.
  intros pid Hpid. assert (pid = dir_id target) by congruence. subst pid.
  split.
  - intros y Hy Hp Hn.
    assert (Hin : In y (filter (fun g => file_parent_directory g =? dir_id target)
                               (File_table db)))
      by (apply filter_In; split; [exact Hy | apply Z.eqb_eq; exact Hp]).
    apply (existsb_false_forall _ _ y Ef) in Hin.
    cbn [model_eqb name_is attr_name] in Hin.
    rewrite Hn, String.eqb_refl in Hin. discriminate.
  - intros y Hy Hne Hp Hn.
    assert (Hin : In y (filter (fun g => opt_is (dir_parent g) (dir_id target))
                               (Directory_table db)))
      by (apply filter_In; split; [exact Hy | rewrite Hp; apply Z.eqb_refl]).
    apply (existsb_false_forall _ _ y Ed) in Hin.
    cbn [model_eqb name_is attr_name] in Hin.
    apply Z.eqb_neq in Hne. rewrite Hne, Hn, String.eqb_refl in Hin. discriminate.
Qed.

Lemma file_fits_row (db : DB) (f : File) :
  well_formed db -> In f (File_table db) -> file_fits db f.
Proof.
  intros (Hfid & _ & _ & _ & Hnames) Hin.
  destruct (proj1 (names_unique_split db) Hnames (file_parent_directory f)) as (Hf & _ & Hcross).
  split.
  - intros y Hy Hne Hp Hn. apply Hne. f_equal.
    apply (NoDup_map_inj file_name
             (filter (fun g => file_parent_directory g =? file_parent_directory f)
                     (File_table db)));
      [exact Hf | apply NoDup_filter; exact (NoDup_of_pk file_id _ Hfid) | | | exact Hn].
    + apply filter_In. split; [exact Hy | apply Z.eqb_eq; exact Hp].
    + apply filter_In. split; [exact Hin | apply Z.eqb_refl].
  - intros y Hy Hp Hn. exact (Hcross f y Hin Hy eq_refl Hp (eq_sym Hn)).
Qed.

Lemma directory_fits_row (db : DB) (d : Directory) :
  well_formed db -> In d (Directory_table db) -> directory_fits db d.
Proof.
  intros (_ & Hdid & _ & _ & Hnames) Hin pid Hpid.
  destruct (proj1 (names_unique_split db) Hnames pid) as (_ & Hd & Hcross).
  split.
  - intros y Hy Hp Hn. exact (Hcross y d Hy Hin Hp Hpid Hn).
  - intros y Hy Hne Hp Hn. apply Hne. f_equal.
    apply (NoDup_map_inj dir_name
             (filter (fun g => opt_is (dir_parent g) pid) (Directory_table db)));
      [exact Hd | apply NoDup_filter; exact (NoDup_of_pk dir_id _ Hdid) | | | exact Hn].
    + apply filter_In. split; [exact Hy | rewrite Hp; apply Z.eqb_refl].
    + apply filter_In. split; [exact Hin | rewrite Hpid; apply Z.eqb_refl].
Qed.

Lemma Directory_parent_inv (db : DB) (d : Directory) (c : option Directory) :
  Directory_parent db d = Val c -> dir_parent d = option_map dir_id c.
Proof.
  unfold Directory_parent. destruct (dir_parent d) as [pid|].
  - destruct (Directory_get db pid) as [p|] eqn:E; [|discriminate].
    intros H. injection H as <-. cbn [option_map]. rewrite (find_pk dir_id _ _ _ E). reflexivity.
  - intros H. injection H as <-. reflexivity.
Qed.

Section CreateAndUpdate.

Variable int : string -> option Z.
Variable jwt_decode : string -> option (list (string * PyValue)).
Variable fuel : nat.
Variables (request : HttpRequest) (kwargs : list (string * string)).

Ltac tree_reads :=
  apply keeps_bind_reads; [solve [reads_auto] | assumption | intros ? ?].

Ltac tree_auth :=
  apply keeps_bind;
  [apply preserves_keeps; [apply preserves_verify_authenticated | assumption]
  | intros ? w1 _ Hwf1].

Ltac tree_rest := solve [intros; apply keeps_reads; [reads_auto | assumption]].

Lemma FileView_post_keeps_tree (w : World) :
  well_formed (database w) ->
  keeps well_formed (FileView_handle_post int jwt_decode fuel request kwargs) w.
Proof.
  intros Hwf. unfold FileView_handle_post.
  tree_reads. tree_reads. tree_auth.
  apply keeps_bind_reads; [solve [reads_auto] | assumption | intros file_name _].
  apply keeps_bind_reads; [solve [reads_auto] | assumption | intros parent_directory_id _].
  apply keeps_bind_reads; [solve [reads_auto] | assumption | intros parent_directory _].
  tree_reads.
  apply keeps_bind_reads; [solve [reads_auto] | assumption | intros u Hu].
  apply lift_db_Return_inv in Hu.
  destruct (verify_unique_names_cases (database w1) parent_directory file_name)
    as [[_ Hv]|[Hfree _]]; [congruence|].
  tree_reads. tree_reads.
  apply keeps_bind; [|tree_rest].
  apply keeps_atomic; [assumption|].
  tree_reads.
  apply File_save_well_formed; [assumption|].
  intros id _. apply file_fits_new. exact Hfree.
Qed.

Lemma DirectoryView_post_keeps_tree (w : World) :
  well_formed (database w) ->
  keeps well_formed (DirectoryView_handle_post int jwt_decode fuel request kwargs) w.
Proof.
  intros Hwf. unfold DirectoryView_handle_post.
  tree_reads. tree_reads. tree_auth.
  apply keeps_bind_reads; [solve [reads_auto] | assumption | intros directory_name _].
  apply keeps_bind_reads; [solve [reads_auto] | assumption | intros parent_directory_id _].
  apply keeps_bind_reads; [solve [reads_auto] | assumption | intros parent_directory _].
  tree_reads.
  apply keeps_bind_reads; [solve [reads_auto] | assumption | intros u Hu].
  apply lift_db_Return_inv in Hu.
  destruct (verify_unique_names_cases (database w1) parent_directory directory_name)
    as [[_ Hv]|[Hfree _]]; [congruence|].
  apply keeps_bind; [|tree_rest].
  apply Directory_save_well_formed; [assumption|].
  intros id _. apply directory_fits_new. exact Hfree.
Qed.

Lemma FileView_put_keeps_tree (w : World) :
  well_formed (database w) ->
  keeps well_formed (FileView_handle_put int jwt_decode fuel request kwargs) w.
Proof.
  intros Hwf. unfold FileView_handle_put.
  tree_reads. tree_reads. tree_auth.
  apply keeps_bind_reads; [solve [reads_auto] | assumption | intros new_name _].
  apply keeps_bind_reads; [solve [reads_auto] | assumption | intros parent_directory_id _].
  apply keeps_bind_reads; [solve [reads_auto] | assumption | intros write_body _].
  tree_reads. tree_reads.
  apply keeps_bind_reads; [solve [reads_auto] | assumption | intros file_obj Hget].
  destruct (File_objects_get_inv _ _ _ _ Hget) as (Hrow & _ & _).
  assert (Hin : In file_obj (File_table (database w1)))
    by (unfold File_get in Hrow; apply find_some in Hrow; exact (proj1 Hrow)).
  assert (Hnz : file_id file_obj <> 0) by (apply Hwf1; exact Hin).
  tree_reads.
  apply keeps_bind; [|tree_rest].
  apply keeps_atomic; [assumption|].
  apply keeps_bind_reads; [reads_auto | assumption | intros f1 Hf1].
  assert (Hfits1 : file_id f1 = file_id file_obj /\ file_fits (database w1) f1).
  { destruct (is_some new_name || is_some parent_directory_id).
    - bind_inv Hf1 as current_dir Hcur.
      destruct (Directory_objects_get_inv _ _ _ _ Hcur) as (_ & Hcid & _).
      bind_inv Hf1 as u2 Hacc2.
      bind_inv Hf1 as moved Hmv.
      assert (Hmoved : file_id (snd moved) = file_id file_obj
                       /\ file_name (snd moved) = file_name file_obj
                       /\ file_parent_directory (snd moved) = dir_id (fst moved)).
      { destruct parent_directory_id as [pid|].
        - bind_inv Hmv as target_dir Htgt.
          bind_inv Hmv as u3 Hacc3.
          bind_inv Hmv as u4 Hsame.
          injection Hmv as <-. cbn [fst snd].
          cbn [model_eqb].
          destruct (Z.eqb_spec (dir_id current_dir) (dir_id target_dir)) as [Heq|Hne];
            cbn [negb].
          + repeat split. congruence.
          + repeat split.
        - injection Hmv as <-. cbn [fst snd]. repeat split. congruence. }
      destruct Hmoved as (Hmid & Hmname & Hmpar).
      cbv zeta in Hf1. bind_inv Hf1 as u6 Huniq. injection Hf1 as <-.
      apply lift_db_Return_inv in Huniq. destruct u6.
      split; [destruct new_name; cbn [set_file_name file_id]; exact Hmid|].
      apply (file_fits_checked _ _ (fst moved)); [|exact Huniq].
      destruct new_name; cbn [set_file_name file_parent_directory]; congruence.
    - injection Hf1 as <-. split; [reflexivity|]. apply file_fits_row; assumption. }
  destruct Hfits1 as [Hid1 Hfits1].
  apply keeps_bind_reads; [reads_auto | assumption | intros f2 Hf2].
  assert (Hfits2 : file_id f2 = file_id file_obj /\ file_fits (database w1) f2).
  { destruct write_body.
    - bind_inv Hf2 as content Hbody. bind_inv Hf2 as u7 Hquota. injection Hf2 as <-.
      split; [exact Hid1|]. apply (file_fits_ext _ f1); trivial.
    - injection Hf2 as <-. split; assumption. }
  destruct Hfits2 as [Hid2 Hfits2].
  apply File_save_well_formed; [assumption|].
  intros id Hid. rewrite (Hid ltac:(congruence)).
  apply (file_fits_ext _ f2); trivial.
Qed.

Lemma DirectoryView_put_keeps_tree (w : World) :
  well_formed (database w) ->
  keeps well_formed (DirectoryView_handle_put int jwt_decode fuel request kwargs) w.
Proof.
  intros Hwf. unfold DirectoryView_handle_put.
  tree_reads. tree_reads. tree_auth.
  apply keeps_bind_reads; [solve [reads_auto] | assumption | intros directory_name _].
  apply keeps_bind_reads; [solve [reads_auto] | assumption | intros parent_directory_id _].
  tree_reads.
  apply keeps_bind_reads; [solve [reads_auto] | assumption | intros directory Hget].
  destruct (Directory_objects_get_inv _ _ _ _ Hget) as (Hrow & _ & _).
  assert (Hin : In directory (Directory_table (database w1)))
    by (unfold Directory_get in Hrow; apply find_some in Hrow; exact (proj1 Hrow)).
  assert (Hnz : dir_id directory <> 0) by (apply Hwf1; exact Hin).
  tree_reads.
  apply keeps_bind; [|tree_rest].
  apply keeps_atomic; [assumption|].
  apply keeps_bind_reads; [reads_auto | assumption | intros d1 Hd1].
  assert (Hfits1 : dir_id d1 = dir_id directory /\ directory_fits (database w1) d1).
  { destruct (is_some directory_name || is_some parent_directory_id).
    - bind_inv Hd1 as current_dir Hcur.
      apply lift_db_Return_inv in Hcur. apply Directory_parent_inv in Hcur.
      bind_inv Hd1 as u2 Hacc2.
      bind_inv Hd1 as moved Hmv.
      assert (Hmoved : dir_id (snd moved) = dir_id directory
                       /\ dir_name (snd moved) = dir_name directory
                       /\ dir_parent (snd moved) = option_map dir_id (fst moved)).
      { destruct parent_directory_id as [pid|].
        - bind_inv Hmv as target_dir Htgt.
          bind_inv Hmv as u3 Hacc3.
          bind_inv Hmv as u4 Hmovable.
          bind_inv Hmv as u5 Hsame.
          injection Hmv as <-. cbn [fst snd option_map].
          destruct (differs current_dir target_dir) eqn:Heq.
          + repeat split.
          + destruct current_dir as [c|]; [|discriminate]. cbn [differs model_eqb] in Heq.
            apply negb_false_iff in Heq. apply Z.eqb_eq in Heq. repeat split.
            rewrite Hcur. cbn [option_map]. congruence.
        - injection Hmv as <-. cbn [fst snd]. repeat split. exact Hcur. }
      destruct Hmoved as (Hmid & Hmname & Hmpar).
      cbv zeta in Hd1. bind_inv Hd1 as u6 Huniq. injection Hd1 as <-.
      apply lift_db_Return_inv in Huniq. destruct u6.
      split; [destruct directory_name; cbn [set_dir_name dir_id]; exact Hmid|].
      destruct (fst moved) as [target|] eqn:Htarget; [|discriminate].
      apply (directory_fits_checked _ _ target); [|exact Huniq].
      destruct directory_name; cbn [set_dir_name dir_parent]; exact Hmpar.
    - injection Hd1 as <-. split; [reflexivity|]. apply directory_fits_row; assumption. }
  destruct Hfits1 as [Hid1 Hfits1].
  apply Directory_save_well_formed; [assumption|].
  intros id Hid. rewrite (Hid ltac:(congruence)).
  apply (directory_fits_ext _ d1); trivial.
Qed.

End CreateAndUpdate.



(** ** What an update changes *)

Lemma handle_ok_inv (m : HttpRequest -> list (string * string) -> M World Response)
    (request : HttpRequest) (kwargs : list (string * string)) (w w2 : World) (r : Response) :
  handle m request kwargs w = Some (r, w2) -> status r = ("ok", 200) ->
  m request kwargs w = Return r w2.
Proof.
  unfold handle. destruct (m request kwargs w) as [r' w'|e w'|]; [| |discriminate].
  - intros H _. injection H as <- <-. reflexivity.
  - intros H Hs. injection H as <- <-. destruct e; discriminate.
Qed.

Lemma get_query_param_inv {A : Type} (req : HttpRequest) (name : string)
    (converter : string -> option A) (a : A) (w w' : World) :
  _get_query_param req name converter w = Return a w' ->
  exists v, dict_get name (GET req) = Some v /\ converter v = Some a.
Proof.
  unfold _get_query_param. destruct (dict_get name (GET req)) as [v|]; [|discriminate].
  destruct (converter v) as [b|] eqn:E; [|discriminate].
  intros H. injection H as <- _. exists v. split; [reflexivity | exact E].
Qed.

Lemma get_query_param_optional_inv {A : Type} (req : HttpRequest) (name : string)
    (converter : string -> option A) (a : option A) (w w' : World) :
  _get_query_param_optional req name converter w = Return a w' ->
  match dict_get name (GET req) with
  | Some v => a <> None /\ converter v = a
  | None => a = None
  end.
Proof.
  unfold _get_query_param_optional. destruct (dict_get name (GET req)) as [v|].
  - destruct (converter v) as [b|] eqn:E; [|discriminate].
    intros H. injection H as <- _. split; [discriminate | reflexivity].
  - intros H. injection H as <- _. reflexivity.
Qed.

Lemma flag_param_inv (req : HttpRequest) (name : string) (b : bool) (w w' : World) :
  flag_param req name w = Return b w' ->
  match dict_get name (GET req) with
  | Some _ => b = true
  | None => b = false
  end.
Proof.
  unfold flag_param, bind, _get_query_param_optional, _get_converter_for_enum.
  destruct (dict_get name (GET req)) as [v|].
  - cbn [existsb]. destruct (String.eqb_spec v EmptyString) as [->|Hne]; cbn [orb].
    + intros H. injection H as <- _. reflexivity.
    + discriminate.
  - intros H. injection H as <- _. reflexivity.
Qed.

Lemma get_kwarg_inv {A : Type} (kwargs : list (string * string)) (name : string)
    (converter : string -> option A) (a : A) (w w' : World) :
  _get_kwarg kwargs name converter w = Return a w' ->
  exists v, dict_get name kwargs = Some v /\ converter v = Some a.
Proof.
  unfold _get_kwarg. destruct (dict_get name kwargs) as [v|]; [|discriminate].
  destruct (converter v) as [b|] eqn:E; [|discriminate].
  intros H. injection H as <- _. exists v. split; [reflexivity | exact E].
Qed.

Lemma request_body_inv (req : HttpRequest) (v v' : World) (content : list byte) :
  request_body req v = Return content v' ->
  content = body req /\ len (body req) <= DATA_UPLOAD_MAX_MEMORY_SIZE.
Proof.
  unfold request_body.
  destruct (Z.gtb_spec (len (body req)) DATA_UPLOAD_MAX_MEMORY_SIZE) as [Hbig|Hbig];
    [discriminate|].
  intros H. injection H as <- _. split; [reflexivity | assumption].
Qed.

Lemma atomic_Return_inv {A : Type} (m : M World A) (w w' : World) (a : A) :
  atomic m w = Return a w' -> m w = Return a w'.
Proof. unfold atomic. destruct (m w); try discriminate. trivial. Qed.

Lemma File_save_inv (f f' : File) (w w' : World) :
  File_save f w = Return f' w' ->
  f' = mkFile (file_id f') (file_name f) (file_owner f) (file_parent_directory f) (file_data f)
  /\ (file_id f <> 0 -> file_id f' = file_id f)
  /\ database w' = with_files (database w) (upsert file_id f' (File_table (database w))).
Proof.
  unfold File_save, bind, assign_id, modify_db, ret.
  destruct (Z.eqb_spec (file_id f) 0) as [Hz|Hnz]; cbn [negb].
  - destruct (fresh_id _ _) as [[id rest]|]; [|discriminate].
    simpl. intros H. injection H as <- <-. cbn [database file_id].
    split; [reflexivity|]. split; [intros Hne; contradiction | reflexivity].
  - simpl. intros H. injection H as <- <-. cbn [database file_id].
    split; [reflexivity|]. split; [reflexivity | reflexivity].
Qed.

Lemma Directory_save_inv (d d' : Directory) (w w' : World) :
  Directory_save d w = Return d' w' ->
  d' = mkDirectory (dir_id d') (dir_name d) (dir_owner d) (dir_parent d)
  /\ (dir_id d <> 0 -> dir_id d' = dir_id d)
  /\ database w' = with_directories (database w) (upsert dir_id d' (Directory_table (database w))).
Proof.
  unfold Directory_save, bind, assign_id, modify_db, ret.
  destruct (Z.eqb_spec (dir_id d) 0) as [Hz|Hnz]; cbn [negb].
  - destruct (fresh_id _ _) as [[id rest]|]; [|discriminate].
    simpl. intros H. injection H as <- <-. cbn [database dir_id].
    split; [reflexivity|]. split; [intros Hne; contradiction | reflexivity].
  - simpl. intros H. injection H as <- <-. cbn [database dir_id].
    split; [reflexivity|]. split; [reflexivity | reflexivity].
Qed.





(** ** Reading requests *)

Lemma handle_leaves (m : HttpRequest -> list (string * string) -> M World Response)
    (request : HttpRequest) (kwargs : list (string * string)) (w w2 : World) (r : Response) :
  handle m request kwargs w = Some (r, w2) -> leaves (m request kwargs w) = Some w2.
Proof.
  unfold handle. destruct (m request kwargs w); [| |discriminate];
    intros H; injection H as _ <-; reflexivity.
Qed.

Lemma only_provisions_reads {A : Type} (m : M World A) : reads m -> only_provisions m.
Proof. intros Hm w w' H. left. exact (Hm w w' H). Qed.

Lemma only_provisions_then_reads {A B : Type} (m : M World A) (k : A -> M World B) :
  only_provisions m -> (forall a, reads (k a)) -> only_provisions (bind m k).
Proof.
  intros Hm Hk w w'. unfold bind.
  destruct (m w) as [a w1|e w1|] eqn:E.
  - intros H. rewrite (Hk a w1 w' H). apply Hm. rewrite E. reflexivity.
  - intros H. injection H as <-. apply Hm. rewrite E. reflexivity.
  - discriminate.
Qed.

Lemma only_provisions_after_reads {A B : Type} (m : M World A) (k : A -> M World B) :
  reads m -> (forall a, only_provisions (k a)) -> only_provisions (bind m k).
Proof.
  intros Hm Hk w w'. unfold bind.
  destruct (m w) as [a w1|e w1|] eqn:E.
  - assert (w1 = w) by (apply (Hm w w1); rewrite E; reflexivity). subst w1. apply Hk.
  - intros H. injection H as <-. left. apply (Hm w w1). rewrite E. reflexivity.
  - discriminate.
Qed.

Lemma only_provisions_verify_authenticated
    (jwt_decode : string -> option (list (string * PyValue)))
    (request : HttpRequest) (user_id : Z) :
  only_provisions (_verify_authenticated jwt_decode request user_id).
Proof.
  intros w w'.
  destruct (verify_authenticated_inv jwt_decode request user_id w)
    as [H|(header & token & claims & name & iat & exp & Hh & Hb & Hd & Hc & Hnow)].
  - rewrite H. intros E. injection E as <-. left. reflexivity.
  - rewrite (verify_authenticated_provisions jwt_decode request user_id w header token claims
               name iat exp Hh Hb Hd Hc Hnow).
    destruct (StorageUser_get (database w) user_id) eqn:Huser;
      [intros E; injection E as <-; left; reflexivity|].
    destruct (fresh_id _ _) as [[id rest]|] eqn:Hf; [|discriminate].
    intros E. injection E as <-. right. exists user_id, name, id, rest.
    split; [exact Huser|]. split; reflexivity.
Qed.

Ltac provisions_auto :=
  repeat first
    [ apply only_provisions_after_reads; [solve [reads_auto] | intros ?]
    | apply only_provisions_then_reads;
      [apply only_provisions_verify_authenticated | intros ?; solve [reads_auto]] ].

(** X29.  Reading is safe.  A GET request to any view, whatever its
    arguments and its answer, leaves the world exactly as it was, with one
    exception: when it carries the first valid token of a user that has no
    record, the user's record and root directory are created, and nothing
    else changes. *)
Theorem get_requests_are_safe
    (int : string -> option Z) (jwt_decode : string -> option (list (string * PyValue)))
    (fuel : nat) (request : HttpRequest) (kwargs : list (string * string)) (w w2 : World)
    (view : View) (r : Response) :
  In view [UserInfoView int jwt_decode fuel; FileView int jwt_decode fuel;
           DirectoryView int jwt_decode fuel; ShareView int jwt_decode fuel;
           ContactView int jwt_decode] ->
  method request = "GET" ->
  View_handle view request kwargs w = Some (r, w2) ->
  w2 = w
  \/ exists user_id user_name id rest,
       StorageUser_get (database w) user_id = None
       /\ fresh_id (Directory_exists (database w)) (random w) = Some (id, rest)
       /\ w2 = provisioned w user_id user_name id rest.
Proof.
  intros Hview Hm. unfold View_handle, method_by_verb. rewrite Hm. cbn [String.eqb Ascii.eqb Bool.eqb].
  intros H. apply handle_leaves in H. revert H.
  simpl in Hview.
  destruct Hview as [<-|[<-|[<-|[<-|[<-|[]]]]]];
    cbn [_handle_get UserInfoView FileView DirectoryView ShareView ContactView];
    match goal with
    | |- leaves (?m request kwargs w) = Some w2 -> _ =>
        assert (Hsafe : only_provisions (m request kwargs)); [|exact (Hsafe w w2)]
    end.
  - unfold UserInfoView_handle_get. provisions_auto.
  - unfold FileView_handle_get. provisions_auto.
  - unfold DirectoryView_handle_get. provisions_auto.
  - unfold ShareView_handle_get. provisions_auto.
  - unfold ContactView_handle_get. provisions_auto.
Qed.

Lemma get_requests_are_safe_witness :
  Example.world Example.db0 1500 = Example.world Example.db0 1500
  \/ exists user_id user_name id rest,
       StorageUser_get (database (Example.world Example.db0 1500)) user_id = None
       /\ fresh_id (Directory_exists (database (Example.world Example.db0 1500)))
                   (random (Example.world Example.db0 1500)) = Some (id, rest)
       /\ Example.world Example.db0 1500
          = provisioned (Example.world Example.db0 1500) user_id user_name id rest.
Proof.
  apply (get_requests_are_safe Example.int Example.jwt_decode 5
           (Example.request "GET" "2" "bob" [] []) [("file_id", "21")]
           (Example.world Example.db0 1500) (Example.world Example.db0 1500)
           (FileView Example.int Example.jwt_decode 5)
           (mkResponse ("ok", 200) (BinaryContent [x64]))).
  - right. left. reflexivity.
  - reflexivity.
  - reflexivity.
Defined.

(** X30.  The user info is given to the user it is about, and to nobody
    else.  When the token passes for the user id of the URL, GET answers
    [ok] with that user's record: the check of read access to one's own
    record never fails.  And when GET answers [ok], the URL names a user
    id, the request carries a bearer token whose [user_id] claim is that
    id, and the answer is the record found under that id. *)
Theorem user_info_only_for_token_owner
    (int : string -> option Z) (jwt_decode : string -> option (list (string * PyValue)))
    (fuel : nat) (request : HttpRequest) (kwargs : list (string * string)) (w : World) :
  (forall s uid user claims w1,
     dict_get "user_id" kwargs = Some s -> int s = Some uid ->
     _verify_authenticated jwt_decode request uid w = Return (user, claims) w1 ->
     handle (UserInfoView_handle_get int jwt_decode fuel) request kwargs w
     = Some (mkResponse ("ok", 200) (UserContent user), w1))
  /\ (forall r w2,
        handle (UserInfoView_handle_get int jwt_decode fuel) request kwargs w = Some (r, w2) ->
        status r = ("ok", 200) ->
        exists s uid user header token claims,
          dict_get "user_id" kwargs = Some s /\ int s = Some uid
          /\ dict_get AUTHORIZATION_HEADER_NAME (headers request) = Some header
          /\ match_bearer header = Some token
          /\ jwt_decode token = Some claims
          /\ dict_get CLAIM_USER_ID claims = Some (PyInt uid)
          /\ content r = UserContent user
          /\ Models.user_id user = uid
          /\ StorageUser_get (database w2) uid = Some user).
Proof.
  split.
  - intros s uid user claims w1 Hs Hint Hauth.
    pose proof (verify_authenticated_user _ _ _ _ _ _ _ Hauth) as Huser.
    pose proof (find_pk Models.user_id _ _ _ Huser) as Hid.
    unfold handle, UserInfoView_handle_get.
    rewrite (bind_Return _ _ w w uid)
      by (unfold _get_kwarg; rewrite Hs, Hint; reflexivity).
    rewrite (bind_Return _ _ w w1 (user, claims)) by exact Hauth.
    cbv zeta. cbn [fst].
    rewrite (bind_Return _ _ w1 w1 tt).
    + reflexivity.
    + unfold _verify_can_access.
      rewrite (bind_Return _ _ w1 w1 true); [reflexivity|].
      unfold lift_db. cbn [can_access]. unfold StorageUser_can_access.
      rewrite Hid, Z.eqb_refl. reflexivity.
  - intros r w2 H Hok. apply handle_ok_inv in H; [|exact Hok]. clear Hok.
    unfold UserInfoView_handle_get in H.
    bind_inv H as uid Hkw. apply get_kwarg_inv in Hkw. destruct Hkw as (s & Hs & Hint).
    apply bind_Return_inv in H. destruct H as ([user claims] & w1 & Hauth & H).
    cbv zeta in H. cbn [fst] in H.
    bind_inv H as u Hacc. injection H as <- <-.
    pose proof (verify_authenticated_user _ _ _ _ _ _ _ Hauth) as Huser.
    destruct (verify_authenticated_inv jwt_decode request uid w)
      as [Hr|(header & token & claims' & name & iat & exp & Hh & Hb & Hd & Hc & Hnow)];
      [rewrite Hr in Hauth; discriminate|].
    exists s, uid, user, header, token, claims'.
    repeat (split; [assumption|]).
    split; [exact (proj1 Hc)|]. split; [reflexivity|].
    split; [exact (find_pk Models.user_id _ _ _ Huser) | exact Huser].
Qed.

Lemma user_info_only_for_token_owner_witness :
  handle (UserInfoView_handle_get Example.int Example.jwt_decode 3)
         (Example.request "GET" "2" "bob" [] []) [("user_id", "2")]
         (Example.world Example.db0 1500)
  = Some (mkResponse ("ok", 200) (UserContent (mkStorageUser 2 "bob")),
          Example.world Example.db0 1500).
Proof.
  apply (proj1 (user_info_only_for_token_owner Example.int Example.jwt_decode 3
                  (Example.request "GET" "2" "bob" [] []) [("user_id", "2")]
                  (Example.world Example.db0 1500))
               "2" 2 (mkStorageUser 2 "bob") (Example.claims_of 2 "bob")
               (Example.world Example.db0 1500) eq_refl eq_refl eq_refl).
Defined.

(** ** Not found or permission denied, at every check of access *)

Lemma bind_Return_eq {W A B : Type} (m : M W A) (k : A -> M W B) (w w' : W) (a : A)
    (r : outcome W B) :
  m w = Return a w' -> k a w' = r -> bind m k w = r.
Proof. intros H <-. apply bind_Return. exact H. Qed.

Lemma optional_value_Return (int : string -> option Z) (req : HttpRequest) (name : string)
    (v : option Z) (w : World) :
  optional_value int req name v -> _get_query_param_optional req name int w = Return v w.
Proof.
  unfold optional_value, _get_query_param_optional.
  destruct (dict_get name (GET req)) as [s|]; [|intros ->; reflexivity].
  intros [Hs ->]. destruct (int s); [reflexivity | contradiction].
Qed.

Lemma put_body_rule (req : HttpRequest) (write_body : bool) (msg : string) (w : World) :
  (write_body = false -> len (body req) = 0) ->
  (if write_body then ret tt
   else (content <- request_body req ;; raise_if (len content >? 0) (ErrorBadRequest msg))%py) w
  = Return tt w.
Proof.
  intros H. destruct write_body; [reflexivity|].
  pose proof (H eq_refl) as E.
  rewrite (bind_Return _ _ w w (body req))
    by (apply request_body_Return; rewrite E; unfold DATA_UPLOAD_MAX_MEMORY_SIZE; lia).
  rewrite E. reflexivity.
Qed.

Lemma StorageUser_objects_get_Return (id : Z) (u : StorageUser) (w : World) :
  StorageUser_get (database w) id = Some u -> StorageUser_objects_get id w = Return u w.
Proof. apply (objects_get_Return (fun db => StorageUser_get db id)). Qed.

Lemma Directory_objects_get_Return (id : Z) (d : Directory) (w : World) :
  Directory_get (database w) id = Some d -> Directory_objects_get id w = Return d w.
Proof. apply (objects_get_Return (fun db => Directory_get db id)). Qed.

Lemma File_objects_get_Return (id : Z) (f : File) (w : World) :
  File_get (database w) id = Some f -> File_objects_get id w = Return f w.
Proof. apply (objects_get_Return (fun db => File_get db id)). Qed.

Lemma Share_objects_get_Return (id : Z) (s : Share) (w : World) :
  Share_get (database w) id = Some s -> Share_objects_get id w = Return s w.
Proof. apply (objects_get_Return (fun db => Share_get db id)). Qed.

(** The answer to a request whose handler raises what the check of access
    raises, in the world of the check. *)
Lemma refused_of_raise (fuel : nat) (v : World) (user_id : Z) (obj : Entity) (is_write : bool)
    (m : HttpRequest -> list (string * string) -> M World Response)
    (request : HttpRequest) (kwargs : list (string * string)) (w : World) :
  (forall e, _verify_can_access fuel user_id (Some obj) is_write v = Raise e v ->
             m request kwargs w = Raise e v) ->
  refused_by_access fuel v user_id obj is_write (handle m request kwargs w).
Proof.
  intros H. unfold refused_by_access, handle. split.
  - intros Hr. rewrite (H ErrorNotFound); [reflexivity|].
    apply verify_can_access_not_found. exact Hr.
  - intros -> Hr Hw. rewrite (H ErrorAccessDenied); [reflexivity|].
    apply verify_can_access_denied; assumption.
Qed.

(** One step of a handler that returns, by the hypotheses at hand. *)
Ltac passes :=
  eapply bind_Return_eq;
  [ first
      [ eassumption
      | reflexivity
      | eapply get_query_param_Return; [eassumption | first [eassumption | reflexivity]]
      | eapply get_kwarg_Return; [reflexivity | eassumption]
      | apply get_query_param_optional_str
      | apply optional_value_Return; eassumption
      | apply flag_param_Return; eassumption
      | apply put_body_rule; eassumption
      | apply File_objects_get_Return; eassumption
      | apply Directory_objects_get_Return; eassumption
      | apply Share_objects_get_Return; eassumption
      | apply StorageUser_objects_get_Return; eassumption
      | apply lift_db_Val; eassumption
      | apply verify_can_access_write; eassumption ]
  | cbv beta ].

(** The step that raises: the check of access, or the atomic block in
    which it lies. *)
Ltac refuses :=
  apply bind_Raise; first [eassumption | eapply atomic_Raise; [|reflexivity|reflexivity]].

Section AccessFailures.

Variable int : string -> option Z.
Variable jwt_decode : string -> option (list (string * PyValue)).
Variable fuel : nat.

Variables (request : HttpRequest) (w w1 : World).
Variables (authenticated : StorageUser) (claims : list (string * PyValue)).
Variables (us : string) (user_id : Z).

Hypothesis Huser : dict_get "user" (GET request) = Some us /\ int us = Some user_id.
Hypothesis Hauth :
  _verify_authenticated jwt_decode request user_id w = Return (authenticated, claims) w1.

Local Abbreviation refused := (refused_by_access fuel w1 user_id).
Local Abbreviation writable obj := (can_access fuel (database w1) obj user_id true = Val true).

Section OfAFile.

Variables (fs : string) (file_id : Z) (file_obj : File).
Hypothesis Hid : int fs = Some file_id.
Hypothesis Hfile : File_get (database w1) file_id = Some file_obj.

Lemma file_get_refused :
  refused (EFile file_obj) false
          (handle (FileView_handle_get int jwt_decode fuel) request [("file_id", fs)] w).
Proof.
  destruct Huser as [Hu1 Hu2].
  apply refused_of_raise. intros e He. unfold FileView_handle_get.
  do 5 passes. refuses.
Qed.

Lemma file_delete_refused :
  refused (EFile file_obj) true
          (handle (FileView_handle_delete int jwt_decode fuel) request [("file_id", fs)] w).
Proof.
  destruct Huser as [Hu1 Hu2].
  apply refused_of_raise. intros e He. unfold FileView_handle_delete.
  do 5 passes. refuses.
Qed.

Lemma file_delete_refused_at_parent (parent_directory : Directory) :
  writable (EFile file_obj) ->
  Directory_get (database w1) (file_parent_directory file_obj) = Some parent_directory ->
  refused (EDirectory parent_directory) true
          (handle (FileView_handle_delete int jwt_decode fuel) request [("file_id", fs)] w).
Proof.
  intros Hw Hp. destruct Huser as [Hu1 Hu2].
  apply refused_of_raise. intros e He. unfold FileView_handle_delete.
  do 7 passes. refuses.
Qed.

Section FilePut.

Variables (parent_directory_id : option Z) (write_body : bool).
Hypothesis Hparameters : file_put_parameters int request parent_directory_id write_body.

Lemma file_put_refused :
  refused (EFile file_obj) true
          (handle (FileView_handle_put int jwt_decode fuel) request [("file_id", fs)] w).
Proof.
  destruct Huser as [Hu1 Hu2]. destruct Hparameters as (Hp1 & Hp2 & Hp3).
  apply refused_of_raise. intros e He. unfold FileView_handle_put.
  do 9 passes. refuses.
Qed.

Lemma file_put_refused_at_current (current_dir : Directory) :
  writable (EFile file_obj) ->
  is_some (dict_get "name" (GET request)) || is_some parent_directory_id = true ->
  Directory_get (database w1) (file_parent_directory file_obj) = Some current_dir ->
  refused (EDirectory current_dir) true
          (handle (FileView_handle_put int jwt_decode fuel) request [("file_id", fs)] w).
Proof.
  intros Hw Hc Hd. destruct Huser as [Hu1 Hu2]. destruct Hparameters as (Hp1 & Hp2 & Hp3).
  apply refused_of_raise. intros e He. unfold FileView_handle_put.
  do 10 passes. refuses. rewrite Hc. apply bind_Raise. passes. refuses.
Qed.

Lemma file_put_refused_at_target (current_dir target_dir : Directory) (target_id : Z) :
  writable (EFile file_obj) ->
  Directory_get (database w1) (file_parent_directory file_obj) = Some current_dir ->
  writable (EDirectory current_dir) ->
  parent_directory_id = Some target_id ->
  Directory_get (database w1) target_id = Some target_dir ->
  refused (EDirectory target_dir) true
          (handle (FileView_handle_put int jwt_decode fuel) request [("file_id", fs)] w).
Proof.
  intros Hw Hd Hwc Et Ht. destruct Huser as [Hu1 Hu2]. destruct Hparameters as (Hp1 & Hp2 & Hp3).
  apply refused_of_raise. intros e He. unfold FileView_handle_put.
  do 10 passes. refuses. rewrite Et. cbn [is_some]. rewrite orb_true_r.
  apply bind_Raise. do 2 passes. apply bind_Raise. passes. refuses.
Qed.

End FilePut.

End OfAFile.

Section OfADirectory.

Variables (ds : string) (directory_id : Z) (directory : Directory).
Hypothesis Hid : int ds = Some directory_id.
Hypothesis Hdirectory : Directory_get (database w1) directory_id = Some directory.

Lemma directory_get_refused :
  refused (EDirectory directory) false
          (handle (DirectoryView_handle_get int jwt_decode fuel) request [("directory_id", ds)] w).
Proof.
  destruct Huser as [Hu1 Hu2].
  apply refused_of_raise. intros e He. unfold DirectoryView_handle_get.
  do 5 passes. refuses.
Qed.

Lemma directory_delete_refused :
  refused (EDirectory directory) true
          (handle (DirectoryView_handle_delete int jwt_decode fuel) request
                  [("directory_id", ds)] w).
Proof.
  destruct Huser as [Hu1 Hu2].
  apply refused_of_raise. intros e He. unfold DirectoryView_handle_delete.
  do 5 passes. refuses.
Qed.

Lemma directory_delete_refused_at_parent (parent_directory : Directory) :
  writable (EDirectory directory) ->
  Directory_parent (database w1) directory = Val (Some parent_directory) ->
  refused (EDirectory parent_directory) true
          (handle (DirectoryView_handle_delete int jwt_decode fuel) request
                  [("directory_id", ds)] w).
Proof.
  intros Hw Hp. destruct Huser as [Hu1 Hu2].
  apply refused_of_raise. intros e He. unfold DirectoryView_handle_delete.
  do 7 passes. refuses.
Qed.

Section DirectoryPut.

Variable parent_directory_id : option Z.
Hypothesis Hparameter : optional_value int request "parentDirectory" parent_directory_id.

Lemma directory_put_refused :
  refused (EDirectory directory) true
          (handle (DirectoryView_handle_put int jwt_decode fuel) request
                  [("directory_id", ds)] w).
Proof.
  destruct Huser as [Hu1 Hu2].
  apply refused_of_raise. intros e He. unfold DirectoryView_handle_put.
  do 7 passes. refuses.
Qed.

Lemma directory_put_refused_at_current (current_dir : Directory) :
  writable (EDirectory directory) ->
  is_some (dict_get "name" (GET request)) || is_some parent_directory_id = true ->
  Directory_parent (database w1) directory = Val (Some current_dir) ->
  refused (EDirectory current_dir) true
          (handle (DirectoryView_handle_put int jwt_decode fuel) request
                  [("directory_id", ds)] w).
Proof.
  intros Hw Hc Hd. destruct Huser as [Hu1 Hu2].
  apply refused_of_raise. intros e He. unfold DirectoryView_handle_put.
  do 8 passes. refuses. rewrite Hc. apply bind_Raise. passes. refuses.
Qed.

Lemma directory_put_refused_at_target (current_dir : option Directory)
    (target_dir : Directory) (target_id : Z) :
  writable (EDirectory directory) ->
  Directory_parent (database w1) directory = Val current_dir ->
  (forall c, current_dir = Some c -> writable (EDirectory c)) ->
  parent_directory_id = Some target_id ->
  Directory_get (database w1) target_id = Some target_dir ->
  refused (EDirectory target_dir) true
          (handle (DirectoryView_handle_put int jwt_decode fuel) request
                  [("directory_id", ds)] w).
Proof.
  intros Hw Hd Hwc Et Ht. destruct Huser as [Hu1 Hu2].
  apply refused_of_raise. intros e He. unfold DirectoryView_handle_put.
  do 8 passes. refuses. rewrite Et. cbn [is_some]. rewrite orb_true_r.
  apply bind_Raise. passes.
  eapply bind_Return_eq.
  { destruct current_dir as [c|]; [|reflexivity].
    apply verify_can_access_write. apply Hwc. reflexivity. }
  cbv beta. apply bind_Raise. passes. refuses.
Qed.

End DirectoryPut.

End OfADirectory.

Section InADirectory.

Variables (name ps : string) (parent_directory_id : Z) (parent_directory : Directory).
Hypothesis Hname : dict_get "name" (GET request) = Some name.
Hypothesis Hparent : dict_get "parentDirectory" (GET request) = Some ps.
Hypothesis Hid : int ps = Some parent_directory_id.
Hypothesis Hdirectory : Directory_get (database w1) parent_directory_id = Some parent_directory.

Lemma file_post_refused :
  refused (EDirectory parent_directory) true
          (handle (FileView_handle_post int jwt_decode fuel) request [] w).
Proof.
  destruct Huser as [Hu1 Hu2].
  apply refused_of_raise. intros e He. unfold FileView_handle_post.
  do 6 passes. refuses.
Qed.

Lemma directory_post_refused :
  refused (EDirectory parent_directory) true
          (handle (DirectoryView_handle_post int jwt_decode fuel) request [] w).
Proof.
  destruct Huser as [Hu1 Hu2].
  apply refused_of_raise. intros e He. unfold DirectoryView_handle_post.
  do 6 passes. refuses.
Qed.

End InADirectory.

Section OfAShare.

Variables (ss : string) (share_id : Z) (share : Share).
Hypothesis Hid : int ss = Some share_id.
Hypothesis Hshare : Share_get (database w1) share_id = Some share.

Lemma share_get_refused :
  refused (EShare share) false
          (handle (ShareView_handle_get int jwt_decode fuel) request [("share_id", ss)] w).
Proof.
  destruct Huser as [Hu1 Hu2].
  apply refused_of_raise. intros e He. unfold ShareView_handle_get.
  do 5 passes. refuses.
Qed.

Lemma share_delete_refused :
  refused (EShare share) true
          (handle (ShareView_handle_delete int jwt_decode fuel) request [("share_id", ss)] w).
Proof.
  destruct Huser as [Hu1 Hu2].
  apply refused_of_raise. intros e He. unfold ShareView_handle_delete.
  do 5 passes. refuses.
Qed.

End OfAShare.

Section OfANewShare.

Variables (ss ts target_type : string) (subject_id target_id : Z).
Variables (subject : StorageUser) (target : Entity).
Hypothesis Hsubject : dict_get "subject" (GET request) = Some ss.
Hypothesis Hsubject_id : int ss = Some subject_id.
Hypothesis Hsubject_row : StorageUser_get (database w1) subject_id = Some subject.
Hypothesis Htype : dict_get "targetType" (GET request) = Some target_type.
Hypothesis Htarget_param : dict_get "targetID" (GET request) = Some ts.
Hypothesis Htarget_id : int ts = Some target_id.
Hypothesis Htarget :
  (target_type = "directory" /\
   exists d, Directory_get (database w1) target_id = Some d /\ target = EDirectory d)
  \/ (target_type = "file" /\
      exists f, File_get (database w1) target_id = Some f /\ target = EFile f).

Lemma share_post_refused :
  refused target true (handle (ShareView_handle_post int jwt_decode fuel) request [] w).
Proof.
  apply refused_of_raise. intros e He.
  rewrite (share_post_prefix int jwt_decode fuel request w w1 authenticated authenticated
             subject claims us ss ts target_type user_id subject_id target_id target
             Huser Hauth (verify_authenticated_user _ _ _ _ _ _ _ Hauth)
             (conj Hsubject Hsubject_id) Hsubject_row Htype (conj Htarget_param Htarget_id)
             Htarget).
  unfold share_tail. refuses.
Qed.

End OfANewShare.

Section OfAContact.

Variables (cs : string) (contact_id : Z) (contact : StorageUser).
Hypothesis Hid : int cs = Some contact_id.
Hypothesis Hcontact : StorageUser_get (database w1) contact_id = Some contact.

Lemma contact_get_unchecked :
  handle (ContactView_handle_get int jwt_decode) request [("contact_id", cs)] w
  = Some (mkResponse ("ok", 200) (UserContent contact), w1)
  /\ (contact_id <> user_id ->
      can_access fuel (database w1) (EUser contact) user_id false = Val false).
Proof.
  split.
  - destruct Huser as [Hu1 Hu2].
    assert (H : ContactView_handle_get int jwt_decode request [("contact_id", cs)] w
                = Return (mkResponse ("ok", 200) (UserContent contact)) w1).
    { unfold ContactView_handle_get. do 5 passes. reflexivity. }
    unfold handle. rewrite H. reflexivity.
  - intros Hne. cbn [can_access]. unfold StorageUser_can_access.
    rewrite (find_pk Models.user_id _ _ _ Hcontact).
    destruct (Z.eqb_spec user_id contact_id) as [E|E]; [congruence | reflexivity].
Qed.

End OfAContact.

(** C7, as the code has it.  The operations on a file, a directory or a
    share refuse a caller at every entity they check, in the order in
    which they check: the entity itself; for the deletion, the directory
    that holds it; for an update that renames or moves, the directory that
    holds it and then the directory moved to; for a creation, the
    directory created in; for a new share, its target.  Where the caller
    cannot read the entity checked the answer is [not_found], for a
    download and for a mutating operation alike; where the caller can read
    and cannot write it, and the operation is mutating, the answer is
    [permission_denied].  Either answer leaves the world as the
    authentication left it.  Reading a contact is the exception: the
    record of any existing user is the answer, and of another user's
    record the caller has no read access. *)
Theorem access_failures_not_found_or_denied :
  (forall (fs : string) (file_id : Z) (file_obj : File),
      int fs = Some file_id -> File_get (database w1) file_id = Some file_obj ->
      refused (EFile file_obj) false
              (handle (FileView_handle_get int jwt_decode fuel) request [("file_id", fs)] w)
      /\ refused (EFile file_obj) true
                 (handle (FileView_handle_delete int jwt_decode fuel) request [("file_id", fs)] w)
      /\ (forall parent_directory,
             writable (EFile file_obj) ->
             Directory_get (database w1) (file_parent_directory file_obj)
             = Some parent_directory ->
             refused (EDirectory parent_directory) true
                     (handle (FileView_handle_delete int jwt_decode fuel) request
                             [("file_id", fs)] w))
      /\ (forall parent_directory_id write_body,
             file_put_parameters int request parent_directory_id write_body ->
             refused (EFile file_obj) true
                     (handle (FileView_handle_put int jwt_decode fuel) request
                             [("file_id", fs)] w)
             /\ (forall current_dir,
                    writable (EFile file_obj) ->
                    Directory_get (database w1) (file_parent_directory file_obj)
                    = Some current_dir ->
                    (is_some (dict_get "name" (GET request)) || is_some parent_directory_id
                     = true ->
                     refused (EDirectory current_dir) true
                             (handle (FileView_handle_put int jwt_decode fuel) request
                                     [("file_id", fs)] w))
                    /\ (forall target_id target_dir,
                           writable (EDirectory current_dir) ->
                           parent_directory_id = Some target_id ->
                           Directory_get (database w1) target_id = Some target_dir ->
                           refused (EDirectory target_dir) true
                                   (handle (FileView_handle_put int jwt_decode fuel) request
                                           [("file_id", fs)] w)))))
  /\ (forall (ds : string) (directory_id : Z) (directory : Directory),
         int ds = Some directory_id ->
         Directory_get (database w1) directory_id = Some directory ->
         refused (EDirectory directory) false
                 (handle (DirectoryView_handle_get int jwt_decode fuel) request
                         [("directory_id", ds)] w)
         /\ refused (EDirectory directory) true
                    (handle (DirectoryView_handle_delete int jwt_decode fuel) request
                            [("directory_id", ds)] w)
         /\ (forall parent_directory,
                writable (EDirectory directory) ->
                Directory_parent (database w1) directory = Val (Some parent_directory) ->
                refused (EDirectory parent_directory) true
                        (handle (DirectoryView_handle_delete int jwt_decode fuel) request
                                [("directory_id", ds)] w))
         /\ (forall parent_directory_id,
                optional_value int request "parentDirectory" parent_directory_id ->
                refused (EDirectory directory) true
                        (handle (DirectoryView_handle_put int jwt_decode fuel) request
                                [("directory_id", ds)] w)
                /\ (forall current_dir,
                       writable (EDirectory directory) ->
                       Directory_parent (database w1) directory = Val (Some current_dir) ->
                       is_some (dict_get "name" (GET request)) || is_some parent_directory_id
                       = true ->
                       refused (EDirectory current_dir) true
                               (handle (DirectoryView_handle_put int jwt_decode fuel) request
                                       [("directory_id", ds)] w))
                /\ (forall current_dir target_id target_dir,
                       writable (EDirectory directory) ->
                       Directory_parent (database w1) directory = Val current_dir ->
                       (forall c, current_dir = Some c -> writable (EDirectory c)) ->
                       parent_directory_id = Some target_id ->
                       Directory_get (database w1) target_id = Some target_dir ->
                       refused (EDirectory target_dir) true
                               (handle (DirectoryView_handle_put int jwt_decode fuel) request
                                       [("directory_id", ds)] w))))
  /\ (forall (name ps : string) (parent_directory_id : Z) (parent_directory : Directory),
         dict_get "name" (GET request) = Some name ->
         dict_get "parentDirectory" (GET request) = Some ps ->
         int ps = Some parent_directory_id ->
         Directory_get (database w1) parent_directory_id = Some parent_directory ->
         refused (EDirectory parent_directory) true
                 (handle (FileView_handle_post int jwt_decode fuel) request [] w)
         /\ refused (EDirectory parent_directory) true
                    (handle (DirectoryView_handle_post int jwt_decode fuel) request [] w))
  /\ (forall (ss : string) (share_id : Z) (share : Share),
         int ss = Some share_id -> Share_get (database w1) share_id = Some share ->
         refused (EShare share) false
                 (handle (ShareView_handle_get int jwt_decode fuel) request [("share_id", ss)] w)
         /\ refused (EShare share) true
                    (handle (ShareView_handle_delete int jwt_decode fuel) request
                            [("share_id", ss)] w))
  /\ (forall (ss ts target_type : string) (subject_id target_id : Z)
             (subject : StorageUser) (target : Entity),
         dict_get "subject" (GET request) = Some ss -> int ss = Some subject_id ->
         StorageUser_get (database w1) subject_id = Some subject ->
         dict_get "targetType" (GET request) = Some target_type ->
         dict_get "targetID" (GET request) = Some ts -> int ts = Some target_id ->
         (target_type = "directory" /\
          exists d, Directory_get (database w1) target_id = Some d /\ target = EDirectory d)
         \/ (target_type = "file" /\
             exists f, File_get (database w1) target_id = Some f /\ target = EFile f) ->
         refused target true (handle (ShareView_handle_post int jwt_decode fuel) request [] w))
  /\ (forall (cs : string) (contact_id : Z) (contact : StorageUser),
         int cs = Some contact_id ->
         StorageUser_get (database w1) contact_id = Some contact ->
         handle (ContactView_handle_get int jwt_decode) request [("contact_id", cs)] w
         = Some (mkResponse ("ok", 200) (UserContent contact), w1)
         /\ (contact_id <> user_id ->
             can_access fuel (database w1) (EUser contact) user_id false = Val false)).
Proof.
  split; [|split; [|split; [|split; [|split]]]].
  - intros fs file_id file_obj Hid Hfile.
    split; [apply (file_get_refused fs file_id file_obj Hid Hfile)|].
    split; [apply (file_delete_refused fs file_id file_obj Hid Hfile)|].
    split; [apply (file_delete_refused_at_parent fs file_id file_obj Hid Hfile)|].
    intros parent_directory_id write_body Hp.
    split; [apply (file_put_refused fs file_id file_obj Hid Hfile _ _ Hp)|].
    intros current_dir Hw Hd. split.
    + intros Hc.
      apply (file_put_refused_at_current fs file_id file_obj Hid Hfile _ _ Hp _ Hw Hc Hd).
    + intros target_id target_dir Hwc Et Ht.
      apply (file_put_refused_at_target fs file_id file_obj Hid Hfile _ _ Hp
               current_dir target_dir target_id Hw Hd Hwc Et Ht).
  - intros ds directory_id directory Hid Hdir.
    split; [apply (directory_get_refused ds directory_id directory Hid Hdir)|].
    split; [apply (directory_delete_refused ds directory_id directory Hid Hdir)|].
    split; [apply (directory_delete_refused_at_parent ds directory_id directory Hid Hdir)|].
    intros parent_directory_id Hp.
    split; [apply (directory_put_refused ds directory_id directory Hid Hdir _ Hp)|].
    split.
    + intros current_dir Hw Hd Hc.
      apply (directory_put_refused_at_current ds directory_id directory Hid Hdir _ Hp
               _ Hw Hc Hd).
    + intros current_dir target_id target_dir Hw Hd Hwc Et Ht.
      apply (directory_put_refused_at_target ds directory_id directory Hid Hdir _ Hp
               current_dir target_dir target_id Hw Hd Hwc Et Ht).
  - intros name ps parent_directory_id parent_directory Hn Hp Hid Hd.
    split; [apply (file_post_refused name ps _ _ Hn Hp Hid Hd)
           | apply (directory_post_refused name ps _ _ Hn Hp Hid Hd)].
  - intros ss share_id share Hid Hs.
    split; [apply (share_get_refused ss _ _ Hid Hs) | apply (share_delete_refused ss _ _ Hid Hs)].
  - intros ss ts target_type subject_id target_id subject target H1 H2 H3 H4 H5 H6 H7.
    apply (share_post_refused ss ts target_type subject_id target_id subject target
             H1 H2 H3 H4 H5 H6 H7).
  - intros cs contact_id contact Hid Hc.
    apply (contact_get_unchecked cs contact_id contact Hid Hc).
Qed.

End AccessFailures.

Lemma access_failures_witness :
  handle (FileView_handle_delete Example.int Example.jwt_decode 3)
         (Example.request "DELETE" "3" "carol" [] []) [("file_id", "20")]
         (Example.world Example.db0 1500)
  = Some (mkResponse ("not_found", 404) NoContent, Example.world Example.db0 1500)
  /\ handle (FileView_handle_delete Example.int Example.jwt_decode 3)
            (Example.request "DELETE" "2" "bob" [] []) [("file_id", "21")]
            (Example.world Example.db0 1500)
     = Some (mkResponse ("permission_denied", 403) NoContent, Example.world Example.db0 1500)
  /\ handle (DirectoryView_handle_put Example.int Example.jwt_decode 3)
            (Example.request "PUT" "3" "carol" [("name", "papers")] []) [("directory_id", "2")]
            (Example.world Example.db0 1500)
     = Some (mkResponse ("not_found", 404) NoContent, Example.world Example.db0 1500)
  /\ handle (ShareView_handle_delete Example.int Example.jwt_decode 3)
            (Example.request "DELETE" "3" "carol" [] []) [("share_id", "30")]
            (Example.world Example.db0 1500)
     = Some (mkResponse ("not_found", 404) NoContent, Example.world Example.db0 1500).
Proof.
  split; [|split; [|split]].
  - apply (proj1 (proj1 (proj2 (proj1 (access_failures_not_found_or_denied
             Example.int Example.jwt_decode 3
             (Example.request "DELETE" "3" "carol" [] [])
             (Example.world Example.db0 1500) (Example.world Example.db0 1500)
             (mkStorageUser 3 "carol") (Example.claims_of 3 "carol") "3" 3
             (conj eq_refl eq_refl) eq_refl) "20" 20 Example.a_txt eq_refl eq_refl))) eq_refl).
  - apply (proj2 (proj1 (proj2 (proj1 (access_failures_not_found_or_denied
             Example.int Example.jwt_decode 3
             (Example.request "DELETE" "2" "bob" [] [])
             (Example.world Example.db0 1500) (Example.world Example.db0 1500)
             (mkStorageUser 2 "bob") (Example.claims_of 2 "bob") "2" 2
             (conj eq_refl eq_refl) eq_refl) "21" 21 Example.b_txt eq_refl eq_refl)))
             eq_refl eq_refl eq_refl).
  - apply (proj1 (proj1 (proj2 (proj2 (proj2 (proj1 (proj2 (access_failures_not_found_or_denied
             Example.int Example.jwt_decode 3
             (Example.request "PUT" "3" "carol" [("name", "papers")] [])
             (Example.world Example.db0 1500) (Example.world Example.db0 1500)
             (mkStorageUser 3 "carol") (Example.claims_of 3 "carol") "3" 3
             (conj eq_refl eq_refl) eq_refl)) "2" 2 Example.docs eq_refl eq_refl))) None
             eq_refl)) eq_refl).
  - apply (proj1 (proj2 (proj1 (proj2 (proj2 (proj2 (access_failures_not_found_or_denied
             Example.int Example.jwt_decode 3
             (Example.request "DELETE" "3" "carol" [] [])
             (Example.world Example.db0 1500) (Example.world Example.db0 1500)
             (mkStorageUser 3 "carol") (Example.claims_of 3 "carol") "3" 3
             (conj eq_refl eq_refl) eq_refl)))) "30" 30 Example.share_docs eq_refl eq_refl))
             eq_refl).
Defined.

(** C7, against the claim.  The contact operations look a user up and
    answer with the record found, and no check of access precedes: user 3,
    who cannot read the record of user 1, reads it as a contact and adds it
    as a contact, and both requests answer [ok] with the record. *)
Lemma contact_lookup_skips_access_check :
  StorageUser_get Example.db0 1 = Some (mkStorageUser 1 "alice")
  /\ can_access 3 Example.db0 (EUser (mkStorageUser 1 "alice")) 3 false = Val false
  /\ View_handle (ContactView Example.int Example.jwt_decode)
                 (Example.request "GET" "3" "carol" [] []) [("contact_id", "1")]
                 (Example.world Example.db0 1500)
     = Some (mkResponse ("ok", 200) (UserContent (mkStorageUser 1 "alice")),
             Example.world Example.db0 1500)
  /\ option_map fst
       (View_handle (ContactView Example.int Example.jwt_decode)
                    (Example.request "POST" "3" "carol" [] []) [("contact_id", "1")]
                    (Example.world Example.db0 1500))
     = Some (mkResponse ("ok", 200) (UserContent (mkStorageUser 1 "alice"))).
Proof. repeat split. Qed.
